(** * Open-PDF-Translate: the layout reconstruction engine

    A shallow embedding of the page-layout engine (Snapshot records,
    GapDetector, RegionDetector, ParagraphMerger and the LayoutDetector
    orchestrator) and of the escaping and chunking of the text processor,
    together with the properties stated about them.

    Conventions of the embedding.
    - A JavaScript [number] is an exact rational ([Q]); the comparisons the
      code makes become boolean tests on [Q].  [Infinity] sentinels become
      [option] values, [undefined] arguments become [None].
    - An [HTMLSpanElement] is known to the engine only through the
      [SpanInfo] the snapshot map holds for it, so a span is represented by
      that record; its identity is the field [span].  A
      [Map<HTMLSpanElement, SpanInfo>] is the list of its values in
      insertion order.
    - [Array.prototype.sort] is stable; it is modelled by a stable insertion
      sort driven by the sign of the comparator.
    - A [TypeError] raised by [spanInfos.get(p[0])!.style] on an empty
      paragraph is the result [None] of the stage that raises it. *)

From Stdlib Require Import QArith Qabs Qround Lqa List Bool ZArith NArith Lia Permutation String Sorted.
Import ListNotations.
Open Scope Q_scope.

(** ** Numbers *)

Definition Qltb (a b : Q) : bool := negb (Qle_bool b a).
Definition Qgtb (a b : Q) : bool := Qltb b a.
Definition Qgeb (a b : Q) : bool := Qle_bool b a.

(** [Math.max], [Math.min] and [Math.abs] on two finite numbers. *)
Definition maxQ (a b : Q) : Q := if Qle_bool a b then b else a.
Definition minQ (a b : Q) : Q := if Qle_bool a b then a else b.
Definition absQ (a : Q) : Q := Qabs a.

(** [x || d] on numbers: the right operand when the left one is zero. *)
Definition orElse (x d : Q) : Q := if Qeq_bool x 0 then d else x.

(** [Math.floor] and [Math.round] (round half up). *)
Definition floorQ (x : Q) : Z := Qfloor x.
Definition roundQ (x : Q) : Z := Qfloor (x + 0.5).

Definition lenQ {A : Type} (l : list A) : Q := inject_Z (Z.of_nat (List.length l)).

(** [Math.min(...l)] and [Math.max(...l)] of a non-empty array; the empty
    case is never reached by the callers and is given the value 0. *)
Definition minList (l : list Q) : Q :=
  match l with [] => 0 | x :: r => fold_left minQ r x end.
Definition maxList (l : list Q) : Q :=
  match l with [] => 0 | x :: r => fold_left maxQ r x end.

Definition sumQ (l : list Q) : Q := fold_left Qplus l 0.

(** ** Stable sorting by a comparator

    [le a b] is "the comparator returns a value [<= 0] on [(a, b)]". *)

Section Sorting.
Context {A : Type} (le : A -> A -> bool).

Fixpoint insertBy (x : A) (l : list A) : list A :=
  match l with
  | [] => [x]
  | y :: r => if le x y then x :: y :: r else y :: insertBy x r
  end.

Fixpoint sortBy (l : list A) : list A :=
  match l with
  | [] => []
  | x :: r => insertBy x (sortBy r)
  end.

End Sorting.

(** [a.sort((x, y) => x - y)] on numbers. *)
Definition sortNum (l : list Q) : list Q := sortBy Qle_bool l.

(** [median] of GapDetector.ts, also the inline medians of the callers. *)
Definition median (a : list Q) : Q :=
  match a with
  | [] => 0
  | _ =>
    let s := sortNum a in
    let m := Nat.div (List.length s) 2 in
    if Nat.odd (List.length s) then nth m s 0
    else (nth (m - 1) s 0 + nth m s 0) / 2
  end.

(** ** Data model *)

Module Rect.
Record t : Type := mk
  { left : Q; top : Q; right : Q; bottom : Q; width : Q; height : Q }.
Definition zero : t := mk 0 0 0 0 0 0.
End Rect.

Module Style.
(** [NormalizedStyle] of Snapshot.ts, restricted to the fields the engine
    reads.  [isMathElement] and [direction] are read from the style object by
    ParagraphMerger.ts although Snapshot.ts never writes them: a style built
    by [buildSnapshot] has [isMathElement = false] and a [direction] other
    than ["rtl"]. *)
Record t : Type := mk
  { fontFamily : string;
    fontSize : Q;
    fontWeight : Q;
    fontStyle : string;
    colorRGB : Q * Q * Q;
    isMathElement : bool;
    direction : string }.
End Style.

(** A text is the list of its UTF-16 code units. *)
Definition text_t : Type := list N.

Module SpanInfo.
Record t : Type := mk
  { span : nat;
    rect : Rect.t;
    style : Style.t;
    isMathElement : bool;
    text : text_t }.
End SpanInfo.

Module Strip.
Record t : Type := mk
  { left : Q; right : Q; top : Q; bottom : Q; confidence : Q }.
End Strip.

Module Band.
(** [HorizontalBand]; the bands the orchestrator builds carry only [y],
    [height] and [confidence]. *)
Record t : Type := mk { y : Q; height : Q; confidence : Q }.
End Band.

Module Segment.
Record t : Type := mk
  { top : Q; bottom : Q; left : Q; right : Q; columns : nat }.
End Segment.

(** A paragraph is the array of its spans. *)
Abbreviation paragraph := (list SpanInfo.t) (only parsing).

(** ** Configuration (layout-modal.ts) *)

Record LayoutSettings : Type := mkSettings
  { lineHeightMultiplier : Q;
    minStripConfidence : Q;
    minStripWidthPx : Q;
    debugValidation : bool;
    maxIterMerges : nat;
    minBandConfidence : Q;
    bandTopBottomThresholdMultiplier : Q;
    inferredBandConfidence : Q;
    bandMergeGapPx : Q;
    bandMergeGapLineHeightMultiplier : Q;
    maxGapFractionOfPageHeight : Q;
    minGapsForTrim : Q;
    trimPercent : Q;
    lineHeightFromAvgMultiplier : Q;
    floorMultiplier : Q;
    minOverlapFracForBand : Q;
    minRegionWidth : Q;
    columnThresholdLineHeightMultiplier : Q;
    columnThresholdFallback : Q;
    pmForceLinearMerge : bool;
    pmMinStripConfidenceSplit : Q;
    pmMinStripWidthPx : Q;
    pmMinStripOverlapFrac : Q;
    pmInitialMergeBaselineTolNonMath : Q;
    pmInitialMergeBaselineTolMath : Q;
    pmInitialMergeKernTolNonMath : Q;
    pmInitialMergeKernTolMath : Q;
    pmHyphenContinuationTol : Q;
    pmInitialMergeAlignTolNonMath : Q;
    pmInitialMergeAlignTolMath : Q;
    pmInitialMergeVerticalGapMultiplier : Q;
    pmInitialMergeVerticalGapMaxMultiplier : Q;
    pmStackedMergeAlignTol : Q;
    pmStackedMergeOverlapFrac : Q;
    pmStackedMergeVerticalGapMultiplier : Q;
    pmStackedMergeVerticalGapMaxMultiplier : Q;
    pmGeneralMergeAlignTol : Q;
    pmGeneralMergeOverlapFrac : Q;
    pmGeneralMergeVerticalGapMultiplier : Q;
    pmGeneralMergeVerticalGapMaxMultiplier : Q;
    pmNestedMergeOverlapFrac : Q;
    pmStitchBaselineTolNonMath : Q;
    pmStitchBaselineTolMath : Q;
    pmStitchKernTolNonMath : Q;
    pmStitchKernTolMath : Q;
    pmInlineSpanBaselineTol : Q;
    pmInlineSpanKernTol : Q;
    pmInlineSpanMaxWeightDiff : Q;
    pmInlineSpanAllowMixedStyle : bool;
    pmSameColumnCoverageRatio : Q;
    pmMathMergeBaselineTol : Q;
    pmMathMergeHorizTol : Q;
    pmMathMergeCenterTol : Q;
    pmSplitLineHeightTol : Q;
    pmSplitBoundaryDedupTol : Q;
    pmSplitInterWordGapTol : Q;
    pmSplitColumnGapTol : Q }.

Definition defaultLayoutSettings : LayoutSettings :=
  {| lineHeightMultiplier := 1.6;
     minStripConfidence := 0.7;
     minStripWidthPx := 4;
     debugValidation := false;
     maxIterMerges := 10;
     minBandConfidence := 0.6;
     bandTopBottomThresholdMultiplier := 0.75;
     inferredBandConfidence := 0.8;
     bandMergeGapPx := 2;
     bandMergeGapLineHeightMultiplier := 0.2;
     maxGapFractionOfPageHeight := 0.5;
     minGapsForTrim := 5;
     trimPercent := 0.15;
     lineHeightFromAvgMultiplier := 1.25;
     floorMultiplier := 0.8;
     minOverlapFracForBand := 0.4;
     minRegionWidth := 1;
     columnThresholdLineHeightMultiplier := 2;
     columnThresholdFallback := 20;
     pmForceLinearMerge := false;
     pmMinStripConfidenceSplit := 0.7;
     pmMinStripWidthPx := 6;
     pmMinStripOverlapFrac := 0.6;
     pmInitialMergeBaselineTolNonMath := 0.45;
     pmInitialMergeBaselineTolMath := 0.75;
     pmInitialMergeKernTolNonMath := 0.55;
     pmInitialMergeKernTolMath := 0.9;
     pmHyphenContinuationTol := 1.8;
     pmInitialMergeAlignTolNonMath := 2.0;
     pmInitialMergeAlignTolMath := 2.0;
     pmInitialMergeVerticalGapMultiplier := 1.3;
     pmInitialMergeVerticalGapMaxMultiplier := 2.2;
     pmStackedMergeAlignTol := 2.0;
     pmStackedMergeOverlapFrac := 0.25;
     pmStackedMergeVerticalGapMultiplier := 1.35;
     pmStackedMergeVerticalGapMaxMultiplier := 2.0;
     pmGeneralMergeAlignTol := 2.0;
     pmGeneralMergeOverlapFrac := 0.25;
     pmGeneralMergeVerticalGapMultiplier := 1.35;
     pmGeneralMergeVerticalGapMaxMultiplier := 2.0;
     pmNestedMergeOverlapFrac := 0.7;
     pmStitchBaselineTolNonMath := 0.45;
     pmStitchBaselineTolMath := 0.75;
     pmStitchKernTolNonMath := 0.55;
     pmStitchKernTolMath := 0.9;
     pmInlineSpanBaselineTol := 0.3;
     pmInlineSpanKernTol := 0.6;
     pmInlineSpanMaxWeightDiff := 300;
     pmInlineSpanAllowMixedStyle := true;
     pmSameColumnCoverageRatio := 0.65;
     pmMathMergeBaselineTol := 2.0;
     pmMathMergeHorizTol := 1.5;
     pmMathMergeCenterTol := 2.5;
     pmSplitLineHeightTol := 0.7;
     pmSplitBoundaryDedupTol := 0.3;
     pmSplitInterWordGapTol := 1.2;
     pmSplitColumnGapTol := 2.5 |}.

(** Number of iterations of [for (y = a; y < b; y += step)] for a positive
    [step]: the least [n] with [a + n * step >= b]. *)
Definition sweepFuel (a b step : Q) : nat := Z.to_nat (Qceiling ((b - a) / step)).

(** ** RegionDetector.ts *)

Module RegionDetector.

Record DensityPoint : Type := mkPoint
  { y : Q; cols : nat; left : Q; right : Q }.

Record DetectionOptions : Type := mkOptions
  { columnGapMultiplier : Q;
    shiftMultiplier : Q;
    minSegmentHeightMultiplier : Q }.

Definition DEFAULT_OPTIONS : DetectionOptions :=
  {| columnGapMultiplier := 2.0;
     shiftMultiplier := 4.0;
     minSegmentHeightMultiplier := 2.0 |}.

(** [columns.reduce(...)]: the existing column closest to [currentLeft],
    the earlier one on ties. *)
Definition closestColumn (columns : list Q) (currentLeft : Q) : Q :=
  match columns with
  | [] => 0
  | c0 :: cs =>
    fold_left
      (fun prev curr =>
         if Qltb (absQ (curr - currentLeft)) (absQ (prev - currentLeft))
         then curr else prev)
      cs c0
  end.

Definition _countColumnsHistogram (spans : list Rect.t) (gapThreshold : Q) : nat :=
  match spans with
  | [] => 0%nat
  | [_] => 1%nat
  | _ =>
    match sortNum (map Rect.left spans) with
    | [] => 0%nat
    | c0 :: rest =>
      List.length
        (fold_left
           (fun columns currentLeft =>
              if Qgtb (absQ (currentLeft - closestColumn columns currentLeft)) gapThreshold
              then columns ++ [currentLeft] else columns)
           rest [c0])
    end
  end.

(** The [while] loop that moves spans whose top has been reached from the
    sorted input into the active window. *)
Fixpoint enterWindow (y : Q) (pending active : list Rect.t)
  : list Rect.t * list Rect.t :=
  match pending with
  | [] => ([], active)
  | s :: rest =>
    if Qle_bool (Rect.top s) y
    then enterWindow y rest
           (if Qgeb (Rect.bottom s) y then active ++ [s] else active)
    else (pending, active)
  end.

Fixpoint sampleLoop (fuel : nat) (y step pageBottom avgLineHeight : Q)
  (options : DetectionOptions) (pending active : list Rect.t)
  : list DensityPoint :=
  match fuel with
  | O => []
  | S fuel' =>
    if Qltb y pageBottom then
      let kept := filter (fun s => negb (Qltb (Rect.bottom s) y)) active in
      let '(pending', active') := enterWindow y pending kept in
      let here :=
        match active' with
        | [] => []
        | _ =>
          [ {| y := y;
               cols := _countColumnsHistogram active'
                         (columnGapMultiplier options * avgLineHeight);
               left := minList (map Rect.left active');
               right := maxList (map Rect.right active') |} ]
        end in
      here ++ sampleLoop fuel' (y + step) step pageBottom avgLineHeight
                options pending' active'
    else []
  end.

Definition _sampleDensityProfile (sortedSpans : list Rect.t) (pageRect : Rect.t)
  (avgLineHeight : Q) (options : DetectionOptions) : list DensityPoint :=
  let step := maxQ 5 (avgLineHeight * 0.5) in
  sampleLoop (sweepFuel (Rect.top pageRect) (Rect.bottom pageRect) step)
    (Rect.top pageRect) step (Rect.bottom pageRect) avgLineHeight options
    sortedSpans [].

(** The scan of [_findChangePoints]: [lastPoint] is the point of the last
    emitted boundary. *)
Fixpoint changeScan (avgLineHeight : Q) (options : DetectionOptions)
  (lastPoint : DensityPoint) (points : list DensityPoint) : list Segment.t :=
  match points with
  | [] => []
  | currPoint :: rest =>
    let colChange := negb (Nat.eqb (cols currPoint) (cols lastPoint)) in
    let leftShift :=
      Qgtb (absQ (left currPoint - left lastPoint))
           (shiftMultiplier options * avgLineHeight) in
    let rightShift :=
      Qgtb (absQ (right currPoint - right lastPoint))
           (shiftMultiplier options * avgLineHeight) in
    if colChange || leftShift || rightShift then
      {| Segment.top := y lastPoint;
         Segment.bottom := y currPoint;
         Segment.left := left currPoint;
         Segment.right := right currPoint;
         Segment.columns := cols currPoint |}
      :: changeScan avgLineHeight options currPoint rest
    else changeScan avgLineHeight options lastPoint rest
  end.

Definition setBottom (s : Segment.t) (b : Q) : Segment.t :=
  {| Segment.top := Segment.top s; Segment.bottom := b;
     Segment.left := Segment.left s; Segment.right := Segment.right s;
     Segment.columns := Segment.columns s |}.

(** [segments[segments.length - 1].bottom = b]. *)
Fixpoint setLastBottom (segments : list Segment.t) (b : Q) : list Segment.t :=
  match segments with
  | [] => []
  | [s] => [setBottom s b]
  | s :: rest => s :: setLastBottom rest b
  end.

Definition _findChangePoints (densityPoints : list DensityPoint)
  (pageRect : Rect.t) (avgLineHeight : Q) (options : DetectionOptions)
  : list Segment.t :=
  match densityPoints with
  | [] => []
  | lastPoint :: rest =>
    setLastBottom
      ({| Segment.top := Rect.top pageRect;
          Segment.bottom := y lastPoint;
          Segment.left := left lastPoint;
          Segment.right := right lastPoint;
          Segment.columns := cols lastPoint |}
       :: changeScan avgLineHeight options lastPoint rest)
      (Rect.bottom pageRect)
  end.

(** [currentSegment] widened to take in [nextSegment]. *)
Definition absorbSegment (currentSegment nextSegment : Segment.t) : Segment.t :=
  {| Segment.top := Segment.top currentSegment;
     Segment.bottom := Segment.bottom nextSegment;
     Segment.left := minQ (Segment.left currentSegment) (Segment.left nextSegment);
     Segment.right := maxQ (Segment.right currentSegment) (Segment.right nextSegment);
     Segment.columns := Segment.columns currentSegment |}.

Fixpoint consolidateLoop (avgLineHeight : Q) (options : DetectionOptions)
  (currentSegment : Segment.t) (segments : list Segment.t) : list Segment.t :=
  match segments with
  | [] => [currentSegment]
  | nextSegment :: rest =>
    let height := Segment.bottom currentSegment - Segment.top currentSegment in
    if Qltb height (minSegmentHeightMultiplier options * avgLineHeight) then
      consolidateLoop avgLineHeight options
        (absorbSegment currentSegment nextSegment) rest
    else if Nat.eqb (Segment.columns nextSegment) (Segment.columns currentSegment) then
      consolidateLoop avgLineHeight options
        (absorbSegment currentSegment nextSegment) rest
    else currentSegment :: consolidateLoop avgLineHeight options nextSegment rest
  end.

Definition _consolidateSegments (segments : list Segment.t) (avgLineHeight : Q)
  (options : DetectionOptions) : list Segment.t :=
  match segments with
  | [] => []
  | s0 :: rest =>
    filter
      (fun s => Qgtb (Segment.bottom s - Segment.top s)
                     (minSegmentHeightMultiplier options * avgLineHeight))
      (consolidateLoop avgLineHeight options s0 rest)
  end.

Definition fullPage (pageRect : Rect.t) : Segment.t :=
  {| Segment.top := Rect.top pageRect; Segment.bottom := Rect.bottom pageRect;
     Segment.left := Rect.left pageRect; Segment.right := Rect.right pageRect;
     Segment.columns := 1 |}.

(** [pageRect] is [None] for a missing ([null] or [undefined]) page rect. *)
Definition segmentVerticalLayouts (spanRects : list Rect.t)
  (pageRect : option Rect.t) (avgLineHeight : Q) : list Segment.t :=
  match pageRect with
  | None =>
    [ {| Segment.top := 0; Segment.bottom := 0; Segment.left := 0;
         Segment.right := 0; Segment.columns := 1 |} ]
  | Some pr =>
    match spanRects with
    | [] =>
      [ {| Segment.top := orElse (Rect.top pr) 0;
           Segment.bottom := orElse (Rect.bottom pr) 0;
           Segment.left := orElse (Rect.left pr) 0;
           Segment.right := orElse (Rect.right pr) 0;
           Segment.columns := 1 |} ]
    | _ =>
      let sortedSpans :=
        sortBy (fun a b => Qle_bool (Rect.top a - Rect.top b) 0) spanRects in
      match _sampleDensityProfile sortedSpans pr avgLineHeight DEFAULT_OPTIONS with
      | [] => [fullPage pr]
      | densityPoints =>
        let changePoints :=
          _findChangePoints densityPoints pr avgLineHeight DEFAULT_OPTIONS in
        let consolidated :=
          _consolidateSegments changePoints avgLineHeight DEFAULT_OPTIONS in
        let finalSegments :=
          map (fun segment =>
                 let buffer :=
                   minQ (avgLineHeight * 0.5)
                        ((Segment.bottom segment - Segment.top segment) * 0.1) in
                 {| Segment.top := maxQ (Rect.top pr) (Segment.top segment - buffer);
                    Segment.bottom :=
                      minQ (Rect.bottom pr) (Segment.bottom segment + buffer);
                    Segment.left := Segment.left segment;
                    Segment.right := Segment.right segment;
                    Segment.columns := Segment.columns segment |})
              consolidated in
        match finalSegments with
        | [] => [fullPage pr]
        | _ => finalSegments
        end
      end
    end
  end.

End RegionDetector.

(** ** GapDetector.ts *)

Module GapDetector.

Definition MIN_STRIP_CONFIDENCE : Q := 0.6.
Definition MIN_GAP_WIDTH_PX : Q := 2.
Definition BAND_STEP_FACTOR : Q := 0.75.
Definition MIN_STRIP_HEIGHT_FACTOR : Q := 1.5.
Definition CENTER_X_TOL_FACTOR : Q := 0.5.
Definition WIDTH_STABILITY_WEIGHT : Q := 0.25.
Definition CENTER_STABILITY_WEIGHT : Q := 0.25.
Definition COVERAGE_WEIGHT : Q := 0.5.

Record Interval : Type := mkInterval { left : Q; right : Q }.

Record YBand : Type := mkYBand { y1 : Q; y2 : Q; gaps : list Interval }.

(** The arrays of a cluster, each in the order of its [push]es. *)
Record Cluster : Type := mkCluster
  { centers : list Q;
    widths : list Q;
    lefts : list Q;
    rights : list Q;
    y1s : list Q;
    y2s : list Q }.

(** What [detectLayout] reads of a [GapAnalysis]; [verticalBoundaries] and
    [columns] are derived from [verticalStrips] for older callers. *)
Record GapAnalysis : Type := mkAnalysis
  { layoutSegments : list (Q * Q * Q * Q);
    verticalStrips : list Strip.t;
    horizontalBands : list Band.t }.

Definition clamp01 (x : Q) : Q := maxQ 0 (minQ 1 x).

Definition approxUniqueBandCount (ys : list Q) : nat :=
  List.length (nodup Z.eq_dec (map roundQ ys)).

Definition estimateAverageLineHeight (spanRects : list Rect.t) : Q :=
  match spanRects with
  | [] => 15
  | _ =>
    match filter (fun h => Qgtb h 3) (map Rect.height spanRects) with
    | [] => 15
    | heights => median heights
    end
  end.

Definition segmentVerticalLayouts (spanRects : list Rect.t) (pageRect : Rect.t)
  (avgLineHeight : Q) : list (Q * Q * Q * Q) :=
  [ (Rect.top pageRect, Rect.bottom pageRect, Rect.left pageRect, Rect.right pageRect) ].

(** Occupied intervals merged left to right; the accumulator holds the merged
    intervals most recent first. *)
Fixpoint mergeOccupied (acc : list Interval) (occ : list Interval) : list Interval :=
  match occ with
  | [] => rev acc
  | o :: rest =>
    match acc with
    | [] => mergeOccupied [o] rest
    | lastOcc :: before =>
      if Qgtb (left o) (right lastOcc)
      then mergeOccupied (o :: acc) rest
      else mergeOccupied
             ({| left := left lastOcc; right := maxQ (right lastOcc) (right o) |}
              :: before) rest
    end
  end.

Fixpoint invertOccupied (pageRight cursor : Q) (mergedOcc : list Interval)
  : list Interval :=
  match mergedOcc with
  | [] =>
    if Qgeb (pageRight - cursor) MIN_GAP_WIDTH_PX
    then [ {| left := cursor; right := pageRight |} ] else []
  | m :: rest =>
    (if Qgeb (left m - cursor) MIN_GAP_WIDTH_PX
     then [ {| left := cursor; right := left m |} ] else [])
    ++ invertOccupied pageRight (maxQ cursor (right m)) rest
  end.

Definition bandAt (spanRects : list Rect.t) (pageRect : Rect.t) (y bandStep : Q)
  : YBand :=
  let y1 := y in
  let y2 := minQ (Rect.bottom pageRect) (y + bandStep) in
  let active :=
    filter (fun r => Qgtb (Rect.bottom r) y1 && Qltb (Rect.top r) y2) spanRects in
  match active with
  | [] =>
    {| y1 := y1; y2 := y2;
       gaps := [ {| left := Rect.left pageRect; right := Rect.right pageRect |} ] |}
  | _ =>
    let occ :=
      sortBy (fun a b => Qle_bool (left a - left b) 0)
        (map (fun r => {| left := Rect.left r; right := Rect.right r |}) active) in
    {| y1 := y1; y2 := y2;
       gaps := invertOccupied (Rect.right pageRect) (Rect.left pageRect)
                 (mergeOccupied [] occ) |}
  end.

Fixpoint sweepBands (fuel : nat) (spanRects : list Rect.t) (pageRect : Rect.t)
  (y bandStep : Q) : list YBand :=
  match fuel with
  | O => []
  | S fuel' =>
    if Qltb y (Rect.bottom pageRect)
    then bandAt spanRects pageRect y bandStep
         :: sweepBands fuel' spanRects pageRect (y + bandStep) bandStep
    else []
  end.

Definition buildBands (spanRects : list Rect.t) (pageRect : Rect.t) (avgLine : Q)
  : list YBand :=
  let bandStep := maxQ 6 (avgLine * BAND_STEP_FACTOR) in
  sweepBands (sweepFuel (Rect.top pageRect) (Rect.bottom pageRect) bandStep)
    spanRects pageRect (Rect.top pageRect) bandStep.

Definition pushGap (c : Cluster) (g : Interval) (yTop yBot : Q) : Cluster :=
  {| centers := centers c ++ [(left g + right g) / 2];
     widths := widths c ++ [right g - left g];
     lefts := lefts c ++ [left g];
     rights := rights c ++ [right g];
     y1s := y1s c ++ [yTop];
     y2s := y2s c ++ [yBot] |}.

Definition newCluster (g : Interval) (yTop yBot : Q) : Cluster :=
  {| centers := [(left g + right g) / 2];
     widths := [right g - left g];
     lefts := [left g];
     rights := [right g];
     y1s := [yTop];
     y2s := [yBot] |}.

(** The first cluster whose last center is within [xTol] takes the gap;
    otherwise a new cluster is appended. *)
Fixpoint placeGap (xTol : Q) (g : Interval) (yTop yBot : Q) (clusters : list Cluster)
  : list Cluster :=
  match clusters with
  | [] => [newCluster g yTop yBot]
  | c :: rest =>
    if Qle_bool (absQ ((left g + right g) / 2 - last (centers c) 0)) xTol
    then pushGap c g yTop yBot :: rest
    else c :: placeGap xTol g yTop yBot rest
  end.

Definition clusterBand (xTol : Q) (clusters : list Cluster) (band : YBand)
  : list Cluster :=
  fold_left
    (fun cs g =>
       if Qltb (right g - left g) MIN_GAP_WIDTH_PX then cs
       else placeGap xTol g (y1 band) (y2 band) cs)
    (gaps band) clusters.

Definition clusterGaps (avgLine : Q) (bands : list YBand) : list Cluster :=
  fold_left (clusterBand (maxQ 4 (avgLine * CENTER_X_TOL_FACTOR))) bands [].

Definition sameCenter (cur s : Strip.t) : bool :=
  Qle_bool
    (absQ ((Strip.left cur + Strip.right cur) / 2 - (Strip.left s + Strip.right s) / 2))
    3.

Definition overlapsVertically (cur s : Strip.t) : bool :=
  Qgtb (minQ (Strip.bottom cur) (Strip.bottom s) - maxQ (Strip.top cur) (Strip.top s)) 0.

Fixpoint mergeScan (cur : Strip.t) (sorted : list Strip.t) : list Strip.t :=
  match sorted with
  | [] => [cur]
  | s :: rest =>
    if sameCenter cur s && overlapsVertically cur s
    then mergeScan
           {| Strip.left := minQ (Strip.left cur) (Strip.left s);
              Strip.right := maxQ (Strip.right cur) (Strip.right s);
              Strip.top := minQ (Strip.top cur) (Strip.top s);
              Strip.bottom := maxQ (Strip.bottom cur) (Strip.bottom s);
              Strip.confidence := maxQ (Strip.confidence cur) (Strip.confidence s) |}
           rest
    else cur :: mergeScan s rest
  end.

Definition mergeSimilarStrips (strips : list Strip.t) : list Strip.t :=
  match sortBy
          (fun a b =>
             Qle_bool ((Strip.left a + Strip.right a) / 2
                       - (Strip.left b + Strip.right b) / 2) 0)
          strips with
  | [] => []
  | s0 :: rest => mergeScan s0 rest
  end.

Section WithSqrt.

(** [Math.sqrt]. *)
Variable Msqrt : Q -> Q.

Definition stddev (a : list Q) : Q :=
  match a with
  | [] => 0
  | [_] => 0
  | _ =>
    let mean := sumQ a / lenQ a in
    let variance :=
      fold_left (fun s v => s + (v - mean) * (v - mean)) a 0 / (lenQ a - 1) in
    Msqrt variance
  end.

Definition coverageOf (totalBands : nat) (c : Cluster) : Q :=
  inject_Z (Z.of_nat (approxUniqueBandCount (y1s c))) / inject_Z (Z.of_nat totalBands).

Definition normWidthStd (c : Cluster) : Q :=
  stddev (widths c) / maxQ 1 (median (widths c)).

Definition normCenterStd (c : Cluster) : Q :=
  stddev (centers c) / maxQ 1 (median (centers c)).

Definition clusterConfidence (totalBands : nat) (c : Cluster) : Q :=
  clamp01
    (COVERAGE_WEIGHT * coverageOf totalBands c
     + WIDTH_STABILITY_WEIGHT * (1 - clamp01 (normWidthStd c))
     + CENTER_STABILITY_WEIGHT * (1 - clamp01 (normCenterStd c))).

(** One iteration of the loop over clusters: the strip pushed, if any. *)
Definition stripOfCluster (avgLine : Q) (totalBands : nat) (c : Cluster)
  : option Strip.t :=
  match centers c with
  | [] => None
  | _ =>
    let stripTop := minList (y1s c) in
    let stripBottom := maxList (y2s c) in
    if Qltb (stripBottom - stripTop) (avgLine * MIN_STRIP_HEIGHT_FACTOR) then None
    else
      let confidence := clusterConfidence totalBands c in
      if Qgeb confidence MIN_STRIP_CONFIDENCE
      then Some {| Strip.left := median (lefts c);
                   Strip.right := median (rights c);
                   Strip.top := stripTop;
                   Strip.bottom := stripBottom;
                   Strip.confidence := confidence |}
      else None
  end.

Fixpoint stripsOfClusters (avgLine : Q) (totalBands : nat) (clusters : list Cluster)
  : list Strip.t :=
  match clusters with
  | [] => []
  | c :: rest =>
    match stripOfCluster avgLine totalBands c with
    | Some s => s :: stripsOfClusters avgLine totalBands rest
    | None => stripsOfClusters avgLine totalBands rest
    end
  end.

Definition detectStripsAndBands (spanRects : list Rect.t) (pageRect : Rect.t)
  (avgLine : Q) : list Strip.t * list Band.t :=
  let bands := buildBands spanRects pageRect avgLine in
  let clusters := clusterGaps avgLine bands in
  let strips := stripsOfClusters avgLine (List.length bands) clusters in
  (mergeSimilarStrips strips, []).

Definition detectGapsFromRects (spanRects : list Rect.t) (pageRect : Rect.t)
  : GapAnalysis :=
  match spanRects with
  | [] => {| layoutSegments := []; verticalStrips := []; horizontalBands := [] |}
  | _ =>
    let avgLineHeight := estimateAverageLineHeight spanRects in
    let '(strips, bands) := detectStripsAndBands spanRects pageRect avgLineHeight in
    {| layoutSegments := segmentVerticalLayouts spanRects pageRect avgLineHeight;
       verticalStrips := strips;
       horizontalBands := bands |}
  end.

End WithSqrt.

(** *** Boundaries and columns

    Steps 4) and 5) of [detectGapsFromRects]: the classic boundaries derived
    from the strips, and the columns between them. *)

Definition MAX_COLUMNS : nat := 6.

Module Boundary.
(** [GapBoundary]. *)
Record t : Type := mk
  { x : Q; confidence : Q; width : Q; height : Q; segmentIndex : nat }.
End Boundary.

Definition verticalBoundariesOf (verticalStrips : list Strip.t) (pageRect : Rect.t)
  : list Boundary.t :=
  sortBy (fun a b => Qle_bool (Boundary.x a - Boundary.x b) 0)
    (filter (fun b => Qgeb (Boundary.confidence b) MIN_STRIP_CONFIDENCE)
       (map (fun s =>
               {| Boundary.x := (Strip.left s + Strip.right s) / 2;
                  Boundary.confidence := Strip.confidence s;
                  Boundary.width := maxQ 1 (Strip.right s - Strip.left s);
                  Boundary.height := Rect.height pageRect;
                  Boundary.segmentIndex := 0 |})
          verticalStrips)).

(** The loop over the sorted boundaries, followed by the push of the last
    column; [prevX] is the right edge of the last column pushed. *)
Fixpoint columnScan (pageRect : Rect.t) (prevX : Q) (sorted : list Boundary.t)
  : list Rect.t :=
  match sorted with
  | [] =>
    if Qltb prevX (Rect.right pageRect)
    then [ Rect.mk prevX (Rect.top pageRect) (Rect.right pageRect)
             (Rect.bottom pageRect) (Rect.right pageRect - prevX)
             (Rect.height pageRect) ]
    else []
  | b :: rest =>
    let x := maxQ (Rect.left pageRect) (minQ (Rect.right pageRect) (Boundary.x b)) in
    if Qgtb x prevX
    then Rect.mk prevX (Rect.top pageRect) x (Rect.bottom pageRect) (x - prevX)
           (Rect.height pageRect)
         :: columnScan pageRect x rest
    else columnScan pageRect prevX rest
  end.

(** [cols.slice(0, MAX_COLUMNS)] is the list of the first [MAX_COLUMNS]
    columns. *)
Definition createColumnsFromBoundaries (boundaries : list Boundary.t)
  (pageRect : Rect.t) : list Rect.t :=
  match boundaries with
  | [] =>
    [ Rect.mk (Rect.left pageRect) (Rect.top pageRect) (Rect.right pageRect)
        (Rect.bottom pageRect) (Rect.width pageRect) (Rect.height pageRect) ]
  | _ =>
    firstn MAX_COLUMNS
      (columnScan pageRect (Rect.left pageRect)
         (sortBy (fun a b => Qle_bool (Boundary.x a - Boundary.x b) 0) boundaries))
  end.

Section WithSqrtColumns.

Variable Msqrt : Q -> Q.

(** The fields [verticalBoundaries] and [columns] of the result of
    [detectGapsFromRects]. *)
Definition verticalBoundariesAndColumns (spanRects : list Rect.t) (pageRect : Rect.t)
  : list Boundary.t * list Rect.t :=
  match spanRects with
  | [] => ([], [])
  | _ =>
    let avgLineHeight := estimateAverageLineHeight spanRects in
    let '(verticalStrips, _) :=
      detectStripsAndBands Msqrt spanRects pageRect avgLineHeight in
    let verticalBoundaries := verticalBoundariesOf verticalStrips pageRect in
    (verticalBoundaries, createColumnsFromBoundaries verticalBoundaries pageRect)
  end.

End WithSqrtColumns.

End GapDetector.

(** ** Text helpers *)

(** ECMAScript white space and line terminators, as removed by [trim]. *)
Definition isWhiteSpace (c : N) : bool :=
  (N.leb 9 c && N.leb c 13) || N.eqb c 32 || N.eqb c 160 || N.eqb c 5760
  || (N.leb 8192 c && N.leb c 8202) || N.eqb c 8232 || N.eqb c 8233
  || N.eqb c 8239 || N.eqb c 8287 || N.eqb c 12288 || N.eqb c 65279.

Fixpoint trimStart (s : text_t) : text_t :=
  match s with
  | [] => []
  | c :: r => if isWhiteSpace c then trimStart r else s
  end.

Definition trim (s : text_t) : text_t := rev (trimStart (rev (trimStart s))).

(** The test of [/[\u00AD-]$/]: the last code unit is a soft hyphen or a
    hyphen-minus. *)
Definition endsWithHyphenRe (s : text_t) : bool :=
  match rev s with
  | [] => false
  | c :: _ => N.eqb c 173 || N.eqb c 45
  end.

(** The character class of [opRe]: equals, plus, hyphen-minus, U+2212,
    U+00D7, U+00F7, U+221A, U+222B, U+2211, U+2260, U+2264, U+2265, U+2248,
    U+00B1 and U+221E. *)
Definition isOperatorChar (c : N) : bool :=
  existsb (N.eqb c)
    [61; 43; 45; 8722; 215; 247; 8730; 8747; 8721; 8800; 8804; 8805; 8776; 177; 8734]%N.

Definition opReTest (s : text_t) : bool := existsb isOperatorChar s.

(** ** Shared geometry *)

(** The comparator [(a, b) => a.top - b.top || a.left - b.left]. *)
Definition cmpTopLeft (a b : Rect.t) : Q :=
  if Qeq_bool (Rect.top a - Rect.top b) 0
  then Rect.left a - Rect.left b
  else Rect.top a - Rect.top b.

Definition leTopLeft (a b : Rect.t) : bool := Qle_bool (cmpTopLeft a b) 0.

Definition spanLe (a b : SpanInfo.t) : bool :=
  leTopLeft (SpanInfo.rect a) (SpanInfo.rect b).

Definition sortSpans (l : paragraph) : paragraph := sortBy spanLe l.

Fixpoint findIndex {A : Type} (f : A -> bool) (l : list A) : option nat :=
  match l with
  | [] => None
  | x :: r =>
    if f x then Some O
    else match findIndex f r with Some i => Some (S i) | None => None end
  end.

(** The outcome of a call: a returned value, a thrown [TypeError], or a
    loop that used up the iterations it was given. *)
Inductive outcome (A : Type) : Type :=
| Returned (a : A)
| Threw
| OutOfFuel.
Arguments Returned {A} a.
Arguments Threw {A}.
Arguments OutOfFuel {A}.

Definition bind {A B : Type} (m : outcome A) (k : A -> outcome B) : outcome B :=
  match m with
  | Returned a => k a
  | Threw => Threw
  | OutOfFuel => OutOfFuel
  end.

Notation "x <- m ;; k" := (bind m (fun x => k))
  (at level 61, m at next level, right associativity).

(** ** ParagraphMerger.ts *)

Module ParagraphMerger.

(** Paragraph summaries of the final stacked pass and of the nested pass. *)
Record PInfo : Type := mkPInfo
  { spans : paragraph; bbox : Rect.t; style : Style.t; isMath : bool }.

Record TInfo : Type := mkTInfo
  { tspans : paragraph; tbbox : Rect.t; tstyle : Style.t; tisMath : bool;
    ttext : text_t }.

(** [fontWeight] of a [NormalizedStyle] is already a number. *)
Definition getNumericFontWeight (weight : Q) : Q := weight.

(** The square of [Math.hypot] of the three colour differences; the code's
    comparison of the distance with 10 is made on the squares. *)
Definition colorDistSq (a b : Style.t) : Q :=
  let '(ar, ag, ab) := Style.colorRGB a in
  let '(br, bg, bb) := Style.colorRGB b in
  (ar - br) * (ar - br) + (ag - bg) * (ag - bg) + (ab - bb) * (ab - bb).

Definition bboxStep (acc : Q * Q * Q * Q) (r : Rect.t) : Q * Q * Q * Q :=
  let '(l, t, rt, b) := acc in
  (if Qltb (Rect.left r) l then Rect.left r else l,
   if Qltb (Rect.top r) t then Rect.top r else t,
   if Qgtb (Rect.right r) rt then Rect.right r else rt,
   if Qgtb (Rect.bottom r) b then Rect.bottom r else b).

(** The accumulators start at [Infinity] and [-Infinity], so the first span
    sets all four. *)
Definition getParaBbox (spans : paragraph) : Rect.t :=
  match spans with
  | [] => Rect.zero
  | s :: rest =>
    let r0 := SpanInfo.rect s in
    let '(l, t, rt, b) :=
      fold_left bboxStep (map SpanInfo.rect rest)
        (Rect.left r0, Rect.top r0, Rect.right r0, Rect.bottom r0) in
    Rect.mk l t rt b (rt - l) (b - t)
  end.

Definition rectContains (a b : Rect.t) (tol : Q) : bool :=
  Qle_bool (Rect.left a - tol) (Rect.left b)
  && Qgeb (Rect.right a + tol) (Rect.right b)
  && Qle_bool (Rect.top a - tol) (Rect.top b)
  && Qgeb (Rect.bottom a + tol) (Rect.bottom b).

Definition rectIntersection (a b : Rect.t) : option Rect.t :=
  let l := maxQ (Rect.left a) (Rect.left b) in
  let t := maxQ (Rect.top a) (Rect.top b) in
  let r := minQ (Rect.right a) (Rect.right b) in
  let bt := minQ (Rect.bottom a) (Rect.bottom b) in
  if Qle_bool r l || Qle_bool bt t then None
  else Some (Rect.mk l t r bt (r - l) (bt - t)).

Definition area (r : Rect.t) : Q := maxQ 0 (Rect.width r) * maxQ 0 (Rect.height r).

Definition anyMath (p : paragraph) : bool := existsb SpanInfo.isMathElement p.

Definition joinText (p : paragraph) : text_t := flat_map SpanInfo.text p.

Definition firstStyle (p : paragraph) : outcome Style.t :=
  match p with
  | [] => Threw
  | s :: _ => Returned (SpanInfo.style s)
  end.

Fixpoint mapM {A B : Type} (f : A -> outcome B) (l : list A) : outcome (list B) :=
  match l with
  | [] => Returned []
  | x :: r => y <- f x ;; ys <- mapM f r ;; Returned (y :: ys)
  end.

Fixpoint pairUp (boundaries : list Q) : list (Q * Q) :=
  match boundaries with
  | b0 :: ((b1 :: _) as rest) => (b0, b1) :: pairUp rest
  | _ => []
  end.

Fixpoint dedupScan (tol lastKept : Q) (bs : list Q) : list Q :=
  match bs with
  | [] => []
  | b :: r =>
    if Qgtb (b - lastKept) tol then b :: dedupScan tol b r
    else dedupScan tol lastKept r
  end.

Section WithSettings.

Variable cfg : LayoutSettings.

Definition stylesMatchStyle (a b : Style.t) (mathAware : bool) : bool :=
  if pmForceLinearMerge cfg then true
  else if mathAware && (Style.isMathElement a || Style.isMathElement b) then
    if negb (String.eqb (Style.fontFamily a) (Style.fontFamily b)) then false
    else if negb (String.eqb (Style.fontStyle a) (Style.fontStyle b)) then false
    else if negb (Qeq_bool (Style.fontWeight a) (Style.fontWeight b)) then false
    else if Qgtb (absQ (Style.fontSize a - Style.fontSize b)) 1 then false
    else Qltb (colorDistSq a b) 100
  else
    if negb (String.eqb (Style.fontFamily a) (Style.fontFamily b)) then false
    else if Qgtb (absQ (Style.fontSize a - Style.fontSize b)) 1 then false
    else if Qgeb (colorDistSq a b) 100 then false
    else if Qgtb
              (absQ (getNumericFontWeight (Style.fontWeight a)
                     - getNumericFontWeight (Style.fontWeight b)))
              (pmInlineSpanMaxWeightDiff cfg) then false
    else if negb (pmInlineSpanAllowMixedStyle cfg)
            && negb (String.eqb (Style.fontStyle a) (Style.fontStyle b)) then false
    else true.

Definition stylesMatch (a b : SpanInfo.t) (mathAware : bool) : bool :=
  stylesMatchStyle (SpanInfo.style a) (SpanInfo.style b) mathAware.

(** [viewportWidth] is [None] when the caller leaves the argument out: the
    comparison with [undefined * 0.003] is then false. *)
Definition filterStrips (strips : list Strip.t) (viewportWidth : option Q)
  : list Strip.t :=
  filter
    (fun s =>
       let width := Strip.right s - Strip.left s in
       let height := Strip.bottom s - Strip.top s in
       if match viewportWidth with
          | Some vw => Qltb width (vw * 0.003)
          | None => false
          end then false
       else if Qltb height (maxQ 12 (height * 0.7)) then false
       else Qgeb (Strip.confidence s) (pmMinStripConfidenceSplit cfg)
            && Qgeb width (pmMinStripWidthPx cfg)
            && Qgtb height 0)
    strips.

Definition horizontalOverlapOf (a b : Rect.t) : Q :=
  maxQ 0 (minQ (Rect.right a) (Rect.right b) - maxQ (Rect.left a) (Rect.left b)).

(** One iteration of the loop over strips in [sameColumnByStrips]. *)
Definition stripCoverageStep (yTop yBot gapLeft gapRight minStripCoverage : Q)
  (totalStripCoverage : Q) (s : Strip.t) : Q :=
  if Qltb (Strip.confidence s) (pmMinStripConfidenceSplit cfg) then totalStripCoverage
  else if Qltb (Strip.right s - Strip.left s) (pmMinStripWidthPx cfg)
  then totalStripCoverage
  else
    let stripHeight := Strip.bottom s - Strip.top s in
    let yOverlap := minQ yBot (Strip.bottom s) - maxQ yTop (Strip.top s) in
    let verticalAlignment := yOverlap / stripHeight in
    if Qltb verticalAlignment (pmMinStripOverlapFrac cfg) then totalStripCoverage
    else
      let stripInGap :=
        maxQ 0 (minQ (Strip.right s) gapRight - maxQ (Strip.left s) gapLeft) in
      if Qgeb stripInGap minStripCoverage
      then totalStripCoverage + stripInGap
      else totalStripCoverage.

(** The callers pass strips kept by [filterStrips], whose height is at least
    12, so [stripHeight] is never zero. *)
Definition sameColumnByStrips (a b : Rect.t) (strips : list Strip.t) : bool :=
  if pmForceLinearMerge cfg then true
  else
    match strips with
    | [] =>
      let minWidth := minQ (Rect.width a) (Rect.width b) * 0.3 in
      let maxReasonableColumnWidth := maxQ (Rect.width a) (Rect.width b) * 3 in
      let horizontalDistance :=
        absQ ((Rect.left a + Rect.right a) / 2 - (Rect.left b + Rect.right b) / 2) in
      Qgtb (horizontalOverlapOf a b) minWidth
      && Qltb horizontalDistance maxReasonableColumnWidth
    | _ =>
      let yTop := minQ (Rect.top a) (Rect.top b) in
      let yBot := maxQ (Rect.bottom a) (Rect.bottom b) in
      if Qle_bool (yBot - yTop) 0 then true
      else
        let '(leftPara, rightPara) :=
          if Qltb (Rect.left a) (Rect.left b) then (a, b) else (b, a) in
        let minWidthOverlap := minQ (Rect.width a) (Rect.width b) * 0.3 in
        if Qgtb (horizontalOverlapOf a b) minWidthOverlap then true
        else
          let gapLeft := Rect.right leftPara in
          let gapRight := Rect.left rightPara in
          let gapWidth := gapRight - gapLeft in
          if Qle_bool gapWidth 0 then true
          else
            let minStripCoverage := maxQ 3 (gapWidth * 0.1) in
            let totalStripCoverage :=
              fold_left (stripCoverageStep yTop yBot gapLeft gapRight minStripCoverage)
                strips 0 in
            Qltb (totalStripCoverage / gapWidth) (pmSameColumnCoverageRatio cfg)
    end.

Definition hasHorizontalBandBetween (a b : Rect.t) (bands : list Band.t) : bool :=
  if pmForceLinearMerge cfg then false
  else
    let topEdge := minQ (Rect.bottom a) (Rect.bottom b) in
    let bottomEdge := maxQ (Rect.top a) (Rect.top b) in
    existsb
      (fun band =>
         if Qltb (Band.confidence band) 0.6 then false
         else Qgtb (Band.y band) topEdge
              && Qltb (Band.y band + Band.height band) bottomEdge)
      bands.

(** *** 1) Initial grouping *)

Definition eitherMath (ci pi : SpanInfo.t) : bool :=
  SpanInfo.isMathElement ci || SpanInfo.isMathElement pi.

Definition minFontSize (ci pi : SpanInfo.t) : Q :=
  minQ (Style.fontSize (SpanInfo.style ci)) (Style.fontSize (SpanInfo.style pi)).

Definition maxFontSize (ci pi : SpanInfo.t) : Q :=
  maxQ (Style.fontSize (SpanInfo.style ci)) (Style.fontSize (SpanInfo.style pi)).

Definition sameBaseline (ci pi : SpanInfo.t) : bool :=
  let baseTol :=
    minFontSize ci pi
    * (if eitherMath ci pi then pmInitialMergeBaselineTolMath cfg
       else pmInitialMergeBaselineTolNonMath cfg) in
  Qltb (absQ (Rect.bottom (SpanInfo.rect ci) - Rect.bottom (SpanInfo.rect pi))) baseTol.

Definition smallInlineKerning (ci pi : SpanInfo.t) : bool :=
  let isRTL :=
    String.eqb (Style.direction (SpanInfo.style ci)) "rtl"
    || String.eqb (Style.direction (SpanInfo.style pi)) "rtl" in
  let dx := Rect.left (SpanInfo.rect ci) - Rect.right (SpanInfo.rect pi) in
  let kernTol :=
    minFontSize ci pi
    * (if eitherMath ci pi then pmInitialMergeKernTolMath cfg
       else pmInitialMergeKernTolNonMath cfg) in
  sameBaseline ci pi
  && (if isRTL then Qle_bool dx 0 && Qgtb dx (- kernTol)
      else Qgeb dx 0 && Qltb dx kernTol).

Definition endsWithHyphen (pi : SpanInfo.t) : bool :=
  endsWithHyphenRe (trim (SpanInfo.text pi)).

Definition hyphenContinuation (ci pi : SpanInfo.t) : bool :=
  endsWithHyphen pi
  && Qgtb (Rect.top (SpanInfo.rect ci)) (Rect.top (SpanInfo.rect pi))
  && Qltb (absQ (Rect.left (SpanInfo.rect ci) - Rect.left (SpanInfo.rect pi)))
          (Style.fontSize (SpanInfo.style ci) * pmHyphenContinuationTol cfg).

Definition initialAligned (ci pi : SpanInfo.t) : bool :=
  let leftAlignTol :=
    minFontSize ci pi
    * (if eitherMath ci pi then pmInitialMergeAlignTolMath cfg
       else pmInitialMergeAlignTolNonMath cfg) in
  Qltb (absQ (Rect.left (SpanInfo.rect ci) - Rect.left (SpanInfo.rect pi))) leftAlignTol
  || Qltb (absQ (Rect.right (SpanInfo.rect ci) - Rect.right (SpanInfo.rect pi)))
          leftAlignTol.

Definition initialVerticalTolerance (ci pi : SpanInfo.t) : Q :=
  let lineHeightGuess := maxFontSize ci pi * lineHeightMultiplier cfg in
  minQ (lineHeightGuess * pmInitialMergeVerticalGapMultiplier cfg)
       (maxFontSize ci pi * pmInitialMergeVerticalGapMaxMultiplier cfg).

(** The test that decides whether [cur] is pushed onto the current
    paragraph, whose last span is [prev]. *)
Definition extendsParagraph (prev cur : SpanInfo.t) : bool :=
  let sameStyle := stylesMatch cur prev true in
  let verticalGap := Rect.top (SpanInfo.rect cur) - Rect.bottom (SpanInfo.rect prev) in
  sameStyle
  && ((Qle_bool verticalGap (initialVerticalTolerance cur prev)
       && initialAligned cur prev)
      || smallInlineKerning cur prev
      || hyphenContinuation cur prev).

(** The loop over [ordered]; [current] is the paragraph being built. *)
Fixpoint groupLoop (current : paragraph) (ordered : list SpanInfo.t)
  : list paragraph :=
  match ordered with
  | [] => match current with [] => [] | _ => [current] end
  | cur :: rest =>
    match current with
    | [] => groupLoop [cur] rest
    | _ =>
      if extendsParagraph (last current cur) cur
      then groupLoop (current ++ [cur]) rest
      else current :: groupLoop [cur] rest
    end
  end.

Definition mergeIntoParagraphsFromInfos (spanInfos : list SpanInfo.t)
  : list paragraph :=
  groupLoop [] (sortSpans spanInfos).

(** *** 2) Splitting against vertical strips *)

Fixpoint gapCenters (sortedLine : list Rect.t) : list Q :=
  match sortedLine with
  | prev :: ((curr :: _) as rest) =>
    let gap := Rect.left curr - Rect.right prev in
    let fontSize := minQ (Rect.height prev) (Rect.height curr) * 0.8 in
    let maxInterWordGap := fontSize * pmSplitInterWordGapTol cfg in
    let minColumnGap := fontSize * pmSplitColumnGapTol cfg in
    (if Qgtb gap minColumnGap && Qgtb gap maxInterWordGap
     then [(Rect.right prev + Rect.left curr) / 2] else [])
    ++ gapCenters rest
  | _ => []
  end.

Definition processLineForColumnBoundaries (lineSpans : list SpanInfo.t)
  (columnBoundaries : list Q) : list Q :=
  columnBoundaries
  ++ gapCenters
       (sortBy (fun a b => Qle_bool (Rect.left a - Rect.left b) 0)
          (map SpanInfo.rect lineSpans)).

Definition flushLine (currentLineSpans : list SpanInfo.t)
  (columnBoundaries : list Q) : list Q :=
  if Nat.ltb 1 (List.length currentLineSpans)
  then processLineForColumnBoundaries currentLineSpans columnBoundaries
  else columnBoundaries.

(** [currentLineTop] is [None] while it still holds [-Infinity]. *)
Fixpoint lineScan (lineHeight : Q) (currentLineTop : option Q)
  (currentLineSpans : list SpanInfo.t) (columnBoundaries : list Q)
  (sorted : list SpanInfo.t) : list Q :=
  match sorted with
  | [] => flushLine currentLineSpans columnBoundaries
  | span :: rest =>
    let rect := SpanInfo.rect span in
    let startsLine :=
      match currentLineTop with
      | None => true
      | Some lineTop =>
        Qgtb (absQ (Rect.top rect - lineTop)) (lineHeight * pmSplitLineHeightTol cfg)
      end in
    if startsLine
    then lineScan lineHeight (Some (Rect.top rect)) [span]
           (flushLine currentLineSpans columnBoundaries) rest
    else lineScan lineHeight currentLineTop (currentLineSpans ++ [span])
           columnBoundaries rest
  end.

Definition inRegion (cx : Q) (r : Q * Q) : bool :=
  Qgeb cx (fst r) && Qltb cx (snd r).

Definition regionIndexOf (regions : list (Q * Q)) (cx : Q) : nat :=
  match findIndex (inRegion cx) regions with
  | Some i => i
  | None =>
    match regions with
    | [] => O
    | r0 :: _ => if Qltb cx (fst r0) then O else (List.length regions - 1)%nat
    end
  end.

Definition spanCenterX (s : SpanInfo.t) : Q :=
  (Rect.left (SpanInfo.rect s) + Rect.right (SpanInfo.rect s)) / 2.

(** [buckets[i]]: the spans of [sorted] pushed into region [i], in order. *)
Definition bucketOf {A : Type} (index : A -> nat) (l : list A) (i : nat) : list A :=
  filter (fun x => Nat.eqb (index x) i) l.

Definition nonEmpty {A : Type} (l : list A) : bool :=
  match l with [] => false | _ => true end.

Definition splitParagraphByStrips (para : paragraph) (strips : list Strip.t)
  (lineHeight : Q) : list paragraph :=
  match para, strips with
  | [], _ => [para]
  | _, [] => [para]
  | _, _ =>
    let paraBbox := getParaBbox para in
    let sorted := sortSpans para in
    match sortNum (lineScan lineHeight None [] [] sorted) with
    | [] => [para]
    | b0 :: bs =>
      let uniqueBoundaries :=
        b0 :: dedupScan (lineHeight * pmSplitBoundaryDedupTol cfg) b0 bs in
      let boundaries :=
        Rect.left paraBbox :: uniqueBoundaries ++ [Rect.right paraBbox] in
      let regions := pairUp boundaries in
      let buckets :=
        map (bucketOf (fun s => regionIndexOf regions (spanCenterX s)) sorted)
          (seq 0 (List.length regions)) in
      let groups := map sortSpans (filter nonEmpty buckets) in
      if Nat.ltb 1 (List.length groups) then groups else [para]
    end
  end.

(** [lineHeight] defaults to 0; [viewportWidth] may be left out. *)
Definition validateParagraphsAgainstStripsFromInfos (paragraphs : list paragraph)
  (verticalStrips : list Strip.t) (lineHeight : Q) (viewportWidth : option Q)
  : list paragraph :=
  if pmForceLinearMerge cfg then paragraphs
  else
    match verticalStrips with
    | [] => paragraphs
    | _ =>
      match filterStrips verticalStrips viewportWidth with
      | [] => paragraphs
      | filteredStrips =>
        flat_map (fun para => splitParagraphByStrips para filteredStrips lineHeight)
          paragraphs
      end
    end.

(** *** 3) Greedy merge of stacked paragraphs *)

Definition overlapStrongOf (frac : Q) (a b : Rect.t) : bool :=
  let horizontalOverlap :=
    Qltb (Rect.left a) (Rect.right b) && Qgtb (Rect.right a) (Rect.left b) in
  let overlapWidth := horizontalOverlapOf a b in
  let minParaWidth := maxQ 1 (minQ (Rect.width a) (Rect.width b)) in
  horizontalOverlap && Qgtb overlapWidth (frac * minParaWidth).

(** The body of the inner loop of [mergeParagraphsFromInfos]: [true] when
    [next] is pushed onto [current]. *)
Definition generalMerges (lineHeight : Q) (filteredStrips : list Strip.t)
  (horizontalBands : list Band.t) (currStyle : Style.t) (currBbox : Rect.t)
  (nextStyle : Style.t) (next : paragraph) : bool :=
  if negb (stylesMatchStyle currStyle nextStyle true) then false
  else
    let nextBbox := getParaBbox next in
    if negb (sameColumnByStrips currBbox nextBbox filteredStrips) then false
    else if hasHorizontalBandBetween currBbox nextBbox horizontalBands then false
    else
      let verticalGap := Rect.top nextBbox - Rect.bottom currBbox in
      let overlapStrong := overlapStrongOf (pmGeneralMergeOverlapFrac cfg) currBbox nextBbox in
      let leftAlignTol := Style.fontSize currStyle * pmGeneralMergeAlignTol cfg in
      let leftAligned :=
        Qltb (absQ (Rect.left currBbox - Rect.left nextBbox)) leftAlignTol in
      let rightAligned :=
        Qltb (absQ (Rect.right currBbox - Rect.right nextBbox)) leftAlignTol in
      let aligned := leftAligned || rightAligned in
      let mergeThreshold :=
        minQ (lineHeight * pmGeneralMergeVerticalGapMultiplier cfg)
             (maxQ (Style.fontSize currStyle) (Style.fontSize nextStyle)
              * pmGeneralMergeVerticalGapMaxMultiplier cfg) in
      let permissiveAlignment := pmForceLinearMerge cfg || (aligned || overlapStrong) in
      Qle_bool verticalGap mergeThreshold && permissiveAlignment.

(** The inner loop for one [i]: the paragraphs after [i] that are still
    unused are offered to [current] in order; the result is the final
    [current] and the paragraphs left unused. *)
Fixpoint generalScan (lineHeight : Q) (filteredStrips : list Strip.t)
  (horizontalBands : list Band.t) (currStyle : Style.t) (current : paragraph)
  (currBbox : Rect.t) (later : list (Style.t * paragraph))
  : paragraph * list (Style.t * paragraph) :=
  match later with
  | [] => (current, [])
  | (nextStyle, next) :: rest =>
    if generalMerges lineHeight filteredStrips horizontalBands currStyle currBbox
         nextStyle next
    then generalScan lineHeight filteredStrips horizontalBands currStyle
           (current ++ next) (getParaBbox (current ++ next)) rest
    else
      let '(final, unused) :=
        generalScan lineHeight filteredStrips horizontalBands currStyle current
          currBbox rest in
      (final, (nextStyle, next) :: unused)
  end.

(** The outer loop over the unused paragraphs; [fuel] bounds their number. *)
Fixpoint generalLoop (fuel : nat) (lineHeight : Q) (filteredStrips : list Strip.t)
  (horizontalBands : list Band.t) (unused : list (Style.t * paragraph))
  : list paragraph :=
  match fuel with
  | O => []
  | S fuel' =>
    match unused with
    | [] => []
    | (currStyle, p) :: later =>
      let '(current, unused') :=
        generalScan lineHeight filteredStrips horizontalBands currStyle p
          (getParaBbox p) later in
      current :: generalLoop fuel' lineHeight filteredStrips horizontalBands unused'
    end
  end.

(** The style of the first span of every paragraph is read before the
    function returns, so the call throws exactly when a paragraph is empty. *)
Definition mergeParagraphsFromInfos (paragraphs : list paragraph) (lineHeight : Q)
  (verticalStrips : list Strip.t) (horizontalBands : list Band.t)
  (viewportWidth : option Q) : outcome (list paragraph) :=
  let filteredStrips := filterStrips verticalStrips viewportWidth in
  styled <- mapM (fun p => s <- firstStyle p ;; Returned (s, p)) paragraphs ;;
  Returned
    (generalLoop (List.length styled) lineHeight filteredStrips horizontalBands styled).

(** *** 3.5) Final stacked pass *)

Definition infoLe (a b : PInfo) : bool := leTopLeft (bbox a) (bbox b).

Definition stackedInfoOf (p : paragraph) : outcome PInfo :=
  s <- firstStyle p ;;
  Returned {| spans := p; bbox := getParaBbox p; style := s; isMath := anyMath p |}.

(** The body of the inner loop: [true] when [cand] is merged into [base]. *)
Definition stackedMerges (lineHeight : Q) (filteredStrips : list Strip.t)
  (horizontalBands : list Band.t) (base cand : PInfo) : bool :=
  if negb (stylesMatchStyle (style base) (style cand) true) then false
  else if negb (sameColumnByStrips (bbox base) (bbox cand) filteredStrips) then false
  else if hasHorizontalBandBetween (bbox base) (bbox cand) horizontalBands then false
  else
    let verticalGap := Rect.top (bbox cand) - Rect.bottom (bbox base) in
    if Qltb verticalGap 0 then false
    else
      let overlapStrong :=
        overlapStrongOf (pmStackedMergeOverlapFrac cfg) (bbox base) (bbox cand) in
      let leftAlignTol :=
        maxQ 1 (minQ (Style.fontSize (style base)) (Style.fontSize (style cand))
                * pmStackedMergeAlignTol cfg) in
      let leftAligned :=
        Qltb (absQ (Rect.left (bbox base) - Rect.left (bbox cand))) leftAlignTol in
      let rightAligned :=
        Qltb (absQ (Rect.right (bbox base) - Rect.right (bbox cand))) leftAlignTol in
      let aligned := leftAligned || rightAligned in
      let maxFont := maxQ (Style.fontSize (style base)) (Style.fontSize (style cand)) in
      let mergeThreshold :=
        minQ (lineHeight * pmStackedMergeVerticalGapMultiplier cfg)
             (maxFont * pmStackedMergeVerticalGapMaxMultiplier cfg) in
      let permissiveAlignment := pmForceLinearMerge cfg || (aligned || overlapStrong) in
      permissiveAlignment && Qle_bool verticalGap mergeThreshold.

Definition stackedCombine (base cand : PInfo) : PInfo :=
  let combinedSpans := sortSpans (spans base ++ spans cand) in
  {| spans := combinedSpans;
     bbox := getParaBbox combinedSpans;
     style := style base;
     isMath := anyMath combinedSpans |}.

(** The inner loop for one [i]: the final [base], the infos left unused and
    whether a merge happened. *)
Fixpoint stackedScan (lineHeight : Q) (filteredStrips : list Strip.t)
  (horizontalBands : list Band.t) (base : PInfo) (later : list PInfo)
  : PInfo * list PInfo * bool :=
  match later with
  | [] => (base, [], false)
  | cand :: rest =>
    if stackedMerges lineHeight filteredStrips horizontalBands base cand
    then
      let '(final, unused, _) :=
        stackedScan lineHeight filteredStrips horizontalBands
          (stackedCombine base cand) rest in
      (final, unused, true)
    else
      let '(final, unused, changed) :=
        stackedScan lineHeight filteredStrips horizontalBands base rest in
      (final, cand :: unused, changed)
  end.

(** One execution of the body of the [while] loop: [out] and [changed]. *)
Fixpoint stackedPass (fuel : nat) (lineHeight : Q) (filteredStrips : list Strip.t)
  (horizontalBands : list Band.t) (unused : list PInfo) : list PInfo * bool :=
  match fuel with
  | O => ([], false)
  | S fuel' =>
    match unused with
    | [] => ([], false)
    | base :: later =>
      let '(final, unused', changedHere) :=
        stackedScan lineHeight filteredStrips horizontalBands base later in
      let '(out, changedLater) :=
        stackedPass fuel' lineHeight filteredStrips horizontalBands unused' in
      (final :: out, changedHere || changedLater)
    end
  end.

(** [while (changed)], run for at most [fuel] iterations. *)
Fixpoint stackedLoop (fuel : nat) (lineHeight : Q) (filteredStrips : list Strip.t)
  (horizontalBands : list Band.t) (infos : list PInfo) : outcome (list paragraph) :=
  match fuel with
  | O => OutOfFuel
  | S fuel' =>
    let '(out, changed) :=
      stackedPass (List.length infos) lineHeight filteredStrips horizontalBands infos in
    if changed
    then stackedLoop fuel' lineHeight filteredStrips horizontalBands (sortBy infoLe out)
    else Returned (map spans out)
  end.

Definition mergeStackedColumnParagraphsFromInfos (fuel : nat)
  (paragraphs : list paragraph) (lineHeight : Q) (verticalStrips : list Strip.t)
  (horizontalBands : list Band.t) (viewportWidth : option Q)
  : outcome (list paragraph) :=
  match paragraphs with
  | [] => Returned paragraphs
  | _ =>
    let filteredStrips := filterStrips verticalStrips viewportWidth in
    infos <- mapM stackedInfoOf paragraphs ;;
    stackedLoop fuel lineHeight filteredStrips horizontalBands (sortBy infoLe infos)
  end.

(** *** 4) One pass of nested / overlap merging *)

Definition nestedInfoOf (p : paragraph) : outcome TInfo :=
  s <- firstStyle p ;;
  Returned {| tspans := p; tbbox := getParaBbox p; tstyle := s;
              tisMath := anyMath p; ttext := joinText p |}.

Definition isMathMergeCandidate (a b : TInfo) (strips : list Strip.t) : bool :=
  let fontSize :=
    orElse (maxQ (Style.fontSize (tstyle a)) (Style.fontSize (tstyle b))) 12 in
  let verticalProximity :=
    Qltb (absQ (Rect.top (tbbox a) - Rect.top (tbbox b)))
         (fontSize * pmMathMergeBaselineTol cfg) in
  let horizontalProximity :=
    Qltb (absQ (Rect.left (tbbox a) - Rect.left (tbbox b)))
         (fontSize * pmMathMergeHorizTol cfg) in
  if negb (sameColumnByStrips (tbbox a) (tbbox b) strips) then false
  else
    let aIsOp := nonEmpty (ttext a) && opReTest (ttext a) in
    let bIsOp := nonEmpty (ttext b) && opReTest (ttext b) in
    if aIsOp || bIsOp then verticalProximity && horizontalProximity
    else
      let centerA := (Rect.left (tbbox a) + Rect.right (tbbox a)) / 2 in
      let centerB := (Rect.left (tbbox b) + Rect.right (tbbox b)) / 2 in
      verticalProximity
      && Qltb (absQ (centerA - centerB)) (fontSize * pmMathMergeCenterTol cfg).

(** The body of the inner loop: [true] when [base] and [cand] are merged. *)
Definition nestedMerges (filteredStrips : list Strip.t)
  (horizontalBands : list Band.t) (base cand : TInfo) : bool :=
  if negb (stylesMatchStyle (tstyle base) (tstyle cand) true) then false
  else if negb (sameColumnByStrips (tbbox base) (tbbox cand) filteredStrips) then false
  else if hasHorizontalBandBetween (tbbox base) (tbbox cand) horizontalBands then false
  else
    let containsIJ := rectContains (tbbox base) (tbbox cand) 1 in
    let containsJI := rectContains (tbbox cand) (tbbox base) 1 in
    let strongOverlap :=
      if negb containsIJ && negb containsJI then
        match rectIntersection (tbbox base) (tbbox cand) with
        | Some inter =>
          let interArea := Rect.width inter * Rect.height inter in
          let smaller := orElse (minQ (area (tbbox base)) (area (tbbox cand))) 1 in
          Qgtb (interArea / smaller) (pmNestedMergeOverlapFrac cfg)
        | None => false
        end
      else false in
    let mathMerge :=
      (tisMath base || tisMath cand) && isMathMergeCandidate base cand filteredStrips in
    containsIJ || containsJI || strongOverlap || mathMerge.

Definition nestedCombine (base cand : TInfo) : TInfo :=
  let baseLarger := Qgeb (area (tbbox base)) (area (tbbox cand)) in
  let keep := if baseLarger then base else cand in
  let add := if baseLarger then cand else base in
  let combined := sortSpans (tspans keep ++ tspans add) in
  {| tspans := combined;
     tbbox := getParaBbox combined;
     tstyle := tstyle keep;
     tisMath := anyMath combined;
     ttext := joinText combined |}.

(** The inner loop for one [i].  Every index below [i] is already in [used]
    when [i] is reached, so the candidates are the unused infos after [i];
    the loop stops at the first one that merges. *)
Fixpoint nestedFind (filteredStrips : list Strip.t) (horizontalBands : list Band.t)
  (base : TInfo) (later : list TInfo) : option (TInfo * list TInfo) :=
  match later with
  | [] => None
  | cand :: rest =>
    if nestedMerges filteredStrips horizontalBands base cand
    then Some (nestedCombine base cand, rest)
    else
      match nestedFind filteredStrips horizontalBands base rest with
      | Some (merged, unused) => Some (merged, cand :: unused)
      | None => None
      end
  end.

Fixpoint nestedLoop (fuel : nat) (filteredStrips : list Strip.t)
  (horizontalBands : list Band.t) (unused : list TInfo) : list paragraph * bool :=
  match fuel with
  | O => ([], false)
  | S fuel' =>
    match unused with
    | [] => ([], false)
    | base :: later =>
      match nestedFind filteredStrips horizontalBands base later with
      | Some (merged, unused') =>
        let '(out, _) := nestedLoop fuel' filteredStrips horizontalBands unused' in
        (tspans merged :: out, true)
      | None =>
        let '(out, changed) := nestedLoop fuel' filteredStrips horizontalBands later in
        (tspans base :: out, changed)
      end
    end
  end.

Definition mergeNestedParagraphsOnceFromInfos (paragraphs : list paragraph)
  (verticalStrips : list Strip.t) (horizontalBands : list Band.t)
  (viewportWidth : option Q) : outcome (list paragraph * bool) :=
  match paragraphs with
  | [] => Returned (paragraphs, false)
  | _ =>
    let filteredStrips := filterStrips verticalStrips viewportWidth in
    infos <- mapM nestedInfoOf paragraphs ;;
    Returned (nestedLoop (List.length infos) filteredStrips horizontalBands infos)
  end.

(** *** 5) Inline ligature stitching *)

Definition stitches (prevI curI : SpanInfo.t) : bool :=
  let sameStyle := stylesMatch prevI curI true in
  let minF := minFontSize prevI curI in
  let baseTol :=
    minF * (if eitherMath prevI curI then pmStitchBaselineTolMath cfg
            else pmStitchBaselineTolNonMath cfg) in
  let baselineClose :=
    Qltb (absQ (Rect.bottom (SpanInfo.rect prevI) - Rect.bottom (SpanInfo.rect curI)))
         baseTol in
  let dx := Rect.left (SpanInfo.rect curI) - Rect.right (SpanInfo.rect prevI) in
  let kernTol :=
    minF * (if eitherMath prevI curI then pmStitchKernTolMath cfg
            else pmStitchKernTolNonMath cfg) in
  sameStyle && baselineClose && Qgeb dx 0 && Qltb dx kernTol.

Fixpoint stitchLoop (prevI : SpanInfo.t) (group stitched : paragraph)
  (ordered : list SpanInfo.t) : paragraph :=
  match ordered with
  | [] => stitched ++ group
  | curI :: rest =>
    if stitches prevI curI
    then stitchLoop curI (group ++ [curI]) stitched rest
    else stitchLoop curI [curI] (stitched ++ group) rest
  end.

Definition stitchParagraph (p : paragraph) : paragraph :=
  if Nat.ltb (List.length p) 2 then p
  else
    match sortSpans p with
    | [] => []
    | first :: rest => stitchLoop first [first] [] rest
    end.

Definition stitchInlineLigaturesFromInfos (paragraphs : list paragraph)
  : list paragraph :=
  map stitchParagraph paragraphs.

(** *** Nested inline spans *)

Definition mergeSpanGroup (spans : paragraph) : paragraph := sortSpans spans.

(** The test that decides whether [currentInfo] is pushed onto the current
    group, whose last span is [prevInfo]. *)
Definition inlineJoins (prevInfo currentInfo : SpanInfo.t) : bool :=
  let baselineTolerance :=
    minQ (Style.fontSize (SpanInfo.style prevInfo))
         (Style.fontSize (SpanInfo.style currentInfo))
    * pmInlineSpanBaselineTol cfg in
  let sameBaseline :=
    Qltb (absQ (Rect.bottom (SpanInfo.rect prevInfo)
                - Rect.bottom (SpanInfo.rect currentInfo)))
         baselineTolerance in
  let horizontalGap :=
    Rect.left (SpanInfo.rect currentInfo) - Rect.right (SpanInfo.rect prevInfo) in
  let kerningTolerance :=
    minQ (Style.fontSize (SpanInfo.style prevInfo))
         (Style.fontSize (SpanInfo.style currentInfo))
    * pmInlineSpanKernTol cfg in
  let closeHorizontally := Qle_bool (absQ horizontalGap) kerningTolerance in
  let stylesAreCompatible := stylesMatch prevInfo currentInfo true in
  sameBaseline && closeHorizontally && stylesAreCompatible.

(** The loop that cuts the sorted spans into lines; [currentLineTop] is
    [None] while it still holds [-Infinity]. *)
Fixpoint inlineLines (lineHeightTolerance : Q) (currentLine : paragraph)
  (currentLineTop : option Q) (sortedSpans : list SpanInfo.t) : list paragraph :=
  match sortedSpans with
  | [] => match currentLine with [] => [] | _ => [currentLine] end
  | span :: rest =>
    let spanTop := Rect.top (SpanInfo.rect span) in
    let startsLine :=
      match currentLine, currentLineTop with
      | [], _ => true
      | _, None => true
      | _, Some lineTop => Qgtb (absQ (spanTop - lineTop)) lineHeightTolerance
      end in
    if startsLine
    then match currentLine with [] => [] | _ => [currentLine] end
         ++ inlineLines lineHeightTolerance [span] (Some spanTop) rest
    else inlineLines lineHeightTolerance (currentLine ++ [span]) currentLineTop rest
  end.

(** The loop over the spans of one line after the first; the groups are
    pushed in order, each sorted by [mergeSpanGroup]. *)
Fixpoint inlineGroups (currentGroup : paragraph) (lineSpans : list SpanInfo.t)
  : paragraph :=
  match lineSpans with
  | [] => mergeSpanGroup currentGroup
  | currentSpan :: rest =>
    if inlineJoins (last currentGroup currentSpan) currentSpan
    then inlineGroups (currentGroup ++ [currentSpan]) rest
    else mergeSpanGroup currentGroup ++ inlineGroups [currentSpan] rest
  end.

Definition mergeLine (line : paragraph) : paragraph :=
  if Nat.leb (List.length line) 1 then line
  else
    match sortBy (fun a b =>
                    Qle_bool (Rect.left (SpanInfo.rect a) - Rect.left (SpanInfo.rect b)) 0)
            line with
    | [] => []
    | first :: rest => inlineGroups [first] rest
    end.

Definition mergeNestedInlineSpansFromInfos (paragraphs : list paragraph)
  : list paragraph :=
  map (fun paragraph =>
         match paragraph with
         | [] => paragraph
         | [_] => paragraph
         | first :: _ =>
           let paraStyle := SpanInfo.style first in
           let sortedSpans := sortSpans paragraph in
           let lineHeightTolerance :=
             Style.fontSize paraStyle * pmSplitLineHeightTol cfg in
           flat_map mergeLine (inlineLines lineHeightTolerance [] None sortedSpans)
         end)
    paragraphs.

End WithSettings.

End ParagraphMerger.

(** ** Snapshot.ts *)

Module Snapshot.

(** [map.set(s, info)]: a key already present keeps its place and takes the
    new value. *)
Fixpoint mapSet (m : list SpanInfo.t) (info : SpanInfo.t) : list SpanInfo.t :=
  match m with
  | [] => [info]
  | x :: r =>
    if Nat.eqb (SpanInfo.span x) (SpanInfo.span info) then info :: r
    else x :: mapSet r info
  end.

(** [buildSnapshot] on spans whose geometry, style and text have been read:
    the map from span to record, as its values in insertion order. *)
Definition buildSnapshot (spans : list SpanInfo.t) : list SpanInfo.t :=
  fold_left mapSet spans [].

End Snapshot.

(** ** layout-detector.ts *)

Module LayoutDetector.

(** A column region; [AllLine] is the region from [-Infinity] to [Infinity]. *)
Inductive Region : Type :=
| Reg (l r : Q)
| AllLine.

Record BandRegions : Type := mkBandRegions
  { bandTop : Q; bandBottom : Q; regions : list Region }.

(** [a.slice(start, end)]. *)
Definition slice {A : Type} (start stop : Z) (l : list A) : list A :=
  let len := Z.of_nat (List.length l) in
  let from := if Z.ltb start 0 then Z.max (len + start) 0 else Z.min start len in
  let upto := if Z.ltb stop 0 then Z.max (len + stop) 0 else Z.min stop len in
  firstn (Z.to_nat (upto - from)) (skipn (Z.to_nat from) l).

Fixpoint adjacentGaps (maxGap : Q) (lines : list Rect.t) : list Q :=
  match lines with
  | prev :: ((cur :: _) as rest) =>
    let gap := Rect.top cur - Rect.bottom prev in
    (if Qgtb gap 0 && Qltb gap maxGap then [gap] else [])
    ++ adjacentGaps maxGap rest
  | _ => []
  end.

Definition inRegion (cx : Q) (reg : Region) : bool :=
  match reg with
  | Reg l r => Qgeb cx l && Qltb cx r
  | AllLine => true
  end.

Definition regionIndexOf (regs : list Region) (cx : Q) : nat :=
  match findIndex (inRegion cx) regs with
  | Some i => i
  | None =>
    match regs with
    | Reg l _ :: _ => if Qltb cx l then O else (List.length regs - 1)%nat
    | _ => (List.length regs - 1)%nat
    end
  end.

(** The search for the band with the largest overlap; [best] holds
    [bestIdx] (none yet when [None]) and [bestOverlap]. *)
Fixpoint bestBand (sTop sBot : Q) (i : nat) (best : option nat * Q)
  (perBand : list BandRegions) : option nat :=
  match perBand with
  | [] => fst best
  | entry :: rest =>
    let yOverlap := minQ sBot (bandBottom entry) - maxQ sTop (bandTop entry) in
    if Qle_bool yOverlap 0 then bestBand sTop sBot (S i) best rest
    else
      let overlap :=
        yOverlap / maxQ (maxQ 1 (sBot - sTop)) (bandBottom entry - bandTop entry) in
      if Qgtb overlap (snd best)
      then bestBand sTop sBot (S i) (Some i, overlap) rest
      else bestBand sTop sBot (S i) best rest
  end.

(** The search for the band with the closest centre; [bestDist] is [None]
    while it still holds [Infinity]. *)
Fixpoint nearestBand (sc : Q) (i idx : nat) (bestDist : option Q)
  (perBand : list BandRegions) : nat :=
  match perBand with
  | [] => idx
  | entry :: rest =>
    let d := absQ (sc - (bandTop entry + bandBottom entry) / 2) in
    match bestDist with
    | None => nearestBand sc (S i) i (Some d) rest
    | Some bd =>
      if Qltb d bd then nearestBand sc (S i) i (Some d) rest
      else nearestBand sc (S i) idx bestDist rest
    end
  end.

Definition bandIndexOf (perBand : list BandRegions) (s : SpanInfo.t) : nat :=
  let sTop := Rect.top (SpanInfo.rect s) in
  let sBot := Rect.bottom (SpanInfo.rect s) in
  match bestBand sTop sBot O (None, 0) perBand with
  | Some i => i
  | None => nearestBand ((sTop + sBot) / 2) O O None perBand
  end.

Definition spanCenterX (s : SpanInfo.t) : Q :=
  (Rect.left (SpanInfo.rect s) + Rect.right (SpanInfo.rect s)) / 2.

(** The spans of one band bucket in column order. *)
Definition orderBucket (bucketSpans : paragraph) (bucketRegions : list Region)
  : paragraph :=
  match bucketSpans with
  | [] => []
  | _ =>
    let regs := match bucketRegions with [] => [AllLine] | _ => bucketRegions end in
    let colBuckets :=
      map (ParagraphMerger.bucketOf
             (fun s => regionIndexOf regs (spanCenterX s)) bucketSpans)
        (seq 0 (List.length regs)) in
    if Nat.leb (List.length (filter ParagraphMerger.nonEmpty colBuckets)) 1
    then sortSpans bucketSpans
    else flat_map sortSpans colBuckets
  end.

Definition orderParagraphByBandsAndColumns (para : paragraph)
  (perBandRegions : list BandRegions) : paragraph :=
  match para with
  | [] => para
  | _ =>
    let bandBuckets :=
      match perBandRegions with
      | [] => [(para, [AllLine])]
      | _ =>
        map (fun ie =>
               (ParagraphMerger.bucketOf (bandIndexOf perBandRegions) para (fst ie),
                regions (snd ie)))
          (combine (seq 0 (List.length perBandRegions)) perBandRegions)
      end in
    match flat_map (fun b => orderBucket (fst b) (snd b)) bandBuckets with
    | [] => para
    | ordered => ordered
    end
  end.

Fixpoint dedupSpans (globalSeen paragraphSeen : list nat) (para : paragraph)
  : paragraph * list nat :=
  match para with
  | [] => ([], globalSeen)
  | s :: rest =>
    if negb (existsb (Nat.eqb (SpanInfo.span s)) globalSeen)
       && negb (existsb (Nat.eqb (SpanInfo.span s)) paragraphSeen)
    then
      let '(uniqueSpans, seen) :=
        dedupSpans (SpanInfo.span s :: globalSeen) (SpanInfo.span s :: paragraphSeen)
          rest in
      (s :: uniqueSpans, seen)
    else dedupSpans globalSeen paragraphSeen rest
  end.

Fixpoint dedupLoop (globalSeen : list nat) (paragraphs : list paragraph)
  : list paragraph :=
  match paragraphs with
  | [] => []
  | para :: rest =>
    let '(uniqueSpans, seen) := dedupSpans globalSeen [] para in
    match uniqueSpans with
    | [] => dedupLoop seen rest
    | _ => uniqueSpans :: dedupLoop seen rest
    end
  end.

Definition deduplicateParagraphs (paragraphs : list paragraph) : list paragraph :=
  dedupLoop [] paragraphs.

(** The merge of sorted bands; the accumulator holds the merged bands most
    recent first. *)
Fixpoint coalesceBands (mergeGap : Q) (acc : list Band.t) (sorted : list Band.t)
  : list Band.t :=
  match sorted with
  | [] => rev acc
  | b :: rest =>
    match acc with
    | [] => coalesceBands mergeGap [b] rest
    | lastBand :: before =>
      let lastBottom := Band.y lastBand + Band.height lastBand in
      if Qle_bool (Band.y b) (lastBottom + mergeGap)
      then
        let newBottom := maxQ lastBottom (Band.y b + Band.height b) in
        coalesceBands mergeGap
          ({| Band.y := Band.y lastBand;
              Band.height := newBottom - Band.y lastBand;
              Band.confidence := maxQ (Band.confidence lastBand) (Band.confidence b) |}
           :: before) rest
      else coalesceBands mergeGap (b :: acc) rest
    end
  end.

Section WithSettings.

Variable settings : LayoutSettings.

Definition estimateLineHeightFromInfos (paragraphs : list paragraph)
  (infoMap : list SpanInfo.t) (pageRect : Rect.t) : Q :=
  let gaps :=
    flat_map
      (fun p =>
         if Nat.ltb (List.length p) 2 then []
         else
           adjacentGaps (Rect.height pageRect * maxGapFractionOfPageHeight settings)
             (sortBy (fun a b => Qle_bool (Rect.top a - Rect.top b) 0)
                (map SpanInfo.rect p)))
      paragraphs in
  let lhFromGaps : option Q :=
    if Qgeb (lenQ gaps) (minGapsForTrim settings) then
      let sorted := sortNum gaps in
      let trimCount := floorQ (lenQ sorted * trimPercent settings) in
      match slice trimCount (Z.of_nat (List.length sorted) - trimCount) sorted with
      | [] => None
      | trimmed =>
        Some (sumQ trimmed / lenQ trimmed * lineHeightFromAvgMultiplier settings)
      end
    else None in
  match filter (fun v => Qgtb v 0)
          (map (fun i => Style.fontSize (SpanInfo.style i)) infoMap) with
  | [] => 16
  | fontSizes =>
    let med := median fontSizes in
    let floor := med * lineHeightMultiplier settings * floorMultiplier settings in
    let chosen := maxQ (match lhFromGaps with Some v => v | None => 0 end) floor in
    orElse chosen (med * lineHeightMultiplier settings)
  end.

Definition inferredBands (strips : list Strip.t) (pageRect : Rect.t) (lineHeight : Q)
  : list Band.t :=
  match strips with
  | [] => []
  | _ =>
    let minTop := minList (map Strip.top strips) in
    let maxBottom := maxList (map Strip.bottom strips) in
    (if Qgtb minTop
          (Rect.top pageRect + lineHeight * bandTopBottomThresholdMultiplier settings)
     then [ {| Band.y := Rect.top pageRect;
               Band.height := minTop - Rect.top pageRect;
               Band.confidence := inferredBandConfidence settings |} ]
     else [])
    ++
    (if Qltb maxBottom
          (Rect.bottom pageRect - lineHeight * bandTopBottomThresholdMultiplier settings)
     then [ {| Band.y := maxBottom;
               Band.height := Rect.bottom pageRect - maxBottom;
               Band.confidence := inferredBandConfidence settings |} ]
     else [])
  end.

Definition buildLayoutBands (bands : list Band.t) (strips : list Strip.t)
  (pageRect : Rect.t) (lineHeight : Q) : list Band.t :=
  let out := bands ++ inferredBands strips pageRect lineHeight in
  let sorted := sortBy (fun a b => Qle_bool (Band.y a - Band.y b) 0) out in
  coalesceBands
    (maxQ (bandMergeGapPx settings)
          (lineHeight * bandMergeGapLineHeightMultiplier settings))
    [] sorted.

(** The loop that collects the region boundaries; the accumulator holds
    [xs] most recent first. *)
Fixpoint stripMids (xs : list Q) (sorted : list Strip.t) : list Q :=
  match sorted with
  | [] => xs
  | st :: rest =>
    let mid := (Strip.left st + Strip.right st) / 2 in
    match xs with
    | lastX :: _ => if Qgtb mid lastX then stripMids (mid :: xs) rest
                    else stripMids xs rest
    | [] => stripMids xs rest
    end
  end.

Definition buildColumnRegionsFromStrips (strips : list Strip.t) (pageRect : Rect.t)
  : list Region :=
  match strips with
  | [] => [Reg (Rect.left pageRect) (Rect.right pageRect)]
  | _ =>
    let s :=
      sortBy (fun a b =>
                Qle_bool ((Strip.left a + Strip.right a) / 2
                          - (Strip.left b + Strip.right b) / 2) 0) strips in
    let xs := rev (stripMids [Rect.left pageRect] s) ++ [Rect.right pageRect] in
    map (fun lr => Reg (fst lr) (snd lr))
      (filter (fun lr => Qgtb (snd lr - fst lr) (minRegionWidth settings))
         (ParagraphMerger.pairUp xs))
  end.

Definition buildPerBandColumnRegions (strips : list Strip.t) (pageRect : Rect.t)
  (bands : list Band.t) : list BandRegions :=
  match bands with
  | [] =>
    [ {| bandTop := Rect.top pageRect; bandBottom := Rect.bottom pageRect;
         regions := buildColumnRegionsFromStrips strips pageRect |} ]
  | _ =>
    map (fun band =>
           let bTop := Band.y band in
           let bBottom := Band.y band + Band.height band in
           let bandStrips :=
             filter
               (fun s =>
                  let yOverlap :=
                    minQ bBottom (Strip.bottom s) - maxQ bTop (Strip.top s) in
                  let stripH := Strip.bottom s - Strip.top s in
                  let overlapFrac :=
                    yOverlap / maxQ (maxQ 1 stripH) (bBottom - bTop) in
                  Qgtb yOverlap 0
                  && Qgeb overlapFrac (minOverlapFracForBand settings))
               strips in
           {| bandTop := bTop; bandBottom := bBottom;
              regions := buildColumnRegionsFromStrips bandStrips pageRect |})
      bands
  end.

(** *** Column analysis (back-compat) *)

(** [arr.reduce((a, b) => a + b, 0) / arr.length || 0]: the quotient is
    [NaN] for the empty array. *)
Definition average (arr : list Q) : Q :=
  match arr with
  | [] => 0
  | _ => orElse (sumQ arr / lenQ arr) 0
  end.

Definition getAverageLineHeight (paragraphs : list paragraph) : Q :=
  average (map (fun span => Rect.height (SpanInfo.rect span)) (List.concat paragraphs)).

(** The loop that groups the spans sorted by their left edge; [lastRect] is
    the rect of the last span of the last column. *)
Fixpoint columnGroups (columnThreshold : Q) (lastColumn : paragraph)
  (lastRect : Rect.t) (sortedByX : list SpanInfo.t) : list paragraph :=
  match sortedByX with
  | [] => [lastColumn]
  | currentSpan :: rest =>
    let currentRect := SpanInfo.rect currentSpan in
    if Qltb (absQ (Rect.left currentRect - Rect.left lastRect)) columnThreshold
    then columnGroups columnThreshold (lastColumn ++ [currentSpan]) currentRect rest
    else lastColumn :: columnGroups columnThreshold [currentSpan] currentRect rest
  end.

Definition pageColumn (pageRect : Rect.t) : Rect.t :=
  Rect.mk (Rect.left pageRect) (Rect.top pageRect) (Rect.right pageRect)
    (Rect.bottom pageRect) (Rect.width pageRect) (Rect.height pageRect).

(** The bounding rect of one column; the accumulators start at [Infinity]
    and [-Infinity]. *)
Definition columnRectOf (pageRect : Rect.t) (column : paragraph) : Rect.t :=
  match column with
  | [] => pageColumn pageRect
  | _ =>
    let rects := map SpanInfo.rect column in
    let left := minList (map Rect.left rects) in
    let top := minList (map Rect.top rects) in
    let right := maxList (map Rect.right rects) in
    let bottom := maxList (map Rect.bottom rects) in
    Rect.mk left top right bottom (right - left) (bottom - top)
  end.

Fixpoint gapsBetween (columnRects : list Rect.t) : list Q :=
  match columnRects with
  | prev :: ((cur :: _) as rest) =>
    (Rect.left cur + Rect.right prev) / 2 :: gapsBetween rest
  | _ => []
  end.

Record ColumnAnalysis : Type := mkColumnAnalysis
  { columns : list Rect.t;
    edgeCols : list Rect.t;
    gapCols : list Rect.t;
    verticalGaps : list Q;
    horizontalGaps : list Q }.

Definition analyzeColumns (paragraphs : list paragraph) (pageRect : Rect.t)
  : ColumnAnalysis :=
  let allSpans := List.concat paragraphs in
  if Nat.ltb (List.length allSpans) 2 then
    {| columns := [pageColumn pageRect]; edgeCols := []; gapCols := [];
       verticalGaps := []; horizontalGaps := [] |}
  else
    let avgLineHeight := getAverageLineHeight paragraphs in
    let columnThreshold :=
      if Qgtb avgLineHeight 0
      then avgLineHeight * columnThresholdLineHeightMultiplier settings
      else columnThresholdFallback settings in
    let sortedByX :=
      sortBy (fun a b =>
                Qle_bool (Rect.left (SpanInfo.rect a) - Rect.left (SpanInfo.rect b)) 0)
        allSpans in
    let spanColumns :=
      match sortedByX with
      | [] => []
      | first :: rest =>
        columnGroups columnThreshold [first] (SpanInfo.rect first) rest
      end in
    let columnRects := map (columnRectOf pageRect) spanColumns in
    {| columns := columnRects;
       edgeCols :=
         match columnRects with
         | [] => []
         | first :: _ => [first; last columnRects first]
         end;
       gapCols := slice 1 (-1) columnRects;
       verticalGaps := gapsBetween columnRects;
       horizontalGaps := [] |}.

(** [Math.sqrt], used by the gap detector. *)
Variable Msqrt : Q -> Q.

(** The grid detector (grid-detector.ts) is outside the sources at hand.  It
    is taken as a function from the span rects, the page rect and the line
    height to the positions of the horizontal lines it reports. *)
Variable detectGrid : list Rect.t -> Rect.t -> Q -> list Q.

Definition gridBands (lineHeight : Q) (horizontalLines : list Q) : list Band.t :=
  map (fun position =>
         let gapHeight :=
           lineHeight * orElse (bandMergeGapLineHeightMultiplier settings) 1 in
         {| Band.y := position - gapHeight / 2;
            Band.height := gapHeight;
            Band.confidence := 0.95 |})
    horizontalLines.

Definition keptStrips (verticalStripsAll : list Strip.t) : list Strip.t :=
  sortBy
    (fun a b =>
       Qle_bool ((Strip.left a + Strip.right a) / 2
                 - (Strip.left b + Strip.right b) / 2) 0)
    (filter
       (fun s =>
          Qgeb (Strip.confidence s) (minStripConfidence settings)
          && Qgeb (Strip.right s - Strip.left s) (minStripWidthPx settings))
       verticalStripsAll).

Definition layoutBandsOf (gapAnalysis : GapDetector.GapAnalysis)
  (horizontalLines : list Q) (pageRect : Rect.t) (lineHeight : Q) : list Band.t :=
  let horizontalBandsRaw :=
    filter (fun b => Qgeb (Band.confidence b) (minBandConfidence settings))
      (GapDetector.horizontalBands gapAnalysis) in
  buildLayoutBands
    (horizontalBandsRaw ++ gridBands lineHeight horizontalLines)
    (keptStrips (GapDetector.verticalStrips gapAnalysis)) pageRect lineHeight.

(** Steps 5) and 6) as [detectLayout] calls them: the splitter without a
    line height or viewport width, the merger without a viewport width. *)
Definition splitThenMerge (lineHeight : Q) (verticalStrips : list Strip.t)
  (layoutBands : list Band.t) (paragraphs : list paragraph)
  : outcome (list paragraph) :=
  ParagraphMerger.mergeParagraphsFromInfos settings
    (ParagraphMerger.validateParagraphsAgainstStripsFromInfos settings paragraphs
       verticalStrips 0 None)
    lineHeight verticalStrips layoutBands None.

(** Step 7): [while (guard++ < maxIterMerges)]. *)
Fixpoint nestedIterations (guard : nat) (lineHeight : Q)
  (verticalStrips : list Strip.t) (layoutBands : list Band.t)
  (paragraphs : list paragraph) : outcome (list paragraph) :=
  match guard with
  | O => Returned paragraphs
  | S guard' =>
    once <- ParagraphMerger.mergeNestedParagraphsOnceFromInfos settings paragraphs
              verticalStrips layoutBands None ;;
    if negb (snd once) then Returned (fst once)
    else
      merged <- splitThenMerge lineHeight verticalStrips layoutBands (fst once) ;;
      nestedIterations guard' lineHeight verticalStrips layoutBands merged
  end.

(** Steps 5) to 7.5) of [detectLayout]: strip-based splitting, the greedy
    merge, the iterated nested merge and the final stacked pass. *)
Definition stages2to5 (lineHeight : Q) (verticalStrips : list Strip.t)
  (layoutBands : list Band.t) (paragraphs : list paragraph)
  : outcome (list paragraph) :=
  merged <- splitThenMerge lineHeight verticalStrips layoutBands paragraphs ;;
  nested <- nestedIterations (maxIterMerges settings) lineHeight verticalStrips
              layoutBands merged ;;
  ParagraphMerger.mergeStackedColumnParagraphsFromInfos settings
    (S (List.length nested)) nested lineHeight verticalStrips layoutBands None.

(** Steps 8) to 9.5). *)
Definition finishParagraphs (verticalStrips : list Strip.t)
  (layoutBands : list Band.t) (pageRect : Rect.t) (paragraphs : list paragraph)
  : list paragraph :=
  let stitched := ParagraphMerger.stitchInlineLigaturesFromInfos settings paragraphs in
  let ordered :=
    match layoutBands with
    | [] => stitched
    | _ =>
      let perBandColumnRegions :=
        buildPerBandColumnRegions verticalStrips pageRect layoutBands in
      map (fun para => orderParagraphByBandsAndColumns para perBandColumnRegions)
        stitched
    end in
  deduplicateParagraphs (map sortSpans ordered).

(** Step 3): the line height estimated from the initial grouping. *)
Definition pageLineHeight (infoMap : list SpanInfo.t) (pageRect : Rect.t) : Q :=
  estimateLineHeightFromInfos
    (ParagraphMerger.mergeIntoParagraphsFromInfos settings infoMap) infoMap pageRect.

(** [detectLayout] once the gap analysis and the grid lines are known. *)
Definition detectLayoutWith (infoMap : list SpanInfo.t) (pageRect : Rect.t)
  (gapAnalysis : GapDetector.GapAnalysis) (gridLines : Q -> list Q)
  : outcome (list paragraph) :=
  let initial := ParagraphMerger.mergeIntoParagraphsFromInfos settings infoMap in
  let lineHeight := pageLineHeight infoMap pageRect in
  let verticalStrips := keptStrips (GapDetector.verticalStrips gapAnalysis) in
  let layoutBands := layoutBandsOf gapAnalysis (gridLines lineHeight) pageRect lineHeight in
  merged <- stages2to5 lineHeight verticalStrips layoutBands initial ;;
  Returned (finishParagraphs verticalStrips layoutBands pageRect merged).

(** [detectLayout(spans, pageElement)].  [spans] holds, for each element of
    the array, the record the snapshot builds for it; [pageRect] is the page
    rect already divided by the device pixel ratio.  The result is the
    [paragraphs] field of the [LayoutResult]. *)
Definition detectLayout (spans : list SpanInfo.t) (pageRect : Rect.t)
  : outcome (list paragraph) :=
  let infoMap := Snapshot.buildSnapshot spans in
  let rects := map SpanInfo.rect infoMap in
  detectLayoutWith infoMap pageRect
    (GapDetector.detectGapsFromRects Msqrt rects pageRect)
    (detectGrid rects pageRect).

End WithSettings.

End LayoutDetector.

(** ** processing.ts: the text processor *)

Module TextProcessor.

(** [s.replace(/c/g, replacement)] for a single code unit [c] and a
    replacement without dollar patterns. *)
Definition replaceAll (c : N) (replacement : text_t) (s : text_t) : text_t :=
  flat_map (fun d => if N.eqb d c then replacement else [d]) s.

(** [escapeHtml]: ampersand, less-than, greater-than, double quote and
    single quote, in that order, by [&amp;], [&lt;], [&gt;], [&quot;] and
    [&#039;]. *)
Definition escapeHtml (text : text_t) : text_t :=
  replaceAll 39 [38; 35; 48; 51; 57; 59]%N
    (replaceAll 34 [38; 113; 117; 111; 116; 59]%N
       (replaceAll 62 [38; 103; 116; 59]%N
          (replaceAll 60 [38; 108; 116; 59]%N
             (replaceAll 38 [38; 97; 109; 112; 59]%N text)))).

(** The decimal digits of a number, as a template literal prints it. *)
Fixpoint uintCodes (d : Decimal.uint) : text_t :=
  match d with
  | Decimal.Nil => []
  | Decimal.D0 r => 48 :: uintCodes r
  | Decimal.D1 r => 49 :: uintCodes r
  | Decimal.D2 r => 50 :: uintCodes r
  | Decimal.D3 r => 51 :: uintCodes r
  | Decimal.D4 r => 52 :: uintCodes r
  | Decimal.D5 r => 53 :: uintCodes r
  | Decimal.D6 r => 54 :: uintCodes r
  | Decimal.D7 r => 55 :: uintCodes r
  | Decimal.D8 r => 56 :: uintCodes r
  | Decimal.D9 r => 57 :: uintCodes r
  end%N.

Definition decimal (n : nat) : text_t := uintCodes (Nat.to_uint n).

(** The numbered line [n. text] without its line feed. *)
Definition numbered (n : nat) (unitText : text_t) : text_t :=
  decimal n ++ [46; 32]%N ++ unitText.

(** [a.join('\n')]. *)
Fixpoint joinLines (lines : list text_t) : text_t :=
  match lines with
  | [] => []
  | [l] => l
  | l :: rest => l ++ [10%N] ++ joinLines rest
  end.

(** [trimmed.endsWith('<br>')]. *)
Definition endsWithBr (s : text_t) : bool :=
  match rev s with
  | 62 :: 114 :: 98 :: 60 :: _ => true
  | _ => false
  end%N.

(** The tail of the terminator pattern read from the end of the text:
    white space and closing [b] and [i] tags are dropped, in turn; [r] is
    the text reversed. *)
Fixpoint stripClosers (fuel : nat) (r : text_t) : text_t :=
  match fuel with
  | O => trimStart r
  | S fuel' =>
    match trimStart r with
    | 62 :: 98 :: 47 :: 60 :: r' => stripClosers fuel' r'
    | 62 :: 105 :: 47 :: 60 :: r' => stripClosers fuel' r'
    | r' => r'
    end
  end%N.

(** The test of the pattern that asks for a full stop, question mark or
    exclamation mark followed, up to the end, only by closing [b] and [i]
    tags and white space. *)
Definition terminatorReTest (s : text_t) : bool :=
  match stripClosers (List.length s) (rev s) with
  | c :: _ => N.eqb c 46 || N.eqb c 63 || N.eqb c 33
  | [] => false
  end%N.

Definition endsWithSentenceTerminator (htmlText : text_t) : bool :=
  let trimmed := trim htmlText in
  if endsWithBr trimmed then true else terminatorReTest trimmed.

(** A chunk of [performChunkedTranslation]. *)
Record Chunk : Type := mkChunk { text : text_t; originalIndices : list nat }.

(** [indices.map((originalIndex, newIndex) => ...)], numbering from
    [newIndex]. *)
Fixpoint renumbered (units : list text_t) (newIndex : nat) (indices : list nat)
  : list text_t :=
  match indices with
  | [] => []
  | originalIndex :: rest =>
    numbered (newIndex + 1) (nth originalIndex units [])
    :: renumbered units (S newIndex) rest
  end.

(** The loop of [performChunkedTranslation] that cuts the units into
    chunks, run for at most [fuel] iterations; a unit is known to the loop
    through its [text].  [i] may be set back by the loop body. *)
Fixpoint chunkLoop (fuel : nat) (units : list text_t) (maxChunkChars : Q) (i : nat)
  (currentChunkText : text_t) (currentChunkIndices : list nat) (chunks : list Chunk)
  : outcome (list Chunk) :=
  match fuel with
  | O => OutOfFuel
  | S fuel' =>
    match nth_error units i with
    | None =>
      Returned
        (match currentChunkText with
         | [] => chunks
         | _ => chunks ++ [mkChunk (trim currentChunkText) currentChunkIndices]
         end)
    | Some unitText =>
      let line :=
        numbered (List.length currentChunkIndices + 1) unitText ++ [10%N] in
      if Qgtb (lenQ currentChunkText + lenQ line) maxChunkChars
         && Qgtb (lenQ currentChunkText) 0
      then
        let lastUnitIndex := last currentChunkIndices O in
        if Nat.ltb 1 (List.length currentChunkIndices)
           && negb (endsWithSentenceTerminator (nth lastUnitIndex units []))
        then
          let popped := removelast currentChunkIndices in
          let newChunkText := joinLines (renumbered units O popped) in
          chunkLoop fuel' units maxChunkChars lastUnitIndex [] []
            (chunks ++ [mkChunk newChunkText popped])
        else
          chunkLoop fuel' units maxChunkChars (S i)
            (numbered 1 unitText ++ [10%N]) [i]
            (chunks ++ [mkChunk (trim currentChunkText) currentChunkIndices])
      else
        chunkLoop fuel' units maxChunkChars (S i)
          (currentChunkText
           ++ numbered (List.length currentChunkIndices + 1) unitText ++ [10%N])
          (currentChunkIndices ++ [i]) chunks
    end
  end.

(** The chunks [performChunkedTranslation] builds before it asks for any
    translation.  The loop body runs at most three times per unit. *)
Definition buildChunks (units : list text_t) (maxChunkChars : Q)
  : outcome (list Chunk) :=
  chunkLoop (3 * List.length units + 1) units maxChunkChars O [] [] [].

End TextProcessor.

(** A rational square root: exact on the squares of rationals, and within
    [2^-40] below the real root elsewhere. *)
Definition sqrtApprox (x : Q) : Q :=
  let scale := (2 ^ 40)%Z in
  Qred (Qmake (Z.sqrt (Qnum x * Zpos (Qden x) * scale * scale))
              (Qden x * Z.to_pos scale)).

(** A grid detector that reports no line. *)
Definition noGridLines (rects : list Rect.t) (pageRect : Rect.t) (lineHeight : Q)
  : list Q := [].

(** ** The confidence formula as the specification words it *)

(** [0.5 x coverage + 0.25 x (1 - normalized width stdev)
     + 0.25 x (1 - normalized center stdev)], clamped to [0, 1]. *)
Definition specConfidence (Msqrt : Q -> Q) (totalBands : nat)
  (c : GapDetector.Cluster) : Q :=
  GapDetector.clamp01
    (0.5 * GapDetector.coverageOf totalBands c
     + 0.25 * (1 - GapDetector.normWidthStd Msqrt c)
     + 0.25 * (1 - GapDetector.normCenterStd Msqrt c)).

(** ** Predicates used in the statements *)

Definition unitInterval (x : Q) : Prop := 0 <= x /\ x <= 1.

(** No paragraph of the list is empty. *)
Definition allNonEmpty {A : Type} (ps : list (list A)) : Prop :=
  Forall (fun p => p <> []) ps.

(** A call has finished when it returned or threw. *)
Definition finished {A : Type} (o : outcome A) : bool :=
  match o with
  | OutOfFuel => false
  | _ => true
  end.

(** ** Concrete pages *)

Module Examples.

Definition box (l t r b : Q) : Rect.t := Rect.mk l t r b (r - l) (b - t).

Definition page (w h : Q) : Rect.t := Rect.mk 0 0 w h w h.

(** A style as [buildSnapshot] produces it: black, weight 400, upright. *)
Definition plain (family : string) (size : Q) : Style.t :=
  Style.mk family size 400 "normal" (0, 0, 0) false "ltr".

Definition fragment (id : nat) (r : Rect.t) (st : Style.t) (txt : text_t)
  : SpanInfo.t :=
  SpanInfo.mk id r st false txt.


(** The default configuration with an inferred-band confidence of 2. *)
Definition overconfidentSettings : LayoutSettings :=
  {| lineHeightMultiplier := 1.6;
     minStripConfidence := 0.7;
     minStripWidthPx := 4;
     debugValidation := false;
     maxIterMerges := 10;
     minBandConfidence := 0.6;
     bandTopBottomThresholdMultiplier := 0.75;
     inferredBandConfidence := 2;
     bandMergeGapPx := 2;
     bandMergeGapLineHeightMultiplier := 0.2;
     maxGapFractionOfPageHeight := 0.5;
     minGapsForTrim := 5;
     trimPercent := 0.15;
     lineHeightFromAvgMultiplier := 1.25;
     floorMultiplier := 0.8;
     minOverlapFracForBand := 0.4;
     minRegionWidth := 1;
     columnThresholdLineHeightMultiplier := 2;
     columnThresholdFallback := 20;
     pmForceLinearMerge := false;
     pmMinStripConfidenceSplit := 0.7;
     pmMinStripWidthPx := 6;
     pmMinStripOverlapFrac := 0.6;
     pmInitialMergeBaselineTolNonMath := 0.45;
     pmInitialMergeBaselineTolMath := 0.75;
     pmInitialMergeKernTolNonMath := 0.55;
     pmInitialMergeKernTolMath := 0.9;
     pmHyphenContinuationTol := 1.8;
     pmInitialMergeAlignTolNonMath := 2.0;
     pmInitialMergeAlignTolMath := 2.0;
     pmInitialMergeVerticalGapMultiplier := 1.3;
     pmInitialMergeVerticalGapMaxMultiplier := 2.2;
     pmStackedMergeAlignTol := 2.0;
     pmStackedMergeOverlapFrac := 0.25;
     pmStackedMergeVerticalGapMultiplier := 1.35;
     pmStackedMergeVerticalGapMaxMultiplier := 2.0;
     pmGeneralMergeAlignTol := 2.0;
     pmGeneralMergeOverlapFrac := 0.25;
     pmGeneralMergeVerticalGapMultiplier := 1.35;
     pmGeneralMergeVerticalGapMaxMultiplier := 2.0;
     pmNestedMergeOverlapFrac := 0.7;
     pmStitchBaselineTolNonMath := 0.45;
     pmStitchBaselineTolMath := 0.75;
     pmStitchKernTolNonMath := 0.55;
     pmStitchKernTolMath := 0.9;
     pmInlineSpanBaselineTol := 0.3;
     pmInlineSpanKernTol := 0.6;
     pmInlineSpanMaxWeightDiff := 300;
     pmInlineSpanAllowMixedStyle := true;
     pmSameColumnCoverageRatio := 0.65;
     pmMathMergeBaselineTol := 2.0;
     pmMathMergeHorizTol := 1.5;
     pmMathMergeCenterTol := 2.5;
     pmSplitLineHeightTol := 0.7;
     pmSplitBoundaryDedupTol := 0.3;
     pmSplitInterWordGapTol := 1.2;
     pmSplitColumnGapTol := 2.5 |}.

(** Three rows of two columns on a 600 x 24 page; the gutter is 20 wide in
    the first two rows and 100 wide in the third. *)
Definition unevenGutter : list Rect.t :=
  [ box 0 0 290 8; box 310 0 600 8;
    box 0 9 290 17; box 310 9 600 17;
    box 0 18 250 24; box 350 18 600 24 ].

(** A full-width heading above five rows of two columns, on a 600 x 60
    page. *)
Definition headedColumns : list SpanInfo.t :=
  [ fragment 0 (box 0 0 600 8) (plain "serif" 8) [72%N];
    fragment 1 (box 0 12 190 20) (plain "serif" 8) [97%N];
    fragment 2 (box 210 12 600 20) (plain "serif" 8) [98%N];
    fragment 3 (box 0 21 190 29) (plain "serif" 8) [97%N];
    fragment 4 (box 210 21 600 29) (plain "serif" 8) [98%N];
    fragment 5 (box 0 30 190 38) (plain "serif" 8) [97%N];
    fragment 6 (box 210 30 600 38) (plain "serif" 8) [98%N];
    fragment 7 (box 0 39 190 47) (plain "serif" 8) [97%N];
    fragment 8 (box 210 39 600 47) (plain "serif" 8) [98%N];
    fragment 9 (box 0 48 190 56) (plain "serif" 8) [97%N];
    fragment 10 (box 210 48 600 56) (plain "serif" 8) [98%N] ].

End Examples.

Module HyphenExample.

(** "co-" set in a serif face, and, far below it and left-aligned with it,
    "op" set in a sans-serif face. *)
Definition upper : SpanInfo.t :=
  Examples.fragment 1 (Examples.box 0 0 100 10) (Examples.plain "serif" 10)
    [99; 111; 45]%N.

Definition lower : SpanInfo.t :=
  Examples.fragment 2 (Examples.box 0 200 100 210) (Examples.plain "sans-serif" 10)
    [111; 112]%N.

End HyphenExample.

Module ForceLinearExample.

(** A 10-unit line, a 100-unit line aligned with it, a 10-unit line 30 units
    further down and shifted right, and a 100-unit line far below. *)
Definition first : SpanInfo.t :=
  Examples.fragment 1 (Examples.box 0 0 100 10) (Examples.plain "serif" 10) [88]%N.

Definition upper : SpanInfo.t :=
  Examples.fragment 2 (Examples.box 0 12 100 112) (Examples.plain "serif" 100) [65]%N.

Definition lower : SpanInfo.t :=
  Examples.fragment 3 (Examples.box 50 142 150 152) (Examples.plain "serif" 10) [66]%N.

Definition far : SpanInfo.t :=
  Examples.fragment 4 (Examples.box 0 1000 100 1100) (Examples.plain "serif" 100) [89]%N.

Definition spans : list SpanInfo.t := [first; upper; lower; far].

Definition pageRect : Rect.t := Examples.page 600 1200.

End ForceLinearExample.

Module ColumnExample.

(** Two 200-unit glyph runs side by side, a gutter between them, and a
    strip of confidence 0.9 in the gutter. *)
Definition leftFragment : SpanInfo.t :=
  Examples.fragment 1 (Examples.box 10 0 270 200) (Examples.plain "serif" 200) [65]%N.

Definition rightFragment : SpanInfo.t :=
  Examples.fragment 2 (Examples.box 330 0 590 200) (Examples.plain "serif" 200) [66]%N.

Definition strip : Strip.t := Strip.mk 280 320 0 200 0.9.

(** Two fragments with the same y-range [t, b] and the x-ranges [10, 270]
    and [330, 590]; identity, size fields, style and text are free. *)
Definition leftOf (id : nat) (t b w h : Q) (st : Style.t) (math : bool) (txt : text_t)
  : SpanInfo.t :=
  SpanInfo.mk id (Rect.mk 10 t 270 b w h) st math txt.

Definition rightOf (id : nat) (t b w h : Q) (st : Style.t) (math : bool) (txt : text_t)
  : SpanInfo.t :=
  SpanInfo.mk id (Rect.mk 330 t 590 b w h) st math txt.

Definition gapAnalysis : GapDetector.GapAnalysis :=
  GapDetector.mkAnalysis [(0, 200, 0, 600)] [strip] [].

Definition pageRect : Rect.t := Examples.page 600 200.

End ColumnExample.

Module FixedPointExample.

(** A line, a shifted line below it, and a wide line below both that is
    left-aligned with the first. *)
Definition first : SpanInfo.t :=
  Examples.fragment 1 (Examples.box 0 0 100 10) (Examples.plain "serif" 10) [65]%N.

Definition second : SpanInfo.t :=
  Examples.fragment 2 (Examples.box 230 12 340 22) (Examples.plain "serif" 10) [66]%N.

Definition third : SpanInfo.t :=
  Examples.fragment 3 (Examples.box 0 24 300 34) (Examples.plain "serif" 10) [67]%N.

Definition spans : list SpanInfo.t := [first; second; third].

Definition pageRect : Rect.t := Examples.page 400 40.

(** What [detectLayout] computes for this page before it merges. *)
Definition infoMap : list SpanInfo.t := Snapshot.buildSnapshot spans.

Definition gapAnalysis : GapDetector.GapAnalysis :=
  GapDetector.detectGapsFromRects sqrtApprox (map SpanInfo.rect infoMap) pageRect.

Definition lineHeight : Q :=
  LayoutDetector.pageLineHeight defaultLayoutSettings infoMap pageRect.

Definition verticalStrips : list Strip.t :=
  LayoutDetector.keptStrips defaultLayoutSettings
    (GapDetector.verticalStrips gapAnalysis).

Definition layoutBands : list Band.t :=
  LayoutDetector.layoutBandsOf defaultLayoutSettings gapAnalysis
    (noGridLines (map SpanInfo.rect infoMap) pageRect lineHeight) pageRect lineHeight.

End FixedPointExample.

Module StackedExample.

(** Two lines of one column, the second 2 units below the first. *)
Definition upper : SpanInfo.t :=
  Examples.fragment 1 (Examples.box 0 0 100 10) (Examples.plain "serif" 10) [65]%N.

Definition lower : SpanInfo.t :=
  Examples.fragment 2 (Examples.box 0 12 100 22) (Examples.plain "serif" 10) [66]%N.

Definition infos : list ParagraphMerger.PInfo :=
  [ ParagraphMerger.mkPInfo [upper] (ParagraphMerger.getParaBbox [upper])
      (SpanInfo.style upper) false;
    ParagraphMerger.mkPInfo [lower] (ParagraphMerger.getParaBbox [lower])
      (SpanInfo.style lower) false ].

End StackedExample.

(** ** Predicates of the further properties *)

(** The segments of [l], in order, run from [t] to [b]: the first starts at
    [t], each one starts where the one before ends, the last ends at [b]. *)
Fixpoint chained (t : Q) (l : list Segment.t) (b : Q) : Prop :=
  match l with
  | [] => t = b
  | s :: r => Segment.top s = t /\ chained (Segment.bottom s) r b
  end.

(** The segments of [l] go down the page between [t] and [b]: none starts
    above the end of the one before, none ends above its start. *)
Fixpoint ladder (t : Q) (l : list Segment.t) (b : Q) : Prop :=
  match l with
  | [] => t <= b
  | s :: r => t <= Segment.top s /\ Segment.top s <= Segment.bottom s
              /\ ladder (Segment.bottom s) r b
  end.

(** The interval [m] extends over the interval [o]. *)
Definition covers (m o : GapDetector.Interval) : Prop :=
  GapDetector.left m <= GapDetector.left o /\ GapDetector.right o <= GapDetector.right m.

(** The strip [o] extends over the strip [s] and is at least as confident. *)
Definition stripCovers (o s : Strip.t) : Prop :=
  Strip.left o <= Strip.left s /\ Strip.right s <= Strip.right o
  /\ Strip.top o <= Strip.top s /\ Strip.bottom s <= Strip.bottom o
  /\ Strip.confidence s <= Strip.confidence o.

(** The columns of [cols], in order, start at [x], have a positive width and
    each start where the one before ends. *)
Fixpoint columnsFrom (x : Q) (cols : list Rect.t) : Prop :=
  match cols with
  | [] => True
  | c :: r => Rect.left c = x /\ x < Rect.right c /\ columnsFrom (Rect.right c) r
  end.

(** What holds of every cluster of gaps swept inside the page. *)
Definition clusterInside (pageRect : Rect.t) (c : GapDetector.Cluster) : Prop :=
  GapDetector.y1s c <> [] /\ GapDetector.y2s c <> [] /\ GapDetector.lefts c <> []
  /\ Forall (fun y => Rect.top pageRect <= y) (GapDetector.y1s c)
  /\ Forall (fun y => y <= Rect.bottom pageRect) (GapDetector.y2s c)
  /\ Forall (fun x => Rect.left pageRect <= x) (GapDetector.lefts c).

(** What holds of every strip built from such a cluster. *)
Definition stripInside (pageRect : Rect.t) (avgLine : Q) (s : Strip.t) : Prop :=
  Rect.top pageRect <= Strip.top s /\ Strip.bottom s <= Rect.bottom pageRect
  /\ avgLine * GapDetector.MIN_STRIP_HEIGHT_FACTOR <= Strip.bottom s - Strip.top s
  /\ Rect.left pageRect <= Strip.left s.

(** Each band of [l] ends more than [gap] above the start of the next. *)
Fixpoint bandsApart (gap : Q) (l : list Band.t) : Prop :=
  match l with
  | p :: ((n :: _) as r) =>
    Band.y p + Band.height p + gap < Band.y n /\ bandsApart gap r
  | _ => True
  end.

(** The band [o] extends over the band [b] and is at least as confident. *)
Definition bandCovers (o b : Band.t) : Prop :=
  Band.y o <= Band.y b
  /\ Band.y b + Band.height b <= Band.y o + Band.height o
  /\ Band.confidence b <= Band.confidence o.

(** The region [a] ends at or before the start of the region [b]. *)
Definition regionBefore (a b : LayoutDetector.Region) : Prop :=
  match a, b with
  | LayoutDetector.Reg _ r1, LayoutDetector.Reg l2 _ => r1 <= l2
  | _, _ => False
  end.

(** The rect [c] encloses the rect [r]. *)
Definition encloses (c r : Rect.t) : Prop :=
  Rect.left c <= Rect.left r /\ Rect.right r <= Rect.right c
  /\ Rect.top c <= Rect.top r /\ Rect.bottom r <= Rect.bottom c.

(** The strip [cur] of the loop of [mergeSimilarStrips] after the strip [s]
    is merged into it. *)
Definition mergedStrip (cur s : Strip.t) : Strip.t :=
  {| Strip.left := minQ (Strip.left cur) (Strip.left s);
     Strip.right := maxQ (Strip.right cur) (Strip.right s);
     Strip.top := minQ (Strip.top cur) (Strip.top s);
     Strip.bottom := maxQ (Strip.bottom cur) (Strip.bottom s);
     Strip.confidence := maxQ (Strip.confidence cur) (Strip.confidence s) |}.


(** The entity that stands for one code unit in escaped text. *)
Definition encodeUnit (d : N) : text_t :=
  if N.eqb d 38 then [38; 97; 109; 112; 59]%N
  else if N.eqb d 60 then [38; 108; 116; 59]%N
  else if N.eqb d 62 then [38; 103; 116; 59]%N
  else if N.eqb d 34 then [38; 113; 117; 111; 116; 59]%N
  else if N.eqb d 39 then [38; 35; 48; 51; 57; 59]%N
  else [d].

(** Less-than, greater-than, double quote or single quote. *)
Definition isMarkupUnit (d : N) : bool :=
  N.eqb d 60 || N.eqb d 62 || N.eqb d 34 || N.eqb d 39.

(** The weight of a state of the chunking loop: each unit still to read
    counts three, the chunk being filled up to four. *)
Definition chunkWeight (n i : nat) (currentChunkIndices : list nat) : nat :=
  3 * (n - i)
  + match currentChunkIndices with
    | [] => 0
    | [_] => 2
    | _ => 4
    end.

(** ** Further concrete pages *)

Module GutterPairExample.

(** Two fragments 20 units tall set in a 200-unit font, side by side with a
    60-unit gutter, and in the gutter a strip as tall as the fragments. *)
Definition leftFragment : SpanInfo.t :=
  ColumnExample.leftOf 1 0 20 260 20 (Examples.plain "serif" 200) false [65]%N.

Definition rightFragment : SpanInfo.t :=
  ColumnExample.rightOf 2 0 20 260 20 (Examples.plain "serif" 200) false [66]%N.

Definition strip : Strip.t := Strip.mk 280 320 0 20 0.9.

(** The same strip with a confidence between the 0.6 of the gap detector
    and the 0.7 of the layout detector. *)
Definition weakStrip : Strip.t := Strip.mk 280 320 0 20 0.65.

Definition pageRect : Rect.t := Examples.page 600 20.

Definition gapAnalysis : GapDetector.GapAnalysis :=
  GapDetector.mkAnalysis [(0, 20, 0, 600)] [strip] [].

Definition weakAnalysis : GapDetector.GapAnalysis :=
  GapDetector.mkAnalysis [(0, 20, 0, 600)] [weakStrip] [].

Definition noStripAnalysis : GapDetector.GapAnalysis :=
  GapDetector.mkAnalysis [(0, 20, 0, 600)] [] [].

End GutterPairExample.

Module PosterExample.

(** A 600 x 400 page set in a 200-unit font: a row with the fragments at x
    in [10, 270] and [330, 590], and below it a row whose fragments leave
    the gutter [280, 320]. *)
Definition leftFragment : SpanInfo.t :=
  Examples.fragment 1 (Examples.box 10 0 270 200) (Examples.plain "serif" 200) [65]%N.

Definition rightFragment : SpanInfo.t :=
  Examples.fragment 2 (Examples.box 330 0 590 200) (Examples.plain "serif" 200) [66]%N.

Definition lowerLeft : SpanInfo.t :=
  Examples.fragment 3 (Examples.box 10 200 280 400) (Examples.plain "serif" 200) [67]%N.

Definition lowerRight : SpanInfo.t :=
  Examples.fragment 4 (Examples.box 320 200 590 400) (Examples.plain "serif" 200) [68]%N.

Definition spans : list SpanInfo.t := [leftFragment; rightFragment; lowerLeft; lowerRight].

Definition pageRect : Rect.t := Examples.page 600 400.

(** The gap analysis [detectLayout] computes for this page. *)
Definition gapAnalysis : GapDetector.GapAnalysis :=
  GapDetector.detectGapsFromRects sqrtApprox
    (map SpanInfo.rect (Snapshot.buildSnapshot spans)) pageRect.

End PosterExample.

Module MixedStyleExample.

(** Four lines of one column, 2 units apart, in sizes 10.8, 10, 10 and
    11.6: sizes 10 and 10.8 match, 10.8 and 11.6 match, 10 and 11.6 do not.
    The first paragraph holds the second line before the first. *)
Definition high : SpanInfo.t :=
  Examples.fragment 1 (Examples.box 0 0 100 10) (Examples.plain "serif" 10.8) [65]%N.

Definition low : SpanInfo.t :=
  Examples.fragment 2 (Examples.box 0 12 100 22) (Examples.plain "serif" 10) [66]%N.

Definition third : SpanInfo.t :=
  Examples.fragment 3 (Examples.box 0 24 100 34) (Examples.plain "serif" 10) [67]%N.

Definition fourth : SpanInfo.t :=
  Examples.fragment 4 (Examples.box 0 36 100 46) (Examples.plain "serif" 11.6) [68]%N.

Definition paragraphs : list (list SpanInfo.t) := [[low; high]; [third]; [fourth]].

End MixedStyleExample.


Module GutterExample.

(** The page [Examples.unevenGutter], 600 x 24, swept with a line height
    of 8: its first band and the gap of that band. *)
Definition pageRect : Rect.t := Examples.page 600 24.

Definition band : GapDetector.YBand :=
  hd (GapDetector.mkYBand 0 0 [])
     (GapDetector.buildBands Examples.unevenGutter pageRect 8).

Definition gap : GapDetector.Interval :=
  hd (GapDetector.mkInterval 0 0) (GapDetector.gaps band).

Definition leftSpan : Rect.t := Examples.box 0 0 290 8.

(** The strip the detector finds on that page. *)
Definition strip : Strip.t :=
  hd (Strip.mk 0 0 0 0 0)
     (fst (GapDetector.detectStripsAndBands sqrtApprox Examples.unevenGutter pageRect 8)).

End GutterExample.

(** * Properties *)

(** ** The embedding on small inputs *)

Example trim_example : trim [32; 99; 111; 45; 32; 10]%N = [99; 111; 45]%N.
Proof. reflexivity. Qed.

Example endsWithHyphen_example :
  ParagraphMerger.endsWithHyphen HyphenExample.upper = true
  /\ ParagraphMerger.endsWithHyphen HyphenExample.lower = false.
Proof. split; reflexivity. Qed.

Example median_example : median [3; 1; 4; 1] == 2.
Proof. vm_compute. reflexivity. Qed.

Example sortSpans_example :
  sortSpans [StackedExample.lower; StackedExample.upper]
  = [StackedExample.upper; StackedExample.lower].
Proof. vm_compute. reflexivity. Qed.

Example clamp01_example :
  GapDetector.clamp01 (-1) == 0 /\ GapDetector.clamp01 0.5 == 0.5
  /\ GapDetector.clamp01 3 == 1.
Proof. repeat split; vm_compute; reflexivity. Qed.

Example sqrtApprox_example : sqrtApprox 1600 == 40 /\ sqrtApprox (9 # 4) == 3 # 2.
Proof. split; vm_compute; reflexivity. Qed.

(** Two stacked lines of one column come back as one paragraph. *)
Example detectLayout_example :
  LayoutDetector.detectLayout defaultLayoutSettings sqrtApprox noGridLines
    [StackedExample.lower; StackedExample.upper] (Examples.page 200 40)
  = Returned [[StackedExample.upper; StackedExample.lower]].
Proof. vm_compute. reflexivity. Qed.

(** The gap detector on [unevenGutter]: one cluster of four bands, and one
    strip between the medians of its edges. *)
Example detectGaps_example :
  map (fun s => (Qred (Strip.left s), Qred (Strip.right s),
                 Qred (Strip.top s), Qred (Strip.bottom s)))
    (GapDetector.verticalStrips
       (GapDetector.detectGapsFromRects sqrtApprox Examples.unevenGutter
          (Examples.page 600 24)))
  = [(290, 310, 0, 24)].
Proof. vm_compute. reflexivity. Qed.

(** ** Boolean comparisons on numbers *)

Lemma Qltb_true (a b : Q) : Qltb a b = true <-> a < b.
Proof.
  unfold Qltb. rewrite negb_true_iff.
  split; intro H.
  - apply Qnot_le_lt. intro Hle. apply Qle_bool_iff in Hle. congruence.
  - destruct (Qle_bool b a) eqn:E; [|reflexivity].
    apply Qle_bool_iff in E. exfalso. apply (Qlt_not_le _ _ H E).
Qed.

Lemma Qltb_false (a b : Q) : Qltb a b = false <-> b <= a.
Proof.
  unfold Qltb. rewrite negb_false_iff. apply Qle_bool_iff.
Qed.

Lemma Qle_bool_false (a b : Q) : Qle_bool a b = false <-> b < a.
Proof.
  rewrite <- Qltb_true. unfold Qltb. rewrite negb_true_iff. reflexivity.
Qed.

Lemma Qgtb_true (a b : Q) : Qgtb a b = true <-> b < a.
Proof. apply Qltb_true. Qed.

Lemma Qgtb_false (a b : Q) : Qgtb a b = false <-> a <= b.
Proof. apply Qltb_false. Qed.

Lemma Qgeb_true (a b : Q) : Qgeb a b = true <-> b <= a.
Proof. apply Qle_bool_iff. Qed.

Lemma Qgeb_false (a b : Q) : Qgeb a b = false <-> a < b.
Proof. apply Qle_bool_false. Qed.

Lemma maxQ_cases (a b : Q) : (a <= b /\ maxQ a b = b) \/ (b < a /\ maxQ a b = a).
Proof.
  unfold maxQ. destruct (Qle_bool a b) eqn:E.
  - left. split; [apply Qle_bool_iff; assumption | reflexivity].
  - right. split; [apply Qle_bool_false; assumption | reflexivity].
Qed.

Lemma minQ_cases (a b : Q) : (a <= b /\ minQ a b = a) \/ (b < a /\ minQ a b = b).
Proof.
  unfold minQ. destruct (Qle_bool a b) eqn:E.
  - left. split; [apply Qle_bool_iff; assumption | reflexivity].
  - right. split; [apply Qle_bool_false; assumption | reflexivity].
Qed.

Lemma Qeq_bool_sym (a b : Q) : Qeq_bool a b = Qeq_bool b a.
Proof. unfold Qeq_bool. apply Z.eqb_sym. Qed.

Lemma Qle_bool_eq_compat (a a' b b' : Q) :
  a == a' -> b == b' -> Qle_bool a b = Qle_bool a' b'.
Proof.
  intros Ha Hb.
  destruct (Qle_bool a b) eqn:E1, (Qle_bool a' b') eqn:E2; try reflexivity.
  - apply Qle_bool_iff in E1. apply Qle_bool_false in E2. rewrite Ha, Hb in E1. lra.
  - apply Qle_bool_iff in E2. apply Qle_bool_false in E1. rewrite <- Ha, <- Hb in E2. lra.
Qed.

Lemma Qltb_eq_compat (a a' b b' : Q) :
  a == a' -> b == b' -> Qltb a b = Qltb a' b'.
Proof.
  intros Ha Hb. unfold Qltb. f_equal. apply Qle_bool_eq_compat; assumption.
Qed.

(** ** C10: the style-match predicate is symmetric *)

Lemma colorDistSq_sym (a b : Style.t) :
  ParagraphMerger.colorDistSq a b == ParagraphMerger.colorDistSq b a.
Proof.
  unfold ParagraphMerger.colorDistSq.
  destruct (Style.colorRGB a) as [[ar ag] ab'].
  destruct (Style.colorRGB b) as [[br bg] bb']. ring.
Qed.

(** C10. [stylesMatchStyle(a, b, mathAware)] and
    [stylesMatchStyle(b, a, mathAware)] return the same result, for all
    styles, both values of [mathAware] and every configuration. *)
Theorem stylesMatchStyle_symmetric :
  forall (cfg : LayoutSettings) (a b : Style.t) (mathAware : bool),
    ParagraphMerger.stylesMatchStyle cfg a b mathAware
    = ParagraphMerger.stylesMatchStyle cfg b a mathAware.
Proof.
  intros cfg a b mathAware. unfold ParagraphMerger.stylesMatchStyle.
  destruct (pmForceLinearMerge cfg); [reflexivity|].
  rewrite (orb_comm (Style.isMathElement a)).
  rewrite (String.eqb_sym (Style.fontFamily a)).
  rewrite (String.eqb_sym (Style.fontStyle a)).
  rewrite (Qeq_bool_sym (Style.fontWeight a)).
  unfold absQ, ParagraphMerger.getNumericFontWeight.
  rewrite (Qabs_Qminus (Style.fontSize a)).
  rewrite (Qabs_Qminus (Style.fontWeight a)).
  rewrite (Qltb_eq_compat _ _ 100 100 (colorDistSq_sym a b) (Qeq_refl _)).
  unfold Qgeb.
  rewrite (Qle_bool_eq_compat 100 100 _ _ (Qeq_refl _) (colorDistSq_sym a b)).
  reflexivity.
Qed.

(** ** C9: degenerate input of the region detector *)

Lemma orElse_zero (x : Q) : orElse x 0 == x.
Proof.
  unfold orElse. destruct (Qeq_bool x 0) eqn:E; [|reflexivity].
  apply Qeq_bool_iff in E. symmetry. assumption.
Qed.

(** C9. With a missing page rect, or with an empty list of span rects,
    [segmentVerticalLayouts] returns exactly one segment, with one column,
    whose bounds are those of the page (all zero when the rect is missing).
    The function is total, so no call raises. *)
Theorem segmentVerticalLayouts_degenerate :
  forall (spanRects : list Rect.t) (pageRect : Rect.t) (avgLineHeight : Q),
    RegionDetector.segmentVerticalLayouts spanRects None avgLineHeight
    = [ Segment.mk 0 0 0 0 1 ]
    /\ exists seg,
         RegionDetector.segmentVerticalLayouts [] (Some pageRect) avgLineHeight = [seg]
         /\ Segment.columns seg = 1%nat
         /\ Segment.top seg == Rect.top pageRect
         /\ Segment.bottom seg == Rect.bottom pageRect
         /\ Segment.left seg == Rect.left pageRect
         /\ Segment.right seg == Rect.right pageRect.
Proof.
  intros spanRects pageRect avgLineHeight. split.
  - reflexivity.
  - eexists. split; [reflexivity|]. cbn.
    repeat split; apply orElse_zero.
Qed.

(** ** Sorting keeps the elements *)

Lemma insertBy_perm {A : Type} (le : A -> A -> bool) (x : A) (l : list A) :
  Permutation (insertBy le x l) (x :: l).
Proof.
  induction l as [|y r IH]; simpl.
  - apply Permutation_refl.
  - destruct (le x y).
    + apply Permutation_refl.
    + apply perm_trans with (y :: x :: r).
      * apply perm_skip. exact IH.
      * apply perm_swap.
Qed.

Lemma sortBy_perm {A : Type} (le : A -> A -> bool) (l : list A) :
  Permutation (sortBy le l) l.
Proof.
  induction l as [|x r IH]; simpl.
  - apply perm_nil.
  - apply perm_trans with (x :: sortBy le r).
    + apply insertBy_perm.
    + apply perm_skip. exact IH.
Qed.

Lemma sortBy_Forall {A : Type} (le : A -> A -> bool) (P : A -> Prop) (l : list A) :
  Forall P l -> Forall P (sortBy le l).
Proof.
  intro H. apply (Permutation_Forall (Permutation_sym (sortBy_perm le l))). exact H.
Qed.

Lemma sortBy_In {A : Type} (le : A -> A -> bool) (l : list A) (x : A) :
  In x (sortBy le l) <-> In x l.
Proof.
  split; apply Permutation_in.
  - apply sortBy_perm.
  - apply Permutation_sym, sortBy_perm.
Qed.

Lemma sortBy_length {A : Type} (le : A -> A -> bool) (l : list A) :
  List.length (sortBy le l) = List.length l.
Proof. apply Permutation_length, sortBy_perm. Qed.

(** ** C7: confidence bounds *)

Lemma clamp01_unit (x : Q) : unitInterval (GapDetector.clamp01 x).
Proof.
  unfold unitInterval, GapDetector.clamp01.
  destruct (minQ_cases 1 x) as [[H1 E1]|[H1 E1]]; rewrite E1;
    destruct (maxQ_cases 0 x) as [[H2 E2]|[H2 E2]];
    destruct (maxQ_cases 0 1) as [[H3 E3]|[H3 E3]];
    try rewrite E2; try rewrite E3; lra.
Qed.

Lemma maxQ_unit (a b : Q) : unitInterval a -> unitInterval b -> unitInterval (maxQ a b).
Proof.
  intros Ha Hb. destruct (maxQ_cases a b) as [[_ E]|[_ E]]; rewrite E; assumption.
Qed.

Lemma stripOfCluster_confidence (Msqrt : Q -> Q) (avgLine : Q) (n : nat)
  (c : GapDetector.Cluster) (s : Strip.t) :
  GapDetector.stripOfCluster Msqrt avgLine n c = Some s ->
  Strip.confidence s = GapDetector.clusterConfidence Msqrt n c
  /\ GapDetector.MIN_STRIP_CONFIDENCE <= Strip.confidence s.
Proof.
  unfold GapDetector.stripOfCluster.
  destruct (GapDetector.centers c); [discriminate|].
  destruct (Qltb _ _); [discriminate|].
  destruct (Qgeb _ _) eqn:E; [|discriminate].
  intro H. injection H as <-. simpl. split; [reflexivity|].
  apply Qgeb_true in E. exact E.
Qed.

Lemma stripsOfClusters_In (Msqrt : Q -> Q) (avgLine : Q) (n : nat)
  (clusters : list GapDetector.Cluster) (s : Strip.t) :
  In s (GapDetector.stripsOfClusters Msqrt avgLine n clusters) ->
  exists c, In c clusters /\ GapDetector.stripOfCluster Msqrt avgLine n c = Some s.
Proof.
  induction clusters as [|c rest IH]; simpl; [contradiction|].
  destruct (GapDetector.stripOfCluster Msqrt avgLine n c) as [s'|] eqn:E.
  - intros [<-|H].
    + exists c. split; [left; reflexivity | exact E].
    + destruct (IH H) as [c' [Hin Hc']]. exists c'. split; [right|]; assumption.
  - intro H. destruct (IH H) as [c' [Hin Hc']]. exists c'. split; [right|]; assumption.
Qed.

(** Every confidence that leaves [mergeScan] is the confidence of one of the
    strips that entered it. *)
Lemma mergeScan_confidence (sorted : list Strip.t) :
  forall (cur s : Strip.t),
    In s (GapDetector.mergeScan cur sorted) ->
    exists s', In s' (cur :: sorted) /\ Strip.confidence s = Strip.confidence s'.
Proof.
  induction sorted as [|x rest IH]; intros cur s; simpl.
  - intros [<-|[]]. exists cur. split; [left|]; reflexivity.
  - destruct (GapDetector.sameCenter cur x && GapDetector.overlapsVertically cur x).
    + intro H. destruct (IH _ _ H) as [s' [[<-|Hin] Hc]].
      * simpl in Hc.
        destruct (maxQ_cases (Strip.confidence cur) (Strip.confidence x))
          as [[_ E]|[_ E]]; rewrite E in Hc.
        -- exists x. split; [right; left; reflexivity | exact Hc].
        -- exists cur. split; [left; reflexivity | exact Hc].
      * exists s'. split; [right; right; exact Hin | exact Hc].
    + intros [<-|H].
      * exists cur. split; [left|]; reflexivity.
      * destruct (IH _ _ H) as [s' [Hin Hc]]. exists s'. split; [right|]; assumption.
Qed.

Lemma mergeSimilarStrips_confidence (strips : list Strip.t) (s : Strip.t) :
  In s (GapDetector.mergeSimilarStrips strips) ->
  exists s', In s' strips /\ Strip.confidence s = Strip.confidence s'.
Proof.
  unfold GapDetector.mergeSimilarStrips.
  destruct (sortBy _ strips) as [|s0 rest] eqn:E; [contradiction|].
  intro H. destruct (mergeScan_confidence _ _ _ H) as [s' [Hin Hc]].
  exists s'. split; [|exact Hc].
  rewrite <- E in Hin. apply sortBy_In in Hin. exact Hin.
Qed.

Lemma detected_strip_cluster (Msqrt : Q -> Q) (spanRects : list Rect.t)
  (pageRect : Rect.t) (avgLine : Q) (s : Strip.t) :
  In s (fst (GapDetector.detectStripsAndBands Msqrt spanRects pageRect avgLine)) ->
  exists c,
    In c (GapDetector.clusterGaps avgLine
            (GapDetector.buildBands spanRects pageRect avgLine))
    /\ Strip.confidence s
       = GapDetector.clusterConfidence Msqrt
           (List.length (GapDetector.buildBands spanRects pageRect avgLine)) c
    /\ GapDetector.MIN_STRIP_CONFIDENCE <= Strip.confidence s.
Proof.
  unfold GapDetector.detectStripsAndBands. simpl. intro H.
  destruct (mergeSimilarStrips_confidence _ _ H) as [s' [Hin Hc]].
  destruct (stripsOfClusters_In _ _ _ _ _ Hin) as [c [Hc1 Hc2]].
  destruct (stripOfCluster_confidence _ _ _ _ _ Hc2) as [E1 E2].
  exists c. rewrite Hc. repeat split; assumption.
Qed.

Lemma detectGaps_strips (Msqrt : Q -> Q) (spanRects : list Rect.t) (pageRect : Rect.t)
  (s : Strip.t) :
  In s (GapDetector.verticalStrips
          (GapDetector.detectGapsFromRects Msqrt spanRects pageRect)) ->
  In s (fst (GapDetector.detectStripsAndBands Msqrt spanRects pageRect
               (GapDetector.estimateAverageLineHeight spanRects))).
Proof.
  unfold GapDetector.detectGapsFromRects.
  destruct spanRects as [|r rest]; [contradiction|].
  destruct (GapDetector.detectStripsAndBands _ _ _ _) as [strips bands].
  simpl. trivial.
Qed.

Lemma detectGaps_bands (Msqrt : Q -> Q) (spanRects : list Rect.t) (pageRect : Rect.t) :
  GapDetector.horizontalBands
    (GapDetector.detectGapsFromRects Msqrt spanRects pageRect) = [].
Proof.
  unfold GapDetector.detectGapsFromRects.
  destruct spanRects as [|r rest]; [reflexivity|].
  unfold GapDetector.detectStripsAndBands. reflexivity.
Qed.

Lemma coalesceBands_unit (mergeGap : Q) (sorted acc : list Band.t) :
  Forall (fun b => unitInterval (Band.confidence b)) acc ->
  Forall (fun b => unitInterval (Band.confidence b)) sorted ->
  Forall (fun b => unitInterval (Band.confidence b))
    (LayoutDetector.coalesceBands mergeGap acc sorted).
Proof.
  revert acc. induction sorted as [|b rest IH]; intros acc Hacc Hs; simpl.
  - apply Forall_rev. exact Hacc.
  - inversion Hs as [|? ? Hb Hrest]; subst.
    destruct acc as [|lastBand before].
    + apply IH; [constructor; [exact Hb | constructor] | exact Hrest].
    + inversion Hacc as [|? ? Hl Hbefore]; subst.
      destruct (Qle_bool _ _).
      * apply IH; [|exact Hrest]. constructor; [|exact Hbefore].
        simpl. apply maxQ_unit; assumption.
      * apply IH; [|exact Hrest]. constructor; assumption.
Qed.

Lemma inferredBands_unit (settings : LayoutSettings) (strips : list Strip.t)
  (pageRect : Rect.t) (lineHeight : Q) :
  unitInterval (inferredBandConfidence settings) ->
  Forall (fun b => unitInterval (Band.confidence b))
    (LayoutDetector.inferredBands settings strips pageRect lineHeight).
Proof.
  intro H. unfold LayoutDetector.inferredBands.
  destruct strips; [constructor|].
  apply Forall_app. split.
  - destruct (Qgtb _ _); [apply Forall_cons; [exact H | apply Forall_nil] | apply Forall_nil].
  - destruct (Qltb _ _); [apply Forall_cons; [exact H | apply Forall_nil] | apply Forall_nil].
Qed.

Lemma gridBands_unit (settings : LayoutSettings) (lineHeight : Q) (lines : list Q) :
  Forall (fun b => unitInterval (Band.confidence b))
    (LayoutDetector.gridBands settings lineHeight lines).
Proof.
  unfold LayoutDetector.gridBands. apply Forall_forall. intros b Hb.
  apply in_map_iff in Hb. destruct Hb as [p [<- _]]. simpl.
  unfold unitInterval. lra.
Qed.

(** C7, as the code has it.  The confidence of every strip the gap detector
    returns lies in [0, 1]; so does the confidence of every band of the
    merged band list (grid-derived bands and bands inferred from the strip
    extents included) when the configured [inferredBandConfidence] lies in
    [0, 1]. *)
Theorem confidences_in_unit_interval :
  forall (Msqrt : Q -> Q) (settings : LayoutSettings) (spanRects : list Rect.t)
         (pageRect : Rect.t) (gridLines : list Q) (lineHeight : Q),
    Forall (fun s => 0 <= Strip.confidence s <= 1)
      (GapDetector.verticalStrips
         (GapDetector.detectGapsFromRects Msqrt spanRects pageRect))
    /\ (0 <= inferredBandConfidence settings <= 1 ->
        Forall (fun b => 0 <= Band.confidence b <= 1)
          (LayoutDetector.layoutBandsOf settings
             (GapDetector.detectGapsFromRects Msqrt spanRects pageRect)
             gridLines pageRect lineHeight)).
Proof.
  intros Msqrt settings spanRects pageRect gridLines lineHeight. split.
  - apply Forall_forall. intros s Hs.
    apply detectGaps_strips in Hs.
    destruct (detected_strip_cluster _ _ _ _ _ Hs) as [c [_ [E _]]].
    rewrite E. apply clamp01_unit.
  - intro Hcfg.
    unfold LayoutDetector.layoutBandsOf, LayoutDetector.buildLayoutBands.
    rewrite detectGaps_bands. simpl filter. rewrite app_nil_l.
    apply coalesceBands_unit; [constructor|].
    apply sortBy_Forall. apply Forall_app. split.
    + apply gridBands_unit.
    + apply inferredBands_unit. exact Hcfg.
Qed.

Lemma confidences_in_unit_interval_witness :
  0 <= inferredBandConfidence defaultLayoutSettings <= 1
  /\ Forall (fun b => 0 <= Band.confidence b <= 1)
       (LayoutDetector.layoutBandsOf defaultLayoutSettings
          (GapDetector.detectGapsFromRects sqrtApprox
             (map SpanInfo.rect Examples.headedColumns) (Examples.page 600 60))
          [30] (Examples.page 600 60) 10).
Proof.
  assert (H : 0 <= inferredBandConfidence defaultLayoutSettings <= 1)
    by (simpl; lra).
  split; [exact H|].
  exact (proj2 (confidences_in_unit_interval sqrtApprox defaultLayoutSettings
                  (map SpanInfo.rect Examples.headedColumns) (Examples.page 600 60)
                  [30] 10) H).
Defined.

(** C7 as stated fails: with [inferredBandConfidence] set to 2, the page
    [headedColumns] gets a band of confidence 2. *)
Lemma band_confidence_above_one :
  exists b,
    In b (LayoutDetector.layoutBandsOf Examples.overconfidentSettings
            (GapDetector.detectGapsFromRects sqrtApprox
               (map SpanInfo.rect Examples.headedColumns) (Examples.page 600 60))
            (noGridLines (map SpanInfo.rect Examples.headedColumns)
               (Examples.page 600 60)
               (LayoutDetector.pageLineHeight Examples.overconfidentSettings
                  Examples.headedColumns (Examples.page 600 60)))
            (Examples.page 600 60)
            (LayoutDetector.pageLineHeight Examples.overconfidentSettings
               Examples.headedColumns (Examples.page 600 60)))
    /\ ~ (Band.confidence b <= 1).
Proof.
  eexists. split.
  - vm_compute. left. reflexivity.
  - vm_compute. intro H. apply H. reflexivity.
Qed.

(** ** C6: the confidence formula *)

(** Every strip that leaves [mergeScan] is the merge, in order, of a run of
    the strips that entered it. *)
Lemma mergeScan_runs (sorted : list Strip.t) :
  forall (x0 : Strip.t) (pre : list Strip.t) (s : Strip.t),
    In s (GapDetector.mergeScan (fold_left mergedStrip pre x0) sorted) ->
    exists y0 ys,
      s = fold_left mergedStrip ys y0
      /\ forall y, In y (y0 :: ys) -> In y (x0 :: pre ++ sorted).
Proof.
  induction sorted as [|x rest IH]; intros x0 pre s; cbn [GapDetector.mergeScan].
  - intros [<-|[]]. exists x0, pre. split; [reflexivity|].
    rewrite app_nil_r. intros y Hy. exact Hy.
  - destruct (GapDetector.sameCenter _ x && GapDetector.overlapsVertically _ x).
    + change {| Strip.left := minQ (Strip.left (fold_left mergedStrip pre x0)) (Strip.left x);
                Strip.right := maxQ (Strip.right (fold_left mergedStrip pre x0)) (Strip.right x);
                Strip.top := minQ (Strip.top (fold_left mergedStrip pre x0)) (Strip.top x);
                Strip.bottom :=
                  maxQ (Strip.bottom (fold_left mergedStrip pre x0)) (Strip.bottom x);
                Strip.confidence :=
                  maxQ (Strip.confidence (fold_left mergedStrip pre x0))
                       (Strip.confidence x) |}
        with (fold_left mergedStrip [x] (fold_left mergedStrip pre x0)).
      rewrite <- fold_left_app. intro H.
      destruct (IH x0 (pre ++ [x]) s H) as [y0 [ys [E Hin]]].
      exists y0, ys. split; [exact E|].
      intros y Hy. specialize (Hin y Hy). rewrite <- app_assoc in Hin. exact Hin.
    + intros [<-|H].
      * exists x0, pre. split; [reflexivity|].
        intros y [<-|Hy]; [left; reflexivity|].
        right. apply in_or_app. left. exact Hy.
      * destruct (IH x [] s H) as [y0 [ys [E Hin]]].
        exists y0, ys. split; [exact E|].
        intros y Hy. specialize (Hin y Hy). right. apply in_or_app. right. exact Hin.
Qed.

Lemma mergeSimilarStrips_runs (strips : list Strip.t) (s : Strip.t) :
  In s (GapDetector.mergeSimilarStrips strips) ->
  exists y0 ys,
    s = fold_left mergedStrip ys y0 /\ forall y, In y (y0 :: ys) -> In y strips.
Proof.
  unfold GapDetector.mergeSimilarStrips.
  destruct (sortBy _ strips) as [|s0 rest] eqn:E; [contradiction|].
  intro H. destruct (mergeScan_runs rest s0 [] s H) as [y0 [ys [Es Hin]]].
  exists y0, ys. split; [exact Es|].
  intros y Hy. specialize (Hin y Hy). cbn [app] in Hin.
  rewrite <- E in Hin. apply sortBy_In in Hin. exact Hin.
Qed.

(** The confidence of a merge is the largest of the confidences merged. *)
Lemma merged_confidence (ys : list Strip.t) :
  forall y0,
    In (Strip.confidence (fold_left mergedStrip ys y0)) (map Strip.confidence (y0 :: ys))
    /\ forall y, In y (y0 :: ys) ->
         Strip.confidence y <= Strip.confidence (fold_left mergedStrip ys y0).
Proof.
  induction ys as [|x rest IH]; intros y0; cbn [fold_left].
  - split; [left; reflexivity|]. intros y [<-|[]]. apply Qle_refl.
  - destruct (IH (mergedStrip y0 x)) as [A B]. split.
    + destruct A as [A|A].
      * cbn [mergedStrip Strip.confidence] in A.
        destruct (maxQ_cases (Strip.confidence y0) (Strip.confidence x)) as [[_ E]|[_ E]];
          rewrite E in A.
        -- right. left. exact A.
        -- left. exact A.
      * right. right. exact A.
    + intros y Hy.
      assert (Hm : Strip.confidence y0 <= Strip.confidence (mergedStrip y0 x)
                   /\ Strip.confidence x <= Strip.confidence (mergedStrip y0 x)).
      { cbn [mergedStrip Strip.confidence].
        destruct (maxQ_cases (Strip.confidence y0) (Strip.confidence x)) as [[H E]|[H E]];
          rewrite E; split; lra. }
      destruct Hy as [<-|[<-|Hy]].
      * apply Qle_trans with (Strip.confidence (mergedStrip y0 x)); [apply Hm|].
        apply B. left. reflexivity.
      * apply Qle_trans with (Strip.confidence (mergedStrip y0 x)); [apply Hm|].
        apply B. left. reflexivity.
      * apply B. right. exact Hy.
Qed.

Lemma Forall2_choose {A B : Type} (P : A -> B -> Prop) (l : list B) :
  (forall y, In y l -> exists x, P x y) -> exists xs, Forall2 P xs l.
Proof.
  induction l as [|y rest IH]; intro H.
  - exists []. constructor.
  - destruct (H y (or_introl eq_refl)) as [x Hx].
    destruct IH as [xs Hxs]; [intros z Hz; apply H; right; exact Hz|].
    exists (x :: xs). constructor; assumption.
Qed.

Lemma Forall2_In_l {A B : Type} (P : A -> B -> Prop) (xs : list A) (ys : list B) :
  Forall2 P xs ys -> forall x, In x xs -> exists y, In y ys /\ P x y.
Proof.
  induction 1 as [|x y xs ys Hxy _ IH]; intros z Hz; [contradiction|].
  destruct Hz as [<-|Hz].
  - exists y. split; [left; reflexivity | exact Hxy].
  - destruct (IH z Hz) as [y' [Hy' Hp]]. exists y'. split; [right|]; assumption.
Qed.

Lemma Forall2_In_r {A B : Type} (P : A -> B -> Prop) (xs : list A) (ys : list B) :
  Forall2 P xs ys -> forall y, In y ys -> exists x, In x xs /\ P x y.
Proof.
  induction 1 as [|x y xs ys Hxy _ IH]; intros z Hz; [contradiction|].
  destruct Hz as [<-|Hz].
  - exists x. split; [left; reflexivity | exact Hxy].
  - destruct (IH z Hz) as [x' [Hx' Hp]]. exists x'. split; [right|]; assumption.
Qed.

Lemma stripOfCluster_geometry (Msqrt : Q -> Q) (avgLine : Q) (n : nat)
  (c : GapDetector.Cluster) (s : Strip.t) :
  GapDetector.stripOfCluster Msqrt avgLine n c = Some s ->
  Strip.left s = median (GapDetector.lefts c)
  /\ Strip.right s = median (GapDetector.rights c)
  /\ Strip.top s = minList (GapDetector.y1s c)
  /\ Strip.bottom s = maxList (GapDetector.y2s c).
Proof.
  unfold GapDetector.stripOfCluster.
  destruct (GapDetector.centers c); [discriminate|].
  destruct (Qltb _ _); [discriminate|].
  destruct (Qgeb _ _); [|discriminate].
  intro H. injection H as <-. repeat split.
Qed.

(** C6, as the code has it.  Every strip the gap detector returns is the
    merge (smallest left and top, largest right and bottom, largest
    confidence) of one or more strips, each built from a gap cluster of the
    sweep.  The
    strip built from a cluster has the medians of the cluster's lefts and
    rights as its edges, the smallest band top and the largest band bottom
    as its top and bottom, and the confidence
    [0.5 x coverage + 0.25 x (1 - clamp01 w) + 0.25 x (1 - clamp01 c)]
    clamped to [0, 1], where [coverage] is the number of distinct rounded
    band tops of the cluster over the number of bands swept and [w], [c]
    are the standard deviations of the cluster's widths and centers, each
    divided by [max(1, median)]; that confidence is at least 0.6.  The
    confidence of the strip returned is the largest of the confidences of
    the strips merged into it. *)
Theorem strip_confidence_formula :
  forall (Msqrt : Q -> Q) (spanRects : list Rect.t) (pageRect : Rect.t)
         (avgLine : Q) (s : Strip.t),
    In s (fst (GapDetector.detectStripsAndBands Msqrt spanRects pageRect avgLine)) ->
    let bands := GapDetector.buildBands spanRects pageRect avgLine in
    let totalBands := List.length bands in
    let coverage := fun c =>
      inject_Z (Z.of_nat (GapDetector.approxUniqueBandCount (GapDetector.y1s c)))
      / inject_Z (Z.of_nat totalBands) in
    let w := fun c =>
      GapDetector.stddev Msqrt (GapDetector.widths c)
      / maxQ 1 (median (GapDetector.widths c)) in
    let c' := fun c =>
      GapDetector.stddev Msqrt (GapDetector.centers c)
      / maxQ 1 (median (GapDetector.centers c)) in
    let formula := fun c =>
      GapDetector.clamp01
        (0.5 * coverage c
         + 0.25 * (1 - GapDetector.clamp01 (w c))
         + 0.25 * (1 - GapDetector.clamp01 (c' c))) in
    exists (c0 : GapDetector.Cluster) (cs : list GapDetector.Cluster)
           (x0 : Strip.t) (xs : list Strip.t),
      Forall2
        (fun c x =>
           In c (GapDetector.clusterGaps avgLine bands)
           /\ GapDetector.stripOfCluster Msqrt avgLine totalBands c = Some x
           /\ Strip.left x = median (GapDetector.lefts c)
           /\ Strip.right x = median (GapDetector.rights c)
           /\ Strip.top x = minList (GapDetector.y1s c)
           /\ Strip.bottom x = maxList (GapDetector.y2s c)
           /\ Strip.confidence x = formula c
           /\ 0.6 <= formula c)
        (c0 :: cs) (x0 :: xs)
      /\ s = fold_left mergedStrip xs x0
      /\ (exists c, In c (c0 :: cs) /\ Strip.confidence s = formula c)
      /\ (forall c, In c (c0 :: cs) -> formula c <= Strip.confidence s).
Proof.
  intros Msqrt spanRects pageRect avgLine s Hs. cbv zeta.
  unfold GapDetector.detectStripsAndBands in Hs. cbn [fst] in Hs.
  destruct (mergeSimilarStrips_runs _ _ Hs) as [x0 [xs [Es Hin]]].
  set (P := fun (c : GapDetector.Cluster) (x : Strip.t) =>
              In c (GapDetector.clusterGaps avgLine
                      (GapDetector.buildBands spanRects pageRect avgLine))
              /\ GapDetector.stripOfCluster Msqrt avgLine
                   (List.length (GapDetector.buildBands spanRects pageRect avgLine)) c
                 = Some x
              /\ Strip.left x = median (GapDetector.lefts c)
              /\ Strip.right x = median (GapDetector.rights c)
              /\ Strip.top x = minList (GapDetector.y1s c)
              /\ Strip.bottom x = maxList (GapDetector.y2s c)
              /\ Strip.confidence x
                 = GapDetector.clusterConfidence Msqrt
                     (List.length (GapDetector.buildBands spanRects pageRect avgLine)) c
              /\ 0.6 <= GapDetector.clusterConfidence Msqrt
                          (List.length (GapDetector.buildBands spanRects pageRect avgLine))
                          c).
  destruct (Forall2_choose P (x0 :: xs)) as [cs0 Hcs].
  { intros y Hy. specialize (Hin y Hy).
    destruct (stripsOfClusters_In _ _ _ _ _ Hin) as [c [Hc1 Hc2]].
    destruct (stripOfCluster_confidence _ _ _ _ _ Hc2) as [E1 E2].
    destruct (stripOfCluster_geometry _ _ _ _ _ Hc2) as [G1 [G2 [G3 G4]]].
    exists c. unfold P. rewrite <- E1. repeat split; assumption. }
  destruct cs0 as [|c0 cs]; [inversion Hcs|].
  exists c0, cs, x0, xs.
  destruct (merged_confidence xs x0) as [A B]. rewrite <- Es in A, B.
  split; [exact Hcs|]. split; [exact Es|]. split.
  - apply in_map_iff in A. destruct A as [x [Ex Hx]].
    destruct (Forall2_In_r P _ _ Hcs x Hx) as [c [Hc Hp]].
    exists c. split; [exact Hc|]. rewrite <- Ex.
    exact (proj1 (proj2 (proj2 (proj2 (proj2 (proj2 (proj2 Hp))))))).
  - intros c Hc. destruct (Forall2_In_l P _ _ Hcs c Hc) as [x [Hx Hp]].
    change (GapDetector.clusterConfidence Msqrt
              (List.length (GapDetector.buildBands spanRects pageRect avgLine)) c
            <= Strip.confidence s).
    rewrite <- (proj1 (proj2 (proj2 (proj2 (proj2 (proj2 (proj2 Hp))))))).
    apply B. exact Hx.
Qed.

Lemma strip_confidence_formula_witness :
  In GutterExample.strip
    (fst (GapDetector.detectStripsAndBands sqrtApprox Examples.unevenGutter
            (Examples.page 600 24) 8))
  /\ exists c,
       In c (GapDetector.clusterGaps 8
               (GapDetector.buildBands Examples.unevenGutter (Examples.page 600 24) 8))
       /\ Strip.confidence GutterExample.strip
          = GapDetector.clamp01
              (0.5 * (inject_Z (Z.of_nat (GapDetector.approxUniqueBandCount
                                            (GapDetector.y1s c)))
                      / inject_Z
                          (Z.of_nat
                             (List.length
                                (GapDetector.buildBands Examples.unevenGutter
                                   (Examples.page 600 24) 8))))
               + 0.25 * (1 - GapDetector.clamp01
                               (GapDetector.stddev sqrtApprox (GapDetector.widths c)
                                / maxQ 1 (median (GapDetector.widths c))))
               + 0.25 * (1 - GapDetector.clamp01
                               (GapDetector.stddev sqrtApprox (GapDetector.centers c)
                                / maxQ 1 (median (GapDetector.centers c))))).
Proof.
  assert (Hin : In GutterExample.strip
                  (fst (GapDetector.detectStripsAndBands sqrtApprox
                          Examples.unevenGutter (Examples.page 600 24) 8))).
  { vm_compute. left. reflexivity. }
  split; [exact Hin|].
  destruct (strip_confidence_formula sqrtApprox Examples.unevenGutter
              (Examples.page 600 24) 8 _ Hin)
    as [c0 [cs [x0 [xs [F [_ [[c [Hc E]] _]]]]]]].
  destruct (Forall2_In_l _ _ _ F c Hc) as [x [_ [Hcl _]]].
  exists c. split; [exact Hcl | exact E].
Defined.

(** C6 as stated fails on the page [unevenGutter]: the detector returns a
    strip of confidence 0.75, while the formula without the inner clamps
    gives 0.5 for the only cluster. *)
Lemma strip_confidence_not_spec_formula :
  exists s,
    In s (GapDetector.verticalStrips
            (GapDetector.detectGapsFromRects sqrtApprox Examples.unevenGutter
               (Examples.page 600 24)))
    /\ Strip.confidence s == 0.75
    /\ forall c,
         In c (GapDetector.clusterGaps 8
                 (GapDetector.buildBands Examples.unevenGutter
                    (Examples.page 600 24) 8)) ->
         specConfidence sqrtApprox 4 c == 0.5
         /\ ~ Strip.confidence s == specConfidence sqrtApprox 4 c.
Proof.
  eexists. split; [vm_compute; left; reflexivity|].
  split; [vm_compute; reflexivity|].
  intros c Hc. vm_compute in Hc. destruct Hc as [<-|[]].
  split; [vm_compute; reflexivity|].
  vm_compute. discriminate.
Qed.

(** ** C8: the final stacked pass terminates *)

Section StackedPass.
Variable cfg : LayoutSettings.
Variables (lineHeight : Q) (filteredStrips : list Strip.t) (bands : list Band.t).

Lemma stackedScan_shape (later : list ParagraphMerger.PInfo) :
  forall base final unused changed,
    ParagraphMerger.stackedScan cfg lineHeight filteredStrips bands base later
    = (final, unused, changed) ->
    if changed
    then (List.length unused < List.length later)%nat
    else unused = later /\ final = base.
Proof.
  induction later as [|cand rest IH]; intros base final unused changed; simpl.
  - intro H. injection H as <- <- <-. split; reflexivity.
  - destruct (ParagraphMerger.stackedMerges _ _ _ _ _ _).
    + destruct (ParagraphMerger.stackedScan _ _ _ _ (ParagraphMerger.stackedCombine base cand) rest)
        as [[f u] c] eqn:E.
      intro H. injection H as <- <- <-.
      specialize (IH _ _ _ _ E). destruct c.
      * simpl. lia.
      * destruct IH as [-> _]. simpl. lia.
    + destruct (ParagraphMerger.stackedScan _ _ _ _ base rest) as [[f u] c] eqn:E.
      intro H. injection H as <- <- <-.
      specialize (IH _ _ _ _ E). destruct c.
      * simpl. lia.
      * destruct IH as [-> ->]. split; reflexivity.
Qed.

Lemma stackedScan_length (later : list ParagraphMerger.PInfo) :
  forall base final unused changed,
    ParagraphMerger.stackedScan cfg lineHeight filteredStrips bands base later
    = (final, unused, changed) ->
    (List.length unused <= List.length later)%nat.
Proof.
  intros base final unused changed H.
  pose proof (stackedScan_shape _ _ _ _ _ H) as S. destruct changed.
  - lia.
  - destruct S as [-> _]. lia.
Qed.

Lemma stackedPass_shape (fuel : nat) :
  forall infos out changed,
    (List.length infos <= fuel)%nat ->
    ParagraphMerger.stackedPass cfg fuel lineHeight filteredStrips bands infos
    = (out, changed) ->
    if changed
    then (List.length out < List.length infos)%nat
    else out = infos.
Proof.
  induction fuel as [|fuel IH]; intros infos out changed Hlen; simpl.
  - destruct infos; [|simpl in Hlen; lia].
    intro H. injection H as <- <-. reflexivity.
  - destruct infos as [|base later].
    + intro H. injection H as <- <-. reflexivity.
    + destruct (ParagraphMerger.stackedScan _ _ _ _ base later) as [[final unused] c1] eqn:E1.
      destruct (ParagraphMerger.stackedPass _ fuel _ _ _ unused) as [out' c2] eqn:E2.
      intro H. injection H as <- <-.
      pose proof (stackedScan_shape _ _ _ _ _ E1) as S1.
      pose proof (stackedScan_length _ _ _ _ _ E1) as L1.
      simpl in Hlen.
      assert (Hfuel : (List.length unused <= fuel)%nat) by lia.
      specialize (IH _ _ _ Hfuel E2).
      destruct c1, c2; simpl.
      * lia.
      * subst out'. lia.
      * destruct S1 as [-> ->]. lia.
      * destruct S1 as [-> ->]. subst out'. reflexivity.
Qed.

Lemma stackedLoop_returns (fuel : nat) :
  forall infos,
    (List.length infos < fuel)%nat ->
    exists ps,
      ParagraphMerger.stackedLoop cfg fuel lineHeight filteredStrips bands infos
      = Returned ps.
Proof.
  induction fuel as [|fuel IH]; intros infos Hlen; [lia|]. simpl.
  destruct (ParagraphMerger.stackedPass _ _ _ _ _ infos) as [out changed] eqn:E.
  pose proof (stackedPass_shape _ _ _ _ (Nat.le_refl _) E) as S.
  destruct changed.
  - apply IH. rewrite sortBy_length. lia.
  - eexists. reflexivity.
Qed.

(** The loop returns a fixed point of its own pass. *)
Lemma stackedLoop_fixed_point (fuel : nat) :
  forall infos ps,
    ParagraphMerger.stackedLoop cfg fuel lineHeight filteredStrips bands infos
    = Returned ps ->
    exists infos',
      ps = map ParagraphMerger.spans infos'
      /\ ParagraphMerger.stackedPass cfg (List.length infos') lineHeight
           filteredStrips bands infos' = (infos', false).
Proof.
  induction fuel as [|fuel IH]; intros infos ps; simpl; [discriminate|].
  destruct (ParagraphMerger.stackedPass _ _ _ _ _ infos) as [out changed] eqn:E.
  pose proof (stackedPass_shape _ _ _ _ (Nat.le_refl _) E) as S.
  destruct changed.
  - apply IH.
  - intro H. injection H as <-. subst out. exists infos. split; [reflexivity | exact E].
Qed.

End StackedPass.

Lemma mapM_length {A B : Type} (f : A -> outcome B) (l : list A) (r : list B) :
  ParagraphMerger.mapM f l = Returned r -> List.length r = List.length l.
Proof.
  revert r. induction l as [|x rest IH]; intros r; simpl.
  - intro H. injection H as <-. reflexivity.
  - destruct (f x) as [y| |]; simpl; try discriminate.
    destruct (ParagraphMerger.mapM f rest) as [ys| |]; simpl; try discriminate.
    intro H. injection H as <-. simpl. f_equal. apply IH. reflexivity.
Qed.

Lemma mapM_finished {A B : Type} (f : A -> outcome B) (l : list A) :
  (forall x, finished (f x) = true) -> finished (ParagraphMerger.mapM f l) = true.
Proof.
  intro Hf. induction l as [|x rest IH]; simpl; [reflexivity|].
  specialize (Hf x). destruct (f x) as [y| |]; simpl; try reflexivity; try discriminate.
  destruct (ParagraphMerger.mapM f rest) as [ys| |]; simpl; try reflexivity; discriminate.
Qed.

Lemma stackedInfoOf_finished (p : paragraph) : finished (ParagraphMerger.stackedInfoOf p) = true.
Proof. destruct p; reflexivity. Qed.

(** C8. In one execution of the body of the [while] loop of
    [mergeStackedColumnParagraphsFromInfos], a merge leaves strictly fewer
    paragraphs and the absence of a merge leaves the list as it was; so a
    call given [length paragraphs + 1] iterations never uses them up: it
    returns (or throws on an empty paragraph). *)
Theorem stacked_pass_terminates :
  forall (cfg : LayoutSettings) (lineHeight : Q) (strips : list Strip.t)
         (bands : list Band.t) (viewportWidth : option Q),
    (forall infos out changed,
        ParagraphMerger.stackedPass cfg (List.length infos) lineHeight strips bands infos
        = (out, changed) ->
        if changed then (List.length out < List.length infos)%nat else out = infos)
    /\ (forall paragraphs,
          finished
            (ParagraphMerger.mergeStackedColumnParagraphsFromInfos cfg
               (S (List.length paragraphs)) paragraphs lineHeight strips bands
               viewportWidth) = true).
Proof.
  intros cfg lineHeight strips bands viewportWidth. split.
  - intros infos out changed H.
    exact (stackedPass_shape cfg lineHeight strips bands _ _ _ _ (Nat.le_refl _) H).
  - intros paragraphs.
    unfold ParagraphMerger.mergeStackedColumnParagraphsFromInfos.
    destruct paragraphs as [|p rest]; [reflexivity|].
    destruct (ParagraphMerger.mapM ParagraphMerger.stackedInfoOf (p :: rest))
      as [infos| |] eqn:E.
    + unfold bind.
      destruct (stackedLoop_returns cfg lineHeight
                  (ParagraphMerger.filterStrips cfg strips viewportWidth) bands
                  (S (List.length (p :: rest))) (sortBy (ParagraphMerger.infoLe) infos))
        as [ps Hps].
      * rewrite sortBy_length, (mapM_length _ _ _ E). lia.
      * rewrite Hps. reflexivity.
    + reflexivity.
    + pose proof (mapM_finished ParagraphMerger.stackedInfoOf (p :: rest) stackedInfoOf_finished) as F.
      rewrite E in F. discriminate.
Qed.

(** ** The iteration bounds of the embedding are enough

    A loop of the source that the embedding runs for a bounded number of
    iterations stops within the bound it is given: any larger bound gives
    the same result. *)

Lemma sweepFuel_enough (a b step : Q) :
  0 < step -> b <= a + inject_Z (Z.of_nat (sweepFuel a b step)) * step.
Proof.
  intro Hstep. unfold sweepFuel.
  pose proof (Qle_ceiling ((b - a) / step)) as Hc.
  assert (Hdiv : b - a == (b - a) / step * step) by (field; lra).
  set (q := (b - a) / step) in *.
  destruct (Z_le_gt_dec (Qceiling q) 0) as [Hneg|Hpos].
  - assert (Hz : inject_Z (Qceiling q) <= 0).
    { rewrite <- (Zle_Qle _ 0). exact Hneg. }
    assert (E : Z.to_nat (Qceiling q) = 0%nat).
    { destruct (Qceiling q); [reflexivity | lia | reflexivity]. }
    rewrite E. change (inject_Z (Z.of_nat 0)) with 0.
    assert (Hm : q * step <= 0 * step).
    { apply Qmult_le_compat_r; lra. }
    lra.
  - rewrite Z2Nat.id by lia.
    assert (Hm : q * step <= inject_Z (Qceiling q) * step).
    { apply Qmult_le_compat_r; lra. }
    lra.
Qed.

Lemma inject_S (n : nat) :
  inject_Z (Z.of_nat (S n)) == inject_Z (Z.of_nat n) + 1.
Proof.
  rewrite Nat2Z.inj_succ. unfold Z.succ. rewrite inject_Z_plus. reflexivity.
Qed.

Lemma sweepBands_fuel (spanRects : list Rect.t) (pageRect : Rect.t) (bandStep : Q)
  (n : nat) :
  forall (m : nat) (y : Q),
    (n <= m)%nat ->
    Rect.bottom pageRect <= y + inject_Z (Z.of_nat n) * bandStep ->
    GapDetector.sweepBands m spanRects pageRect y bandStep
    = GapDetector.sweepBands n spanRects pageRect y bandStep.
Proof.
  induction n as [|n IH]; intros m y Hle Hstop.
  - assert (Hy : Qltb y (Rect.bottom pageRect) = false).
    { apply Qltb_false. change (inject_Z (Z.of_nat 0)) with 0 in Hstop. lra. }
    destruct m; simpl; [reflexivity | rewrite Hy; reflexivity].
  - destruct m as [|m]; [lia|]. simpl.
    destruct (Qltb y (Rect.bottom pageRect)); [|reflexivity].
    f_equal. apply IH; [lia|].
    rewrite inject_S in Hstop. rewrite Qmult_plus_distr_l in Hstop. lra.
Qed.

(** The sweep of the gap detector stops within [sweepFuel] bands. *)
Lemma buildBands_fuel (spanRects : list Rect.t) (pageRect : Rect.t) (avgLine : Q)
  (m : nat) :
  (sweepFuel (Rect.top pageRect) (Rect.bottom pageRect)
     (maxQ 6 (avgLine * GapDetector.BAND_STEP_FACTOR)) <= m)%nat ->
  GapDetector.sweepBands m spanRects pageRect (Rect.top pageRect)
    (maxQ 6 (avgLine * GapDetector.BAND_STEP_FACTOR))
  = GapDetector.buildBands spanRects pageRect avgLine.
Proof.
  intro H. unfold GapDetector.buildBands. apply sweepBands_fuel; [exact H|].
  apply sweepFuel_enough.
  destruct (maxQ_cases 6 (avgLine * GapDetector.BAND_STEP_FACTOR)) as [[H1 E]|[H1 E]];
    rewrite E; lra.
Qed.

Lemma sampleLoop_fuel (step pageBottom avgLineHeight : Q)
  (options : RegionDetector.DetectionOptions) (n : nat) :
  forall (m : nat) (y : Q) (pending active : list Rect.t),
    (n <= m)%nat ->
    pageBottom <= y + inject_Z (Z.of_nat n) * step ->
    RegionDetector.sampleLoop m y step pageBottom avgLineHeight options pending active
    = RegionDetector.sampleLoop n y step pageBottom avgLineHeight options pending active.
Proof.
  induction n as [|n IH]; intros m y pending active Hle Hstop.
  - assert (Hy : Qltb y pageBottom = false).
    { apply Qltb_false. change (inject_Z (Z.of_nat 0)) with 0 in Hstop. lra. }
    destruct m; simpl; [reflexivity | rewrite Hy; reflexivity].
  - destruct m as [|m]; [lia|]. simpl.
    destruct (Qltb y pageBottom); [|reflexivity].
    destruct (RegionDetector.enterWindow y pending _) as [pending' active'].
    f_equal. apply IH; [lia|].
    rewrite inject_S in Hstop. rewrite Qmult_plus_distr_l in Hstop. lra.
Qed.

Section LoopFuel.
Variable cfg : LayoutSettings.
Variables (lineHeight : Q) (filteredStrips : list Strip.t) (bands : list Band.t).

Lemma generalScan_length (later : list (Style.t * list SpanInfo.t)) :
  forall currStyle current currBbox final unused,
    ParagraphMerger.generalScan cfg lineHeight filteredStrips bands currStyle current
      currBbox later = (final, unused) ->
    (List.length unused <= List.length later)%nat.
Proof.
  induction later as [|[nextStyle next] rest IH];
    intros currStyle current currBbox final unused; simpl.
  - intro H. injection H as <- <-. simpl. lia.
  - destruct (ParagraphMerger.generalMerges _ _ _ _ _ _ _ _).
    + intro H. specialize (IH _ _ _ _ _ H). lia.
    + destruct (ParagraphMerger.generalScan _ _ _ _ currStyle current currBbox rest)
        as [f u] eqn:E.
      intro H. injection H as <- <-. specialize (IH _ _ _ _ _ E). simpl. lia.
Qed.

Lemma generalLoop_fuel (f1 : nat) :
  forall (f2 : nat) (unused : list (Style.t * list SpanInfo.t)),
    (List.length unused <= f1)%nat ->
    (List.length unused <= f2)%nat ->
    ParagraphMerger.generalLoop cfg f1 lineHeight filteredStrips bands unused
    = ParagraphMerger.generalLoop cfg f2 lineHeight filteredStrips bands unused.
Proof.
  induction f1 as [|f1 IH]; intros f2 unused H1 H2.
  - destruct unused; [|simpl in H1; lia]. destruct f2; reflexivity.
  - destruct unused as [|[currStyle p] later]; [destruct f2; reflexivity|].
    destruct f2 as [|f2]; [simpl in H2; lia|]. simpl.
    destruct (ParagraphMerger.generalScan _ _ _ _ currStyle p _ later)
      as [current unused'] eqn:E.
    pose proof (generalScan_length _ _ _ _ _ _ E) as L.
    simpl in H1, H2. f_equal. apply IH; lia.
Qed.

Lemma stackedPass_fuel (f1 : nat) :
  forall (f2 : nat) (infos : list ParagraphMerger.PInfo),
    (List.length infos <= f1)%nat ->
    (List.length infos <= f2)%nat ->
    ParagraphMerger.stackedPass cfg f1 lineHeight filteredStrips bands infos
    = ParagraphMerger.stackedPass cfg f2 lineHeight filteredStrips bands infos.
Proof.
  induction f1 as [|f1 IH]; intros f2 infos H1 H2.
  - destruct infos; [|simpl in H1; lia]. destruct f2; reflexivity.
  - destruct infos as [|base later]; [destruct f2; reflexivity|].
    destruct f2 as [|f2]; [simpl in H2; lia|]. simpl.
    destruct (ParagraphMerger.stackedScan _ _ _ _ base later) as [[final unused] c] eqn:E.
    pose proof (stackedScan_length cfg lineHeight filteredStrips bands _ _ _ _ _ E) as L.
    simpl in H1, H2. rewrite (IH f2 unused) by lia. reflexivity.
Qed.

Lemma nestedFind_length (later : list ParagraphMerger.TInfo) :
  forall base merged unused,
    ParagraphMerger.nestedFind cfg filteredStrips bands base later = Some (merged, unused) ->
    (List.length unused < List.length later)%nat.
Proof.
  induction later as [|cand rest IH]; intros base merged unused; simpl; [discriminate|].
  destruct (ParagraphMerger.nestedMerges _ _ _ _ _).
  - intro H. injection H as <- <-. lia.
  - destruct (ParagraphMerger.nestedFind _ _ _ base rest) as [[m u]|] eqn:E; [|discriminate].
    intro H. injection H as <- <-. specialize (IH _ _ _ E). simpl. lia.
Qed.

Lemma nestedLoop_fuel (f1 : nat) :
  forall (f2 : nat) (infos : list ParagraphMerger.TInfo),
    (List.length infos <= f1)%nat ->
    (List.length infos <= f2)%nat ->
    ParagraphMerger.nestedLoop cfg f1 filteredStrips bands infos
    = ParagraphMerger.nestedLoop cfg f2 filteredStrips bands infos.
Proof.
  induction f1 as [|f1 IH]; intros f2 infos H1 H2.
  - destruct infos; [|simpl in H1; lia]. destruct f2; reflexivity.
  - destruct infos as [|base later]; [destruct f2; reflexivity|].
    destruct f2 as [|f2]; [simpl in H2; lia|]. simpl. simpl in H1, H2.
    destruct (ParagraphMerger.nestedFind _ _ _ base later) as [[merged unused]|] eqn:E.
    + pose proof (nestedFind_length _ _ _ _ E) as L.
      rewrite (IH f2 unused) by lia. reflexivity.
    + rewrite (IH f2 later) by lia. reflexivity.
Qed.

(** More iterations of the [while] loop than the call needed change
    nothing. *)
Lemma stackedLoop_fuel (f1 : nat) :
  forall (f2 : nat) (infos : list ParagraphMerger.PInfo) (ps : list (list SpanInfo.t)),
    (f1 <= f2)%nat ->
    ParagraphMerger.stackedLoop cfg f1 lineHeight filteredStrips bands infos = Returned ps ->
    ParagraphMerger.stackedLoop cfg f2 lineHeight filteredStrips bands infos = Returned ps.
Proof.
  induction f1 as [|f1 IH]; intros f2 infos ps Hle; simpl; [discriminate|].
  destruct f2 as [|f2]; [lia|]. simpl.
  destruct (ParagraphMerger.stackedPass _ _ _ _ _ infos) as [out changed].
  destruct changed; [apply IH; lia | trivial].
Qed.

End LoopFuel.

(** ** C4: hyphen continuation in the initial grouping *)

Section InitialGrouping.
Variable cfg : LayoutSettings.

Lemma groupLoop_step (current : paragraph) (cur : SpanInfo.t) (rest : list SpanInfo.t) :
  current <> [] ->
  ParagraphMerger.groupLoop cfg current (cur :: rest)
  = if ParagraphMerger.extendsParagraph cfg (last current cur) cur
    then ParagraphMerger.groupLoop cfg (current ++ [cur]) rest
    else current :: ParagraphMerger.groupLoop cfg [cur] rest.
Proof.
  intro H. destruct current; [contradiction|]. reflexivity.
Qed.

(** The paragraph under construction is a prefix of a paragraph of the
    result. *)
Lemma groupLoop_current (ordered : list SpanInfo.t) :
  forall current,
    current <> [] ->
    exists suffix, In (current ++ suffix) (ParagraphMerger.groupLoop cfg current ordered).
Proof.
  induction ordered as [|cur rest IH]; intros current Hne.
  - exists []. rewrite app_nil_r. destruct current; [contradiction|]. left. reflexivity.
  - rewrite groupLoop_step by exact Hne.
    destruct (ParagraphMerger.extendsParagraph _ _ _).
    + destruct (IH (current ++ [cur])) as [suffix Hs].
      { destruct current; discriminate. }
      exists ([cur] ++ suffix). rewrite app_assoc. exact Hs.
    + exists []. rewrite app_nil_r. left. reflexivity.
Qed.

Lemma groupLoop_extends (pre : paragraph) (prev cur : SpanInfo.t)
  (rest : list SpanInfo.t) :
  ParagraphMerger.extendsParagraph cfg prev cur = true ->
  exists para,
    In para (ParagraphMerger.groupLoop cfg (pre ++ [prev]) (cur :: rest))
    /\ In prev para /\ In cur para.
Proof.
  intro Hext.
  rewrite groupLoop_step by (destruct pre; discriminate).
  rewrite last_last, Hext.
  destruct (groupLoop_current rest ((pre ++ [prev]) ++ [cur])) as [suffix Hs].
  { destruct pre; discriminate. }
  exists (((pre ++ [prev]) ++ [cur]) ++ suffix). split; [exact Hs|].
  split; apply in_or_app; left; apply in_or_app.
  - left. apply in_or_app. right. left. reflexivity.
  - right. left. reflexivity.
Qed.

Lemma groupLoop_adjacent (l1 : list SpanInfo.t) :
  forall current prev cur l2,
    ParagraphMerger.extendsParagraph cfg prev cur = true ->
    exists para,
      In para (ParagraphMerger.groupLoop cfg current (l1 ++ prev :: cur :: l2))
      /\ In prev para /\ In cur para.
Proof.
  induction l1 as [|x l1' IH]; intros current prev cur l2 Hext.
  - simpl app. destruct current as [|c0 cs].
    + simpl. apply (groupLoop_extends [] prev cur l2 Hext).
    + rewrite groupLoop_step by discriminate.
      destruct (ParagraphMerger.extendsParagraph cfg (last (c0 :: cs) prev) prev).
      * apply (groupLoop_extends (c0 :: cs) prev cur l2 Hext).
      * destruct (groupLoop_extends [] prev cur l2 Hext) as [para [H1 H2]].
        exists para. split; [right; exact H1 | exact H2].
  - simpl app. destruct current as [|c0 cs].
    + simpl. apply IH. exact Hext.
    + rewrite groupLoop_step by discriminate.
      destruct (ParagraphMerger.extendsParagraph cfg (last (c0 :: cs) x) x).
      * apply IH. exact Hext.
      * destruct (IH [x] prev cur l2 Hext) as [para [H1 H2]].
        exists para. split; [right; exact H1 | exact H2].
Qed.

End InitialGrouping.

(** C4.  In the initial grouping, when [cur] follows [prev] in (top, left)
    order, the trimmed text of [prev] ends in a hyphen or soft hyphen, [cur]
    lies below [prev] and their left edges differ by less than
    [fontSize x hyphenContinuationTol] (1.8 by default; the font size is
    that of [cur]), both are placed in one paragraph, whatever the vertical
    gap.  As every rule of the initial grouping, the hyphen rule is read for
    a fragment that style-matches the last fragment of the paragraph. *)
Theorem hyphen_continuation_merges :
  forall (cfg : LayoutSettings) (spanInfos l1 l2 : list SpanInfo.t)
         (prev cur : SpanInfo.t),
    sortSpans spanInfos = l1 ++ prev :: cur :: l2 ->
    ParagraphMerger.stylesMatch cfg cur prev true = true ->
    ParagraphMerger.endsWithHyphen prev = true ->
    Rect.top (SpanInfo.rect prev) < Rect.top (SpanInfo.rect cur) ->
    Qabs (Rect.left (SpanInfo.rect cur) - Rect.left (SpanInfo.rect prev))
      < Style.fontSize (SpanInfo.style cur) * pmHyphenContinuationTol cfg ->
    exists para,
      In para (ParagraphMerger.mergeIntoParagraphsFromInfos cfg spanInfos)
      /\ In prev para /\ In cur para.
Proof.
  intros cfg spanInfos l1 l2 prev cur Hsort Hstyle Hhyph Hbelow Halign.
  unfold ParagraphMerger.mergeIntoParagraphsFromInfos. rewrite Hsort.
  apply groupLoop_adjacent.
  unfold ParagraphMerger.extendsParagraph. rewrite Hstyle. simpl.
  assert (Hc : ParagraphMerger.hyphenContinuation cfg cur prev = true).
  { unfold ParagraphMerger.hyphenContinuation. rewrite Hhyph. simpl.
    apply andb_true_iff. split.
    - apply Qgtb_true. exact Hbelow.
    - apply Qltb_true. exact Halign. }
  rewrite Hc. apply orb_true_r.
Qed.

Lemma hyphen_continuation_merges_witness :
  exists para,
    In para (ParagraphMerger.mergeIntoParagraphsFromInfos defaultLayoutSettings
               [ HyphenExample.upper;
                 Examples.fragment 2 (Examples.box 0 200 100 210)
                   (Examples.plain "serif" 10) [111; 112]%N ])
    /\ In HyphenExample.upper para.
Proof.
  destruct (hyphen_continuation_merges defaultLayoutSettings
              [ HyphenExample.upper;
                Examples.fragment 2 (Examples.box 0 200 100 210)
                  (Examples.plain "serif" 10) [111; 112]%N ]
              [] []
              HyphenExample.upper
              (Examples.fragment 2 (Examples.box 0 200 100 210)
                 (Examples.plain "serif" 10) [111; 112]%N))
    as [para [H1 [H2 _]]].
  - vm_compute. reflexivity.
  - vm_compute. reflexivity.
  - vm_compute. reflexivity.
  - vm_compute. reflexivity.
  - vm_compute. reflexivity.
  - exists para. split; assumption.
Defined.

(** The style test comes first for the hyphen rule as for the other two
    rules: "co-" in a serif face and, below it and left-aligned with it,
    "op" in a sans-serif face are put in two paragraphs. *)
Lemma hyphen_without_style_match :
  sortSpans [HyphenExample.upper; HyphenExample.lower]
  = [HyphenExample.upper; HyphenExample.lower]
  /\ ParagraphMerger.endsWithHyphen HyphenExample.upper = true
  /\ Rect.top (SpanInfo.rect HyphenExample.upper)
     < Rect.top (SpanInfo.rect HyphenExample.lower)
  /\ Qabs (Rect.left (SpanInfo.rect HyphenExample.lower)
           - Rect.left (SpanInfo.rect HyphenExample.upper))
     < Style.fontSize (SpanInfo.style HyphenExample.lower) * 1.8
  /\ ParagraphMerger.mergeIntoParagraphsFromInfos defaultLayoutSettings
       [HyphenExample.upper; HyphenExample.lower]
     = [[HyphenExample.upper]; [HyphenExample.lower]].
Proof.
  repeat split; vm_compute; reflexivity.
Qed.

(** ** C2: the force-linear policy *)

Section ForceLinear.
Variable cfg : LayoutSettings.
Hypothesis forced : pmForceLinearMerge cfg = true.







End ForceLinear.




(** ** C1: every fragment ends in exactly one paragraph *)

Lemma concat_perm_map {A : Type} (f : list A -> list A) (ps : list (list A)) :
  (forall p, Permutation (f p) p) ->
  Permutation (List.concat (map f ps)) (List.concat ps).
Proof.
  intro Hf. induction ps as [|p rest IH]; simpl.
  - apply perm_nil.
  - apply Permutation_app; [apply Hf | exact IH].
Qed.

Lemma concat_perm {A : Type} (l l' : list (list A)) :
  Permutation l l' -> Permutation (List.concat l) (List.concat l').
Proof.
  intro H. rewrite <- (map_id l), <- (map_id l'), <- !flat_map_concat_map.
  apply Permutation_flat_map. exact H.
Qed.

Lemma concat_filter_nonEmpty {A : Type} (l : list (list A)) :
  List.concat (filter ParagraphMerger.nonEmpty l) = List.concat l.
Proof.
  induction l as [|x r IH]; simpl; [reflexivity|].
  destruct x; simpl; [exact IH | rewrite IH; reflexivity].
Qed.

Lemma filter_nonEmpty_all {A : Type} (l : list (list A)) :
  allNonEmpty (filter ParagraphMerger.nonEmpty l).
Proof.
  apply Forall_forall. intros p Hp. apply filter_In in Hp.
  destruct Hp as [_ Hp]. destruct p; [discriminate | discriminate].
Qed.

Lemma sortBy_nonEmpty {A : Type} (le : A -> A -> bool) (l : list A) :
  l <> [] -> sortBy le l <> [].
Proof.
  intros Hne Hs. apply Hne. apply length_zero_iff_nil.
  rewrite <- (sortBy_length le l), Hs. reflexivity.
Qed.

(** *** The snapshot map *)

Lemma mapSet_ids (m : list SpanInfo.t) (v : SpanInfo.t) (i : nat) :
  In i (map SpanInfo.span (Snapshot.mapSet m v))
  <-> In i (map SpanInfo.span m) \/ i = SpanInfo.span v.
Proof.
  induction m as [|x r IH]; simpl.
  - split; [intros [H|[]]; right; symmetry; exact H
           | intros [[]|H]; left; symmetry; exact H].
  - destruct (Nat.eqb (SpanInfo.span x) (SpanInfo.span v)) eqn:E; simpl.
    + apply Nat.eqb_eq in E. rewrite E.
      split; [intros [H|H]; [right; symmetry; exact H | left; right; exact H]|].
      intros [[H|H]|H]; [left; exact H | right; exact H | left; symmetry; exact H].
    + rewrite IH. tauto.
Qed.

Lemma mapSet_NoDup (m : list SpanInfo.t) (v : SpanInfo.t) :
  NoDup (map SpanInfo.span m) -> NoDup (map SpanInfo.span (Snapshot.mapSet m v)).
Proof.
  induction m as [|x r IH]; simpl; intro H.
  - constructor; [intros [] | constructor].
  - inversion H as [|? ? Hx Hr]; subst.
    destruct (Nat.eqb (SpanInfo.span x) (SpanInfo.span v)) eqn:E; simpl.
    + apply Nat.eqb_eq in E. rewrite <- E. constructor; assumption.
    + apply Nat.eqb_neq in E. constructor; [|apply IH; exact Hr].
      rewrite mapSet_ids. intros [H1|H1]; [exact (Hx H1) | exact (E H1)].
Qed.

Lemma mapSet_In (m : list SpanInfo.t) (v s : SpanInfo.t) :
  In s (Snapshot.mapSet m v) -> In s m \/ s = v.
Proof.
  induction m as [|x r IH]; simpl.
  - intros [H|[]]. right. symmetry. exact H.
  - destruct (Nat.eqb (SpanInfo.span x) (SpanInfo.span v)); simpl.
    + intros [H|H]; [right; symmetry; exact H | left; right; exact H].
    + intros [H|H]; [left; left; exact H|].
      destruct (IH H) as [H'|H']; [left; right; exact H' | right; exact H'].
Qed.

Lemma buildSnapshot_spec (spans : list SpanInfo.t) :
  NoDup (map SpanInfo.span (Snapshot.buildSnapshot spans))
  /\ (forall i, In i (map SpanInfo.span (Snapshot.buildSnapshot spans))
                <-> In i (map SpanInfo.span spans))
  /\ (forall s, In s (Snapshot.buildSnapshot spans) -> In s spans).
Proof.
  unfold Snapshot.buildSnapshot.
  assert (G : forall spans m,
             NoDup (map SpanInfo.span m) ->
             NoDup (map SpanInfo.span (fold_left Snapshot.mapSet spans m))
             /\ (forall i, In i (map SpanInfo.span (fold_left Snapshot.mapSet spans m))
                           <-> In i (map SpanInfo.span m) \/ In i (map SpanInfo.span spans))
             /\ (forall s, In s (fold_left Snapshot.mapSet spans m) -> In s m \/ In s spans)).
  { clear spans. induction spans as [|v rest IH]; intros m Hm; simpl.
    - split; [exact Hm|]. split; [intro i; tauto | intros s H; left; exact H].
    - destruct (IH (Snapshot.mapSet m v) (mapSet_NoDup m v Hm)) as [H1 [H2 H3]].
      split; [exact H1|]. split.
      + intro i. rewrite H2, mapSet_ids. split.
        * intros [[H|H]|H]; [left; exact H | right; left; symmetry; exact H
                             | right; right; exact H].
        * intros [H|[H|H]]; [left; left; exact H | left; right; symmetry; exact H
                             | right; exact H].
      + intros s Hs. destruct (H3 s Hs) as [H|H].
        * destruct (mapSet_In _ _ _ H) as [H'|H'];
            [left; exact H' | right; left; symmetry; exact H'].
        * right; right; exact H. }
  destruct (G spans [] (NoDup_nil _)) as [H1 [H2 H3]].
  split; [exact H1|]. split.
  - intro i. rewrite H2. simpl. tauto.
  - intros s Hs. destruct (H3 s Hs) as [[]|H]. exact H.
Qed.

(** *** Stage 1 *)

Lemma groupLoop_concat (cfg : LayoutSettings) (ordered : list SpanInfo.t) :
  forall current,
    List.concat (ParagraphMerger.groupLoop cfg current ordered) = current ++ ordered.
Proof.
  induction ordered as [|cur rest IH]; intro current.
  - destruct current; simpl; [reflexivity|].
    rewrite !app_nil_r. reflexivity.
  - destruct current as [|c0 cs].
    + simpl. rewrite IH. reflexivity.
    + rewrite groupLoop_step by discriminate.
      destruct (ParagraphMerger.extendsParagraph _ _ _).
      * rewrite IH, <- app_assoc. reflexivity.
      * simpl. rewrite IH. reflexivity.
Qed.

Lemma groupLoop_nonEmpty (cfg : LayoutSettings) (ordered : list SpanInfo.t) :
  forall current, allNonEmpty (ParagraphMerger.groupLoop cfg current ordered).
Proof.
  induction ordered as [|cur rest IH]; intro current.
  - destruct current; simpl; constructor; [discriminate | constructor].
  - destruct current as [|c0 cs].
    + simpl. apply IH.
    + rewrite groupLoop_step by discriminate.
      destruct (ParagraphMerger.extendsParagraph _ _ _).
      * apply IH.
      * constructor; [discriminate | apply IH].
Qed.

Lemma mergeInto_perm (cfg : LayoutSettings) (infoMap : list SpanInfo.t) :
  Permutation (List.concat (ParagraphMerger.mergeIntoParagraphsFromInfos cfg infoMap)) infoMap.
Proof.
  unfold ParagraphMerger.mergeIntoParagraphsFromInfos.
  rewrite groupLoop_concat. simpl. apply sortBy_perm.
Qed.

(** *** Buckets *)

Lemma concat_all_nil {A B : Type} (l : list B) :
  List.concat (map (fun _ : B => @nil A) l) = [].
Proof. induction l; simpl; [reflexivity | exact IHl]. Qed.

Lemma bucket_insert {A : Type} (x : A) (f : nat -> list A) (i0 n : nat) :
  forall start,
    (start <= i0 < start + n)%nat ->
    Permutation
      (List.concat (map (fun i => if Nat.eqb i0 i then x :: f i else f i) (seq start n)))
      (x :: List.concat (map f (seq start n))).
Proof.
  induction n as [|n IH]; intros start H; [lia|]. simpl.
  destruct (Nat.eqb i0 start) eqn:E.
  - apply Nat.eqb_eq in E. subst i0. simpl. apply perm_skip.
    apply Permutation_app_head.
    assert (Eq : map (fun i => if Nat.eqb start i then x :: f i else f i) (seq (S start) n)
                 = map f (seq (S start) n)).
    { apply map_ext_in. intros i Hi. apply in_seq in Hi.
      destruct (Nat.eqb start i) eqn:E'; [apply Nat.eqb_eq in E'; lia | reflexivity]. }
    rewrite Eq. apply Permutation_refl.
  - apply Nat.eqb_neq in E.
    apply perm_trans with (f start ++ x :: List.concat (map f (seq (S start) n))).
    + apply Permutation_app_head. apply IH. lia.
    + apply Permutation_sym, Permutation_middle.
Qed.

Lemma buckets_perm {A : Type} (index : A -> nat) (n : nat) (l : list A) :
  Forall (fun x => (index x < n)%nat) l ->
  Permutation (List.concat (map (ParagraphMerger.bucketOf index l) (seq 0 n))) l.
Proof.
  induction l as [|x r IH]; intro H.
  - unfold ParagraphMerger.bucketOf. simpl. rewrite concat_all_nil. apply perm_nil.
  - inversion H as [|? ? Hx Hr]; subst.
    apply perm_trans
      with (x :: List.concat (map (ParagraphMerger.bucketOf index r) (seq 0 n))).
    + assert (Eq : map (ParagraphMerger.bucketOf index (x :: r)) (seq 0 n)
                   = map (fun i => if Nat.eqb (index x) i
                                   then x :: ParagraphMerger.bucketOf index r i
                                   else ParagraphMerger.bucketOf index r i) (seq 0 n)).
      { apply map_ext. intro i. unfold ParagraphMerger.bucketOf. simpl.
        destruct (Nat.eqb (index x) i); reflexivity. }
      rewrite Eq. apply bucket_insert. lia.
    + apply perm_skip. apply IH. exact Hr.
Qed.

Lemma findIndex_bound {A : Type} (f : A -> bool) (l : list A) (i : nat) :
  findIndex f l = Some i -> (i < List.length l)%nat.
Proof.
  revert i. induction l as [|x r IH]; intros i; simpl; [discriminate|].
  destruct (f x).
  - intro H. injection H as <-. lia.
  - destruct (findIndex f r) as [j|]; [|discriminate].
    intro H. injection H as <-. specialize (IH j eq_refl). lia.
Qed.

(** *** Stage 2 *)

Section Splitting.
Variable cfg : LayoutSettings.

Lemma regionIndexOf_bound (regions : list (Q * Q)) (cx : Q) :
  regions <> [] ->
  (ParagraphMerger.regionIndexOf regions cx < List.length regions)%nat.
Proof.
  intro Hne. unfold ParagraphMerger.regionIndexOf.
  destruct (findIndex _ regions) as [i|] eqn:E.
  - apply (findIndex_bound _ _ _ E).
  - destruct regions as [|r0 rest]; [contradiction|].
    destruct (Qltb cx (fst r0)); simpl; lia.
Qed.

Lemma splitParagraphByStrips_spec (para : paragraph) (strips : list Strip.t)
  (lineHeight : Q) :
  Permutation (List.concat (ParagraphMerger.splitParagraphByStrips cfg para strips lineHeight))
              para
  /\ (para <> [] ->
      allNonEmpty (ParagraphMerger.splitParagraphByStrips cfg para strips lineHeight)).
Proof.
  assert (Hsame : Permutation (List.concat [para]) para
                  /\ (para <> [] -> allNonEmpty [para])).
  { split; [simpl; rewrite app_nil_r; apply Permutation_refl|].
    intro H. constructor; [exact H | constructor]. }
  unfold ParagraphMerger.splitParagraphByStrips.
  destruct para as [|s0 ss]; [exact Hsame|].
  destruct strips as [|st sts]; [exact Hsame|].
  destruct (sortNum _) as [|b0 bs]; [exact Hsame|].
  cbv zeta.
  match goal with
  | |- context [Nat.ltb 1 (List.length ?g)] => destruct (Nat.ltb 1 (List.length g))
  end; [|exact Hsame].
  split.
  - eapply perm_trans; [apply concat_perm_map; intro p; apply sortBy_perm|].
    rewrite concat_filter_nonEmpty.
    eapply perm_trans; [|apply (sortBy_perm spanLe (s0 :: ss))].
    apply buckets_perm. apply Forall_forall. intros x _.
    apply regionIndexOf_bound. simpl. discriminate.
  - intros _. apply Forall_forall. intros p Hp.
    apply in_map_iff in Hp. destruct Hp as [q [<- Hq]].
    apply sortBy_nonEmpty.
    apply filter_In in Hq. destruct Hq as [_ Hq].
    destruct q; [discriminate Hq | discriminate].
Qed.

Lemma validate_spec (paragraphs : list paragraph) (strips : list Strip.t)
  (lineHeight : Q) (viewportWidth : option Q) :
  Permutation
    (List.concat (ParagraphMerger.validateParagraphsAgainstStripsFromInfos cfg paragraphs
               strips lineHeight viewportWidth))
    (List.concat paragraphs)
  /\ (allNonEmpty paragraphs ->
      allNonEmpty (ParagraphMerger.validateParagraphsAgainstStripsFromInfos cfg
                     paragraphs strips lineHeight viewportWidth)).
Proof.
  unfold ParagraphMerger.validateParagraphsAgainstStripsFromInfos.
  destruct (pmForceLinearMerge cfg); [split; [apply Permutation_refl | trivial]|].
  destruct strips as [|st sts]; [split; [apply Permutation_refl | trivial]|].
  destruct (ParagraphMerger.filterStrips cfg (st :: sts) viewportWidth) as [|f fs];
    [split; [apply Permutation_refl | trivial]|].
  split.
  - induction paragraphs as [|p rest IH]; simpl; [apply perm_nil|].
    rewrite concat_app. apply Permutation_app; [|exact IH].
    apply splitParagraphByStrips_spec.
  - intro H. induction H as [|p rest Hp Hrest IH]; simpl; [constructor|].
    apply Forall_app. split; [|exact IH].
    apply splitParagraphByStrips_spec. exact Hp.
Qed.

End Splitting.

Lemma mapM_proj {A B : Type} (f : A -> outcome B) (proj : B -> A) (P : A -> Prop)
  (ps : list A) :
  (forall p, P p -> exists y, f p = Returned y /\ proj y = p) ->
  Forall P ps ->
  exists r, ParagraphMerger.mapM f ps = Returned r /\ map proj r = ps.
Proof.
  intros Hf H. induction H as [|p rest Hp Hrest IH]; simpl.
  - exists []. split; reflexivity.
  - destruct (Hf p Hp) as [y [Ey Py]]. destruct IH as [r [Er Pr]].
    exists (y :: r). rewrite Ey, Er. simpl. split; [reflexivity|].
    rewrite Py, Pr. reflexivity.
Qed.

(** *** Stage 3 *)

Section GeneralMerge.
Variable cfg : LayoutSettings.
Variables (lineHeight : Q) (filteredStrips : list Strip.t) (bands : list Band.t).

Lemma generalScan_spec (later : list (Style.t * paragraph)) :
  forall currStyle current currBbox final unused,
    ParagraphMerger.generalScan cfg lineHeight filteredStrips bands currStyle current
      currBbox later = (final, unused) ->
    Permutation (final ++ List.concat (map snd unused))
                (current ++ List.concat (map snd later))
    /\ (List.length unused <= List.length later)%nat
    /\ (exists extra, final = current ++ extra)
    /\ (Forall (fun sp => snd sp <> []) later ->
        Forall (fun sp => snd sp <> []) unused).
Proof.
  induction later as [|[nextStyle next] rest IH];
    intros currStyle current currBbox final unused; simpl.
  - intro H. injection H as <- <-. simpl.
    split; [apply Permutation_refl|]. split; [lia|].
    split; [exists []; rewrite app_nil_r; reflexivity | trivial].
  - destruct (ParagraphMerger.generalMerges _ _ _ _ _ _ _ _).
    + intro H. destruct (IH _ _ _ _ _ H) as [H1 [H2 [[extra H3] H4]]].
      split; [|split; [lia | split]].
      * rewrite H1, <- app_assoc. apply Permutation_refl.
      * exists (next ++ extra). rewrite H3, <- app_assoc. reflexivity.
      * intro F. inversion F; subst. apply H4. assumption.
    + destruct (ParagraphMerger.generalScan _ _ _ _ currStyle current currBbox rest)
        as [f u] eqn:E.
      intro H. injection H as <- <-.
      destruct (IH _ _ _ _ _ E) as [H1 [H2 [H3 H4]]].
      split; [|split; [simpl; lia | split; [exact H3|]]].
      * simpl.
        apply perm_trans with (next ++ f ++ List.concat (map snd u)).
        -- rewrite !app_assoc. apply Permutation_app_tail. apply Permutation_app_comm.
        -- apply perm_trans with (next ++ current ++ List.concat (map snd rest)).
           ++ apply Permutation_app_head. exact H1.
           ++ rewrite !app_assoc. apply Permutation_app_tail. apply Permutation_app_comm.
      * intro F. inversion F; subst. constructor; [assumption | apply H4; assumption].
Qed.

Lemma generalLoop_spec (fuel : nat) :
  forall unused,
    (List.length unused <= fuel)%nat ->
    Forall (fun sp => snd sp <> []) unused ->
    Permutation
      (List.concat (ParagraphMerger.generalLoop cfg fuel lineHeight filteredStrips bands unused))
      (List.concat (map snd unused))
    /\ allNonEmpty
         (ParagraphMerger.generalLoop cfg fuel lineHeight filteredStrips bands unused).
Proof.
  induction fuel as [|fuel IH]; intros unused Hlen Hne.
  - destruct unused; [|simpl in Hlen; lia]. simpl. split; constructor.
  - destruct unused as [|[currStyle p] later]; [simpl; split; constructor|].
    simpl.
    destruct (ParagraphMerger.generalScan _ _ _ _ currStyle p _ later)
      as [current unused'] eqn:E.
    destruct (generalScan_spec _ _ _ _ _ _ E) as [H1 [H2 [[extra H3] H4]]].
    inversion Hne as [|? ? Hp Hlater]; subst. simpl in Hp, Hlen.
    assert (Hfuel : (List.length unused' <= fuel)%nat) by lia.
    destruct (IH unused') as [IH1 IH2]; [exact Hfuel | apply H4; exact Hlater|].
    split.
    + simpl. eapply perm_trans; [apply Permutation_app_head; exact IH1 | exact H1].
    + constructor; [|exact IH2].
      destruct p; [contradiction | discriminate].
Qed.

End GeneralMerge.

Lemma mergeParagraphs_spec (cfg : LayoutSettings) (paragraphs : list paragraph)
  (lineHeight : Q) (strips : list Strip.t) (bands : list Band.t)
  (viewportWidth : option Q) :
  allNonEmpty paragraphs ->
  exists out,
    ParagraphMerger.mergeParagraphsFromInfos cfg paragraphs lineHeight strips bands
      viewportWidth = Returned out
    /\ Permutation (List.concat out) (List.concat paragraphs)
    /\ allNonEmpty out.
Proof.
  intro Hne. unfold ParagraphMerger.mergeParagraphsFromInfos.
  destruct (mapM_proj
              (fun p => s <- ParagraphMerger.firstStyle p ;; Returned (s, p))
              snd (fun p => p <> []) paragraphs) as [styled [E1 E2]].
  - intros p Hp. destruct p as [|s0 ss]; [contradiction|].
    eexists. split; reflexivity.
  - exact Hne.
  - rewrite E1. simpl.
    destruct (generalLoop_spec cfg lineHeight
                (ParagraphMerger.filterStrips cfg strips viewportWidth) bands
                (List.length styled) styled (Nat.le_refl _)) as [H1 H2].
    + apply Forall_forall. intros sp Hsp.
      unfold allNonEmpty in Hne. rewrite Forall_forall in Hne. apply Hne.
      rewrite <- E2. apply in_map. exact Hsp.
    + eexists. split; [reflexivity|]. split; [|exact H2].
      rewrite E2 in H1. exact H1.
Qed.

(** *** Stage 4 *)

Section NestedMerge.
Variable cfg : LayoutSettings.
Variables (filteredStrips : list Strip.t) (bands : list Band.t).

Lemma nestedCombine_perm (base cand : ParagraphMerger.TInfo) :
  Permutation (ParagraphMerger.tspans (ParagraphMerger.nestedCombine base cand))
              (ParagraphMerger.tspans base ++ ParagraphMerger.tspans cand).
Proof.
  unfold ParagraphMerger.nestedCombine. simpl.
  eapply perm_trans; [apply sortBy_perm|].
  destruct (Qgeb _ _); [apply Permutation_refl | apply Permutation_app_comm].
Qed.

Lemma nestedFind_spec (later : list ParagraphMerger.TInfo) :
  forall base merged unused,
    ParagraphMerger.nestedFind cfg filteredStrips bands base later = Some (merged, unused) ->
    Permutation
      (ParagraphMerger.tspans merged ++ List.concat (map ParagraphMerger.tspans unused))
      (ParagraphMerger.tspans base ++ List.concat (map ParagraphMerger.tspans later))
    /\ (List.length unused < List.length later)%nat
    /\ (ParagraphMerger.tspans base <> [] -> ParagraphMerger.tspans merged <> [])
    /\ (Forall (fun i => ParagraphMerger.tspans i <> []) later ->
        Forall (fun i => ParagraphMerger.tspans i <> []) unused).
Proof.
  induction later as [|cand rest IH]; intros base merged unused; simpl; [discriminate|].
  destruct (ParagraphMerger.nestedMerges _ _ _ _ _).
  - intro H. injection H as <- <-.
    split; [|split; [lia | split]].
    + rewrite app_assoc. apply Permutation_app_tail. apply nestedCombine_perm.
    + intros Hb Hm. apply Hb.
      pose proof (nestedCombine_perm base cand) as P. rewrite Hm in P.
      apply Permutation_nil in P. apply app_eq_nil in P. tauto.
    + intro F. inversion F; subst. assumption.
  - destruct (ParagraphMerger.nestedFind _ _ _ base rest) as [[m u]|] eqn:E; [|discriminate].
    intro H. injection H as <- <-.
    destruct (IH _ _ _ E) as [H1 [H2 [H3 H4]]].
    split; [|split; [simpl; lia | split; [exact H3|]]].
    + simpl.
      apply perm_trans
        with (ParagraphMerger.tspans cand
              ++ ParagraphMerger.tspans m ++ List.concat (map ParagraphMerger.tspans u)).
      * rewrite !app_assoc. apply Permutation_app_tail. apply Permutation_app_comm.
      * apply perm_trans
          with (ParagraphMerger.tspans cand
                ++ ParagraphMerger.tspans base
                ++ List.concat (map ParagraphMerger.tspans rest)).
        -- apply Permutation_app_head. exact H1.
        -- rewrite !app_assoc. apply Permutation_app_tail. apply Permutation_app_comm.
    + intro F. inversion F; subst. constructor; [assumption | apply H4; assumption].
Qed.

Lemma nestedLoop_spec (fuel : nat) :
  forall infos,
    (List.length infos <= fuel)%nat ->
    Forall (fun i => ParagraphMerger.tspans i <> []) infos ->
    Permutation
      (List.concat (fst (ParagraphMerger.nestedLoop cfg fuel filteredStrips bands infos)))
      (List.concat (map ParagraphMerger.tspans infos))
    /\ allNonEmpty (fst (ParagraphMerger.nestedLoop cfg fuel filteredStrips bands infos)).
Proof.
  induction fuel as [|fuel IH]; intros infos Hlen Hne.
  - destruct infos; [|simpl in Hlen; lia]. simpl. split; constructor.
  - destruct infos as [|base later]; [simpl; split; constructor|].
    inversion Hne as [|? ? Hb Hlater]; subst. simpl in Hlen. simpl.
    destruct (ParagraphMerger.nestedFind _ _ _ base later) as [[merged unused]|] eqn:E.
    + destruct (nestedFind_spec _ _ _ _ E) as [H1 [H2 [H3 H4]]].
      destruct (IH unused) as [IH1 IH2]; [lia | apply H4; exact Hlater|].
      destruct (ParagraphMerger.nestedLoop _ fuel _ _ unused) as [out c]. simpl in *.
      split.
      * eapply perm_trans; [apply Permutation_app_head; exact IH1 | exact H1].
      * constructor; [apply H3; exact Hb | exact IH2].
    + destruct (IH later) as [IH1 IH2]; [lia | exact Hlater|].
      destruct (ParagraphMerger.nestedLoop _ fuel _ _ later) as [out c]. simpl in *.
      split.
      * apply Permutation_app_head. exact IH1.
      * constructor; [exact Hb | exact IH2].
Qed.

End NestedMerge.

Lemma mergeNested_spec (cfg : LayoutSettings) (paragraphs : list paragraph)
  (strips : list Strip.t) (bands : list Band.t) (viewportWidth : option Q) :
  allNonEmpty paragraphs ->
  exists once,
    ParagraphMerger.mergeNestedParagraphsOnceFromInfos cfg paragraphs strips bands
      viewportWidth = Returned once
    /\ Permutation (List.concat (fst once)) (List.concat paragraphs)
    /\ allNonEmpty (fst once).
Proof.
  intro Hne. unfold ParagraphMerger.mergeNestedParagraphsOnceFromInfos.
  destruct paragraphs as [|p0 rest].
  { eexists. split; [reflexivity|]. simpl. split; constructor. }
  destruct (mapM_proj ParagraphMerger.nestedInfoOf ParagraphMerger.tspans
              (fun p => p <> []) (p0 :: rest)) as [infos [E1 E2]].
  - intros p Hp. destruct p as [|s0 ss]; [contradiction|].
    eexists. split; reflexivity.
  - exact Hne.
  - rewrite E1. simpl.
    destruct (nestedLoop_spec cfg
                (ParagraphMerger.filterStrips cfg strips viewportWidth) bands
                (List.length infos) infos (Nat.le_refl _)) as [H1 H2].
    + apply Forall_forall. intros i Hi.
      unfold allNonEmpty in Hne. rewrite Forall_forall in Hne. apply Hne.
      rewrite <- E2. apply in_map. exact Hi.
    + eexists. split; [reflexivity|]. split; [|exact H2].
      rewrite E2 in H1. exact H1.
Qed.

(** *** Stage 5 *)

Section StackedPerm.
Variable cfg : LayoutSettings.
Variables (lineHeight : Q) (filteredStrips : list Strip.t) (bands : list Band.t).

Lemma stackedScan_perm (later : list ParagraphMerger.PInfo) :
  forall base final unused changed,
    ParagraphMerger.stackedScan cfg lineHeight filteredStrips bands base later
    = (final, unused, changed) ->
    Permutation
      (ParagraphMerger.spans final ++ List.concat (map ParagraphMerger.spans unused))
      (ParagraphMerger.spans base ++ List.concat (map ParagraphMerger.spans later)).
Proof.
  induction later as [|cand rest IH]; intros base final unused changed; simpl.
  - intro H. injection H as <- <- <-. apply Permutation_refl.
  - destruct (ParagraphMerger.stackedMerges _ _ _ _ _ _).
    + destruct (ParagraphMerger.stackedScan _ _ _ _ (ParagraphMerger.stackedCombine base cand) rest)
        as [[f u] c] eqn:E.
      intro H. injection H as <- <- <-.
      eapply perm_trans; [apply (IH _ _ _ _ E)|].
      rewrite app_assoc. apply Permutation_app_tail.
      unfold ParagraphMerger.stackedCombine. simpl. apply sortBy_perm.
    + destruct (ParagraphMerger.stackedScan _ _ _ _ base rest) as [[f u] c] eqn:E.
      intro H. injection H as <- <- <-. simpl.
      apply perm_trans
        with (ParagraphMerger.spans cand
              ++ ParagraphMerger.spans f ++ List.concat (map ParagraphMerger.spans u)).
      * rewrite !app_assoc. apply Permutation_app_tail. apply Permutation_app_comm.
      * apply perm_trans
          with (ParagraphMerger.spans cand
                ++ ParagraphMerger.spans base
                ++ List.concat (map ParagraphMerger.spans rest)).
        -- apply Permutation_app_head. apply (IH _ _ _ _ E).
        -- rewrite !app_assoc. apply Permutation_app_tail. apply Permutation_app_comm.
Qed.

Lemma stackedPass_perm (fuel : nat) :
  forall infos out changed,
    (List.length infos <= fuel)%nat ->
    ParagraphMerger.stackedPass cfg fuel lineHeight filteredStrips bands infos
    = (out, changed) ->
    Permutation (List.concat (map ParagraphMerger.spans out))
                (List.concat (map ParagraphMerger.spans infos)).
Proof.
  induction fuel as [|fuel IH]; intros infos out changed Hlen; simpl.
  - destruct infos; [|simpl in Hlen; lia].
    intro H. injection H as <- <-. apply Permutation_refl.
  - destruct infos as [|base later].
    + intro H. injection H as <- <-. apply Permutation_refl.
    + destruct (ParagraphMerger.stackedScan _ _ _ _ base later) as [[final unused] c1] eqn:E1.
      destruct (ParagraphMerger.stackedPass _ fuel _ _ _ unused) as [out' c2] eqn:E2.
      intro H. injection H as <- <-.
      pose proof (stackedScan_length cfg lineHeight filteredStrips bands _ _ _ _ _ E1) as L1.
      simpl in Hlen. simpl.
      eapply perm_trans; [|apply (stackedScan_perm _ _ _ _ _ E1)].
      assert (Hfuel : (List.length unused <= fuel)%nat) by lia.
      apply Permutation_app_head. apply (IH _ _ _ Hfuel E2).
Qed.

Lemma stackedLoop_perm (fuel : nat) :
  forall infos ps,
    ParagraphMerger.stackedLoop cfg fuel lineHeight filteredStrips bands infos
    = Returned ps ->
    Permutation (List.concat ps) (List.concat (map ParagraphMerger.spans infos)).
Proof.
  induction fuel as [|fuel IH]; intros infos ps; simpl; [discriminate|].
  destruct (ParagraphMerger.stackedPass _ _ _ _ _ infos) as [out changed] eqn:E.
  pose proof (stackedPass_perm _ _ _ _ (Nat.le_refl _) E) as P.
  destruct changed.
  - intro H. eapply perm_trans; [apply (IH _ _ H)|].
    eapply perm_trans; [|exact P].
    apply concat_perm. apply Permutation_map. apply sortBy_perm.
  - intro H. injection H as <-. exact P.
Qed.

End StackedPerm.

Lemma mergeStacked_spec (cfg : LayoutSettings) (paragraphs : list paragraph)
  (lineHeight : Q) (strips : list Strip.t) (bands : list Band.t)
  (viewportWidth : option Q) :
  allNonEmpty paragraphs ->
  exists out,
    ParagraphMerger.mergeStackedColumnParagraphsFromInfos cfg
      (S (List.length paragraphs)) paragraphs lineHeight strips bands viewportWidth
    = Returned out
    /\ Permutation (List.concat out) (List.concat paragraphs).
Proof.
  intro Hne. unfold ParagraphMerger.mergeStackedColumnParagraphsFromInfos.
  destruct paragraphs as [|p0 rest].
  { eexists. split; [reflexivity | apply Permutation_refl]. }
  destruct (mapM_proj ParagraphMerger.stackedInfoOf ParagraphMerger.spans
              (fun p => p <> []) (p0 :: rest)) as [infos [E1 E2]].
  - intros p Hp. destruct p as [|s0 ss]; [contradiction|].
    eexists. split; reflexivity.
  - exact Hne.
  - rewrite E1. unfold bind.
    destruct (stackedLoop_returns cfg lineHeight
                (ParagraphMerger.filterStrips cfg strips viewportWidth) bands
                (S (List.length (p0 :: rest))) (sortBy ParagraphMerger.infoLe infos))
      as [ps Hps].
    + rewrite sortBy_length, (mapM_length _ _ _ E1). lia.
    + exists ps. split; [exact Hps|].
      eapply perm_trans; [apply (stackedLoop_perm _ _ _ _ _ _ _ Hps)|].
      rewrite <- E2. apply concat_perm. apply Permutation_map. apply sortBy_perm.
Qed.

(** *** Stitching *)

Lemma stitchLoop_eq (cfg : LayoutSettings) (ordered : list SpanInfo.t) :
  forall prevI group stitched,
    ParagraphMerger.stitchLoop cfg prevI group stitched ordered
    = stitched ++ group ++ ordered.
Proof.
  induction ordered as [|curI rest IH]; intros prevI group stitched; simpl.
  - rewrite app_nil_r. reflexivity.
  - destruct (ParagraphMerger.stitches cfg prevI curI); rewrite IH.
    + rewrite <- app_assoc. reflexivity.
    + rewrite <- app_assoc. reflexivity.
Qed.

(** Stitching only sorts: the groups are concatenated in the order in which
    they were cut. *)
Lemma stitchParagraph_eq (cfg : LayoutSettings) (p : list SpanInfo.t) :
  ParagraphMerger.stitchParagraph cfg p
  = if Nat.ltb (List.length p) 2 then p else sortSpans p.
Proof.
  unfold ParagraphMerger.stitchParagraph.
  destruct (Nat.ltb (List.length p) 2); [reflexivity|].
  destruct (sortSpans p) as [|first rest]; [reflexivity|].
  rewrite stitchLoop_eq. reflexivity.
Qed.

Lemma stitchParagraph_perm (cfg : LayoutSettings) (p : list SpanInfo.t) :
  Permutation (ParagraphMerger.stitchParagraph cfg p) p.
Proof.
  rewrite stitchParagraph_eq.
  destruct (Nat.ltb (List.length p) 2); [apply Permutation_refl | apply sortBy_perm].
Qed.

(** *** Band and column ordering *)

Lemma bestBand_bound (sTop sBot : Q) (perBand : list LayoutDetector.BandRegions) :
  forall i best j,
    (forall k, fst best = Some k -> (k < i + List.length perBand)%nat) ->
    LayoutDetector.bestBand sTop sBot i best perBand = Some j ->
    (j < i + List.length perBand)%nat.
Proof.
  induction perBand as [|entry rest IH]; intros i best j Hbest; simpl.
  - intro H. apply Hbest. exact H.
  - destruct (Qle_bool _ 0).
    + intro H. apply (IH (S i) best j) in H; [lia|].
      intros k Hk. specialize (Hbest k Hk). simpl in Hbest. lia.
    + destruct (Qgtb _ (snd best)).
      * intro H. apply (IH (S i) _ j) in H; [lia|].
        simpl. intros k Hk. injection Hk as <-. lia.
      * intro H. apply (IH (S i) best j) in H; [lia|].
        intros k Hk. specialize (Hbest k Hk). simpl in Hbest. lia.
Qed.

Lemma nearestBand_bound (sc : Q) (perBand : list LayoutDetector.BandRegions) :
  forall i idx bestDist,
    (idx < i + List.length perBand)%nat ->
    (LayoutDetector.nearestBand sc i idx bestDist perBand < i + List.length perBand)%nat.
Proof.
  induction perBand as [|entry rest IH]; intros i idx bestDist Hidx; simpl.
  - exact Hidx.
  - simpl in Hidx.
    assert (Step : forall idx' bestDist',
               (idx' < S i + List.length rest)%nat ->
               (LayoutDetector.nearestBand sc (S i) idx' bestDist' rest
                < i + S (List.length rest))%nat).
    { intros idx' bestDist' H. specialize (IH (S i) idx' bestDist' H). lia. }
    destruct bestDist as [bd|].
    + destruct (Qltb _ bd); apply Step; lia.
    + apply Step. lia.
Qed.

Lemma bandIndexOf_bound (perBand : list LayoutDetector.BandRegions) (s : SpanInfo.t) :
  perBand <> [] ->
  (LayoutDetector.bandIndexOf perBand s < List.length perBand)%nat.
Proof.
  intro Hne. unfold LayoutDetector.bandIndexOf.
  destruct (LayoutDetector.bestBand _ _ 0 (None, 0) perBand) as [j|] eqn:E.
  - apply bestBand_bound in E; [exact E|]. simpl. discriminate.
  - apply (nearestBand_bound _ perBand 0 0 None).
    destruct perBand; [contradiction | simpl; lia].
Qed.

Lemma layoutRegionIndexOf_bound (regs : list LayoutDetector.Region) (cx : Q) :
  regs <> [] ->
  (LayoutDetector.regionIndexOf regs cx < List.length regs)%nat.
Proof.
  intro Hne. unfold LayoutDetector.regionIndexOf.
  destruct (findIndex _ regs) as [i|] eqn:E.
  - apply (findIndex_bound _ _ _ E).
  - destruct regs as [|r0 rest]; [contradiction|].
    destruct r0 as [l r|]; [destruct (Qltb cx l)|]; simpl; lia.
Qed.

Lemma orderBucket_perm (bucketSpans : list SpanInfo.t)
  (bucketRegions : list LayoutDetector.Region) :
  Permutation (LayoutDetector.orderBucket bucketSpans bucketRegions) bucketSpans.
Proof.
  unfold LayoutDetector.orderBucket.
  destruct bucketSpans as [|s0 ss]; [apply perm_nil|].
  cbv zeta.
  match goal with
  | |- context [Nat.leb ?n 1] => destruct (Nat.leb n 1)
  end; [apply sortBy_perm|].
  rewrite flat_map_concat_map.
  eapply perm_trans; [apply concat_perm_map; intro p; apply sortBy_perm|].
  apply buckets_perm. apply Forall_forall. intros x _.
  apply layoutRegionIndexOf_bound.
  destruct bucketRegions; discriminate.
Qed.

Lemma bandBuckets_perm (B : nat -> list SpanInfo.t)
  (perBand : list LayoutDetector.BandRegions) :
  forall start,
    Permutation
      (flat_map (fun b => LayoutDetector.orderBucket (fst b) (snd b))
         (map (fun ie => (B (fst ie), LayoutDetector.regions (snd ie)))
            (combine (seq start (List.length perBand)) perBand)))
      (List.concat (map B (seq start (List.length perBand)))).
Proof.
  induction perBand as [|entry rest IH]; intro start; simpl.
  - apply perm_nil.
  - apply Permutation_app; [apply orderBucket_perm | apply IH].
Qed.

Lemma orderParagraph_perm (para : list SpanInfo.t)
  (perBandRegions : list LayoutDetector.BandRegions) :
  Permutation (LayoutDetector.orderParagraphByBandsAndColumns para perBandRegions) para.
Proof.
  unfold LayoutDetector.orderParagraphByBandsAndColumns.
  destruct para as [|s0 ss]; [apply perm_nil|].
  assert (P : Permutation
                (flat_map (fun b => LayoutDetector.orderBucket (fst b) (snd b))
                   match perBandRegions with
                   | [] => [(s0 :: ss, [LayoutDetector.AllLine])]
                   | _ :: _ =>
                     map (fun ie =>
                            (ParagraphMerger.bucketOf
                               (LayoutDetector.bandIndexOf perBandRegions) (s0 :: ss) (fst ie),
                             LayoutDetector.regions (snd ie)))
                       (combine (seq 0 (List.length perBandRegions)) perBandRegions)
                   end)
                (s0 :: ss)).
  { destruct perBandRegions as [|e es] eqn:E.
    - change (Permutation
                (LayoutDetector.orderBucket (s0 :: ss) [LayoutDetector.AllLine] ++ [])
                (s0 :: ss)).
      rewrite app_nil_r. apply orderBucket_perm.
    - rewrite <- E.
      eapply perm_trans;
        [apply (bandBuckets_perm
                  (ParagraphMerger.bucketOf (LayoutDetector.bandIndexOf perBandRegions)
                     (s0 :: ss)) perBandRegions 0)|].
      apply buckets_perm. apply Forall_forall. intros x _.
      apply bandIndexOf_bound. rewrite E. discriminate. }
  cbv zeta.
  destruct (flat_map _ _) as [|o os]; [apply Permutation_refl | exact P].
Qed.

(** *** Deduplication *)

Lemma existsb_eqb_false (x : nat) (l : list nat) :
  ~ In x l -> existsb (Nat.eqb x) l = false.
Proof.
  intro H. destruct (existsb (Nat.eqb x) l) eqn:E; [|reflexivity].
  apply existsb_exists in E. destruct E as [y [Hy Exy]].
  apply Nat.eqb_eq in Exy. subst y. contradiction.
Qed.

Lemma dedupSpans_id (para : list SpanInfo.t) :
  forall globalSeen paragraphSeen,
    NoDup (map SpanInfo.span para) ->
    (forall s, In s para ->
               ~ In (SpanInfo.span s) globalSeen /\ ~ In (SpanInfo.span s) paragraphSeen) ->
    LayoutDetector.dedupSpans globalSeen paragraphSeen para
    = (para, rev (map SpanInfo.span para) ++ globalSeen).
Proof.
  induction para as [|s rest IH]; intros globalSeen paragraphSeen Hnd Hfresh; simpl.
  - reflexivity.
  - destruct (Hfresh s (or_introl eq_refl)) as [Hg Hp].
    rewrite (existsb_eqb_false _ _ Hg), (existsb_eqb_false _ _ Hp). simpl.
    inversion Hnd as [|? ? Hs Hrest]; subst.
    rewrite IH.
    + rewrite <- app_assoc. reflexivity.
    + exact Hrest.
    + intros s' Hs'. destruct (Hfresh s' (or_intror Hs')) as [Hg' Hp'].
      assert (Hneq : SpanInfo.span s <> SpanInfo.span s').
      { intro Eq. apply Hs. rewrite Eq. apply in_map. exact Hs'. }
      split; intros [H|H]; try contradiction; exact (Hneq H).
Qed.

Lemma NoDup_app_disjoint {A : Type} (l1 l2 : list A) (x : A) :
  NoDup (l1 ++ l2) -> In x l1 -> ~ In x l2.
Proof.
  induction l1 as [|y r IH]; simpl; intros Hnd Hin; [contradiction|].
  inversion Hnd as [|? ? Hy Hr]; subst.
  destruct Hin as [<-|Hin].
  - intro H. apply Hy. apply in_or_app. right. exact H.
  - apply IH; assumption.
Qed.

Lemma dedupLoop_concat (paragraphs : list (list SpanInfo.t)) :
  forall globalSeen,
    NoDup (map SpanInfo.span (List.concat paragraphs)) ->
    (forall s, In s (List.concat paragraphs) -> ~ In (SpanInfo.span s) globalSeen) ->
    List.concat (LayoutDetector.dedupLoop globalSeen paragraphs)
    = List.concat paragraphs.
Proof.
  induction paragraphs as [|para rest IH]; intros globalSeen Hnd Hfresh; simpl.
  - reflexivity.
  - simpl in Hnd, Hfresh. rewrite map_app in Hnd.
    rewrite dedupSpans_id.
    + assert (Hrest : List.concat
                        (LayoutDetector.dedupLoop
                           (rev (map SpanInfo.span para) ++ globalSeen) rest)
                      = List.concat rest).
      { apply IH.
        - apply (NoDup_app_remove_l _ _ Hnd).
        - intros s Hs Hin. apply in_app_or in Hin. destruct Hin as [Hin|Hin].
          + apply in_rev in Hin.
            apply (NoDup_app_disjoint _ _ _ Hnd Hin). apply in_map. exact Hs.
          + apply (Hfresh s); [apply in_or_app; right; exact Hs | exact Hin]. }
      destruct para as [|s0 ss]; cbn [List.concat app]; rewrite Hrest; reflexivity.
    + apply (NoDup_app_remove_r _ _ Hnd).
    + intros s Hs. split; [|intros []].
      apply Hfresh. apply in_or_app. left. exact Hs.
Qed.

(** *** The orchestrator *)

Section Orchestrator.
Variable settings : LayoutSettings.
Variables (lineHeight : Q) (verticalStrips : list Strip.t) (layoutBands : list Band.t).

Lemma splitThenMerge_spec (paragraphs : list (list SpanInfo.t)) :
  allNonEmpty paragraphs ->
  exists out,
    LayoutDetector.splitThenMerge settings lineHeight verticalStrips layoutBands paragraphs
    = Returned out
    /\ Permutation (List.concat out) (List.concat paragraphs)
    /\ allNonEmpty out.
Proof.
  intro Hne. unfold LayoutDetector.splitThenMerge.
  destruct (validate_spec settings paragraphs verticalStrips 0 None) as [V1 V2].
  destruct (mergeParagraphs_spec settings _ lineHeight verticalStrips layoutBands None
              (V2 Hne)) as [out [E [P N]]].
  exists out. split; [exact E|]. split; [|exact N].
  eapply perm_trans; [exact P | exact V1].
Qed.

Lemma nestedIterations_spec (guard : nat) :
  forall paragraphs,
    allNonEmpty paragraphs ->
    exists out,
      LayoutDetector.nestedIterations settings guard lineHeight verticalStrips
        layoutBands paragraphs = Returned out
      /\ Permutation (List.concat out) (List.concat paragraphs)
      /\ allNonEmpty out.
Proof.
  induction guard as [|guard IH]; intros paragraphs Hne; simpl.
  - exists paragraphs. split; [reflexivity|]. split; [apply Permutation_refl | exact Hne].
  - destruct (mergeNested_spec settings paragraphs verticalStrips layoutBands None Hne)
      as [once [E [P N]]].
    rewrite E. simpl.
    destruct (snd once); simpl.
    + destruct (splitThenMerge_spec (fst once) N) as [merged [E2 [P2 N2]]].
      rewrite E2. simpl.
      destruct (IH merged N2) as [out [E3 [P3 N3]]].
      exists out. split; [exact E3|]. split; [|exact N3].
      eapply perm_trans; [exact P3|]. eapply perm_trans; [exact P2 | exact P].
    + exists (fst once). split; [reflexivity|]. split; assumption.
Qed.

Lemma stages2to5_spec (paragraphs : list (list SpanInfo.t)) :
  allNonEmpty paragraphs ->
  exists out,
    LayoutDetector.stages2to5 settings lineHeight verticalStrips layoutBands paragraphs
    = Returned out
    /\ Permutation (List.concat out) (List.concat paragraphs).
Proof.
  intro Hne. unfold LayoutDetector.stages2to5.
  destruct (splitThenMerge_spec paragraphs Hne) as [merged [E1 [P1 N1]]].
  rewrite E1. simpl.
  destruct (nestedIterations_spec (maxIterMerges settings) merged N1)
    as [nested [E2 [P2 N2]]].
  rewrite E2. simpl.
  destruct (mergeStacked_spec settings nested lineHeight verticalStrips layoutBands
              None N2) as [out [E3 P3]].
  exists out. split; [exact E3|].
  eapply perm_trans; [exact P3|]. eapply perm_trans; [exact P2 | exact P1].
Qed.

Lemma finishParagraphs_perm (pageRect : Rect.t) (paragraphs : list (list SpanInfo.t)) :
  NoDup (map SpanInfo.span (List.concat paragraphs)) ->
  Permutation
    (List.concat
       (LayoutDetector.finishParagraphs settings verticalStrips layoutBands pageRect
          paragraphs))
    (List.concat paragraphs).
Proof.
  intro Hnd. unfold LayoutDetector.finishParagraphs.
  set (stitched := ParagraphMerger.stitchInlineLigaturesFromInfos settings paragraphs).
  set (ordered :=
         match layoutBands with
         | [] => stitched
         | _ :: _ =>
           map (fun para =>
                  LayoutDetector.orderParagraphByBandsAndColumns para
                    (LayoutDetector.buildPerBandColumnRegions settings verticalStrips
                       pageRect layoutBands))
             stitched
         end).
  assert (P1 : Permutation (List.concat stitched) (List.concat paragraphs)).
  { apply concat_perm_map. intro p. apply stitchParagraph_perm. }
  assert (P2 : Permutation (List.concat ordered) (List.concat paragraphs)).
  { subst ordered. destruct layoutBands; [exact P1|].
    eapply perm_trans; [|exact P1].
    apply concat_perm_map. intro p. apply orderParagraph_perm. }
  assert (P3 : Permutation (List.concat (map sortSpans ordered)) (List.concat paragraphs)).
  { eapply perm_trans; [|exact P2].
    apply concat_perm_map. intro p. apply sortBy_perm. }
  unfold LayoutDetector.deduplicateParagraphs.
  rewrite dedupLoop_concat.
  - exact P3.
  - apply (Permutation_NoDup (l := map SpanInfo.span (List.concat paragraphs))); [|exact Hnd].
    apply Permutation_map. apply Permutation_sym. exact P3.
  - intros s _ [].
Qed.

End Orchestrator.

Lemma detectLayoutWith_spec (settings : LayoutSettings) (infoMap : list SpanInfo.t)
  (pageRect : Rect.t) (gapAnalysis : GapDetector.GapAnalysis)
  (gridLines : Q -> list Q) :
  NoDup (map SpanInfo.span infoMap) ->
  exists out,
    LayoutDetector.detectLayoutWith settings infoMap pageRect gapAnalysis gridLines
    = Returned out
    /\ Permutation (List.concat out) infoMap.
Proof.
  intro Hnd. unfold LayoutDetector.detectLayoutWith. cbv zeta.
  destruct (stages2to5_spec settings
              (LayoutDetector.pageLineHeight settings infoMap pageRect)
              (LayoutDetector.keptStrips settings (GapDetector.verticalStrips gapAnalysis))
              (LayoutDetector.layoutBandsOf settings gapAnalysis
                 (gridLines (LayoutDetector.pageLineHeight settings infoMap pageRect))
                 pageRect (LayoutDetector.pageLineHeight settings infoMap pageRect))
              (ParagraphMerger.mergeIntoParagraphsFromInfos settings infoMap))
    as [merged [E P]].
  { apply groupLoop_nonEmpty. }
  rewrite E. simpl.
  eexists. split; [reflexivity|].
  assert (Pm : Permutation (List.concat merged) infoMap).
  { eapply perm_trans; [exact P | apply mergeInto_perm]. }
  eapply perm_trans; [|exact Pm].
  apply finishParagraphs_perm.
  apply (Permutation_NoDup (l := map SpanInfo.span infoMap)); [|exact Hnd].
  apply Permutation_map. apply Permutation_sym. exact Pm.
Qed.

(** C1. [detectLayout] returns, and in the paragraphs it returns every span
    of the input occurs exactly once: no span occurs twice, within a
    paragraph or across paragraphs, every input span occurs, and nothing
    occurs that was not in the input.  ([detectLayout] itself filters no
    span: the validity filter is applied by its caller.) *)
Theorem detectLayout_partitions_fragments :
  forall (settings : LayoutSettings) (Msqrt : Q -> Q)
         (detectGrid : list Rect.t -> Rect.t -> Q -> list Q)
         (spans : list SpanInfo.t) (pageRect : Rect.t),
  exists out,
    LayoutDetector.detectLayout settings Msqrt detectGrid spans pageRect = Returned out
    /\ NoDup (map SpanInfo.span (List.concat out))
    /\ (forall id, In id (map SpanInfo.span (List.concat out))
                   <-> In id (map SpanInfo.span spans))
    /\ (forall s, In s (List.concat out) -> In s spans).
Proof.
  intros settings Msqrt detectGrid spans pageRect.
  destruct (buildSnapshot_spec spans) as [Hnd [Hids Hin]].
  unfold LayoutDetector.detectLayout. cbv zeta.
  destruct (detectLayoutWith_spec settings (Snapshot.buildSnapshot spans) pageRect
              (GapDetector.detectGapsFromRects Msqrt
                 (map SpanInfo.rect (Snapshot.buildSnapshot spans)) pageRect)
              (detectGrid (map SpanInfo.rect (Snapshot.buildSnapshot spans)) pageRect)
              Hnd) as [out [E P]].
  exists out. split; [exact E|]. split; [|split].
  - apply (Permutation_NoDup (l := map SpanInfo.span (Snapshot.buildSnapshot spans)));
      [|exact Hnd].
    apply Permutation_map. apply Permutation_sym. exact P.
  - intro id. rewrite <- Hids. split; apply Permutation_in; apply Permutation_map.
    + exact P.
    + apply Permutation_sym. exact P.
  - intros s Hs. apply Hin. apply (Permutation_in _ P). exact Hs.
Qed.

(** ** C5: stages 2 to 5 run again on the output *)


(** ** C8: a pass that merges *)

Lemma stacked_pass_terminates_witness :
  exists out,
    ParagraphMerger.stackedPass defaultLayoutSettings
      (List.length StackedExample.infos) 12.8 [] [] StackedExample.infos
    = (out, true)
    /\ (List.length out < List.length StackedExample.infos)%nat.
Proof.
  eexists. split.
  - vm_compute. reflexivity.
  - exact (proj1 (stacked_pass_terminates defaultLayoutSettings 12.8 [] [] None)
             StackedExample.infos _ true eq_refl).
Defined.

(** ** C3: two single-span paragraphs that no stage merges *)

Lemma far_apart (x y tol : Q) : tol <= y - x -> Qltb (absQ (x - y)) tol = false.
Proof.
  intro H. apply Qltb_false. unfold absQ. rewrite Qabs_Qminus.
  apply Qle_trans with (y - x); [exact H | apply Qle_Qabs].
Qed.

Lemma getParaBbox_single (s : SpanInfo.t) :
  ParagraphMerger.getParaBbox [s]
  = Rect.mk (Rect.left (SpanInfo.rect s)) (Rect.top (SpanInfo.rect s))
      (Rect.right (SpanInfo.rect s)) (Rect.bottom (SpanInfo.rect s))
      (Rect.right (SpanInfo.rect s) - Rect.left (SpanInfo.rect s))
      (Rect.bottom (SpanInfo.rect s) - Rect.top (SpanInfo.rect s)).
Proof. reflexivity. Qed.

Section TwoApart.
Variable cfg : LayoutSettings.
Variables a b : SpanInfo.t.

Lemma split_singleton (s : SpanInfo.t) (strips : list Strip.t) (lineHeight : Q) :
  ParagraphMerger.splitParagraphByStrips cfg [s] strips lineHeight = [[s]].
Proof. destruct strips; reflexivity. Qed.

Lemma validate_two_singletons (strips : list Strip.t) (lineHeight : Q)
  (viewportWidth : option Q) :
  ParagraphMerger.validateParagraphsAgainstStripsFromInfos cfg [[a]; [b]] strips
    lineHeight viewportWidth = [[a]; [b]].
Proof.
  unfold ParagraphMerger.validateParagraphsAgainstStripsFromInfos.
  destruct (pmForceLinearMerge cfg); [reflexivity|].
  destruct strips as [|st sts]; [reflexivity|].
  destruct (ParagraphMerger.filterStrips cfg (st :: sts) viewportWidth) as [|f fs];
    [reflexivity|].
  cbn [flat_map]. rewrite !split_singleton. reflexivity.
Qed.

Lemma mergeParagraphs_two_apart (lineHeight : Q) (strips : list Strip.t)
  (bands : list Band.t) (viewportWidth : option Q) :
  ParagraphMerger.generalMerges cfg lineHeight
    (ParagraphMerger.filterStrips cfg strips viewportWidth) bands
    (SpanInfo.style a) (ParagraphMerger.getParaBbox [a]) (SpanInfo.style b) [b] = false ->
  ParagraphMerger.mergeParagraphsFromInfos cfg [[a]; [b]] lineHeight strips bands
    viewportWidth = Returned [[a]; [b]].
Proof.
  intro H. unfold ParagraphMerger.mergeParagraphsFromInfos.
  cbn [ParagraphMerger.mapM ParagraphMerger.firstStyle bind List.length
       ParagraphMerger.generalLoop ParagraphMerger.generalScan].
  rewrite H. reflexivity.
Qed.

Lemma mergeNested_two_apart (strips : list Strip.t) (bands : list Band.t)
  (viewportWidth : option Q) :
  ParagraphMerger.nestedMerges cfg
    (ParagraphMerger.filterStrips cfg strips viewportWidth) bands
    (ParagraphMerger.mkTInfo [a] (ParagraphMerger.getParaBbox [a]) (SpanInfo.style a)
       (ParagraphMerger.anyMath [a]) (ParagraphMerger.joinText [a]))
    (ParagraphMerger.mkTInfo [b] (ParagraphMerger.getParaBbox [b]) (SpanInfo.style b)
       (ParagraphMerger.anyMath [b]) (ParagraphMerger.joinText [b])) = false ->
  ParagraphMerger.mergeNestedParagraphsOnceFromInfos cfg [[a]; [b]] strips bands
    viewportWidth = Returned ([[a]; [b]], false).
Proof.
  intro H. unfold ParagraphMerger.mergeNestedParagraphsOnceFromInfos.
  cbn [ParagraphMerger.mapM ParagraphMerger.nestedInfoOf ParagraphMerger.firstStyle bind
       List.length ParagraphMerger.nestedLoop ParagraphMerger.nestedFind].
  rewrite H. reflexivity.
Qed.

Lemma mergeStacked_two_apart (fuel : nat) (lineHeight : Q) (strips : list Strip.t)
  (bands : list Band.t) (viewportWidth : option Q) :
  spanLe a b = true ->
  ParagraphMerger.stackedMerges cfg lineHeight
    (ParagraphMerger.filterStrips cfg strips viewportWidth) bands
    (ParagraphMerger.mkPInfo [a] (ParagraphMerger.getParaBbox [a]) (SpanInfo.style a)
       (ParagraphMerger.anyMath [a]))
    (ParagraphMerger.mkPInfo [b] (ParagraphMerger.getParaBbox [b]) (SpanInfo.style b)
       (ParagraphMerger.anyMath [b])) = false ->
  ParagraphMerger.mergeStackedColumnParagraphsFromInfos cfg (S fuel) [[a]; [b]]
    lineHeight strips bands viewportWidth = Returned [[a]; [b]].
Proof.
  intros Hle H. unfold ParagraphMerger.mergeStackedColumnParagraphsFromInfos.
  cbn [ParagraphMerger.mapM ParagraphMerger.stackedInfoOf ParagraphMerger.firstStyle bind].
  assert (Hsort :
            sortBy ParagraphMerger.infoLe
              [ ParagraphMerger.mkPInfo [a] (ParagraphMerger.getParaBbox [a])
                  (SpanInfo.style a) (ParagraphMerger.anyMath [a]);
                ParagraphMerger.mkPInfo [b] (ParagraphMerger.getParaBbox [b])
                  (SpanInfo.style b) (ParagraphMerger.anyMath [b]) ]
            = [ ParagraphMerger.mkPInfo [a] (ParagraphMerger.getParaBbox [a])
                  (SpanInfo.style a) (ParagraphMerger.anyMath [a]);
                ParagraphMerger.mkPInfo [b] (ParagraphMerger.getParaBbox [b])
                  (SpanInfo.style b) (ParagraphMerger.anyMath [b]) ]).
  { cbn [sortBy insertBy].
    assert (E : ParagraphMerger.infoLe
                  (ParagraphMerger.mkPInfo [a] (ParagraphMerger.getParaBbox [a])
                     (SpanInfo.style a) (ParagraphMerger.anyMath [a]))
                  (ParagraphMerger.mkPInfo [b] (ParagraphMerger.getParaBbox [b])
                     (SpanInfo.style b) (ParagraphMerger.anyMath [b])) = true)
      by exact Hle.
    rewrite E. reflexivity. }
  rewrite Hsort.
  cbn [ParagraphMerger.stackedLoop List.length ParagraphMerger.stackedPass
       ParagraphMerger.stackedScan].
  rewrite H. reflexivity.
Qed.

Lemma finish_two_singletons (verticalStrips : list Strip.t) (layoutBands : list Band.t)
  (pageRect : Rect.t) :
  SpanInfo.span a <> SpanInfo.span b ->
  LayoutDetector.finishParagraphs cfg verticalStrips layoutBands pageRect [[a]; [b]]
  = [[a]; [b]].
Proof.
  intro Hneq. unfold LayoutDetector.finishParagraphs.
  assert (Hord : forall (s : SpanInfo.t) pb,
             LayoutDetector.orderParagraphByBandsAndColumns [s] pb = [s]).
  { intros s pb. apply Permutation_length_1_inv. apply Permutation_sym.
    apply orderParagraph_perm. }
  assert (E : map sortSpans
                match layoutBands with
                | [] => ParagraphMerger.stitchInlineLigaturesFromInfos cfg [[a]; [b]]
                | _ :: _ =>
                  map (fun para =>
                         LayoutDetector.orderParagraphByBandsAndColumns para
                           (LayoutDetector.buildPerBandColumnRegions cfg verticalStrips
                              pageRect layoutBands))
                    (ParagraphMerger.stitchInlineLigaturesFromInfos cfg [[a]; [b]])
                end = [[a]; [b]]).
  { destruct layoutBands; [reflexivity|].
    cbn [ParagraphMerger.stitchInlineLigaturesFromInfos map
         ParagraphMerger.stitchParagraph List.length Nat.ltb Nat.leb].
    rewrite !Hord. reflexivity. }
  rewrite E. unfold LayoutDetector.deduplicateParagraphs.
  cbn [LayoutDetector.dedupLoop LayoutDetector.dedupSpans existsb negb andb orb].
  assert (Hb : Nat.eqb (SpanInfo.span b) (SpanInfo.span a) = false).
  { apply Nat.eqb_neq. intro H. apply Hneq. symmetry. exact H. }
  rewrite Hb. reflexivity.
Qed.

End TwoApart.

Lemma far_apart_rev (x y tol : Q) : tol <= x - y -> Qltb (absQ (x - y)) tol = false.
Proof.
  intro H. apply Qltb_false. apply Qle_trans with (x - y); [exact H | apply Qle_Qabs].
Qed.

Lemma maxQ_le (a b m : Q) : a <= m -> b <= m -> maxQ a b <= m.
Proof. intros Ha Hb. destruct (maxQ_cases a b) as [[_ E]|[_ E]]; rewrite E; assumption. Qed.

Lemma minQ_le_l (a b m : Q) : a <= m -> minQ a b <= m.
Proof.
  intro Ha. destruct (minQ_cases a b) as [[H E]|[H E]]; rewrite E; lra.
Qed.

Lemma orElse_le (x d m : Q) : x <= m -> d <= m -> orElse x d <= m.
Proof. intros Hx Hd. unfold orElse. destruct (Qeq_bool x 0); assumption. Qed.

Section Apart.
Variable cfg : LayoutSettings.
Hypothesis geometric : pmForceLinearMerge cfg = false.

Lemma generalMerges_apart (lineHeight : Q) (filteredStrips : list Strip.t)
  (bands : list Band.t) (currStyle nextStyle : Style.t) (currBbox : Rect.t)
  (next : list SpanInfo.t) :
  Qltb (absQ (Rect.left currBbox - Rect.left (ParagraphMerger.getParaBbox next)))
       (Style.fontSize currStyle * pmGeneralMergeAlignTol cfg) = false ->
  Qltb (absQ (Rect.right currBbox - Rect.right (ParagraphMerger.getParaBbox next)))
       (Style.fontSize currStyle * pmGeneralMergeAlignTol cfg) = false ->
  ParagraphMerger.overlapStrongOf (pmGeneralMergeOverlapFrac cfg) currBbox
    (ParagraphMerger.getParaBbox next) = false ->
  ParagraphMerger.generalMerges cfg lineHeight filteredStrips bands currStyle currBbox
    nextStyle next = false.
Proof.
  intros H1 H2 H3. unfold ParagraphMerger.generalMerges.
  destruct (negb (ParagraphMerger.stylesMatchStyle cfg currStyle nextStyle true));
    [reflexivity|].
  destruct (negb (ParagraphMerger.sameColumnByStrips cfg currBbox _ filteredStrips));
    [reflexivity|].
  destruct (ParagraphMerger.hasHorizontalBandBetween cfg currBbox _ bands);
    [reflexivity|].
  cbv zeta. rewrite H1, H2, H3, geometric. apply andb_false_r.
Qed.

Lemma stackedMerges_apart (lineHeight : Q) (filteredStrips : list Strip.t)
  (bands : list Band.t) (base cand : ParagraphMerger.PInfo) :
  Qltb (absQ (Rect.left (ParagraphMerger.bbox base) - Rect.left (ParagraphMerger.bbox cand)))
       (maxQ 1 (minQ (Style.fontSize (ParagraphMerger.style base))
                     (Style.fontSize (ParagraphMerger.style cand))
                * pmStackedMergeAlignTol cfg)) = false ->
  Qltb (absQ (Rect.right (ParagraphMerger.bbox base) - Rect.right (ParagraphMerger.bbox cand)))
       (maxQ 1 (minQ (Style.fontSize (ParagraphMerger.style base))
                     (Style.fontSize (ParagraphMerger.style cand))
                * pmStackedMergeAlignTol cfg)) = false ->
  ParagraphMerger.overlapStrongOf (pmStackedMergeOverlapFrac cfg)
    (ParagraphMerger.bbox base) (ParagraphMerger.bbox cand) = false ->
  ParagraphMerger.stackedMerges cfg lineHeight filteredStrips bands base cand = false.
Proof.
  intros H1 H2 H3. unfold ParagraphMerger.stackedMerges.
  destruct (negb (ParagraphMerger.stylesMatchStyle cfg _ _ true)); [reflexivity|].
  destruct (negb (ParagraphMerger.sameColumnByStrips cfg _ _ filteredStrips));
    [reflexivity|].
  destruct (ParagraphMerger.hasHorizontalBandBetween cfg _ _ bands); [reflexivity|].
  cbv zeta. destruct (Qltb _ 0); [reflexivity|].
  rewrite H1, H2, H3, geometric. reflexivity.
Qed.

Lemma isMathMergeCandidate_apart (a b : ParagraphMerger.TInfo) (strips : list Strip.t) :
  Qltb (absQ (Rect.left (ParagraphMerger.tbbox a) - Rect.left (ParagraphMerger.tbbox b)))
       (orElse (maxQ (Style.fontSize (ParagraphMerger.tstyle a))
                     (Style.fontSize (ParagraphMerger.tstyle b))) 12
        * pmMathMergeHorizTol cfg) = false ->
  Qltb (absQ ((Rect.left (ParagraphMerger.tbbox a) + Rect.right (ParagraphMerger.tbbox a)) / 2
              - (Rect.left (ParagraphMerger.tbbox b) + Rect.right (ParagraphMerger.tbbox b)) / 2))
       (orElse (maxQ (Style.fontSize (ParagraphMerger.tstyle a))
                     (Style.fontSize (ParagraphMerger.tstyle b))) 12
        * pmMathMergeCenterTol cfg) = false ->
  ParagraphMerger.isMathMergeCandidate cfg a b strips = false.
Proof.
  intros H1 H2. unfold ParagraphMerger.isMathMergeCandidate. cbv zeta.
  rewrite H1, H2.
  destruct (negb (ParagraphMerger.sameColumnByStrips cfg _ _ strips)); [reflexivity|].
  destruct (_ || _); apply andb_false_r.
Qed.

Lemma nestedMerges_apart (filteredStrips : list Strip.t) (bands : list Band.t)
  (base cand : ParagraphMerger.TInfo) :
  ParagraphMerger.rectContains (ParagraphMerger.tbbox base) (ParagraphMerger.tbbox cand) 1
  = false ->
  ParagraphMerger.rectContains (ParagraphMerger.tbbox cand) (ParagraphMerger.tbbox base) 1
  = false ->
  ParagraphMerger.rectIntersection (ParagraphMerger.tbbox base) (ParagraphMerger.tbbox cand)
  = None ->
  ParagraphMerger.isMathMergeCandidate cfg base cand filteredStrips = false ->
  ParagraphMerger.nestedMerges cfg filteredStrips bands base cand = false.
Proof.
  intros H1 H2 H3 H4. unfold ParagraphMerger.nestedMerges.
  destruct (negb (ParagraphMerger.stylesMatchStyle cfg _ _ true)); [reflexivity|].
  destruct (negb (ParagraphMerger.sameColumnByStrips cfg _ _ filteredStrips));
    [reflexivity|].
  destruct (ParagraphMerger.hasHorizontalBandBetween cfg _ _ bands); [reflexivity|].
  cbv zeta. rewrite H1, H2, H3, H4. simpl. apply andb_false_r.
Qed.

End Apart.

Section SideBySide.
Variables (idl idr : nat) (t b wl hl wr hr : Q) (stl str : Style.t)
  (ml mr : bool) (txl txr : text_t).

Local Abbreviation l := (ColumnExample.leftOf idl t b wl hl stl ml txl) (only parsing).
Local Abbreviation r := (ColumnExample.rightOf idr t b wr hr str mr txr) (only parsing).

Lemma side_by_side_order : spanLe l r = true.
Proof.
  unfold spanLe, leTopLeft, cmpTopLeft. simpl SpanInfo.rect.
  cbn [Rect.top Rect.left].
  assert (E : Qeq_bool (t - t) 0 = true) by (apply Qeq_bool_iff; ring).
  rewrite E. reflexivity.
Qed.

Lemma side_by_side_overlap (frac : Q) :
  ParagraphMerger.overlapStrongOf frac (ParagraphMerger.getParaBbox [l])
    (ParagraphMerger.getParaBbox [r]) = false.
Proof. reflexivity. Qed.

End SideBySide.

(** * Further properties *)

(** ** RegionDetector.ts *)

Lemma histogram_fold_length (g : Q) (rest : list Q) :
  forall columns,
    (List.length columns
     <= List.length
          (fold_left
             (fun columns currentLeft =>
                if Qgtb (absQ (currentLeft - RegionDetector.closestColumn columns currentLeft)) g
                then columns ++ [currentLeft] else columns)
             rest columns)
     <= List.length columns + List.length rest)%nat.
Proof.
  induction rest as [|c rest IH]; intros columns; cbn [fold_left List.length].
  - lia.
  - destruct (Qgtb _ g).
    + specialize (IH (columns ++ [c])). rewrite length_app in IH.
      cbn [List.length] in IH. lia.
    + specialize (IH columns). lia.
Qed.

Lemma countColumns_bounds (spans : list Rect.t) (gapThreshold : Q) :
  spans <> [] ->
  (1 <= RegionDetector._countColumnsHistogram spans gapThreshold <= List.length spans)%nat.
Proof.
  intros Hne. unfold RegionDetector._countColumnsHistogram.
  destruct spans as [|s0 [|s1 rest]]; [congruence | simpl; lia |].
  pose proof (sortBy_length Qle_bool (map Rect.left (s0 :: s1 :: rest))) as Hlen.
  unfold sortNum.
  destruct (sortBy Qle_bool (map Rect.left (s0 :: s1 :: rest))) as [|c0 cs] eqn:E.
  - simpl in Hlen. discriminate.
  - pose proof (histogram_fold_length gapThreshold cs [c0]) as H.
    rewrite length_map in Hlen. simpl in *. lia.
Qed.

(** X1. The column count of a non-empty sampling window is at least one and
    at most the number of spans in the window. *)
Theorem countColumnsHistogram_bounds :
  forall (spans : list Rect.t) (gapThreshold : Q),
    spans <> [] ->
    (1 <= RegionDetector._countColumnsHistogram spans gapThreshold
     <= List.length spans)%nat.
Proof. intros spans g H. apply countColumns_bounds. exact H. Qed.

Lemma countColumnsHistogram_bounds_witness :
  [Examples.box 0 0 40 10; Examples.box 100 0 140 10; Examples.box 101 0 150 10] <> []
  /\ (1 <= RegionDetector._countColumnsHistogram
             [Examples.box 0 0 40 10; Examples.box 100 0 140 10; Examples.box 101 0 150 10]
             20
      <= 3)%nat.
Proof.
  split; [discriminate|].
  apply (countColumnsHistogram_bounds
           [Examples.box 0 0 40 10; Examples.box 100 0 140 10; Examples.box 101 0 150 10] 20).
  discriminate.
Defined.

(** The points of the density profile: sampled inside the page, downwards,
    each with at least one column. *)
Lemma sampleLoop_points (step pageBottom avg : Q)
  (options : RegionDetector.DetectionOptions) (fuel : nat) :
  0 <= step ->
  forall y pending active p,
    In p (RegionDetector.sampleLoop fuel y step pageBottom avg options pending active) ->
    y <= RegionDetector.y p /\ RegionDetector.y p < pageBottom
    /\ (1 <= RegionDetector.cols p)%nat.
Proof.
  intros Hstep. induction fuel as [|fuel IH]; intros y pending active p Hin;
    cbn [RegionDetector.sampleLoop] in Hin.
  - contradiction.
  - destruct (Qltb y pageBottom) eqn:Ey; [|contradiction].
    apply Qltb_true in Ey.
    destruct (RegionDetector.enterWindow y pending
                (filter (fun s => negb (Qltb (Rect.bottom s) y)) active))
      as [pending' active'] eqn:Ew.
    apply in_app_or in Hin. destruct Hin as [Hin|Hin].
    + destruct active' as [|a0 ar]; [contradiction|].
      destruct Hin as [<-|[]]. cbn [RegionDetector.y RegionDetector.cols].
      split; [lra|]. split; [exact Ey|].
      apply countColumns_bounds. discriminate.
    + apply IH in Hin. destruct Hin as [H1 [H2 H3]]. split; [lra|]. tauto.
Qed.

Lemma sampleLoop_sorted (step pageBottom avg : Q)
  (options : RegionDetector.DetectionOptions) (fuel : nat) :
  0 < step ->
  forall y pending active,
    StronglySorted (fun p q => RegionDetector.y p < RegionDetector.y q)
      (RegionDetector.sampleLoop fuel y step pageBottom avg options pending active).
Proof.
  intros Hstep. induction fuel as [|fuel IH]; intros y pending active;
    cbn [RegionDetector.sampleLoop].
  - constructor.
  - destruct (Qltb y pageBottom) eqn:Ey; [|constructor].
    destruct (RegionDetector.enterWindow y pending
                (filter (fun s => negb (Qltb (Rect.bottom s) y)) active))
      as [pending' active'] eqn:Ew.
    destruct active' as [|a0 ar]; cbn [app]; [apply IH|].
    constructor; [apply IH|].
    apply Forall_forall. intros q Hq.
    apply sampleLoop_points in Hq; [|lra]. cbn [RegionDetector.y]. lra.
Qed.

Lemma ladder_le (l : list Segment.t) : forall t b, ladder t l b -> t <= b.
Proof.
  induction l as [|s r IH]; intros t b H; cbn [ladder] in H; [exact H|].
  destruct H as [H1 [H2 H3]]. apply IH in H3. lra.
Qed.

Lemma ladder_within (l : list Segment.t) :
  forall t b,
    ladder t l b ->
    Forall (fun s => t <= Segment.top s /\ Segment.top s <= Segment.bottom s
                     /\ Segment.bottom s <= b) l.
Proof.
  induction l as [|s r IH]; intros t b H; [constructor|].
  cbn [ladder] in H. destruct H as [H1 [H2 H3]].
  constructor.
  - split; [exact H1|]. split; [exact H2|]. apply (ladder_le r). exact H3.
  - apply IH in H3. apply Forall_forall. intros s' Hs'.
    rewrite Forall_forall in H3. destruct (H3 s' Hs') as [A [B C]].
    split; [lra|]. split; assumption.
Qed.

Lemma changeScan_ladder (avg : Q) (options : RegionDetector.DetectionOptions)
  (points : list RegionDetector.DensityPoint) :
  forall last hi,
    StronglySorted (fun p q => RegionDetector.y p < RegionDetector.y q) points ->
    Forall (fun q => RegionDetector.y last <= RegionDetector.y q
                     /\ RegionDetector.y q <= hi) points ->
    RegionDetector.y last <= hi ->
    ladder (RegionDetector.y last) (RegionDetector.changeScan avg options last points) hi.
Proof.
  induction points as [|curr rest IH]; intros last hi Hs Hb Hl;
    cbn [RegionDetector.changeScan].
  - exact Hl.
  - inversion Hs as [|? ? Hs' Hlt]; subst. inversion Hb as [|? ? [Hc1 Hc2] Hb']; subst.
    cbv zeta.
    destruct (negb (Nat.eqb (RegionDetector.cols curr) (RegionDetector.cols last))
              || Qgtb (absQ (RegionDetector.left curr - RegionDetector.left last))
                      (RegionDetector.shiftMultiplier options * avg)
              || Qgtb (absQ (RegionDetector.right curr - RegionDetector.right last))
                      (RegionDetector.shiftMultiplier options * avg)).
    + cbn [ladder Segment.top Segment.bottom].
      split; [lra|]. split; [exact Hc1|].
      apply IH; [exact Hs' | | exact Hc2].
      apply Forall_forall. intros q Hq. rewrite Forall_forall in Hlt, Hb'.
      specialize (Hlt q Hq). destruct (Hb' q Hq) as [_ Hq2]. split; [lra | exact Hq2].
    + apply IH; [exact Hs' | exact Hb' | exact Hl].
Qed.

Lemma setLastBottom_ladder (l : list Segment.t) :
  forall t hi b,
    ladder t l hi -> hi <= b -> ladder t (RegionDetector.setLastBottom l b) b.
Proof.
  induction l as [|s r IH]; intros t hi b H Hb.
  - cbn [ladder RegionDetector.setLastBottom] in *. lra.
  - cbn [ladder] in H. destruct H as [H1 [H2 H3]].
    destruct r as [|s' r'].
    + cbn [RegionDetector.setLastBottom ladder RegionDetector.setBottom
           Segment.top Segment.bottom] in *.
      split; [exact H1|]. split; lra.
    + change (RegionDetector.setLastBottom (s :: s' :: r') b)
        with (s :: RegionDetector.setLastBottom (s' :: r') b).
      cbn [ladder]. split; [exact H1|]. split; [exact H2|].
      apply (IH _ hi); assumption.
Qed.

Lemma consolidateLoop_ladder (avg : Q) (options : RegionDetector.DetectionOptions)
  (rest : list Segment.t) :
  forall cur t b,
    ladder t (cur :: rest) b ->
    ladder t (RegionDetector.consolidateLoop avg options cur rest) b.
Proof.
  induction rest as [|next rest IH]; intros cur t b H;
    cbn [RegionDetector.consolidateLoop].
  - exact H.
  - cbn [ladder] in H. destruct H as [H1 [H2 [H3 [H4 H5]]]].
    assert (Habs : ladder t (RegionDetector.absorbSegment cur next :: rest) b).
    { cbn [ladder RegionDetector.absorbSegment Segment.top Segment.bottom].
      split; [exact H1|]. split; [lra | exact H5]. }
    cbv zeta.
    destruct (Qltb (Segment.bottom cur - Segment.top cur)
                (RegionDetector.minSegmentHeightMultiplier options * avg)).
    + apply IH. exact Habs.
    + destruct (Nat.eqb (Segment.columns next) (Segment.columns cur)).
      * apply IH. exact Habs.
      * cbn [ladder]. split; [exact H1|]. split; [exact H2|].
        apply IH. cbn [ladder]. split; [exact H3|]. split; assumption.
Qed.

(** Column counts through the change points and their consolidation. *)
Lemma changeScan_columns (avg : Q) (options : RegionDetector.DetectionOptions)
  (points : list RegionDetector.DensityPoint) :
  forall last,
    Forall (fun q => (1 <= RegionDetector.cols q)%nat) points ->
    Forall (fun s => (1 <= Segment.columns s)%nat)
      (RegionDetector.changeScan avg options last points).
Proof.
  induction points as [|curr rest IH]; intros last H; cbn [RegionDetector.changeScan].
  - constructor.
  - inversion H as [|? ? Hc Hr]; subst. cbv zeta.
    destruct (_ || _ || _); [constructor; [exact Hc|]|]; apply IH; exact Hr.
Qed.

Lemma setLastBottom_columns (l : list Segment.t) (b : Q) :
  Forall (fun s => (1 <= Segment.columns s)%nat) l ->
  Forall (fun s => (1 <= Segment.columns s)%nat) (RegionDetector.setLastBottom l b).
Proof.
  induction l as [|s r IH]; intro H; [constructor|].
  inversion H as [|? ? Hs Hr]; subst. destruct r as [|s' r'].
  - constructor; [exact Hs | constructor].
  - change (RegionDetector.setLastBottom (s :: s' :: r') b)
      with (s :: RegionDetector.setLastBottom (s' :: r') b).
    constructor; [exact Hs | apply IH; exact Hr].
Qed.

Lemma consolidateLoop_columns (avg : Q) (options : RegionDetector.DetectionOptions)
  (rest : list Segment.t) :
  forall cur,
    Forall (fun s => (1 <= Segment.columns s)%nat) (cur :: rest) ->
    Forall (fun s => (1 <= Segment.columns s)%nat)
      (RegionDetector.consolidateLoop avg options cur rest).
Proof.
  induction rest as [|next rest IH]; intros cur H; cbn [RegionDetector.consolidateLoop].
  - exact H.
  - inversion H as [|? ? Hc Hr]; subst. inversion Hr as [|? ? Hn Hr']; subst.
    assert (Habs : Forall (fun s => (1 <= Segment.columns s)%nat)
                     (RegionDetector.absorbSegment cur next :: rest))
      by (constructor; [exact Hc | exact Hr']).
    cbv zeta. destruct (Qltb _ _); [apply IH; exact Habs|].
    destruct (Nat.eqb _ _); [apply IH; exact Habs|].
    constructor; [exact Hc | apply IH; exact Hr].
Qed.

Lemma setLastBottom_nonEmpty (l : list Segment.t) (b : Q) :
  l <> [] -> RegionDetector.setLastBottom l b <> [].
Proof.
  destruct l as [|s [|s' r]]; [congruence | discriminate | discriminate].
Qed.

Lemma sampleStep_positive (avg : Q) : 0 < maxQ 5 (avg * 0.5).
Proof. destruct (maxQ_cases 5 (avg * 0.5)) as [[H E]|[H E]]; rewrite E; lra. Qed.

(** The change points of a sampled profile, as a ladder down the page. *)
Lemma findChangePoints_ladder (spans : list Rect.t) (pr : Rect.t) (avg : Q)
  (options : RegionDetector.DetectionOptions) :
  Rect.top pr <= Rect.bottom pr ->
  ladder (Rect.top pr)
    (RegionDetector._findChangePoints
       (RegionDetector._sampleDensityProfile spans pr avg options) pr avg options)
    (Rect.bottom pr).
Proof.
  intro Hpage. unfold RegionDetector._sampleDensityProfile. cbv zeta.
  pose proof (sampleStep_positive avg) as Hstep.
  set (step := maxQ 5 (avg * 0.5)) in *.
  pose proof (sampleLoop_sorted step (Rect.bottom pr) avg options
                (sweepFuel (Rect.top pr) (Rect.bottom pr) step) Hstep
                (Rect.top pr) spans []) as Hs.
  assert (Hp : forall p,
             In p (RegionDetector.sampleLoop
                     (sweepFuel (Rect.top pr) (Rect.bottom pr) step)
                     (Rect.top pr) step (Rect.bottom pr) avg options spans []) ->
             Rect.top pr <= RegionDetector.y p /\ RegionDetector.y p < Rect.bottom pr
             /\ (1 <= RegionDetector.cols p)%nat).
  { intros p Hin. apply sampleLoop_points in Hin; [exact Hin | lra]. }
  destruct (RegionDetector.sampleLoop _ _ _ _ _ _ _ _) as [|p0 ps];
    cbn [RegionDetector._findChangePoints]; [exact Hpage|].
  destruct (Hp p0 (or_introl eq_refl)) as [A [B _]].
  inversion Hs as [|? ? Hs' Hlt]; subst.
  apply (setLastBottom_ladder _ _ (Rect.bottom pr)); [|lra].
  cbn [ladder Segment.top Segment.bottom].
  split; [lra|]. split; [exact A|].
  apply changeScan_ladder; [exact Hs' | | lra].
  apply Forall_forall. intros q Hq. rewrite Forall_forall in Hlt.
  specialize (Hlt q Hq). destruct (Hp q (or_intror Hq)) as [_ [C _]]. lra.
Qed.

Lemma findChangePoints_columns (points : list RegionDetector.DensityPoint)
  (pr : Rect.t) (avg : Q) (options : RegionDetector.DetectionOptions) :
  Forall (fun q => (1 <= RegionDetector.cols q)%nat) points ->
  Forall (fun s => (1 <= Segment.columns s)%nat)
    (RegionDetector._findChangePoints points pr avg options).
Proof.
  intro H. destruct points as [|p0 ps]; cbn [RegionDetector._findChangePoints];
    [constructor|].
  inversion H as [|? ? H0 Hr]; subst.
  apply setLastBottom_columns. constructor; [exact H0|].
  apply changeScan_columns. exact Hr.
Qed.

Lemma consolidateSegments_columns (segments : list Segment.t) (avg : Q)
  (options : RegionDetector.DetectionOptions) :
  Forall (fun s => (1 <= Segment.columns s)%nat) segments ->
  Forall (fun s => (1 <= Segment.columns s)%nat)
    (RegionDetector._consolidateSegments segments avg options).
Proof.
  intro H. destruct segments as [|s0 rest]; cbn [RegionDetector._consolidateSegments];
    [constructor|].
  apply (consolidateLoop_columns avg options) in H. apply Forall_forall. intros s Hs.
  apply filter_In in Hs. destruct Hs as [Hs _]. rewrite Forall_forall in H.
  apply H. exact Hs.
Qed.

Lemma consolidateSegments_ladder (segments : list Segment.t) (avg : Q)
  (options : RegionDetector.DetectionOptions) (t b : Q) :
  ladder t segments b ->
  Forall (fun s => t <= Segment.top s /\ Segment.top s <= Segment.bottom s
                   /\ Segment.bottom s <= b)
    (RegionDetector._consolidateSegments segments avg options).
Proof.
  intro H. destruct segments as [|s0 rest]; cbn [RegionDetector._consolidateSegments];
    [constructor|].
  apply (consolidateLoop_ladder avg options) in H. apply ladder_within in H.
  apply Forall_forall. intros s Hs.
  apply filter_In in Hs. destruct Hs as [Hs _]. rewrite Forall_forall in H.
  apply H. exact Hs.
Qed.

Lemma final_nonEmpty {A B : Type} (f : A -> B) (l : list A) (d : list B) :
  l <> [] -> match map f l with [] => d | _ => map f l end = map f l.
Proof. destruct l; [congruence | reflexivity]. Qed.

(** X2. For a page rect that is given, [segmentVerticalLayouts] returns at
    least one segment; every segment lies between the top and the bottom of
    the page and reports at least one column; and when the line height is
    not negative and the page is not upside down, no segment ends above its
    start. *)
Theorem segmentVerticalLayouts_segments :
  forall (spanRects : list Rect.t) (pr : Rect.t) (avgLineHeight : Q),
    let out := RegionDetector.segmentVerticalLayouts spanRects (Some pr) avgLineHeight in
    out <> []
    /\ Forall (fun s => Rect.top pr <= Segment.top s
                        /\ Segment.bottom s <= Rect.bottom pr
                        /\ (1 <= Segment.columns s)%nat) out
    /\ (0 <= avgLineHeight -> Rect.top pr <= Rect.bottom pr ->
        Forall (fun s => Segment.top s <= Segment.bottom s) out).
Proof.
  intros spanRects pr avg. cbv zeta.
  unfold RegionDetector.segmentVerticalLayouts.
  destruct spanRects as [|r0 rs].
  - split; [discriminate|]. split.
    + constructor; [|constructor]. cbn [Segment.top Segment.bottom Segment.columns].
      rewrite !orElse_zero. split; [lra|]. split; [lra | lia].
    + intros _ Hpage. constructor; [|constructor].
      cbn [Segment.top Segment.bottom]. rewrite !orElse_zero. exact Hpage.
  - set (sortedSpans := sortBy (fun a b => Qle_bool (Rect.top a - Rect.top b) 0) (r0 :: rs)).
    cbv zeta.
    pose proof (findChangePoints_ladder sortedSpans pr avg RegionDetector.DEFAULT_OPTIONS)
      as Hlad.
    assert (Hcols : Forall (fun q => (1 <= RegionDetector.cols q)%nat)
                      (RegionDetector._sampleDensityProfile sortedSpans pr avg
                         RegionDetector.DEFAULT_OPTIONS)).
    { apply Forall_forall. intros p Hp. unfold RegionDetector._sampleDensityProfile in Hp.
      apply sampleLoop_points in Hp; [tauto|].
      pose proof (sampleStep_positive avg). lra. }
    destruct (RegionDetector._sampleDensityProfile sortedSpans pr avg
                RegionDetector.DEFAULT_OPTIONS) as [|p0 ps] eqn:Ep.
    + split; [discriminate|]. split.
      * constructor; [|constructor]. unfold RegionDetector.fullPage.
        cbn [Segment.top Segment.bottom Segment.columns]. split; [lra|]. split; [lra|lia].
      * intros _ Hpage. constructor; [|constructor]. exact Hpage.
    + apply (findChangePoints_columns _ pr avg RegionDetector.DEFAULT_OPTIONS) in Hcols.
      apply (consolidateSegments_columns _ avg RegionDetector.DEFAULT_OPTIONS) in Hcols.
      remember (RegionDetector._consolidateSegments
                  (RegionDetector._findChangePoints (p0 :: ps) pr avg
                     RegionDetector.DEFAULT_OPTIONS) avg RegionDetector.DEFAULT_OPTIONS)
        as consolidated eqn:Ec.
      assert (Hcase : consolidated = [] \/ consolidated <> [])
        by (destruct consolidated; [left | right]; congruence).
      destruct Hcase as [E|Hne].
      * rewrite E. cbn [map]. split; [discriminate|]. split.
        -- constructor; [|constructor]. unfold RegionDetector.fullPage.
           cbn [Segment.top Segment.bottom Segment.columns]. split; [lra|]. split; [lra|lia].
        -- intros _ Hpage. constructor; [|constructor]. exact Hpage.
      * rewrite (final_nonEmpty _ _ _ Hne).
        split; [destruct consolidated; [congruence | discriminate]|]. split.
        -- apply Forall_forall. intros s Hs. apply in_map_iff in Hs.
           destruct Hs as [c [<- Hc]]. cbn [Segment.top Segment.bottom Segment.columns].
           rewrite Forall_forall in Hcols. specialize (Hcols c Hc).
           split; [|split; [|exact Hcols]].
           ++ destruct (maxQ_cases (Rect.top pr)
                          (Segment.top c
                           - minQ (avg * 0.5) ((Segment.bottom c - Segment.top c) * 0.1)))
                as [[H E]|[H E]]; rewrite E; lra.
           ++ destruct (minQ_cases (Rect.bottom pr)
                          (Segment.bottom c
                           + minQ (avg * 0.5) ((Segment.bottom c - Segment.top c) * 0.1)))
                as [[H E]|[H E]]; rewrite E; lra.
        -- intros Havg Hpage. specialize (Hlad Hpage).
           apply (consolidateSegments_ladder _ avg RegionDetector.DEFAULT_OPTIONS) in Hlad.
           rewrite <- Ec in Hlad.
           apply Forall_forall. intros s Hs. apply in_map_iff in Hs.
           destruct Hs as [c [<- Hc]]. cbn [Segment.top Segment.bottom].
           rewrite Forall_forall in Hlad. destruct (Hlad c Hc) as [A [B C]].
           destruct (minQ_cases (avg * 0.5) ((Segment.bottom c - Segment.top c) * 0.1))
             as [[Hb Eb]|[Hb Eb]]; rewrite Eb;
           match goal with
           | |- maxQ ?a ?b <= minQ ?c ?d =>
             destruct (maxQ_cases a b) as [[H1 E1]|[H1 E1]]; rewrite E1;
             destruct (minQ_cases c d) as [[H2 E2]|[H2 E2]]; rewrite E2; lra
           end.
Qed.

Lemma segmentVerticalLayouts_segments_witness :
  0 <= 8 /\ Rect.top (Examples.page 600 60) <= Rect.bottom (Examples.page 600 60)
  /\ Forall (fun s => Segment.top s <= Segment.bottom s)
       (RegionDetector.segmentVerticalLayouts
          (map SpanInfo.rect Examples.headedColumns) (Some (Examples.page 600 60)) 8).
Proof.
  assert (H1 : 0 <= 8) by lra.
  assert (H2 : Rect.top (Examples.page 600 60) <= Rect.bottom (Examples.page 600 60))
    by (simpl; lra).
  split; [exact H1|]. split; [exact H2|].
  exact (proj2 (proj2 (segmentVerticalLayouts_segments
                         (map SpanInfo.rect Examples.headedColumns)
                         (Examples.page 600 60) 8)) H1 H2).
Defined.

Lemma changeScan_chained (avg : Q) (options : RegionDetector.DetectionOptions)
  (points : list RegionDetector.DensityPoint) :
  forall last,
    exists e,
      chained (RegionDetector.y last)
        (RegionDetector.changeScan avg options last points) e.
Proof.
  induction points as [|curr rest IH]; intros last; cbn [RegionDetector.changeScan].
  - exists (RegionDetector.y last). reflexivity.
  - cbv zeta. destruct (_ || _ || _).
    + destruct (IH curr) as [e He]. exists e. cbn [chained Segment.top Segment.bottom].
      split; [reflexivity | exact He].
    + apply IH.
Qed.

Lemma setLastBottom_chained (l : list Segment.t) :
  forall t e b,
    chained t l e -> l <> [] -> chained t (RegionDetector.setLastBottom l b) b.
Proof.
  induction l as [|s r IH]; intros t e b H Hne; [congruence|].
  cbn [chained] in H. destruct H as [H1 H2]. destruct r as [|s' r'].
  - cbn [RegionDetector.setLastBottom chained RegionDetector.setBottom
         Segment.top Segment.bottom]. split; [exact H1 | reflexivity].
  - change (RegionDetector.setLastBottom (s :: s' :: r') b)
      with (s :: RegionDetector.setLastBottom (s' :: r') b).
    cbn [chained]. split; [exact H1|]. apply (IH _ e); [exact H2 | discriminate].
Qed.

(** X3. The change points of a non-empty density profile cut the page into
    consecutive segments: the first starts at the top of the page, each one
    starts where the one before ends, and the last ends at the bottom of the
    page. *)
Theorem findChangePoints_tiles_page :
  forall (densityPoints : list RegionDetector.DensityPoint) (pageRect : Rect.t)
         (avgLineHeight : Q) (options : RegionDetector.DetectionOptions),
    densityPoints <> [] ->
    RegionDetector._findChangePoints densityPoints pageRect avgLineHeight options <> []
    /\ chained (Rect.top pageRect)
         (RegionDetector._findChangePoints densityPoints pageRect avgLineHeight options)
         (Rect.bottom pageRect).
Proof.
  intros points pr avg options Hne. destruct points as [|p0 ps]; [congruence|].
  cbn [RegionDetector._findChangePoints]. split.
  - apply setLastBottom_nonEmpty. discriminate.
  - destruct (changeScan_chained avg options ps p0) as [e He].
    apply (setLastBottom_chained _ _ e); [|discriminate].
    cbn [chained Segment.top Segment.bottom]. split; [reflexivity | exact He].
Qed.

Lemma findChangePoints_tiles_page_witness :
  [ RegionDetector.mkPoint 0 1 0 600; RegionDetector.mkPoint 12 2 0 600;
    RegionDetector.mkPoint 18 2 0 600 ] <> []
  /\ chained 0
       (RegionDetector._findChangePoints
          [ RegionDetector.mkPoint 0 1 0 600; RegionDetector.mkPoint 12 2 0 600;
            RegionDetector.mkPoint 18 2 0 600 ]
          (Examples.page 600 60) 8 RegionDetector.DEFAULT_OPTIONS)
       60.
Proof.
  split; [discriminate|].
  apply (findChangePoints_tiles_page
           [ RegionDetector.mkPoint 0 1 0 600; RegionDetector.mkPoint 12 2 0 600;
             RegionDetector.mkPoint 18 2 0 600 ]
           (Examples.page 600 60) 8 RegionDetector.DEFAULT_OPTIONS).
  discriminate.
Defined.

(** ** Sorting *)

Section SortedBy.
Context {A : Type} (le : A -> A -> bool).
Hypothesis le_total : forall a b, le a b = true \/ le b a = true.
Hypothesis le_trans : forall a b c, le a b = true -> le b c = true -> le a c = true.

Lemma insertBy_sorted (x : A) (l : list A) :
  StronglySorted (fun a b => le a b = true) l ->
  StronglySorted (fun a b => le a b = true) (insertBy le x l).
Proof.
  induction l as [|y r IH]; intro H; cbn [insertBy].
  - constructor; [constructor | constructor].
  - inversion H as [|? ? Hr Hy]; subst. destruct (le x y) eqn:E.
    + constructor; [exact H|]. constructor; [exact E|].
      apply Forall_forall. intros z Hz. rewrite Forall_forall in Hy.
      apply (le_trans x y z); [exact E | apply Hy; exact Hz].
    + constructor; [apply IH; exact Hr|].
      apply Forall_forall. intros z Hz.
      apply (Permutation_in _ (insertBy_perm le x r)) in Hz.
      destruct Hz as [<-|Hz].
      * destruct (le_total x y) as [H1|H1]; [congruence | exact H1].
      * rewrite Forall_forall in Hy. apply Hy. exact Hz.
Qed.

Lemma sortBy_sorted (l : list A) :
  StronglySorted (fun a b => le a b = true) (sortBy le l).
Proof.
  induction l as [|x r IH]; cbn [sortBy]; [constructor|].
  apply insertBy_sorted. exact IH.
Qed.

End SortedBy.

(** Sorting by a numeric key, as [(a, b) => key(a) - key(b)] does. *)
Lemma sortBy_key_sorted {A : Type} (key : A -> Q) (l : list A) :
  StronglySorted (fun a b => key a <= key b)
    (sortBy (fun a b => Qle_bool (key a - key b) 0) l).
Proof.
  assert (H : StronglySorted (fun a b => Qle_bool (key a - key b) 0 = true)
                (sortBy (fun a b => Qle_bool (key a - key b) 0) l)).
  { apply sortBy_sorted.
    - intros a b. destruct (Qle_bool (key a - key b) 0) eqn:E; [left; reflexivity|].
      right. apply Qle_bool_false in E. apply Qle_bool_iff. lra.
    - intros a b c H1 H2. apply Qle_bool_iff in H1, H2. apply Qle_bool_iff. lra. }
  induction H as [|x r Hr IH Hx]; constructor; [exact IH|].
  apply Forall_forall. intros z Hz. rewrite Forall_forall in Hx.
  specialize (Hx z Hz). apply Qle_bool_iff in Hx. lra.
Qed.

Lemma sortNum_sorted (l : list Q) : StronglySorted Qle (sortNum l).
Proof.
  unfold sortNum.
  assert (H : StronglySorted (fun a b => Qle_bool a b = true) (sortBy Qle_bool l)).
  { apply sortBy_sorted.
    - intros a b. destruct (Qle_bool a b) eqn:E; [left; reflexivity|].
      right. apply Qle_bool_false in E. apply Qle_bool_iff. lra.
    - intros a b c H1 H2. apply Qle_bool_iff in H1, H2. apply Qle_bool_iff. lra. }
  induction H as [|x r Hr IH Hx]; constructor; [exact IH|].
  apply Forall_forall. intros z Hz. rewrite Forall_forall in Hx.
  apply Qle_bool_iff. apply Hx. exact Hz.
Qed.

Lemma sorted_map_key {A : Type} (key : A -> Q) (l : list A) :
  StronglySorted (fun a b => key a <= key b) l -> StronglySorted Qle (map key l).
Proof.
  intro H. induction H as [|x l Hl IH Hx]; cbn [map]; constructor; [exact IH|].
  apply Forall_forall. intros z Hz. apply in_map_iff in Hz. destruct Hz as [w [<- Hw]].
  rewrite Forall_forall in Hx. apply Hx. exact Hw.
Qed.

(** ** The median *)

Lemma median_cases (a : list Q) :
  a <> [] -> exists x y, In x a /\ In y a /\ median a == (x + y) / 2.
Proof.
  intro Hne. unfold median. destruct a as [|a0 ar]; [congruence|].
  set (l := a0 :: ar). cbv zeta.
  pose proof (sortBy_length Qle_bool l) as Hlen. fold (sortNum l) in Hlen.
  assert (Hpos : (0 < List.length (sortNum l))%nat) by (rewrite Hlen; simpl; lia).
  assert (Hm : (Nat.div (List.length (sortNum l)) 2 < List.length (sortNum l))%nat)
    by (apply Nat.div_lt; lia).
  assert (Hin : forall i, (i < List.length (sortNum l))%nat -> In (nth i (sortNum l) 0) l).
  { intros i Hi. apply (sortBy_In Qle_bool l). apply nth_In. exact Hi. }
  destruct (Nat.odd (List.length (sortNum l))).
  - exists (nth (Nat.div (List.length (sortNum l)) 2) (sortNum l) 0),
           (nth (Nat.div (List.length (sortNum l)) 2) (sortNum l) 0).
    split; [apply Hin; exact Hm|]. split; [apply Hin; exact Hm|]. field.
  - exists (nth (Nat.div (List.length (sortNum l)) 2 - 1) (sortNum l) 0),
           (nth (Nat.div (List.length (sortNum l)) 2) (sortNum l) 0).
    split; [apply Hin; lia|]. split; [apply Hin; exact Hm|]. reflexivity.
Qed.

Lemma median_between (a : list Q) (lo hi : Q) :
  a <> [] -> (forall x, In x a -> lo <= x /\ x <= hi) -> lo <= median a /\ median a <= hi.
Proof.
  intros Hne H. destruct (median_cases a Hne) as [x [y [Hx [Hy E]]]].
  destruct (H x Hx), (H y Hy). rewrite E. split.
  - apply Qle_shift_div_l; lra.
  - apply Qle_shift_div_r; lra.
Qed.

Lemma median_above (a : list Q) (lo : Q) :
  a <> [] -> (forall x, In x a -> lo < x) -> lo < median a.
Proof.
  intros Hne H. destruct (median_cases a Hne) as [x [y [Hx [Hy E]]]].
  pose proof (H x Hx). pose proof (H y Hy). rewrite E.
  apply Qlt_shift_div_l; lra.
Qed.

(** ** GapDetector.ts *)

(** X4. The line height the gap detector estimates is 15 when no span is
    taller than 3, and otherwise lies between the smallest and the largest of
    the span heights above 3; it is always greater than 3. *)
Theorem estimateAverageLineHeight_range :
  forall (spanRects : list Rect.t),
    let heights := filter (fun h => Qgtb h 3) (map Rect.height spanRects) in
    (heights = [] -> GapDetector.estimateAverageLineHeight spanRects = 15)
    /\ (forall lo hi,
          heights <> [] ->
          (forall h, In h heights -> lo <= h /\ h <= hi) ->
          lo <= GapDetector.estimateAverageLineHeight spanRects
          /\ GapDetector.estimateAverageLineHeight spanRects <= hi)
    /\ 3 < GapDetector.estimateAverageLineHeight spanRects.
Proof.
  intro spanRects. cbv zeta. unfold GapDetector.estimateAverageLineHeight.
  destruct spanRects as [|r0 rs].
  - split; [reflexivity|]. split; [intros lo hi H; cbn in H; congruence | lra].
  - set (l := r0 :: rs).
    destruct (filter (fun h => Qgtb h 3) (map Rect.height l)) as [|h0 hs] eqn:E.
    + split; [reflexivity|]. split; [intros lo hi H; congruence | lra].
    + split; [discriminate|]. split.
      * intros lo hi _ H. apply median_between; [discriminate | exact H].
      * apply median_above; [discriminate|]. intros x Hx. rewrite <- E in Hx.
        apply filter_In in Hx. destruct Hx as [_ Hx]. apply Qgtb_true in Hx. exact Hx.
Qed.

Lemma estimateAverageLineHeight_range_witness :
  (filter (fun h => Qgtb h 3) (map Rect.height [Examples.box 0 0 10 2]) = []
   /\ GapDetector.estimateAverageLineHeight [Examples.box 0 0 10 2] = 15)
  /\ filter (fun h => Qgtb h 3)
       (map Rect.height [Examples.box 0 0 10 8; Examples.box 0 10 10 22]) <> []
  /\ (forall h,
        In h (filter (fun h => Qgtb h 3)
                (map Rect.height [Examples.box 0 0 10 8; Examples.box 0 10 10 22])) ->
        8 <= h /\ h <= 12)
  /\ 8 <= GapDetector.estimateAverageLineHeight
            [Examples.box 0 0 10 8; Examples.box 0 10 10 22]
  /\ GapDetector.estimateAverageLineHeight
       [Examples.box 0 0 10 8; Examples.box 0 10 10 22] <= 12.
Proof.
  assert (H0 : filter (fun h => Qgtb h 3) (map Rect.height [Examples.box 0 0 10 2]) = [])
    by (vm_compute; reflexivity).
  assert (H1 : filter (fun h => Qgtb h 3)
                 (map Rect.height [Examples.box 0 0 10 8; Examples.box 0 10 10 22]) <> [])
    by (vm_compute; discriminate).
  assert (H2 : forall h,
             In h (filter (fun h => Qgtb h 3)
                     (map Rect.height [Examples.box 0 0 10 8; Examples.box 0 10 10 22])) ->
             8 <= h /\ h <= 12).
  { intros h Hh. vm_compute in Hh. destruct Hh as [<-|[<-|[]]]; split; vm_compute; discriminate. }
  split.
  - split; [exact H0|].
    exact (proj1 (estimateAverageLineHeight_range [Examples.box 0 0 10 2]) H0).
  - split; [exact H1|]. split; [exact H2|].
    exact (proj1 (proj2 (estimateAverageLineHeight_range
                           [Examples.box 0 0 10 8; Examples.box 0 10 10 22]))
             8 12 H1 H2).
Defined.

(** *** The gaps of a band *)

Lemma StronglySorted_app_remove {A : Type} (R : A -> A -> Prop) (l1 : list A) :
  forall x l2, StronglySorted R (l1 ++ x :: l2) -> StronglySorted R (l1 ++ l2).
Proof.
  induction l1 as [|a l1 IH]; intros x l2 H; cbn [app] in *.
  - inversion H; assumption.
  - inversion H as [|? ? Hs Ha]; subst. constructor; [apply (IH x); exact Hs|].
    apply Forall_forall. intros z Hz. rewrite Forall_forall in Ha. apply Ha.
    apply in_or_app. apply in_app_or in Hz. destruct Hz as [Hz|Hz];
      [left; exact Hz | right; right; exact Hz].
Qed.

Lemma StronglySorted_app_adjacent {A : Type} (R : A -> A -> Prop) (l1 : list A) :
  forall x y l2, StronglySorted R (l1 ++ x :: y :: l2) -> R x y.
Proof.
  induction l1 as [|a l1 IH]; intros x y l2 H; cbn [app] in *.
  - inversion H as [|? ? _ Hx]; subst. inversion Hx; assumption.
  - inversion H; subst. eapply IH; eassumption.
Qed.

Lemma mergeOccupied_spec (occ : list GapDetector.Interval) :
  forall acc,
    StronglySorted Qle (map GapDetector.left (rev acc ++ occ)) ->
    StronglySorted Qle (map GapDetector.left (GapDetector.mergeOccupied acc occ))
    /\ (forall o, In o occ \/ In o acc ->
                  exists m, In m (GapDetector.mergeOccupied acc occ) /\ covers m o).
Proof.
  induction occ as [|o rest IH]; intros acc Hs; cbn [GapDetector.mergeOccupied].
  - rewrite app_nil_r in Hs. split; [exact Hs|].
    intros a [[]|Ha]. exists a. split; [apply in_rev in Ha; exact Ha|].
    unfold covers. split; apply Qle_refl.
  - destruct acc as [|lastOcc before].
    + destruct (IH [o] Hs) as [H1 H2]. split; [exact H1|].
      intros x [[<-|Hx]|[]]; apply H2; [right; left; reflexivity | left; exact Hx].
    + destruct (Qgtb (GapDetector.left o) (GapDetector.right lastOcc)) eqn:E.
      * assert (Hs' : StronglySorted Qle
                        (map GapDetector.left (rev (o :: lastOcc :: before) ++ rest))).
        { cbn [rev] in *. rewrite <- !app_assoc in *. exact Hs. }
        destruct (IH (o :: lastOcc :: before) Hs') as [H1 H2]. split; [exact H1|].
        intros x [[<-|Hx]|Hx]; apply H2;
          [right; left; reflexivity | left; exact Hx | right; right; exact Hx].
      * set (merged := {| GapDetector.left := GapDetector.left lastOcc;
                          GapDetector.right :=
                            maxQ (GapDetector.right lastOcc) (GapDetector.right o) |}).
        cbn [rev] in Hs. rewrite <- app_assoc in Hs. cbn [app] in Hs.
        rewrite map_app in Hs. cbn [map] in Hs.
        pose proof (StronglySorted_app_adjacent _ _ _ _ _ Hs) as Hadj.
        assert (Hs' : StronglySorted Qle
                        (map GapDetector.left (rev (merged :: before) ++ rest))).
        { cbn [rev]. rewrite <- app_assoc. cbn [app]. rewrite map_app. cbn [map].
          change (GapDetector.left merged) with (GapDetector.left lastOcc).
          match goal with
          | |- StronglySorted Qle (?l1 ++ ?a :: ?l2) =>
            pose proof (StronglySorted_app_remove Qle (l1 ++ [a]) (GapDetector.left o) l2) as Hrm;
            rewrite <- !app_assoc in Hrm; cbn [app] in Hrm; apply Hrm
          end.
          exact Hs. }
        destruct (IH (merged :: before) Hs') as [H1 H2]. split; [exact H1|].
        assert (Hcov : forall x, covers lastOcc x -> covers merged x).
        { intros x [A B]. unfold covers. subst merged. cbn [GapDetector.left GapDetector.right].
          split; [exact A|].
          destruct (maxQ_cases (GapDetector.right lastOcc) (GapDetector.right o))
            as [[Hm Em]|[Hm Em]]; rewrite Em; lra. }
        assert (Htrans : forall x,
                   covers merged x ->
                   exists m, In m (GapDetector.mergeOccupied (merged :: before) rest)
                             /\ covers m x).
        { intros x [A B]. destruct (H2 merged (or_intror (or_introl eq_refl)))
            as [m [Hm [C D]]].
          exists m. split; [exact Hm|]. unfold covers. split; lra. }
        intros x [[<-|Hx]|[<-|Hx]].
        -- apply Htrans. unfold covers. subst merged.
           cbn [GapDetector.left GapDetector.right]. split; [exact Hadj|].
           destruct (maxQ_cases (GapDetector.right lastOcc) (GapDetector.right o))
             as [[Hm Em]|[Hm Em]]; rewrite Em; lra.
        -- apply H2. left. exact Hx.
        -- apply Htrans. apply Hcov. unfold covers. split; apply Qle_refl.
        -- apply H2. right. right. exact Hx.
Qed.

Lemma invertOccupied_left (mergedOcc : list GapDetector.Interval) :
  forall pageRight cursor g,
    In g (GapDetector.invertOccupied pageRight cursor mergedOcc) ->
    cursor <= GapDetector.left g
    /\ GapDetector.MIN_GAP_WIDTH_PX <= GapDetector.right g - GapDetector.left g.
Proof.
  induction mergedOcc as [|m rest IH]; intros pageRight cursor g Hg;
    cbn [GapDetector.invertOccupied] in Hg.
  - destruct (Qgeb (pageRight - cursor) GapDetector.MIN_GAP_WIDTH_PX) eqn:E;
      [|contradiction].
    destruct Hg as [<-|[]]. cbn [GapDetector.left GapDetector.right].
    apply Qgeb_true in E. split; [apply Qle_refl | exact E].
  - apply in_app_or in Hg. destruct Hg as [Hg|Hg].
    + destruct (Qgeb (GapDetector.left m - cursor) GapDetector.MIN_GAP_WIDTH_PX) eqn:E;
        [|contradiction].
      destruct Hg as [<-|[]]. cbn [GapDetector.left GapDetector.right].
      apply Qgeb_true in E. split; [apply Qle_refl | exact E].
    + apply IH in Hg. destruct Hg as [H1 H2]. split; [|exact H2].
      destruct (maxQ_cases cursor (GapDetector.right m)) as [[Hm Em]|[Hm Em]];
        rewrite Em in H1; lra.
Qed.

Lemma invertOccupied_clear (mergedOcc : list GapDetector.Interval) :
  forall pageRight cursor g m,
    StronglySorted Qle (map GapDetector.left mergedOcc) ->
    In g (GapDetector.invertOccupied pageRight cursor mergedOcc) ->
    In m mergedOcc ->
    GapDetector.right g <= GapDetector.left m \/ GapDetector.right m <= GapDetector.left g.
Proof.
  induction mergedOcc as [|m0 rest IH]; intros pageRight cursor g m Hs Hg Hm;
    [contradiction|].
  cbn [GapDetector.invertOccupied] in Hg. cbn [map] in Hs.
  inversion Hs as [|? ? Hs' Hlt]; subst.
  apply in_app_or in Hg. destruct Hg as [Hg|Hg].
  - destruct (Qgeb (GapDetector.left m0 - cursor) GapDetector.MIN_GAP_WIDTH_PX);
      [|contradiction].
    destruct Hg as [<-|[]]. cbn [GapDetector.left GapDetector.right]. left.
    destruct Hm as [<-|Hm]; [apply Qle_refl|].
    rewrite Forall_forall in Hlt. apply Hlt. apply in_map. exact Hm.
  - destruct Hm as [<-|Hm].
    + right. apply invertOccupied_left in Hg. destruct Hg as [Hg _].
      destruct (maxQ_cases cursor (GapDetector.right m0)) as [[Hx Ex]|[Hx Ex]];
        rewrite Ex in Hg; lra.
    + apply (IH pageRight (maxQ cursor (GapDetector.right m0))); assumption.
Qed.

Lemma bandAt_clear (spanRects : list Rect.t) (pageRect : Rect.t) (y bandStep : Q)
  (g : GapDetector.Interval) (r : Rect.t) :
  In g (GapDetector.gaps (GapDetector.bandAt spanRects pageRect y bandStep)) ->
  In r spanRects ->
  GapDetector.y1 (GapDetector.bandAt spanRects pageRect y bandStep) < Rect.bottom r ->
  Rect.top r < GapDetector.y2 (GapDetector.bandAt spanRects pageRect y bandStep) ->
  GapDetector.right g <= Rect.left r \/ Rect.right r <= GapDetector.left g.
Proof.
  intros Hg Hr Hb Ht. unfold GapDetector.bandAt in *. cbv zeta in *.
  set (y2 := minQ (Rect.bottom pageRect) (y + bandStep)) in *.
  assert (Hact : In r (filter (fun r => Qgtb (Rect.bottom r) y && Qltb (Rect.top r) y2)
                         spanRects)).
  { apply filter_In. split; [exact Hr|]. apply andb_true_iff.
    destruct (filter _ spanRects); cbn [GapDetector.y1 GapDetector.y2] in Hb, Ht;
      split; [apply Qgtb_true | apply Qltb_true | apply Qgtb_true | apply Qltb_true];
      assumption. }
  destruct (filter (fun r => Qgtb (Rect.bottom r) y && Qltb (Rect.top r) y2) spanRects)
    as [|a0 ar] eqn:Ea; [contradiction|].
  cbn [GapDetector.gaps] in Hg.
  set (toInterval := fun r : Rect.t =>
                       {| GapDetector.left := Rect.left r;
                          GapDetector.right := Rect.right r |}) in *.
  set (occ := sortBy (fun a b => Qle_bool (GapDetector.left a - GapDetector.left b) 0)
                (map toInterval (a0 :: ar))) in *.
  assert (Hsorted : StronglySorted Qle (map GapDetector.left (rev [] ++ occ))).
  { cbn [rev app]. subst occ. apply sorted_map_key. apply sortBy_key_sorted. }
  destruct (mergeOccupied_spec occ [] Hsorted) as [Hm Hc].
  destruct (Hc (toInterval r)) as [m [Hin [C1 C2]]].
  { left. subst occ. apply sortBy_In. apply in_map. exact Hact. }
  destruct (invertOccupied_clear _ _ _ g m Hm Hg Hin) as [H|H];
    cbn [GapDetector.left GapDetector.right toInterval] in C1, C2; [left | right]; lra.
Qed.

Lemma sweepBands_In (fuel : nat) (spanRects : list Rect.t) (pageRect : Rect.t)
  (bandStep : Q) :
  forall y band,
    0 <= bandStep ->
    In band (GapDetector.sweepBands fuel spanRects pageRect y bandStep) ->
    exists y', y <= y' /\ y' < Rect.bottom pageRect
               /\ band = GapDetector.bandAt spanRects pageRect y' bandStep.
Proof.
  induction fuel as [|fuel IH]; intros y band Hstep Hin;
    cbn [GapDetector.sweepBands] in Hin; [contradiction|].
  destruct (Qltb y (Rect.bottom pageRect)) eqn:E; [|contradiction].
  apply Qltb_true in E. destruct Hin as [<-|Hin].
  - exists y. split; [apply Qle_refl|]. split; [exact E | reflexivity].
  - destruct (IH _ _ Hstep Hin) as [y' [A [B C]]]. exists y'.
    split; [lra|]. split; assumption.
Qed.

Lemma bandStep_positive (avgLine : Q) : 0 < maxQ 6 (avgLine * GapDetector.BAND_STEP_FACTOR).
Proof.
  destruct (maxQ_cases 6 (avgLine * GapDetector.BAND_STEP_FACTOR)) as [[H E]|[H E]];
    rewrite E; lra.
Qed.

(** X5. In every band of the sweep, a gap overlaps no span that intersects
    the band: the gap ends at or before the left edge of the span, or starts
    at or after its right edge. *)
Theorem band_gaps_avoid_spans :
  forall (spanRects : list Rect.t) (pageRect : Rect.t) (avgLine : Q)
         (band : GapDetector.YBand) (g : GapDetector.Interval) (r : Rect.t),
    In band (GapDetector.buildBands spanRects pageRect avgLine) ->
    In g (GapDetector.gaps band) ->
    In r spanRects ->
    GapDetector.y1 band < Rect.bottom r ->
    Rect.top r < GapDetector.y2 band ->
    GapDetector.right g <= Rect.left r \/ Rect.right r <= GapDetector.left g.
Proof.
  intros spanRects pageRect avgLine band g r Hband Hg Hr Hb Ht.
  unfold GapDetector.buildBands in Hband. cbv zeta in Hband.
  apply sweepBands_In in Hband; [|pose proof (bandStep_positive avgLine); lra].
  destruct Hband as [y' [_ [_ ->]]].
  apply (bandAt_clear spanRects pageRect y'
           (maxQ 6 (avgLine * GapDetector.BAND_STEP_FACTOR)) g r); assumption.
Qed.

Lemma band_gaps_avoid_spans_witness :
  In GutterExample.band
    (GapDetector.buildBands Examples.unevenGutter GutterExample.pageRect 8)
  /\ In GutterExample.gap (GapDetector.gaps GutterExample.band)
  /\ In GutterExample.leftSpan Examples.unevenGutter
  /\ GapDetector.y1 GutterExample.band < Rect.bottom GutterExample.leftSpan
  /\ Rect.top GutterExample.leftSpan < GapDetector.y2 GutterExample.band
  /\ (GapDetector.right GutterExample.gap <= Rect.left GutterExample.leftSpan
      \/ Rect.right GutterExample.leftSpan <= GapDetector.left GutterExample.gap).
Proof.
  assert (H1 : In GutterExample.band
                 (GapDetector.buildBands Examples.unevenGutter GutterExample.pageRect 8))
    by (vm_compute; left; reflexivity).
  assert (H2 : In GutterExample.gap (GapDetector.gaps GutterExample.band))
    by (vm_compute; left; reflexivity).
  assert (H3 : In GutterExample.leftSpan Examples.unevenGutter)
    by (left; reflexivity).
  assert (H4 : GapDetector.y1 GutterExample.band < Rect.bottom GutterExample.leftSpan)
    by (vm_compute; reflexivity).
  assert (H5 : Rect.top GutterExample.leftSpan < GapDetector.y2 GutterExample.band)
    by (vm_compute; reflexivity).
  split; [exact H1|]. split; [exact H2|]. split; [exact H3|].
  split; [exact H4|]. split; [exact H5|].
  exact (band_gaps_avoid_spans Examples.unevenGutter GutterExample.pageRect 8
           GutterExample.band GutterExample.gap GutterExample.leftSpan H1 H2 H3 H4 H5).
Defined.

(** *** Strips inside the page *)

Lemma fold_minQ_In (l : list Q) : forall x, In (fold_left minQ l x) (x :: l).
Proof.
  induction l as [|y r IH]; intro x; cbn [fold_left]; [left; reflexivity|].
  destruct (IH (minQ x y)) as [H|H].
  - rewrite <- H. unfold minQ. destruct (Qle_bool x y);
      [left; reflexivity | right; left; reflexivity].
  - right. right. exact H.
Qed.

Lemma fold_maxQ_In (l : list Q) : forall x, In (fold_left maxQ l x) (x :: l).
Proof.
  induction l as [|y r IH]; intro x; cbn [fold_left]; [left; reflexivity|].
  destruct (IH (maxQ x y)) as [H|H].
  - rewrite <- H. unfold maxQ. destruct (Qle_bool x y);
      [right; left; reflexivity | left; reflexivity].
  - right. right. exact H.
Qed.

Lemma minList_In (l : list Q) : l <> [] -> In (minList l) l.
Proof. destruct l as [|x r]; [congruence|]. intros _. apply fold_minQ_In. Qed.

Lemma maxList_In (l : list Q) : l <> [] -> In (maxList l) l.
Proof. destruct l as [|x r]; [congruence|]. intros _. apply fold_maxQ_In. Qed.

Lemma fold_minQ_le (l : list Q) : forall x y, In y (x :: l) -> fold_left minQ l x <= y.
Proof.
  induction l as [|z r IH]; intros x y Hy; cbn [fold_left].
  - destruct Hy as [<-|[]]. apply Qle_refl.
  - assert (Hm : fold_left minQ r (minQ x z) <= minQ x z) by (apply IH; left; reflexivity).
    remember (minQ x z) as m eqn:Em.
    destruct Hy as [<-|[<-|Hy]].
    + destruct (minQ_cases x z) as [[H E]|[H E]]; rewrite E in Em; subst m; lra.
    + destruct (minQ_cases x z) as [[H E]|[H E]]; rewrite E in Em; subst m; lra.
    + apply IH. right. exact Hy.
Qed.

Lemma fold_maxQ_ge (l : list Q) : forall x y, In y (x :: l) -> y <= fold_left maxQ l x.
Proof.
  induction l as [|z r IH]; intros x y Hy; cbn [fold_left].
  - destruct Hy as [<-|[]]. apply Qle_refl.
  - assert (Hm : maxQ x z <= fold_left maxQ r (maxQ x z)) by (apply IH; left; reflexivity).
    remember (maxQ x z) as m eqn:Em.
    destruct Hy as [<-|[<-|Hy]].
    + destruct (maxQ_cases x z) as [[H E]|[H E]]; rewrite E in Em; subst m; lra.
    + destruct (maxQ_cases x z) as [[H E]|[H E]]; rewrite E in Em; subst m; lra.
    + apply IH. right. exact Hy.
Qed.

Lemma minList_le (l : list Q) (y : Q) : In y l -> minList l <= y.
Proof. destruct l as [|x r]; [contradiction|]. apply fold_minQ_le. Qed.

Lemma maxList_ge (l : list Q) (y : Q) : In y l -> y <= maxList l.
Proof. destruct l as [|x r]; [contradiction|]. apply fold_maxQ_ge. Qed.

Section InsidePage.

Variable pageRect : Rect.t.

Lemma app_single_nonEmpty {A : Type} (l : list A) (x : A) : l ++ [x] <> [].
Proof. destruct l; discriminate. Qed.

Lemma Forall_app_single {A : Type} (P : A -> Prop) (l : list A) (x : A) :
  Forall P l -> P x -> Forall P (l ++ [x]).
Proof. intros H Hx. apply Forall_app. split; [exact H | constructor; [exact Hx | constructor]]. Qed.

Lemma placeGap_inPage (xTol : Q) (g : GapDetector.Interval) (yTop yBot : Q)
  (clusters : list GapDetector.Cluster) :
  Rect.top pageRect <= yTop -> yBot <= Rect.bottom pageRect ->
  Rect.left pageRect <= GapDetector.left g ->
  Forall (clusterInside pageRect) clusters ->
  Forall (clusterInside pageRect) (GapDetector.placeGap xTol g yTop yBot clusters).
Proof.
  intros H1 H2 H3. induction clusters as [|c rest IH]; intro H;
    cbn [GapDetector.placeGap].
  - constructor; [|constructor]. unfold clusterInside, GapDetector.newCluster.
    cbn [GapDetector.y1s GapDetector.y2s GapDetector.lefts].
    repeat split; try discriminate; constructor; try assumption; constructor.
  - inversion H as [|? ? Hc Hr]; subst.
    destruct (Qle_bool _ xTol).
    + constructor; [|exact Hr].
      destruct Hc as [A [B [C [D [E F]]]]].
      unfold clusterInside, GapDetector.pushGap.
      cbn [GapDetector.y1s GapDetector.y2s GapDetector.lefts].
      repeat split; try apply app_single_nonEmpty; apply Forall_app_single; assumption.
    + constructor; [exact Hc | apply IH; exact Hr].
Qed.

Lemma clusterBand_inPage (xTol : Q) (band : GapDetector.YBand)
  (clusters : list GapDetector.Cluster) :
  Rect.top pageRect <= GapDetector.y1 band ->
  GapDetector.y2 band <= Rect.bottom pageRect ->
  Forall (fun g => Rect.left pageRect <= GapDetector.left g) (GapDetector.gaps band) ->
  Forall (clusterInside pageRect) clusters ->
  Forall (clusterInside pageRect) (GapDetector.clusterBand xTol clusters band).
Proof.
  intros H1 H2 Hg. unfold GapDetector.clusterBand.
  revert clusters. induction (GapDetector.gaps band) as [|g gs IH]; intros clusters H;
    cbn [fold_left]; [exact H|].
  inversion Hg as [|? ? Hg0 Hgs]; subst.
  apply IH; [exact Hgs|].
  destruct (Qltb _ GapDetector.MIN_GAP_WIDTH_PX); [exact H|].
  apply placeGap_inPage; assumption.
Qed.

Lemma bandAt_inPage (spanRects : list Rect.t) (y bandStep : Q) :
  Rect.top pageRect <= y ->
  let band := GapDetector.bandAt spanRects pageRect y bandStep in
  Rect.top pageRect <= GapDetector.y1 band
  /\ GapDetector.y2 band <= Rect.bottom pageRect
  /\ Forall (fun g => Rect.left pageRect <= GapDetector.left g) (GapDetector.gaps band).
Proof.
  intros Hy. cbv zeta. unfold GapDetector.bandAt. cbv zeta.
  assert (Hmin : minQ (Rect.bottom pageRect) (y + bandStep) <= Rect.bottom pageRect).
  { destruct (minQ_cases (Rect.bottom pageRect) (y + bandStep)) as [[H E]|[H E]];
      rewrite E; lra. }
  destruct (filter _ spanRects) as [|a0 ar];
    cbn [GapDetector.y1 GapDetector.y2 GapDetector.gaps].
  - split; [exact Hy|]. split; [exact Hmin|].
    constructor; [apply Qle_refl | constructor].
  - split; [exact Hy|]. split; [exact Hmin|].
    apply Forall_forall. intros g Hg. apply invertOccupied_left in Hg. tauto.
Qed.

Lemma clusterGaps_inPage (spanRects : list Rect.t) (avgLine : Q) :
  Forall (clusterInside pageRect)
    (GapDetector.clusterGaps avgLine (GapDetector.buildBands spanRects pageRect avgLine)).
Proof.
  unfold GapDetector.clusterGaps.
  assert (Hb : forall band,
             In band (GapDetector.buildBands spanRects pageRect avgLine) ->
             Rect.top pageRect <= GapDetector.y1 band
             /\ GapDetector.y2 band <= Rect.bottom pageRect
             /\ Forall (fun g => Rect.left pageRect <= GapDetector.left g)
                  (GapDetector.gaps band)).
  { intros band Hband. unfold GapDetector.buildBands in Hband. cbv zeta in Hband.
    apply sweepBands_In in Hband; [|pose proof (bandStep_positive avgLine); lra].
    destruct Hband as [y' [A [_ ->]]]. apply bandAt_inPage. exact A. }
  assert (G : forall bands clusters,
             (forall band, In band bands ->
                Rect.top pageRect <= GapDetector.y1 band
                /\ GapDetector.y2 band <= Rect.bottom pageRect
                /\ Forall (fun g => Rect.left pageRect <= GapDetector.left g)
                     (GapDetector.gaps band)) ->
             Forall (clusterInside pageRect) clusters ->
             Forall (clusterInside pageRect)
               (fold_left
                  (GapDetector.clusterBand
                     (maxQ 4 (avgLine * GapDetector.CENTER_X_TOL_FACTOR)))
                  bands clusters)).
  { induction bands as [|band rest IH]; intros clusters Hbs Hc; cbn [fold_left];
      [exact Hc|].
    apply IH; [intros b' Hb'; apply Hbs; right; exact Hb'|].
    destruct (Hbs band (or_introl eq_refl)) as [A [B C]].
    apply clusterBand_inPage; assumption. }
  apply G; [exact Hb | constructor].
Qed.

Lemma stripOfCluster_inPage (Msqrt : Q -> Q) (avgLine : Q) (n : nat)
  (c : GapDetector.Cluster) (s : Strip.t) :
  clusterInside pageRect c ->
  GapDetector.stripOfCluster Msqrt avgLine n c = Some s ->
  stripInside pageRect avgLine s.
Proof.
  intros [A [B [C [D [E F]]]]] H. unfold GapDetector.stripOfCluster in H.
  destruct (GapDetector.centers c); [discriminate|]. cbv zeta in H.
  destruct (Qltb (maxList (GapDetector.y2s c) - minList (GapDetector.y1s c))
              (avgLine * GapDetector.MIN_STRIP_HEIGHT_FACTOR)) eqn:Eh; [discriminate|].
  destruct (Qgeb _ GapDetector.MIN_STRIP_CONFIDENCE); [|discriminate].
  injection H as <-. unfold stripInside.
  cbn [Strip.top Strip.bottom Strip.left].
  apply Qltb_false in Eh.
  rewrite Forall_forall in D, E, F.
  split; [apply D; apply minList_In; exact A|].
  split; [apply E; apply maxList_In; exact B|].
  split; [exact Eh|].
  destruct (median_cases (GapDetector.lefts c) C) as [x [y [Hx [Hy Em]]]].
  rewrite Em. pose proof (F x Hx). pose proof (F y Hy).
  apply Qle_shift_div_l; lra.
Qed.

Lemma mergeScan_inPage (avgLine : Q) (sorted : list Strip.t) :
  forall cur,
    stripInside pageRect avgLine cur -> Forall (stripInside pageRect avgLine) sorted ->
    Forall (stripInside pageRect avgLine) (GapDetector.mergeScan cur sorted).
Proof.
  induction sorted as [|s rest IH]; intros cur Hc Hs; cbn [GapDetector.mergeScan].
  - constructor; [exact Hc | constructor].
  - inversion Hs as [|? ? Hs0 Hr]; subst.
    destruct (GapDetector.sameCenter cur s && GapDetector.overlapsVertically cur s).
    + apply IH; [|exact Hr].
      destruct Hc as [A [B [C D]]]. destruct Hs0 as [A' [B' [C' D']]].
      unfold stripInside. cbn [Strip.top Strip.bottom Strip.left].
      destruct (minQ_cases (Strip.top cur) (Strip.top s)) as [[H1 E1]|[H1 E1]]; rewrite E1;
      destruct (maxQ_cases (Strip.bottom cur) (Strip.bottom s)) as [[H2 E2]|[H2 E2]];
        rewrite E2;
      destruct (minQ_cases (Strip.left cur) (Strip.left s)) as [[H3 E3]|[H3 E3]];
        rewrite E3; repeat split; lra.
    + constructor; [exact Hc | apply IH; assumption].
Qed.

Lemma detected_strips_inPage (Msqrt : Q -> Q) (spanRects : list Rect.t) (avgLine : Q) :
  Forall (stripInside pageRect avgLine)
    (fst (GapDetector.detectStripsAndBands Msqrt spanRects pageRect avgLine)).
Proof.
  unfold GapDetector.detectStripsAndBands. cbv zeta. cbn [fst].
  pose proof (clusterGaps_inPage spanRects avgLine) as Hc.
  set (n := List.length (GapDetector.buildBands spanRects pageRect avgLine)).
  assert (Hs : Forall (stripInside pageRect avgLine)
                 (GapDetector.stripsOfClusters Msqrt avgLine n
                    (GapDetector.clusterGaps avgLine
                       (GapDetector.buildBands spanRects pageRect avgLine)))).
  { induction Hc as [|c cs Hc0 Hcs IH]; cbn [GapDetector.stripsOfClusters];
      [constructor|].
    destruct (GapDetector.stripOfCluster Msqrt avgLine n c) as [s|] eqn:E; [|exact IH].
    constructor; [|exact IH]. apply (stripOfCluster_inPage Msqrt avgLine n c s Hc0 E). }
  unfold GapDetector.mergeSimilarStrips.
  apply (sortBy_Forall
           (fun a b =>
              Qle_bool ((Strip.left a + Strip.right a) / 2
                        - (Strip.left b + Strip.right b) / 2) 0)) in Hs.
  destruct (sortBy _ _) as [|s0 rest]; [constructor|].
  inversion Hs; subst. apply mergeScan_inPage; assumption.
Qed.

End InsidePage.

(** X6. Every vertical strip the gap detector builds lies between the top
    and the bottom of the page, does not start left of the page, and is at
    least 1.5 line heights tall. *)
Theorem strips_inside_page :
  forall (Msqrt : Q -> Q) (spanRects : list Rect.t) (pageRect : Rect.t)
         (avgLine : Q) (s : Strip.t),
    In s (fst (GapDetector.detectStripsAndBands Msqrt spanRects pageRect avgLine)) ->
    Rect.top pageRect <= Strip.top s
    /\ Strip.bottom s <= Rect.bottom pageRect
    /\ Rect.left pageRect <= Strip.left s
    /\ avgLine * 1.5 <= Strip.bottom s - Strip.top s.
Proof.
  intros Msqrt spanRects pageRect avgLine s Hs.
  pose proof (detected_strips_inPage pageRect Msqrt spanRects avgLine) as H.
  rewrite Forall_forall in H. destruct (H s Hs) as [A [B [C D]]].
  unfold GapDetector.MIN_STRIP_HEIGHT_FACTOR in C. tauto.
Qed.

Lemma strips_inside_page_witness :
  In GutterExample.strip
    (fst (GapDetector.detectStripsAndBands sqrtApprox Examples.unevenGutter
            GutterExample.pageRect 8))
  /\ Rect.top GutterExample.pageRect <= Strip.top GutterExample.strip
  /\ Strip.bottom GutterExample.strip <= Rect.bottom GutterExample.pageRect
  /\ Rect.left GutterExample.pageRect <= Strip.left GutterExample.strip
  /\ 8 * 1.5 <= Strip.bottom GutterExample.strip - Strip.top GutterExample.strip.
Proof.
  assert (H : In GutterExample.strip
                (fst (GapDetector.detectStripsAndBands sqrtApprox Examples.unevenGutter
                        GutterExample.pageRect 8)))
    by (vm_compute; left; reflexivity).
  split; [exact H|].
  exact (strips_inside_page sqrtApprox Examples.unevenGutter GutterExample.pageRect 8
           GutterExample.strip H).
Defined.

(** *** Merging of near-duplicate strips *)

Lemma stripCovers_refl (s : Strip.t) : stripCovers s s.
Proof. unfold stripCovers. repeat split; apply Qle_refl. Qed.

Lemma stripCovers_trans (a b c : Strip.t) :
  stripCovers a b -> stripCovers b c -> stripCovers a c.
Proof. unfold stripCovers. intros [A1 [A2 [A3 [A4 A5]]]] [B1 [B2 [B3 [B4 B5]]]]. repeat split; lra. Qed.

Lemma mergeScan_covers (sorted : list Strip.t) :
  forall cur s,
    stripCovers cur s \/ In s sorted ->
    exists o, In o (GapDetector.mergeScan cur sorted) /\ stripCovers o s.
Proof.
  induction sorted as [|s0 rest IH]; intros cur s H; cbn [GapDetector.mergeScan].
  - destruct H as [H|[]]. exists cur. split; [left; reflexivity | exact H].
  - destruct (GapDetector.sameCenter cur s0 && GapDetector.overlapsVertically cur s0).
    + set (merged :=
             {| Strip.left := minQ (Strip.left cur) (Strip.left s0);
                Strip.right := maxQ (Strip.right cur) (Strip.right s0);
                Strip.top := minQ (Strip.top cur) (Strip.top s0);
                Strip.bottom := maxQ (Strip.bottom cur) (Strip.bottom s0);
                Strip.confidence :=
                  maxQ (Strip.confidence cur) (Strip.confidence s0) |}).
      assert (Hhull : stripCovers merged cur /\ stripCovers merged s0).
      { unfold stripCovers. subst merged.
        cbn [Strip.left Strip.right Strip.top Strip.bottom Strip.confidence].
        destruct (minQ_cases (Strip.left cur) (Strip.left s0)) as [[H1 E1]|[H1 E1]];
          rewrite E1;
        destruct (maxQ_cases (Strip.right cur) (Strip.right s0)) as [[H2 E2]|[H2 E2]];
          rewrite E2;
        destruct (minQ_cases (Strip.top cur) (Strip.top s0)) as [[H3 E3]|[H3 E3]];
          rewrite E3;
        destruct (maxQ_cases (Strip.bottom cur) (Strip.bottom s0)) as [[H4 E4]|[H4 E4]];
          rewrite E4;
        destruct (maxQ_cases (Strip.confidence cur) (Strip.confidence s0))
          as [[H5 E5]|[H5 E5]]; rewrite E5; repeat split; lra. }
      destruct Hhull as [Hc Hs0].
      apply IH. destruct H as [H|[<-|H]].
      * left. apply (stripCovers_trans _ cur); assumption.
      * left. exact Hs0.
      * right. exact H.
    + destruct H as [H|[<-|H]].
      * exists cur. split; [left; reflexivity | exact H].
      * destruct (IH s0 s0 (or_introl (stripCovers_refl s0))) as [o [Ho Hc]].
        exists o. split; [right; exact Ho | exact Hc].
      * destruct (IH s0 s (or_intror H)) as [o [Ho Hc]].
        exists o. split; [right; exact Ho | exact Hc].
Qed.

Lemma mergeScan_length (sorted : list Strip.t) :
  forall cur,
    (1 <= List.length (GapDetector.mergeScan cur sorted) <= S (List.length sorted))%nat.
Proof.
  induction sorted as [|s0 rest IH]; intros cur; cbn [GapDetector.mergeScan List.length].
  - lia.
  - destruct (_ && _).
    + specialize (IH {| Strip.left := minQ (Strip.left cur) (Strip.left s0);
                        Strip.right := maxQ (Strip.right cur) (Strip.right s0);
                        Strip.top := minQ (Strip.top cur) (Strip.top s0);
                        Strip.bottom := maxQ (Strip.bottom cur) (Strip.bottom s0);
                        Strip.confidence :=
                          maxQ (Strip.confidence cur) (Strip.confidence s0) |}). lia.
    + specialize (IH s0). cbn [List.length]. lia.
Qed.

(** X7. Merging near-duplicate strips loses nothing: every strip given is
    inside one of the strips returned, which is at least as confident; and
    the strips returned are no more than the strips given. *)
Theorem mergeSimilarStrips_covers :
  forall (strips : list Strip.t),
    (List.length (GapDetector.mergeSimilarStrips strips) <= List.length strips)%nat
    /\ forall s, In s strips ->
         exists o, In o (GapDetector.mergeSimilarStrips strips)
                   /\ Strip.left o <= Strip.left s /\ Strip.right s <= Strip.right o
                   /\ Strip.top o <= Strip.top s /\ Strip.bottom s <= Strip.bottom o
                   /\ Strip.confidence s <= Strip.confidence o.
Proof.
  intro strips. unfold GapDetector.mergeSimilarStrips.
  set (le := fun a b : Strip.t =>
               Qle_bool ((Strip.left a + Strip.right a) / 2
                         - (Strip.left b + Strip.right b) / 2) 0).
  pose proof (sortBy_length le strips) as Hlen.
  pose proof (sortBy_In le strips) as Hin.
  destruct (sortBy le strips) as [|s0 rest].
  - split; [simpl; lia|]. intros s Hs. apply Hin in Hs. contradiction.
  - split.
    + pose proof (mergeScan_length rest s0). simpl in Hlen. lia.
    + intros s Hs. apply Hin in Hs.
      destruct (mergeScan_covers rest s0 s) as [o [Ho Hc]].
      { destruct Hs as [<-|Hs]; [left; apply stripCovers_refl | right; exact Hs]. }
      exists o. split; [exact Ho | exact Hc].
Qed.

Lemma mergeSimilarStrips_covers_witness :
  In (Strip.mk 290 310 0 12 0.7)
     [Strip.mk 290 310 0 12 0.7; Strip.mk 291 311 6 24 0.9; Strip.mk 100 120 0 24 0.8]
  /\ exists o,
       In o (GapDetector.mergeSimilarStrips
               [Strip.mk 290 310 0 12 0.7; Strip.mk 291 311 6 24 0.9;
                Strip.mk 100 120 0 24 0.8])
       /\ Strip.left o <= 290 /\ 310 <= Strip.right o
       /\ Strip.top o <= 0 /\ 12 <= Strip.bottom o
       /\ 0.7 <= Strip.confidence o.
Proof.
  assert (H : In (Strip.mk 290 310 0 12 0.7)
                [Strip.mk 290 310 0 12 0.7; Strip.mk 291 311 6 24 0.9;
                 Strip.mk 100 120 0 24 0.8]) by (left; reflexivity).
  split; [exact H|].
  exact (proj2 (mergeSimilarStrips_covers
                  [Strip.mk 290 310 0 12 0.7; Strip.mk 291 311 6 24 0.9;
                   Strip.mk 100 120 0 24 0.8])
           (Strip.mk 290 310 0 12 0.7) H).
Defined.

(** *** Boundaries and columns *)

Lemma columnScan_spec (pageRect : Rect.t) (sorted : list GapDetector.Boundary.t) :
  Rect.left pageRect <= Rect.right pageRect ->
  forall prevX,
    prevX <= Rect.right pageRect ->
    columnsFrom prevX (GapDetector.columnScan pageRect prevX sorted)
    /\ Forall (fun c => Rect.right c <= Rect.right pageRect
                        /\ Rect.top c = Rect.top pageRect
                        /\ Rect.bottom c = Rect.bottom pageRect
                        /\ Rect.width c = Rect.right c - Rect.left c)
         (GapDetector.columnScan pageRect prevX sorted)
    /\ (prevX < Rect.right pageRect ->
        GapDetector.columnScan pageRect prevX sorted <> []).
Proof.
  intro Hpage. induction sorted as [|b rest IH]; intros prevX Hprev;
    cbn [GapDetector.columnScan].
  - destruct (Qltb prevX (Rect.right pageRect)) eqn:E.
    + apply Qltb_true in E. split.
      * cbn [columnsFrom Rect.left Rect.right]. tauto.
      * split; [|discriminate]. constructor; [|constructor].
        cbn [Rect.left Rect.right Rect.top Rect.bottom Rect.width].
        split; [apply Qle_refl|]. tauto.
    + apply Qltb_false in E. split; [exact I|]. split; [constructor|]. intro. lra.
  - cbv zeta.
    set (x := maxQ (Rect.left pageRect)
                (minQ (Rect.right pageRect) (GapDetector.Boundary.x b))).
    assert (Hx : x <= Rect.right pageRect).
    { subst x.
      destruct (minQ_cases (Rect.right pageRect) (GapDetector.Boundary.x b))
        as [[H1 E1]|[H1 E1]]; rewrite E1;
      match goal with
      | |- maxQ ?a ?b <= _ => destruct (maxQ_cases a b) as [[H2 E2]|[H2 E2]]; rewrite E2; lra
      end. }
    destruct (Qgtb x prevX) eqn:E.
    + apply Qgtb_true in E. destruct (IH x Hx) as [A [B _]].
      split; [|split; [|discriminate]].
      * cbn [columnsFrom Rect.left Rect.right]. tauto.
      * constructor; [|exact B].
        cbn [Rect.left Rect.right Rect.top Rect.bottom Rect.width]. tauto.
    + apply IH. exact Hprev.
Qed.

Lemma columnsFrom_firstn (n : nat) :
  forall x cols, columnsFrom x cols -> columnsFrom x (firstn n cols).
Proof.
  induction n as [|n IH]; intros x cols H; [exact I|].
  destruct cols as [|c r]; [exact I|]. cbn [firstn columnsFrom] in *.
  destruct H as [A [B C]]. split; [exact A|]. split; [exact B|]. apply IH. exact C.
Qed.

(** X8. For a page of positive width, the columns created from any
    boundaries are at least one and at most six; the first starts at the
    left edge of the page, each one has a positive width and starts where
    the one before ends, none reaches beyond the right edge of the page, and
    each spans the page from top to bottom. *)
Theorem createColumnsFromBoundaries_tiles :
  forall (boundaries : list GapDetector.Boundary.t) (pageRect : Rect.t),
    Rect.left pageRect < Rect.right pageRect ->
    let cols := GapDetector.createColumnsFromBoundaries boundaries pageRect in
    cols <> []
    /\ (List.length cols <= 6)%nat
    /\ columnsFrom (Rect.left pageRect) cols
    /\ Forall (fun c => Rect.right c <= Rect.right pageRect
                        /\ Rect.top c = Rect.top pageRect
                        /\ Rect.bottom c = Rect.bottom pageRect) cols.
Proof.
  intros boundaries pageRect Hpage. cbv zeta.
  unfold GapDetector.createColumnsFromBoundaries.
  destruct boundaries as [|b0 bs].
  - split; [discriminate|]. split; [simpl; lia|]. split.
    + cbn [columnsFrom Rect.left Rect.right]. tauto.
    + constructor; [|constructor]. cbn [Rect.right Rect.top Rect.bottom].
      split; [apply Qle_refl | tauto].
  - set (sorted := sortBy _ (b0 :: bs)).
    destruct (columnScan_spec pageRect sorted (Qlt_le_weak _ _ Hpage)
                (Rect.left pageRect) (Qlt_le_weak _ _ Hpage)) as [A [B C]].
    specialize (C Hpage).
    split; [|split; [|split]].
    + destruct (GapDetector.columnScan pageRect (Rect.left pageRect) sorted);
        [congruence | discriminate].
    + unfold GapDetector.MAX_COLUMNS. rewrite length_firstn. lia.
    + apply columnsFrom_firstn. exact A.
    + apply Forall_forall. intros c Hc.
      assert (Hc' : In c (GapDetector.columnScan pageRect (Rect.left pageRect) sorted)).
      { rewrite <- (firstn_skipn GapDetector.MAX_COLUMNS
                      (GapDetector.columnScan pageRect (Rect.left pageRect) sorted)).
        apply in_or_app. left. exact Hc. }
      rewrite Forall_forall in B. destruct (B c Hc') as [B1 [B2 [B3 _]]]. tauto.
Qed.

Lemma createColumnsFromBoundaries_tiles_witness :
  Rect.left (Examples.page 600 24) < Rect.right (Examples.page 600 24)
  /\ columnsFrom 0
       (GapDetector.createColumnsFromBoundaries
          [GapDetector.Boundary.mk 300 0.75 20 24 0; GapDetector.Boundary.mk 100 0.8 20 24 0]
          (Examples.page 600 24)).
Proof.
  assert (H : Rect.left (Examples.page 600 24) < Rect.right (Examples.page 600 24))
    by (vm_compute; reflexivity).
  split; [exact H|].
  exact (proj1 (proj2 (proj2 (createColumnsFromBoundaries_tiles
           [GapDetector.Boundary.mk 300 0.75 20 24 0; GapDetector.Boundary.mk 100 0.8 20 24 0]
           (Examples.page 600 24) H)))).
Defined.

(** X9. The classic boundaries of a gap analysis are one per vertical strip:
    no strip falls below the confidence the boundaries are filtered by; they
    come out ordered by [x], and the columns are at most one more than the
    strips. *)
Theorem boundaries_one_per_strip :
  forall (Msqrt : Q -> Q) (spanRects : list Rect.t) (pageRect : Rect.t),
    let analysis := GapDetector.detectGapsFromRects Msqrt spanRects pageRect in
    let bc := GapDetector.verticalBoundariesAndColumns Msqrt spanRects pageRect in
    List.length (fst bc) = List.length (GapDetector.verticalStrips analysis)
    /\ StronglySorted (fun a b => GapDetector.Boundary.x a <= GapDetector.Boundary.x b)
         (fst bc)
    /\ (List.length (snd bc) <= S (List.length (GapDetector.verticalStrips analysis)))%nat.
Proof.
  intros Msqrt spanRects pageRect. cbv zeta.
  unfold GapDetector.detectGapsFromRects, GapDetector.verticalBoundariesAndColumns.
  destruct spanRects as [|r0 rs].
  - cbn. split; [reflexivity|]. split; [constructor | lia].
  - set (spans := r0 :: rs).
    set (avg := GapDetector.estimateAverageLineHeight spans).
    pose proof (fun s => detected_strip_cluster Msqrt spans pageRect avg s) as Hconf.
    destruct (GapDetector.detectStripsAndBands Msqrt spans pageRect avg)
      as [strips bands] eqn:E.
    cbn [fst snd GapDetector.verticalStrips] in *.
    unfold GapDetector.verticalBoundariesOf.
    set (toBoundary := fun s : Strip.t =>
           {| GapDetector.Boundary.x := (Strip.left s + Strip.right s) / 2;
              GapDetector.Boundary.confidence := Strip.confidence s;
              GapDetector.Boundary.width := maxQ 1 (Strip.right s - Strip.left s);
              GapDetector.Boundary.height := Rect.height pageRect;
              GapDetector.Boundary.segmentIndex := 0%nat |}).
    assert (Hfilter :
              filter (fun b => Qgeb (GapDetector.Boundary.confidence b)
                                 GapDetector.MIN_STRIP_CONFIDENCE)
                (map toBoundary strips) = map toBoundary strips).
    { apply forallb_filter_id. apply forallb_forall. intros b Hb.
      apply in_map_iff in Hb. destruct Hb as [s [<- Hs]].
      cbn [GapDetector.Boundary.confidence toBoundary].
      destruct (Hconf s Hs) as [c [_ [_ Hmin]]].
      apply Qgeb_true. unfold GapDetector.MIN_STRIP_CONFIDENCE. exact Hmin. }
    rewrite Hfilter.
    set (le := fun a b => Qle_bool (GapDetector.Boundary.x a - GapDetector.Boundary.x b) 0).
    assert (Hlen : List.length (sortBy le (map toBoundary strips)) = List.length strips).
    { rewrite sortBy_length. apply length_map. }
    split; [exact Hlen|]. split; [apply sortBy_key_sorted|].
    unfold GapDetector.createColumnsFromBoundaries.
    destruct (sortBy le (map toBoundary strips)) as [|b0 bs] eqn:Es.
    + simpl. lia.
    + rewrite length_firstn.
      assert (Hscan : forall sorted prevX,
                 (List.length (GapDetector.columnScan pageRect prevX sorted)
                  <= S (List.length sorted))%nat).
      { induction sorted as [|b rest IH]; intro prevX; cbn [GapDetector.columnScan].
        - destruct (Qltb _ _); simpl; lia.
        - cbv zeta. destruct (Qgtb _ prevX); cbn [List.length].
          + specialize (IH (maxQ (Rect.left pageRect)
                              (minQ (Rect.right pageRect) (GapDetector.Boundary.x b)))).
            lia.
          + specialize (IH prevX). lia. }
      pose proof (Hscan (sortBy le (b0 :: bs)) (Rect.left pageRect)) as H1.
      rewrite sortBy_length in H1. rewrite <- Hlen.
      pose proof (Nat.le_min_r GapDetector.MAX_COLUMNS
                    (List.length
                       (GapDetector.columnScan pageRect (Rect.left pageRect)
                          (sortBy le (b0 :: bs))))) as H2.
      exact (Nat.le_trans _ _ _ H2 H1).
Qed.

(** ** ParagraphMerger.ts *)

(** *** Geometry helpers *)

Lemma bboxFold_spec (rects : list Rect.t) :
  forall l0 t0 r0 b0 l t r b,
    fold_left ParagraphMerger.bboxStep rects (l0, t0, r0, b0) = (l, t, r, b) ->
    l <= l0 /\ t <= t0 /\ r0 <= r /\ b0 <= b
    /\ forall x, In x rects ->
         l <= Rect.left x /\ t <= Rect.top x /\ Rect.right x <= r /\ Rect.bottom x <= b.
Proof.
  induction rects as [|x0 rest IH]; intros l0 t0 r0 b0 l t r b H; cbn [fold_left] in H.
  - injection H as <- <- <- <-. repeat apply conj; try apply Qle_refl. intros x [].
  - unfold ParagraphMerger.bboxStep at 2 in H.
    apply IH in H. destruct H as [A [B [C [D E]]]].
    destruct (Qltb (Rect.left x0) l0) eqn:E1;
    destruct (Qltb (Rect.top x0) t0) eqn:E2;
    destruct (Qgtb (Rect.right x0) r0) eqn:E3;
    destruct (Qgtb (Rect.bottom x0) b0) eqn:E4;
    try apply Qltb_true in E1; try apply Qltb_false in E1;
    try apply Qltb_true in E2; try apply Qltb_false in E2;
    try apply Qgtb_true in E3; try apply Qgtb_false in E3;
    try apply Qgtb_true in E4; try apply Qgtb_false in E4;
    (split; [lra|]; split; [lra|]; split; [lra|]; split; [lra|];
     intros x [<-|Hx]; [repeat split; lra | apply E; exact Hx]).
Qed.

(** X10. The bounding box of a paragraph encloses the rect of every span of
    the paragraph, and its width and height are the differences of its
    edges. *)
Theorem getParaBbox_encloses :
  forall (spans : list SpanInfo.t) (s : SpanInfo.t),
    In s spans ->
    let bbox := ParagraphMerger.getParaBbox spans in
    Rect.left bbox <= Rect.left (SpanInfo.rect s)
    /\ Rect.top bbox <= Rect.top (SpanInfo.rect s)
    /\ Rect.right (SpanInfo.rect s) <= Rect.right bbox
    /\ Rect.bottom (SpanInfo.rect s) <= Rect.bottom bbox
    /\ Rect.width bbox = Rect.right bbox - Rect.left bbox
    /\ Rect.height bbox = Rect.bottom bbox - Rect.top bbox.
Proof.
  intros spans s Hs. cbv zeta. unfold ParagraphMerger.getParaBbox.
  destruct spans as [|s0 rest]; [contradiction|]. cbv zeta.
  destruct (fold_left ParagraphMerger.bboxStep (map SpanInfo.rect rest)
              (Rect.left (SpanInfo.rect s0), Rect.top (SpanInfo.rect s0),
               Rect.right (SpanInfo.rect s0), Rect.bottom (SpanInfo.rect s0)))
    as [[[l t] r] b] eqn:E.
  apply bboxFold_spec in E. destruct E as [A [B [C [D E]]]].
  cbn [Rect.left Rect.top Rect.right Rect.bottom Rect.width Rect.height].
  destruct Hs as [<-|Hs].
  - repeat split; try assumption; reflexivity.
  - destruct (E (SpanInfo.rect s) (in_map _ _ _ Hs)) as [E1 [E2 [E3 E4]]].
    repeat split; try assumption; reflexivity.
Qed.

Lemma getParaBbox_encloses_witness :
  In StackedExample.lower [StackedExample.upper; StackedExample.lower]
  /\ Rect.left (ParagraphMerger.getParaBbox [StackedExample.upper; StackedExample.lower])
     <= Rect.left (SpanInfo.rect StackedExample.lower)
  /\ Rect.bottom (SpanInfo.rect StackedExample.lower)
     <= Rect.bottom (ParagraphMerger.getParaBbox [StackedExample.upper; StackedExample.lower]).
Proof.
  assert (H : In StackedExample.lower [StackedExample.upper; StackedExample.lower])
    by (right; left; reflexivity).
  split; [exact H|].
  pose proof (getParaBbox_encloses [StackedExample.upper; StackedExample.lower]
                StackedExample.lower H) as G.
  cbv zeta in G. split; [exact (proj1 G) | exact (proj1 (proj2 (proj2 (proj2 G))))].
Defined.

(** X11. When two rects have an intersection, it lies inside both and has a
    positive width and height, which are the differences of its edges; they
    have none exactly when they share no area. *)
Theorem rectIntersection_inside :
  forall (a b : Rect.t),
    match ParagraphMerger.rectIntersection a b with
    | Some r =>
      Rect.left a <= Rect.left r /\ Rect.left b <= Rect.left r
      /\ Rect.right r <= Rect.right a /\ Rect.right r <= Rect.right b
      /\ Rect.top a <= Rect.top r /\ Rect.top b <= Rect.top r
      /\ Rect.bottom r <= Rect.bottom a /\ Rect.bottom r <= Rect.bottom b
      /\ Rect.left r < Rect.right r /\ Rect.top r < Rect.bottom r
      /\ Rect.width r = Rect.right r - Rect.left r
      /\ Rect.height r = Rect.bottom r - Rect.top r
    | None =>
      Rect.right a <= Rect.left b \/ Rect.right b <= Rect.left a
      \/ Rect.right a <= Rect.left a \/ Rect.right b <= Rect.left b
      \/ Rect.bottom a <= Rect.top b \/ Rect.bottom b <= Rect.top a
      \/ Rect.bottom a <= Rect.top a \/ Rect.bottom b <= Rect.top b
    end.
Proof.
  intros a b. unfold ParagraphMerger.rectIntersection. cbv zeta.
  destruct (maxQ_cases (Rect.left a) (Rect.left b)) as [[L1 L2]|[L1 L2]]; rewrite L2;
  destruct (maxQ_cases (Rect.top a) (Rect.top b)) as [[T1 T2]|[T1 T2]]; rewrite T2;
  destruct (minQ_cases (Rect.right a) (Rect.right b)) as [[R1 R2]|[R1 R2]]; rewrite R2;
  destruct (minQ_cases (Rect.bottom a) (Rect.bottom b)) as [[B1 B2]|[B1 B2]]; rewrite B2;
  match goal with
  | |- context [Qle_bool ?x ?y || Qle_bool ?u ?v] =>
    destruct (Qle_bool x y) eqn:E1; destruct (Qle_bool u v) eqn:E2;
    try apply Qle_bool_iff in E1; try apply Qle_bool_false in E1;
    try apply Qle_bool_iff in E2; try apply Qle_bool_false in E2;
    cbn [orb Rect.left Rect.right Rect.top Rect.bottom Rect.width Rect.height]
  end;
  try (repeat split; try reflexivity; lra);
  try (left; lra); try (right; left; lra); try (right; right; left; lra);
  try (right; right; right; left; lra); try (right; right; right; right; left; lra);
  try (right; right; right; right; right; left; lra);
  try (right; right; right; right; right; right; left; lra);
  try (right; right; right; right; right; right; right; lra).
Qed.

(** *** Column and band tests *)

Lemma minQ_sym (a b : Q) : minQ a b == minQ b a.
Proof.
  destruct (minQ_cases a b) as [[H E]|[H E]], (minQ_cases b a) as [[H' E']|[H' E']];
    rewrite E, E'; lra.
Qed.

Lemma maxQ_sym (a b : Q) : maxQ a b == maxQ b a.
Proof.
  destruct (maxQ_cases a b) as [[H E]|[H E]], (maxQ_cases b a) as [[H' E']|[H' E']];
    rewrite E, E'; lra.
Qed.

Lemma minQ_compat (a a' b b' : Q) : a == a' -> b == b' -> minQ a b == minQ a' b'.
Proof.
  intros Ha Hb.
  destruct (minQ_cases a b) as [[H E]|[H E]], (minQ_cases a' b') as [[H' E']|[H' E']];
    rewrite E, E'; lra.
Qed.

Lemma maxQ_compat (a a' b b' : Q) : a == a' -> b == b' -> maxQ a b == maxQ a' b'.
Proof.
  intros Ha Hb.
  destruct (maxQ_cases a b) as [[H E]|[H E]], (maxQ_cases a' b') as [[H' E']|[H' E']];
    rewrite E, E'; lra.
Qed.

Lemma horizontalOverlapOf_sym (a b : Rect.t) :
  ParagraphMerger.horizontalOverlapOf a b == ParagraphMerger.horizontalOverlapOf b a.
Proof.
  unfold ParagraphMerger.horizontalOverlapOf. apply maxQ_compat; [reflexivity|].
  pose proof (minQ_sym (Rect.right a) (Rect.right b)).
  pose proof (maxQ_sym (Rect.left a) (Rect.left b)). lra.
Qed.

Section SameColumn.

Variable cfg : LayoutSettings.

Lemma stripCoverageStep_compat (yTop yTop' yBot yBot' gapLeft gapRight minCov : Q)
  (acc acc' : Q) (s : Strip.t) :
  yTop == yTop' -> yBot == yBot' -> acc == acc' ->
  ParagraphMerger.stripCoverageStep cfg yTop yBot gapLeft gapRight minCov acc s
  == ParagraphMerger.stripCoverageStep cfg yTop' yBot' gapLeft gapRight minCov acc' s.
Proof.
  intros Ht Hb Ha. unfold ParagraphMerger.stripCoverageStep.
  destruct (Qltb (Strip.confidence s) (pmMinStripConfidenceSplit cfg)); [exact Ha|].
  destruct (Qltb (Strip.right s - Strip.left s) (pmMinStripWidthPx cfg)); [exact Ha|].
  cbv zeta.
  assert (Hov : (minQ yBot (Strip.bottom s) - maxQ yTop (Strip.top s))
                / (Strip.bottom s - Strip.top s)
                == (minQ yBot' (Strip.bottom s) - maxQ yTop' (Strip.top s))
                   / (Strip.bottom s - Strip.top s)).
  { pose proof (minQ_compat yBot yBot' (Strip.bottom s) (Strip.bottom s) Hb (Qeq_refl _))
      as H1.
    pose proof (maxQ_compat yTop yTop' (Strip.top s) (Strip.top s) Ht (Qeq_refl _)) as H2.
    rewrite H1, H2. reflexivity. }
  rewrite (Qltb_eq_compat _ _ _ _ Hov (Qeq_refl (pmMinStripOverlapFrac cfg))).
  destruct (Qltb _ (pmMinStripOverlapFrac cfg)); [exact Ha|].
  destruct (Qgeb _ minCov); [rewrite Ha; reflexivity | exact Ha].
Qed.

Lemma stripCoverage_fold_compat (yTop yTop' yBot yBot' gapLeft gapRight minCov : Q)
  (strips : list Strip.t) :
  yTop == yTop' -> yBot == yBot' ->
  forall acc acc',
    acc == acc' ->
    fold_left (ParagraphMerger.stripCoverageStep cfg yTop yBot gapLeft gapRight minCov)
      strips acc
    == fold_left (ParagraphMerger.stripCoverageStep cfg yTop' yBot' gapLeft gapRight minCov)
         strips acc'.
Proof.
  intros Ht Hb. induction strips as [|s rest IH]; intros acc acc' Ha; cbn [fold_left].
  - exact Ha.
  - apply IH. apply stripCoverageStep_compat; assumption.
Qed.

Lemma sameColumn_symmetric (a b : Rect.t) (strips : list Strip.t) :
  Rect.left a <= Rect.right a -> Rect.left b <= Rect.right b ->
  ParagraphMerger.sameColumnByStrips cfg a b strips
  = ParagraphMerger.sameColumnByStrips cfg b a strips.
Proof.
  intros Wa Wb. unfold ParagraphMerger.sameColumnByStrips.
  destruct (pmForceLinearMerge cfg); [reflexivity|].
  assert (Hw : minQ (Rect.width a) (Rect.width b) * 0.3
               == minQ (Rect.width b) (Rect.width a) * 0.3).
  { pose proof (minQ_sym (Rect.width a) (Rect.width b)). lra. }
  assert (Hov : Qgtb (ParagraphMerger.horizontalOverlapOf a b)
                  (minQ (Rect.width a) (Rect.width b) * 0.3)
                = Qgtb (ParagraphMerger.horizontalOverlapOf b a)
                    (minQ (Rect.width b) (Rect.width a) * 0.3)).
  { unfold Qgtb. apply Qltb_eq_compat; [exact Hw | apply horizontalOverlapOf_sym]. }
  destruct strips as [|s0 ss].
  - cbv zeta. rewrite Hov. f_equal.
    apply Qltb_eq_compat.
    + unfold absQ. rewrite Qabs_Qminus. reflexivity.
    + pose proof (maxQ_sym (Rect.width a) (Rect.width b)). lra.
  - cbv zeta.
    assert (Ht : minQ (Rect.top a) (Rect.top b) == minQ (Rect.top b) (Rect.top a))
      by apply minQ_sym.
    assert (Hb : maxQ (Rect.bottom a) (Rect.bottom b) == maxQ (Rect.bottom b) (Rect.bottom a))
      by apply maxQ_sym.
    assert (Hh : maxQ (Rect.bottom a) (Rect.bottom b) - minQ (Rect.top a) (Rect.top b)
                 == maxQ (Rect.bottom b) (Rect.bottom a) - minQ (Rect.top b) (Rect.top a))
      by lra.
    rewrite (Qle_bool_eq_compat _ _ 0 0 Hh (Qeq_refl 0)).
    destruct (Qle_bool (maxQ (Rect.bottom b) (Rect.bottom a)
                        - minQ (Rect.top b) (Rect.top a)) 0); [reflexivity|].
    destruct (Qltb (Rect.left a) (Rect.left b)) eqn:E1;
    destruct (Qltb (Rect.left b) (Rect.left a)) eqn:E2;
    try apply Qltb_true in E1; try apply Qltb_false in E1;
    try apply Qltb_true in E2; try apply Qltb_false in E2.
    + lra.
    + rewrite Hov.
      destruct (Qgtb (ParagraphMerger.horizontalOverlapOf b a) _); [reflexivity|].
      destruct (Qle_bool (Rect.left b - Rect.right a) 0); [reflexivity|].
      apply Qltb_eq_compat; [|reflexivity].
      apply Qdiv_comp; [|reflexivity].
      apply stripCoverage_fold_compat; [exact Ht | exact Hb | reflexivity].
    + rewrite Hov.
      destruct (Qgtb (ParagraphMerger.horizontalOverlapOf b a) _); [reflexivity|].
      destruct (Qle_bool (Rect.left a - Rect.right b) 0); [reflexivity|].
      apply Qltb_eq_compat; [|reflexivity].
      apply Qdiv_comp; [|reflexivity].
      apply stripCoverage_fold_compat; [exact Ht | exact Hb | reflexivity].
    + rewrite Hov.
      destruct (Qgtb (ParagraphMerger.horizontalOverlapOf b a) _); [reflexivity|].
      assert (G1 : Qle_bool (Rect.left a - Rect.right b) 0 = true)
        by (apply Qle_bool_iff; lra).
      assert (G2 : Qle_bool (Rect.left b - Rect.right a) 0 = true)
        by (apply Qle_bool_iff; lra).
      rewrite G1, G2. reflexivity.
Qed.

End SameColumn.

(** X12. Whether two boxes are in the same column does not depend on the
    order in which they are given, for boxes whose left edge is not right of
    their right edge. *)
Theorem sameColumnByStrips_symmetric :
  forall (cfg : LayoutSettings) (a b : Rect.t) (strips : list Strip.t),
    Rect.left a <= Rect.right a -> Rect.left b <= Rect.right b ->
    ParagraphMerger.sameColumnByStrips cfg a b strips
    = ParagraphMerger.sameColumnByStrips cfg b a strips.
Proof. intros cfg a b strips Wa Wb. apply sameColumn_symmetric; assumption. Qed.

Lemma sameColumnByStrips_symmetric_witness :
  Rect.left (Examples.box 10 0 270 200) <= Rect.right (Examples.box 10 0 270 200)
  /\ Rect.left (Examples.box 330 0 590 200) <= Rect.right (Examples.box 330 0 590 200)
  /\ ParagraphMerger.sameColumnByStrips defaultLayoutSettings
       (Examples.box 10 0 270 200) (Examples.box 330 0 590 200) [ColumnExample.strip]
     = ParagraphMerger.sameColumnByStrips defaultLayoutSettings
         (Examples.box 330 0 590 200) (Examples.box 10 0 270 200) [ColumnExample.strip].
Proof.
  assert (H1 : Rect.left (Examples.box 10 0 270 200)
               <= Rect.right (Examples.box 10 0 270 200)) by (vm_compute; discriminate).
  assert (H2 : Rect.left (Examples.box 330 0 590 200)
               <= Rect.right (Examples.box 330 0 590 200)) by (vm_compute; discriminate).
  split; [exact H1|]. split; [exact H2|].
  exact (sameColumnByStrips_symmetric defaultLayoutSettings
           (Examples.box 10 0 270 200) (Examples.box 330 0 590 200)
           [ColumnExample.strip] H1 H2).
Defined.

(** X13. Whether a band lies between two boxes does not depend on the order
    in which they are given; and no band of non-negative height lies between
    two boxes, neither of them upside down, that overlap vertically or
    touch. *)
Theorem hasHorizontalBandBetween_between :
  forall (cfg : LayoutSettings) (a b : Rect.t) (bands : list Band.t),
    ParagraphMerger.hasHorizontalBandBetween cfg a b bands
    = ParagraphMerger.hasHorizontalBandBetween cfg b a bands
    /\ (Forall (fun band => 0 <= Band.height band) bands ->
        Rect.top a <= Rect.bottom a -> Rect.top b <= Rect.bottom b ->
        Rect.top a <= Rect.bottom b -> Rect.top b <= Rect.bottom a ->
        ParagraphMerger.hasHorizontalBandBetween cfg a b bands = false).
Proof.
  intros cfg a b bands. unfold ParagraphMerger.hasHorizontalBandBetween.
  destruct (pmForceLinearMerge cfg); [split; reflexivity|]. cbv zeta. split.
  - induction bands as [|band rest IH]; cbn [existsb]; [reflexivity|].
    rewrite IH. f_equal.
    destruct (Qltb (Band.confidence band) 0.6); [reflexivity|].
    unfold Qgtb. f_equal.
    + apply Qltb_eq_compat; [apply minQ_sym | reflexivity].
    + apply Qltb_eq_compat; [reflexivity | apply maxQ_sym].
  - intros Hh Wa Wb Ha Hb. induction Hh as [|band rest Hband Hrest IH]; cbn [existsb];
      [reflexivity|].
    rewrite IH, orb_false_r.
    destruct (Qltb (Band.confidence band) 0.6); [reflexivity|].
    destruct (Qgtb (Band.y band) (minQ (Rect.bottom a) (Rect.bottom b))) eqn:E1;
      [|reflexivity].
    apply Qgtb_true in E1. cbn [andb]. apply Qltb_false.
    destruct (minQ_cases (Rect.bottom a) (Rect.bottom b)) as [[H1 X1]|[H1 X1]];
      rewrite X1 in E1;
    destruct (maxQ_cases (Rect.top a) (Rect.top b)) as [[H2 X2]|[H2 X2]]; rewrite X2.
    all: lra.
Qed.

Lemma hasHorizontalBandBetween_between_witness :
  Forall (fun band => 0 <= Band.height band) [Band.mk 11 1 0.95]
  /\ Rect.top (Examples.box 0 0 100 12) <= Rect.bottom (Examples.box 0 0 100 12)
  /\ Rect.top (Examples.box 0 10 100 22) <= Rect.bottom (Examples.box 0 10 100 22)
  /\ Rect.top (Examples.box 0 0 100 12) <= Rect.bottom (Examples.box 0 10 100 22)
  /\ Rect.top (Examples.box 0 10 100 22) <= Rect.bottom (Examples.box 0 0 100 12)
  /\ ParagraphMerger.hasHorizontalBandBetween defaultLayoutSettings
       (Examples.box 0 0 100 12) (Examples.box 0 10 100 22) [Band.mk 11 1 0.95] = false.
Proof.
  assert (H1 : Forall (fun band => 0 <= Band.height band) [Band.mk 11 1 0.95])
    by (constructor; [vm_compute; discriminate | constructor]).
  assert (H2 : Rect.top (Examples.box 0 0 100 12) <= Rect.bottom (Examples.box 0 10 100 22))
    by (vm_compute; discriminate).
  assert (H3 : Rect.top (Examples.box 0 10 100 22) <= Rect.bottom (Examples.box 0 0 100 12))
    by (vm_compute; discriminate).
  assert (H4 : Rect.top (Examples.box 0 0 100 12) <= Rect.bottom (Examples.box 0 0 100 12))
    by (vm_compute; discriminate).
  assert (H5 : Rect.top (Examples.box 0 10 100 22)
               <= Rect.bottom (Examples.box 0 10 100 22))
    by (vm_compute; discriminate).
  split; [exact H1|]. split; [exact H4|]. split; [exact H5|].
  split; [exact H2|]. split; [exact H3|].
  exact (proj2 (hasHorizontalBandBetween_between defaultLayoutSettings
                  (Examples.box 0 0 100 12) (Examples.box 0 10 100 22)
                  [Band.mk 11 1 0.95]) H1 H4 H5 H2 H3).
Defined.

Lemma colorDistSq_self (a : Style.t) : ParagraphMerger.colorDistSq a a == 0.
Proof.
  unfold ParagraphMerger.colorDistSq. destruct (Style.colorRGB a) as [[r g] b]. ring.
Qed.

(** X14. A style matches itself exactly when the force-linear policy is on,
    or the comparison is math-aware and the style is a math style, or the
    largest weight difference allowed is not negative. *)
Theorem stylesMatchStyle_reflexive :
  forall (cfg : LayoutSettings) (a : Style.t) (mathAware : bool),
    ParagraphMerger.stylesMatchStyle cfg a a mathAware = true
    <-> (pmForceLinearMerge cfg = true
         \/ (mathAware = true /\ Style.isMathElement a = true)
         \/ 0 <= pmInlineSpanMaxWeightDiff cfg).
Proof.
  intros cfg a mathAware. unfold ParagraphMerger.stylesMatchStyle.
  destruct (pmForceLinearMerge cfg); [split; [left; reflexivity | reflexivity]|].
  rewrite orb_diag, !String.eqb_refl.
  assert (Hw : Qeq_bool (Style.fontWeight a) (Style.fontWeight a) = true)
    by (apply Qeq_bool_iff; reflexivity).
  assert (Hs : Qgtb (absQ (Style.fontSize a - Style.fontSize a)) 1 = false).
  { apply Qgtb_false. unfold absQ.
    assert (E : Style.fontSize a - Style.fontSize a == 0) by ring.
    rewrite E. vm_compute. discriminate. }
  assert (Hc1 : Qltb (ParagraphMerger.colorDistSq a a) 100 = true).
  { apply Qltb_true. rewrite colorDistSq_self. reflexivity. }
  assert (Hc2 : Qgeb (ParagraphMerger.colorDistSq a a) 100 = false).
  { apply Qgeb_false. rewrite colorDistSq_self. reflexivity. }
  assert (Hd : absQ (ParagraphMerger.getNumericFontWeight (Style.fontWeight a)
                     - ParagraphMerger.getNumericFontWeight (Style.fontWeight a)) == 0).
  { unfold absQ, ParagraphMerger.getNumericFontWeight.
    assert (E : Style.fontWeight a - Style.fontWeight a == 0) by ring.
    rewrite E. reflexivity. }
  rewrite Hw, Hs, Hc1, Hc2. cbn [negb].
  rewrite andb_false_r.
  destruct (mathAware && Style.isMathElement a) eqn:Em.
  - apply andb_true_iff in Em. split; [intros _; right; left; exact Em | reflexivity].
  - destruct (Qgtb _ (pmInlineSpanMaxWeightDiff cfg)) eqn:Ew.
    + apply Qgtb_true in Ew. rewrite Hd in Ew. split; [discriminate|].
      intros [H|[[H1 H2]|H]]; [discriminate | rewrite H1, H2 in Em; discriminate | lra].
    + apply Qgtb_false in Ew. rewrite Hd in Ew.
      split; [intros _; right; right; exact Ew | reflexivity].
Qed.

Lemma stylesMatchStyle_reflexive_witness :
  (pmForceLinearMerge defaultLayoutSettings = true
   \/ (true = true /\ Style.isMathElement (Examples.plain "serif" 10) = true)
   \/ 0 <= pmInlineSpanMaxWeightDiff defaultLayoutSettings)
  /\ ParagraphMerger.stylesMatchStyle defaultLayoutSettings
       (Examples.plain "serif" 10) (Examples.plain "serif" 10) true = true.
Proof.
  assert (H : pmForceLinearMerge defaultLayoutSettings = true
              \/ (true = true /\ Style.isMathElement (Examples.plain "serif" 10) = true)
              \/ 0 <= pmInlineSpanMaxWeightDiff defaultLayoutSettings)
    by (right; right; vm_compute; discriminate).
  split; [exact H|].
  exact (proj2 (stylesMatchStyle_reflexive defaultLayoutSettings
                  (Examples.plain "serif" 10) true) H).
Defined.

Lemma minHeight_test (h : Q) : Qltb h (maxQ 12 (h * 0.7)) = false <-> 12 <= h.
Proof.
  rewrite Qltb_false.
  destruct (maxQ_cases 12 (h * 0.7)) as [[H E]|[H E]]; rewrite E; split; intro; lra.
Qed.

(** X15. [filterStrips] keeps exactly the strips that are at least 12 tall,
    at least as confident and as wide as the settings ask, and, when a
    viewport width is given, at least 0.3 percent of it wide; the clause on
    0.7 times the height rejects no strip. *)
Theorem filterStrips_keeps :
  forall (cfg : LayoutSettings) (strips : list Strip.t) (viewportWidth : option Q)
         (s : Strip.t),
    In s (ParagraphMerger.filterStrips cfg strips viewportWidth)
    <-> (In s strips
         /\ 12 <= Strip.bottom s - Strip.top s
         /\ pmMinStripConfidenceSplit cfg <= Strip.confidence s
         /\ pmMinStripWidthPx cfg <= Strip.right s - Strip.left s
         /\ match viewportWidth with
            | Some vw => vw * 0.003 <= Strip.right s - Strip.left s
            | None => True
            end).
Proof.
  intros cfg strips viewportWidth s. unfold ParagraphMerger.filterStrips.
  rewrite filter_In. cbv zeta.
  set (w := Strip.right s - Strip.left s). set (h := Strip.bottom s - Strip.top s).
  split.
  - intros [Hin Hk]. split; [exact Hin|].
    destruct viewportWidth as [vw|].
    + destruct (Qltb w (vw * 0.003)) eqn:Ev; [discriminate|]. apply Qltb_false in Ev.
      destruct (Qltb h (maxQ 12 (h * 0.7))) eqn:Eh; [discriminate|].
      apply minHeight_test in Eh. apply andb_true_iff in Hk. destruct Hk as [Hk _].
      apply andb_true_iff in Hk. destruct Hk as [Hc Hw].
      apply Qgeb_true in Hc, Hw. tauto.
    + destruct (Qltb h (maxQ 12 (h * 0.7))) eqn:Eh; [discriminate|].
      apply minHeight_test in Eh. apply andb_true_iff in Hk. destruct Hk as [Hk _].
      apply andb_true_iff in Hk. destruct Hk as [Hc Hw].
      apply Qgeb_true in Hc, Hw. tauto.
  - intros [Hin [H12 [Hc [Hw Hv]]]]. split; [exact Hin|].
    assert (Hrest : (if Qltb h (maxQ 12 (h * 0.7)) then false
                     else Qgeb (Strip.confidence s) (pmMinStripConfidenceSplit cfg)
                          && Qgeb w (pmMinStripWidthPx cfg) && Qgtb h 0) = true).
    { pose proof (proj2 (minHeight_test h) H12) as Eh. rewrite Eh.
      apply andb_true_iff. split; [apply andb_true_iff; split|].
      - apply Qgeb_true. exact Hc.
      - apply Qgeb_true. exact Hw.
      - apply Qgtb_true. lra. }
    destruct viewportWidth as [vw|]; [|exact Hrest].
    apply Qltb_false in Hv. rewrite Hv. exact Hrest.
Qed.

Lemma filterStrips_keeps_witness :
  (In ColumnExample.strip [ColumnExample.strip]
   /\ 12 <= Strip.bottom ColumnExample.strip - Strip.top ColumnExample.strip
   /\ pmMinStripConfidenceSplit defaultLayoutSettings <= Strip.confidence ColumnExample.strip
   /\ pmMinStripWidthPx defaultLayoutSettings
      <= Strip.right ColumnExample.strip - Strip.left ColumnExample.strip
   /\ 600 * 0.003 <= Strip.right ColumnExample.strip - Strip.left ColumnExample.strip)
  /\ In ColumnExample.strip
       (ParagraphMerger.filterStrips defaultLayoutSettings [ColumnExample.strip] (Some 600)).
Proof.
  assert (H : In ColumnExample.strip [ColumnExample.strip]
              /\ 12 <= Strip.bottom ColumnExample.strip - Strip.top ColumnExample.strip
              /\ pmMinStripConfidenceSplit defaultLayoutSettings
                 <= Strip.confidence ColumnExample.strip
              /\ pmMinStripWidthPx defaultLayoutSettings
                 <= Strip.right ColumnExample.strip - Strip.left ColumnExample.strip
              /\ 600 * 0.003
                 <= Strip.right ColumnExample.strip - Strip.left ColumnExample.strip).
  { split; [left; reflexivity|]. repeat split; vm_compute; discriminate. }
  split; [exact H|].
  exact (proj2 (filterStrips_keeps defaultLayoutSettings [ColumnExample.strip] (Some 600)
                  ColumnExample.strip) H).
Defined.

(** *** The stages *)

Lemma cmpTopLeft_cases (a b : Rect.t) :
  (Rect.top a == Rect.top b /\ cmpTopLeft a b = Rect.left a - Rect.left b)
  \/ (~ Rect.top a == Rect.top b /\ cmpTopLeft a b = Rect.top a - Rect.top b).
Proof.
  unfold cmpTopLeft. destruct (Qeq_bool (Rect.top a - Rect.top b) 0) eqn:E.
  - left. apply Qeq_bool_iff in E. split; [lra | reflexivity].
  - right. apply Qeq_bool_neq in E. split; [intro H; apply E; lra | reflexivity].
Qed.

Lemma spanLe_total (a b : SpanInfo.t) : spanLe a b = true \/ spanLe b a = true.
Proof.
  unfold spanLe, leTopLeft.
  destruct (cmpTopLeft_cases (SpanInfo.rect a) (SpanInfo.rect b)) as [[H E]|[H E]];
  destruct (cmpTopLeft_cases (SpanInfo.rect b) (SpanInfo.rect a)) as [[H' E']|[H' E']];
  rewrite E, E'; rewrite !Qle_bool_iff;
  destruct (Qlt_le_dec 0 (Rect.left (SpanInfo.rect a) - Rect.left (SpanInfo.rect b)));
  destruct (Qlt_le_dec 0 (Rect.top (SpanInfo.rect a) - Rect.top (SpanInfo.rect b)));
  try (left; lra); try (right; lra); exfalso; try (apply H; lra); try (apply H'; lra).
Qed.

Lemma spanLe_trans (a b c : SpanInfo.t) :
  spanLe a b = true -> spanLe b c = true -> spanLe a c = true.
Proof.
  unfold spanLe, leTopLeft.
  destruct (cmpTopLeft_cases (SpanInfo.rect a) (SpanInfo.rect b)) as [[H1 E1]|[H1 E1]];
  destruct (cmpTopLeft_cases (SpanInfo.rect b) (SpanInfo.rect c)) as [[H2 E2]|[H2 E2]];
  destruct (cmpTopLeft_cases (SpanInfo.rect a) (SpanInfo.rect c)) as [[H3 E3]|[H3 E3]];
  rewrite E1, E2, E3; rewrite !Qle_bool_iff; intros A B;
  try lra; exfalso;
  try (apply H3; lra); try (apply H1; lra); try (apply H2; lra).
Qed.

Lemma sortSpans_sorted (l : list SpanInfo.t) :
  StronglySorted (fun a b => spanLe a b = true) (sortSpans l).
Proof. apply sortBy_sorted; [exact spanLe_total | exact spanLe_trans]. Qed.

(** X16. The initial grouping keeps the reading order: the paragraphs, one
    after the other, are the spans sorted by top and then left edge, so each
    paragraph is a run of consecutive spans of that order; no paragraph is
    empty. *)
Theorem mergeIntoParagraphs_reading_order :
  forall (cfg : LayoutSettings) (spanInfos : list SpanInfo.t),
    let out := ParagraphMerger.mergeIntoParagraphsFromInfos cfg spanInfos in
    List.concat out = sortSpans spanInfos
    /\ StronglySorted (fun a b => spanLe a b = true) (List.concat out)
    /\ Permutation (List.concat out) spanInfos
    /\ Forall (fun p => p <> []) out.
Proof.
  intros cfg spanInfos. cbv zeta. unfold ParagraphMerger.mergeIntoParagraphsFromInfos.
  rewrite groupLoop_concat. cbn [app].
  split; [reflexivity|]. split; [apply sortSpans_sorted|].
  split; [apply sortBy_perm | apply groupLoop_nonEmpty].
Qed.

Lemma sortSpans_short (p : list SpanInfo.t) :
  (List.length p < 2)%nat -> sortSpans p = p.
Proof.
  destruct p as [|a [|b r]]; intro H; [reflexivity | reflexivity | simpl in H; lia].
Qed.

(** X17. The ligature stitching step changes no paragraph but for the order
    of its spans: whatever the style, baseline and kerning tests say, each
    paragraph comes back sorted by top and then left edge. *)
Theorem stitchInlineLigatures_only_sorts :
  forall (cfg : LayoutSettings) (paragraphs : list (list SpanInfo.t)),
    ParagraphMerger.stitchInlineLigaturesFromInfos cfg paragraphs
    = map sortSpans paragraphs.
Proof.
  intros cfg paragraphs. unfold ParagraphMerger.stitchInlineLigaturesFromInfos.
  apply map_ext. intro p. rewrite stitchParagraph_eq.
  destruct (Nat.ltb (List.length p) 2) eqn:E; [|reflexivity].
  apply Nat.ltb_lt in E. symmetry. apply sortSpans_short. exact E.
Qed.

Section NeverMerges.

Variable cfg : LayoutSettings.

Lemma splitParagraphByStrips_parts (para : list SpanInfo.t) (strips : list Strip.t)
  (lineHeight : Q) :
  ParagraphMerger.splitParagraphByStrips cfg para strips lineHeight <> []
  /\ forall q, In q (ParagraphMerger.splitParagraphByStrips cfg para strips lineHeight) ->
               forall s, In s q -> In s para.
Proof.
  assert (Hsame : [para] <> [] /\ forall q, In q [para] -> forall s, In s q -> In s para).
  { split; [discriminate|]. intros q [<-|[]] s Hs. exact Hs. }
  unfold ParagraphMerger.splitParagraphByStrips.
  destruct para as [|s0 ss]; [exact Hsame|].
  destruct strips as [|st sts]; [exact Hsame|].
  destruct (sortNum _) as [|b0 bs]; [exact Hsame|].
  cbv zeta.
  match goal with
  | |- context [Nat.ltb 1 (List.length ?g)] =>
    destruct (Nat.ltb 1 (List.length g)) eqn:E
  end; [|exact Hsame].
  split.
  - apply Nat.ltb_lt in E. intro H. rewrite H in E. simpl in E. lia.
  - intros q Hq s Hs. apply in_map_iff in Hq. destruct Hq as [bucket [<- Hb]].
    apply sortBy_In in Hs. apply filter_In in Hb. destruct Hb as [Hb _].
    apply in_map_iff in Hb. destruct Hb as [i [<- _]].
    unfold ParagraphMerger.bucketOf in Hs. apply filter_In in Hs. destruct Hs as [Hs _].
    apply (sortBy_In spanLe (s0 :: ss)). exact Hs.
Qed.

Lemma flat_map_parts {A : Type} (f : list A -> list (list A)) (ps : list (list A)) :
  (forall p, f p <> [] /\ forall q, In q (f p) -> forall s, In s q -> In s p) ->
  (List.length ps <= List.length (flat_map f ps))%nat
  /\ forall q, In q (flat_map f ps) -> exists p, In p ps /\ forall s, In s q -> In s p.
Proof.
  intro Hf. split.
  - induction ps as [|p rest IH]; cbn [flat_map List.length]; [lia|].
    rewrite length_app. destruct (Hf p) as [Hne _].
    destruct (f p); [congruence|]. cbn [List.length]. lia.
  - intros q Hq. apply in_flat_map in Hq. destruct Hq as [p [Hp Hq]].
    exists p. split; [exact Hp|]. apply (proj2 (Hf p)). exact Hq.
Qed.

End NeverMerges.

(** X18. Splitting against the strips never merges: the paragraphs returned
    are at least as many as the paragraphs given, and all the spans of a
    paragraph returned come from one paragraph given. *)
Theorem validateParagraphs_never_merges :
  forall (cfg : LayoutSettings) (paragraphs : list (list SpanInfo.t))
         (verticalStrips : list Strip.t) (lineHeight : Q) (viewportWidth : option Q),
    let out :=
      ParagraphMerger.validateParagraphsAgainstStripsFromInfos cfg paragraphs
        verticalStrips lineHeight viewportWidth in
    (List.length paragraphs <= List.length out)%nat
    /\ forall q, In q out -> exists p, In p paragraphs /\ forall s, In s q -> In s p.
Proof.
  intros cfg paragraphs strips lineHeight viewportWidth. cbv zeta.
  assert (Hsame : (List.length paragraphs <= List.length paragraphs)%nat
                  /\ forall q, In q paragraphs ->
                       exists p, In p paragraphs /\ forall s, In s q -> In s p).
  { split; [lia|]. intros q Hq. exists q. split; [exact Hq | trivial]. }
  unfold ParagraphMerger.validateParagraphsAgainstStripsFromInfos.
  destruct (pmForceLinearMerge cfg); [exact Hsame|].
  destruct strips as [|st sts]; [exact Hsame|].
  destruct (ParagraphMerger.filterStrips cfg (st :: sts) viewportWidth) as [|f fs];
    [exact Hsame|].
  apply flat_map_parts. intro p. apply splitParagraphByStrips_parts.
Qed.

Lemma mapM_firstStyle_threw (paragraphs : list (list SpanInfo.t)) :
  In [] paragraphs ->
  ParagraphMerger.mapM
    (fun p => s <- ParagraphMerger.firstStyle p ;; Returned (s, p)) paragraphs = Threw.
Proof.
  induction paragraphs as [|p rest IH]; intro H; [contradiction|].
  cbn [ParagraphMerger.mapM]. destruct p as [|s0 ss].
  - reflexivity.
  - destruct H as [H|H]; [discriminate|]. cbn [ParagraphMerger.firstStyle bind].
    rewrite (IH H). reflexivity.
Qed.

Section GeneralKeeps.

Variable cfg : LayoutSettings.
Variables (lineHeight : Q) (filteredStrips : list Strip.t) (bands : list Band.t).

Lemma generalScan_keeps (later : list (Style.t * list SpanInfo.t)) :
  forall currStyle current currBbox final unused,
    ParagraphMerger.generalScan cfg lineHeight filteredStrips bands currStyle current
      currBbox later = (final, unused) ->
    (forall s, In s current -> In s final)
    /\ forall sp, In sp later ->
         In sp unused \/ forall s, In s (snd sp) -> In s final.
Proof.
  induction later as [|[nextStyle next] rest IH];
    intros currStyle current currBbox final unused; cbn [ParagraphMerger.generalScan].
  - intro H. injection H as <- <-. split; [trivial | intros sp []].
  - destruct (ParagraphMerger.generalMerges _ _ _ _ _ _ _ _).
    + intro H. destruct (IH _ _ _ _ _ H) as [H1 H2]. split.
      * intros s Hs. apply H1. apply in_or_app. left. exact Hs.
      * intros sp [<-|Hsp]; [|apply H2; exact Hsp].
        right. intros s Hs. apply H1. apply in_or_app. right. exact Hs.
    + destruct (ParagraphMerger.generalScan _ _ _ _ currStyle current currBbox rest)
        as [f u] eqn:E.
      intro H. injection H as <- <-. destruct (IH _ _ _ _ _ E) as [H1 H2].
      split; [exact H1|].
      intros sp [<-|Hsp]; [left; left; reflexivity|].
      destruct (H2 sp Hsp) as [H|H]; [left; right; exact H | right; exact H].
Qed.

Lemma generalLoop_keeps (fuel : nat) :
  forall unused,
    (List.length unused <= fuel)%nat ->
    (List.length
       (ParagraphMerger.generalLoop cfg fuel lineHeight filteredStrips bands unused)
     <= List.length unused)%nat
    /\ (unused <> [] ->
        ParagraphMerger.generalLoop cfg fuel lineHeight filteredStrips bands unused <> [])
    /\ forall sp, In sp unused ->
         exists q,
           In q (ParagraphMerger.generalLoop cfg fuel lineHeight filteredStrips bands unused)
           /\ forall s, In s (snd sp) -> In s q.
Proof.
  induction fuel as [|fuel IH]; intros unused Hlen.
  - destruct unused; [|simpl in Hlen; lia]. cbn. split; [lia|].
    split; [congruence | intros sp []].
  - destruct unused as [|[currStyle p] later].
    + cbn. split; [lia|]. split; [congruence | intros sp []].
    + cbn [ParagraphMerger.generalLoop].
      destruct (ParagraphMerger.generalScan _ _ _ _ currStyle p _ later)
        as [current unused'] eqn:E.
      pose proof (generalScan_length _ _ _ _ _ _ _ _ _ _ E) as Hl.
      destruct (generalScan_keeps _ _ _ _ _ _ E) as [K1 K2].
      cbn [List.length] in Hlen.
      destruct (IH unused') as [I1 [_ I3]]; [lia|].
      split; [cbn [List.length]; lia|]. split; [discriminate|].
      intros sp [<-|Hsp].
      * exists current. split; [left; reflexivity | exact K1].
      * destruct (K2 sp Hsp) as [H|H].
        -- destruct (I3 sp H) as [q [Hq Hs]]. exists q. split; [right; exact Hq | exact Hs].
        -- exists current. split; [left; reflexivity | exact H].
Qed.

End GeneralKeeps.

Lemma mergeParagraphs_returned (cfg : LayoutSettings) (paragraphs : list (list SpanInfo.t))
  (lineHeight : Q) (strips : list Strip.t) (bands : list Band.t)
  (viewportWidth : option Q) :
  ~ In [] paragraphs ->
  exists styled,
    map snd styled = paragraphs
    /\ ParagraphMerger.mergeParagraphsFromInfos cfg paragraphs lineHeight strips bands
         viewportWidth
       = Returned
           (ParagraphMerger.generalLoop cfg (List.length styled) lineHeight
              (ParagraphMerger.filterStrips cfg strips viewportWidth) bands styled).
Proof.
  intro Hne. unfold ParagraphMerger.mergeParagraphsFromInfos.
  destruct (mapM_proj
              (fun p => s <- ParagraphMerger.firstStyle p ;; Returned (s, p))
              snd (fun p => p <> []) paragraphs) as [styled [E1 E2]].
  - intros p Hp. destruct p as [|s0 ss]; [contradiction|].
    eexists. split; reflexivity.
  - apply Forall_forall. intros p Hp E. apply Hne. rewrite <- E. exact Hp.
  - exists styled. split; [exact E2|]. rewrite E1. reflexivity.
Qed.

(** X19. The greedy merge throws exactly when one of the paragraphs given is
    empty; otherwise it returns, with no more paragraphs than it was given,
    and with at least one when it was given one. *)
Theorem mergeParagraphs_error_behaviour :
  forall (cfg : LayoutSettings) (paragraphs : list (list SpanInfo.t))
         (lineHeight : Q) (verticalStrips : list Strip.t)
         (horizontalBands : list Band.t) (viewportWidth : option Q),
    let result :=
      ParagraphMerger.mergeParagraphsFromInfos cfg paragraphs lineHeight
        verticalStrips horizontalBands viewportWidth in
    (In [] paragraphs -> result = Threw)
    /\ (~ In [] paragraphs ->
        exists out,
          result = Returned out
          /\ (List.length out <= List.length paragraphs)%nat
          /\ (paragraphs <> [] -> out <> [])).
Proof.
  intros cfg paragraphs lineHeight strips bands viewportWidth. cbv zeta. split.
  - intro H. unfold ParagraphMerger.mergeParagraphsFromInfos.
    rewrite (mapM_firstStyle_threw paragraphs H). reflexivity.
  - intro Hne.
    destruct (mergeParagraphs_returned cfg paragraphs lineHeight strips bands
                viewportWidth Hne) as [styled [E1 E2]].
    destruct (generalLoop_keeps cfg lineHeight
                (ParagraphMerger.filterStrips cfg strips viewportWidth) bands
                (List.length styled) styled (Nat.le_refl _)) as [K1 [K2 _]].
    eexists. split; [exact E2|]. rewrite <- E1, length_map. split; [exact K1|].
    intro H. apply K2. intro E. apply H. rewrite E. reflexivity.
Qed.

Lemma mergeParagraphs_error_behaviour_witness :
  (In [] [[StackedExample.upper]; []]
   /\ ParagraphMerger.mergeParagraphsFromInfos defaultLayoutSettings
        [[StackedExample.upper]; []] 16 [] [] None = Threw)
  /\ (~ In [] [[StackedExample.upper]; [StackedExample.lower]]
      /\ exists out,
           ParagraphMerger.mergeParagraphsFromInfos defaultLayoutSettings
             [[StackedExample.upper]; [StackedExample.lower]] 16 [] [] None
           = Returned out
           /\ (List.length out <= 2)%nat
           /\ ([[StackedExample.upper]; [StackedExample.lower]] <> [] -> out <> [])).
Proof.
  assert (H : In [] [[StackedExample.upper]; []]) by (right; left; reflexivity).
  assert (H' : ~ In [] [[StackedExample.upper]; [StackedExample.lower]]).
  { intros [E|[E|[]]]; discriminate E. }
  split.
  - split; [exact H|].
    exact (proj1 (mergeParagraphs_error_behaviour defaultLayoutSettings
                    [[StackedExample.upper]; []] 16 [] [] None) H).
  - split; [exact H'|].
    exact (proj2 (mergeParagraphs_error_behaviour defaultLayoutSettings
                    [[StackedExample.upper]; [StackedExample.lower]] 16 [] [] None) H').
Defined.

(** X20. The greedy merge never splits a paragraph: whenever it returns,
    every paragraph given is contained in one of the paragraphs returned. *)
Theorem mergeParagraphs_never_splits :
  forall (cfg : LayoutSettings) (paragraphs : list (list SpanInfo.t))
         (lineHeight : Q) (verticalStrips : list Strip.t)
         (horizontalBands : list Band.t) (viewportWidth : option Q)
         (out : list (list SpanInfo.t)),
    ParagraphMerger.mergeParagraphsFromInfos cfg paragraphs lineHeight
      verticalStrips horizontalBands viewportWidth = Returned out ->
    forall p, In p paragraphs -> exists q, In q out /\ forall s, In s p -> In s q.
Proof.
  intros cfg paragraphs lineHeight strips bands viewportWidth out E p Hp.
  assert (Hne : ~ In [] paragraphs).
  { intro H. pose proof (mapM_firstStyle_threw paragraphs H) as T.
    unfold ParagraphMerger.mergeParagraphsFromInfos in E. rewrite T in E. discriminate. }
  destruct (mergeParagraphs_returned cfg paragraphs lineHeight strips bands
              viewportWidth Hne) as [styled [E1 E2]].
  rewrite E2 in E. injection E as <-.
  rewrite <- E1 in Hp. apply in_map_iff in Hp. destruct Hp as [sp [<- Hsp]].
  destruct (generalLoop_keeps cfg lineHeight
              (ParagraphMerger.filterStrips cfg strips viewportWidth) bands
              (List.length styled) styled (Nat.le_refl _)) as [_ [_ K]].
  exact (K sp Hsp).
Qed.

Lemma mergeParagraphs_never_splits_witness :
  ParagraphMerger.mergeParagraphsFromInfos defaultLayoutSettings
    [[StackedExample.upper]; [StackedExample.lower]] 16 [] [] None
  = Returned [[StackedExample.upper; StackedExample.lower]]
  /\ In [StackedExample.lower] [[StackedExample.upper]; [StackedExample.lower]]
  /\ exists q, In q [[StackedExample.upper; StackedExample.lower]]
               /\ forall s, In s [StackedExample.lower] -> In s q.
Proof.
  assert (H1 : ParagraphMerger.mergeParagraphsFromInfos defaultLayoutSettings
                 [[StackedExample.upper]; [StackedExample.lower]] 16 [] [] None
               = Returned [[StackedExample.upper; StackedExample.lower]])
    by (vm_compute; reflexivity).
  assert (H2 : In [StackedExample.lower] [[StackedExample.upper]; [StackedExample.lower]])
    by (right; left; reflexivity).
  split; [exact H1|]. split; [exact H2|].
  exact (mergeParagraphs_never_splits defaultLayoutSettings
           [[StackedExample.upper]; [StackedExample.lower]] 16 [] [] None
           [[StackedExample.upper; StackedExample.lower]] H1 [StackedExample.lower] H2).
Defined.

Section NestedFlag.

Variable cfg : LayoutSettings.
Variables (filteredStrips : list Strip.t) (bands : list Band.t).

Lemma nestedLoop_flag (fuel : nat) :
  forall infos,
    (List.length infos <= fuel)%nat ->
    let result := ParagraphMerger.nestedLoop cfg fuel filteredStrips bands infos in
    (List.length (fst result) <= List.length infos)%nat
    /\ (snd result = false -> fst result = map ParagraphMerger.tspans infos)
    /\ (snd result = true -> (List.length (fst result) < List.length infos)%nat).
Proof.
  induction fuel as [|fuel IH]; intros infos Hlen; cbv zeta.
  - destruct infos; [|simpl in Hlen; lia]. cbn. split; [lia|].
    split; [reflexivity | discriminate].
  - destruct infos as [|base later].
    + cbn. split; [lia|]. split; [reflexivity | discriminate].
    + cbn [ParagraphMerger.nestedLoop]. cbn [List.length] in Hlen.
      destruct (ParagraphMerger.nestedFind cfg filteredStrips bands base later)
        as [[merged unused]|] eqn:E.
      * pose proof (nestedFind_length _ _ _ _ _ _ _ E) as Hl.
        destruct (IH unused) as [I1 _]; [lia|].
        destruct (ParagraphMerger.nestedLoop cfg fuel filteredStrips bands unused)
          as [out c].
        cbn [fst snd List.length] in *. split; [lia|]. split; [discriminate | lia].
      * destruct (IH later) as [I1 [I2 I3]]; [lia|].
        destruct (ParagraphMerger.nestedLoop cfg fuel filteredStrips bands later)
          as [out c].
        cbn [fst snd List.length map] in *. split; [lia|]. split.
        -- intro H. rewrite (I2 H). reflexivity.
        -- intro H. specialize (I3 H). lia.
Qed.

End NestedFlag.

(** X21. The [changed] flag of one nested-merge pass is accurate: when the
    pass returns it unset, the paragraphs returned are the paragraphs given,
    unchanged and in the same order; when it returns it set, the paragraphs
    returned are fewer than the paragraphs given. *)
Theorem mergeNestedOnce_changed_flag :
  forall (cfg : LayoutSettings) (paragraphs : list (list SpanInfo.t))
         (verticalStrips : list Strip.t) (horizontalBands : list Band.t)
         (viewportWidth : option Q) (out : list (list SpanInfo.t)) (changed : bool),
    ParagraphMerger.mergeNestedParagraphsOnceFromInfos cfg paragraphs verticalStrips
      horizontalBands viewportWidth = Returned (out, changed) ->
    (changed = false -> out = paragraphs)
    /\ (changed = true -> (List.length out < List.length paragraphs)%nat).
Proof.
  intros cfg paragraphs strips bands viewportWidth out changed E.
  unfold ParagraphMerger.mergeNestedParagraphsOnceFromInfos in E.
  destruct paragraphs as [|p0 ps].
  - injection E as <- <-. split; [reflexivity | discriminate].
  - set (l := p0 :: ps) in *.
    destruct (ParagraphMerger.mapM ParagraphMerger.nestedInfoOf l) as [infos| |] eqn:Em;
      cbn [bind] in E; try discriminate.
    injection E as E.
    assert (Hproj : map ParagraphMerger.tspans infos = l).
    { clear E. revert infos Em. generalize l. clear.
      induction l as [|p rest IH]; intros infos Em; cbn [ParagraphMerger.mapM] in Em.
      - injection Em as <-. reflexivity.
      - destruct p as [|s0 ss]; [discriminate|].
        cbn [ParagraphMerger.nestedInfoOf ParagraphMerger.firstStyle bind] in Em.
        destruct (ParagraphMerger.mapM ParagraphMerger.nestedInfoOf rest) as [r| |] eqn:Er;
          cbn [bind] in Em; try discriminate.
        injection Em as <-. cbn [map ParagraphMerger.tspans]. rewrite (IH r eq_refl).
        reflexivity. }
    destruct (nestedLoop_flag cfg (ParagraphMerger.filterStrips cfg strips viewportWidth)
                bands (List.length infos) infos (Nat.le_refl _)) as [_ [F1 F2]].
    rewrite E in F1, F2. cbn [fst snd] in F1, F2. rewrite Hproj in F1.
    rewrite <- Hproj, length_map. split; [rewrite Hproj; exact F1 | exact F2].
Qed.

Lemma mergeNestedOnce_changed_flag_witness :
  ParagraphMerger.mergeNestedParagraphsOnceFromInfos defaultLayoutSettings
    [[StackedExample.upper]; [StackedExample.lower]] [] [] None
  = Returned ([[StackedExample.upper]; [StackedExample.lower]], false)
  /\ [[StackedExample.upper]; [StackedExample.lower]]
     = [[StackedExample.upper]; [StackedExample.lower]].
Proof.
  assert (H : ParagraphMerger.mergeNestedParagraphsOnceFromInfos defaultLayoutSettings
                [[StackedExample.upper]; [StackedExample.lower]] [] [] None
              = Returned ([[StackedExample.upper]; [StackedExample.lower]], false))
    by (vm_compute; reflexivity).
  split; [exact H|].
  exact (proj1 (mergeNestedOnce_changed_flag defaultLayoutSettings
                  [[StackedExample.upper]; [StackedExample.lower]] [] [] None
                  [[StackedExample.upper]; [StackedExample.lower]] false H) eq_refl).
Defined.

(** *** Nested inline spans *)

Section InlineSpans.

Variable cfg : LayoutSettings.

Lemma inlineLines_concat (tol : Q) (sortedSpans : list SpanInfo.t) :
  forall currentLine currentLineTop,
    List.concat (ParagraphMerger.inlineLines tol currentLine currentLineTop sortedSpans)
    = currentLine ++ sortedSpans.
Proof.
  induction sortedSpans as [|span rest IH]; intros currentLine currentLineTop;
    cbn [ParagraphMerger.inlineLines].
  - destruct currentLine; cbn [List.concat app]; rewrite ?app_nil_r; reflexivity.
  - cbv zeta.
    match goal with |- context [if ?c then _ else _] => destruct c end.
    + rewrite concat_app, IH.
      destruct currentLine; cbn [List.concat app]; rewrite ?app_nil_r; reflexivity.
    + rewrite IH, <- app_assoc. reflexivity.
Qed.

Lemma inlineGroups_perm (lineSpans : list SpanInfo.t) :
  forall currentGroup,
    Permutation (ParagraphMerger.inlineGroups cfg currentGroup lineSpans)
                (currentGroup ++ lineSpans).
Proof.
  induction lineSpans as [|currentSpan rest IH]; intros currentGroup;
    cbn [ParagraphMerger.inlineGroups].
  - rewrite app_nil_r. apply sortBy_perm.
  - destruct (ParagraphMerger.inlineJoins cfg _ currentSpan).
    + rewrite (IH (currentGroup ++ [currentSpan])), <- app_assoc. apply Permutation_refl.
    + apply Permutation_app; [apply sortBy_perm|].
      rewrite (IH [currentSpan]). apply Permutation_refl.
Qed.

Lemma mergeLine_perm (line : list SpanInfo.t) :
  Permutation (ParagraphMerger.mergeLine cfg line) line.
Proof.
  unfold ParagraphMerger.mergeLine.
  destruct (Nat.leb (List.length line) 1); [apply Permutation_refl|].
  pose proof (sortBy_perm
                (fun a b =>
                   Qle_bool (Rect.left (SpanInfo.rect a) - Rect.left (SpanInfo.rect b)) 0)
                line) as H.
  destruct (sortBy _ line) as [|first rest]; [exact H|].
  eapply perm_trans; [apply inlineGroups_perm | exact H].
Qed.

End InlineSpans.

(** X22. Merging nested inline spans keeps every paragraph in its place and
    changes nothing but the order of its spans: the paragraphs returned are
    as many as the paragraphs given, and each is a rearrangement of the
    paragraph at the same position. *)
Theorem mergeNestedInlineSpans_rearranges :
  forall (cfg : LayoutSettings) (paragraphs : list (list SpanInfo.t)),
    Forall2 (fun q p => Permutation q p)
      (ParagraphMerger.mergeNestedInlineSpansFromInfos cfg paragraphs) paragraphs.
Proof.
  intros cfg paragraphs. unfold ParagraphMerger.mergeNestedInlineSpansFromInfos.
  induction paragraphs as [|p rest IH]; cbn [map]; constructor; [|exact IH].
  destruct p as [|s0 [|s1 ss]]; [apply Permutation_refl | apply Permutation_refl |].
  cbv zeta.
  eapply perm_trans; [|apply (sortBy_perm spanLe (s0 :: s1 :: ss))].
  fold (sortSpans (s0 :: s1 :: ss)).
  rewrite <- (inlineLines_concat
                (Style.fontSize (SpanInfo.style s0) * pmSplitLineHeightTol cfg)
                (sortSpans (s0 :: s1 :: ss)) [] None) at 2.
  cbn [app].
  generalize (ParagraphMerger.inlineLines
                (Style.fontSize (SpanInfo.style s0) * pmSplitLineHeightTol cfg) [] None
                (sortSpans (s0 :: s1 :: ss))).
  intro lines. induction lines as [|l ls IHl]; cbn [flat_map List.concat];
    [apply Permutation_refl|].
  apply Permutation_app; [apply mergeLine_perm | exact IHl].
Qed.

(** ** layout-detector.ts *)

(** *** Duplicate removal *)

Lemma existsb_eqb_true (x : nat) (l : list nat) :
  existsb (Nat.eqb x) l = true <-> In x l.
Proof.
  rewrite existsb_exists. split.
  - intros [y [Hy E]]. apply Nat.eqb_eq in E. subst. exact Hy.
  - intro H. exists x. split; [exact H | apply Nat.eqb_refl].
Qed.

Lemma dedupSpans_spec (para : list SpanInfo.t) :
  forall globalSeen paragraphSeen unique seen,
    (forall i, In i paragraphSeen -> In i globalSeen) ->
    LayoutDetector.dedupSpans globalSeen paragraphSeen para = (unique, seen) ->
    NoDup (map SpanInfo.span unique)
    /\ (forall s, In s unique -> In s para /\ ~ In (SpanInfo.span s) globalSeen)
    /\ (forall i, In i seen <-> In i globalSeen \/ In i (map SpanInfo.span unique))
    /\ (forall s, In s para -> In (SpanInfo.span s) seen).
Proof.
  induction para as [|s rest IH]; intros globalSeen paragraphSeen unique seen Hsub H;
    cbn [LayoutDetector.dedupSpans] in H.
  - injection H as <- <-. split; [constructor|]. split; [intros s []|].
    split; [intro i; cbn; tauto | intros s []].
  - destruct (existsb (Nat.eqb (SpanInfo.span s)) globalSeen) eqn:Eg.
    + cbn [negb andb] in H. apply existsb_eqb_true in Eg.
      destruct (IH _ _ _ _ Hsub H) as [A [B [C D]]].
      split; [exact A|]. split; [|split; [exact C|]].
      * intros s' Hs'. destruct (B s' Hs') as [B1 B2]. split; [right; exact B1 | exact B2].
      * intros s' [<-|Hs']; [apply C; left; exact Eg | apply D; exact Hs'].
    + assert (Ep : existsb (Nat.eqb (SpanInfo.span s)) paragraphSeen = false).
      { destruct (existsb (Nat.eqb (SpanInfo.span s)) paragraphSeen) eqn:Ep;
          [|reflexivity].
        apply existsb_eqb_true in Ep. apply Hsub in Ep. apply existsb_eqb_true in Ep.
        congruence. }
      rewrite Ep in H. cbn [negb andb] in H.
      destruct (LayoutDetector.dedupSpans (SpanInfo.span s :: globalSeen)
                  (SpanInfo.span s :: paragraphSeen) rest) as [u sn] eqn:E.
      injection H as <- <-.
      assert (Hsub' : forall i, In i (SpanInfo.span s :: paragraphSeen) ->
                                In i (SpanInfo.span s :: globalSeen)).
      { intros i [<-|Hi]; [left; reflexivity | right; apply Hsub; exact Hi]. }
      destruct (IH _ _ _ _ Hsub' E) as [A [B [C D]]].
      assert (Hg : ~ In (SpanInfo.span s) globalSeen).
      { intro Hin. apply existsb_eqb_true in Hin. congruence. }
      split; [|split; [|split]].
      * cbn [map]. constructor; [|exact A].
        intro Hin. apply in_map_iff in Hin. destruct Hin as [s' [Es Hs']].
        destruct (B s' Hs') as [_ B2]. apply B2. left. symmetry. exact Es.
      * intros s' [<-|Hs']; [split; [left; reflexivity | exact Hg]|].
        destruct (B s' Hs') as [B1 B2]. split; [right; exact B1|].
        intro Hin. apply B2. right. exact Hin.
      * intro i. rewrite C. cbn [In map]. tauto.
      * intros s' [<-|Hs']; [apply C; left; left; reflexivity | apply D; exact Hs'].
Qed.

Lemma dedupLoop_spec (paragraphs : list (list SpanInfo.t)) :
  forall globalSeen,
    let out := LayoutDetector.dedupLoop globalSeen paragraphs in
    NoDup (map SpanInfo.span (List.concat out))
    /\ (forall s, In s (List.concat out) ->
          In s (List.concat paragraphs) /\ ~ In (SpanInfo.span s) globalSeen)
    /\ (forall s, In s (List.concat paragraphs) ->
          In (SpanInfo.span s) globalSeen
          \/ In (SpanInfo.span s) (map SpanInfo.span (List.concat out)))
    /\ Forall (fun p => p <> []) out
    /\ (List.length out <= List.length paragraphs)%nat.
Proof.
  induction paragraphs as [|para rest IH]; intros globalSeen; cbv zeta;
    cbn [LayoutDetector.dedupLoop].
  - cbn. split; [constructor|]. split; [intros s []|]. split; [intros s []|].
    split; [constructor | lia].
  - destruct (LayoutDetector.dedupSpans globalSeen [] para) as [unique seen] eqn:E.
    destruct (dedupSpans_spec para globalSeen [] unique seen (fun i H => match H with end) E)
      as [A [B [C D]]].
    destruct (IH seen) as [I1 [I2 [I3 [I4 I5]]]].
    assert (G : NoDup (map SpanInfo.span
                         (unique ++ List.concat (LayoutDetector.dedupLoop seen rest)))
                /\ (forall s,
                      In s (unique ++ List.concat (LayoutDetector.dedupLoop seen rest)) ->
                      In s (List.concat (para :: rest))
                      /\ ~ In (SpanInfo.span s) globalSeen)
                /\ (forall s, In s (List.concat (para :: rest)) ->
                      In (SpanInfo.span s) globalSeen
                      \/ In (SpanInfo.span s)
                           (map SpanInfo.span
                              (unique
                               ++ List.concat (LayoutDetector.dedupLoop seen rest))))).
    { split; [|split].
      - rewrite map_app. apply NoDup_app; [exact A | exact I1|].
        intros i Hi Hi'. apply in_map_iff in Hi'. destruct Hi' as [s' [<- Hs']].
        destruct (I2 s' Hs') as [_ Hn]. apply Hn. apply C. right. exact Hi.
      - intros s Hs. cbn [List.concat]. apply in_app_or in Hs. destruct Hs as [Hs|Hs].
        + destruct (B s Hs) as [B1 B2]. split; [apply in_or_app; left; exact B1 | exact B2].
        + destruct (I2 s Hs) as [J1 J2]. split; [apply in_or_app; right; exact J1|].
          intro Hin. apply J2. apply C. left. exact Hin.
      - intros s Hs. cbn [List.concat] in Hs. rewrite map_app.
        apply in_app_or in Hs. destruct Hs as [Hs|Hs].
        + apply D in Hs. apply C in Hs. destruct Hs as [Hs|Hs];
            [left; exact Hs | right; apply in_or_app; left; exact Hs].
        + destruct (I3 s Hs) as [J|J].
          * apply C in J. destruct J as [J|J];
              [left; exact J | right; apply in_or_app; left; exact J].
          * right. apply in_or_app. right. exact J. }
    destruct unique as [|u0 us].
    + cbn [app] in G. destruct G as [G1 [G2 G3]].
      split; [exact G1|]. split; [exact G2|]. split; [exact G3|].
      split; [exact I4 | cbn [List.length]; lia].
    + destruct G as [G1 [G2 G3]]. cbn [List.concat].
      split; [exact G1|]. split; [exact G2|]. split; [exact G3|].
      split; [constructor; [discriminate | exact I4] | cbn [List.length]; lia].
Qed.

Lemma dedupLoop_id (paragraphs : list (list SpanInfo.t)) :
  forall globalSeen,
    NoDup (map SpanInfo.span (List.concat paragraphs)) ->
    (forall s, In s (List.concat paragraphs) -> ~ In (SpanInfo.span s) globalSeen) ->
    Forall (fun p => p <> []) paragraphs ->
    LayoutDetector.dedupLoop globalSeen paragraphs = paragraphs.
Proof.
  induction paragraphs as [|para rest IH]; intros globalSeen Hnd Hfresh Hne;
    cbn [LayoutDetector.dedupLoop]; [reflexivity|].
  cbn [List.concat] in Hnd, Hfresh. rewrite map_app in Hnd.
  inversion Hne as [|? ? Hp Hrest]; subst.
  rewrite dedupSpans_id.
  - rewrite IH.
    + destruct para; [congruence | reflexivity].
    + apply (NoDup_app_remove_l _ _ Hnd).
    + intros s Hs Hin. apply in_app_or in Hin. destruct Hin as [Hin|Hin].
      * apply in_rev in Hin.
        apply (NoDup_app_disjoint _ _ _ Hnd Hin). apply in_map. exact Hs.
      * apply (Hfresh s); [apply in_or_app; right; exact Hs | exact Hin].
    + exact Hrest.
  - apply (NoDup_app_remove_r _ _ Hnd).
  - intros s Hs. split; [|intros []].
    apply Hfresh. apply in_or_app. left. exact Hs.
Qed.

(** X23. After duplicate removal no span occurs twice, within a paragraph or
    across paragraphs, and no paragraph is empty; the spans kept are spans
    given, every span given is still there, and the paragraphs are not more
    than before.  Removing duplicates a second time changes nothing. *)
Theorem deduplicateParagraphs_unique :
  forall (paragraphs : list (list SpanInfo.t)),
    let out := LayoutDetector.deduplicateParagraphs paragraphs in
    NoDup (map SpanInfo.span (List.concat out))
    /\ Forall (fun p => p <> []) out
    /\ (forall s, In s (List.concat out) -> In s (List.concat paragraphs))
    /\ (forall id, In id (map SpanInfo.span (List.concat paragraphs)) ->
                   In id (map SpanInfo.span (List.concat out)))
    /\ (List.length out <= List.length paragraphs)%nat
    /\ LayoutDetector.deduplicateParagraphs out = out.
Proof.
  intro paragraphs. cbv zeta. unfold LayoutDetector.deduplicateParagraphs.
  destruct (dedupLoop_spec paragraphs []) as [A [B [C [D E]]]].
  split; [exact A|]. split; [exact D|]. split; [intros s Hs; apply (B s Hs)|].
  split; [|split; [exact E|]].
  - intros id Hid. apply in_map_iff in Hid. destruct Hid as [s [<- Hs]].
    destruct (C s Hs) as [[]|H]. exact H.
  - apply dedupLoop_id; [exact A | intros s _ [] | exact D].
Qed.

(** *** Line height *)

(** X24. With a positive line-height multiplier and a positive floor
    multiplier, the line height estimated for a page is positive: 16 when no
    span has a positive font size, and otherwise at least the median font
    size times the two multipliers. *)
Theorem estimateLineHeightFromInfos_positive :
  forall (settings : LayoutSettings) (paragraphs : list (list SpanInfo.t))
         (infoMap : list SpanInfo.t) (pageRect : Rect.t),
    0 < lineHeightMultiplier settings -> 0 < floorMultiplier settings ->
    let fontSizes :=
      filter (fun v => Qgtb v 0) (map (fun i => Style.fontSize (SpanInfo.style i)) infoMap) in
    let estimate :=
      LayoutDetector.estimateLineHeightFromInfos settings paragraphs infoMap pageRect in
    0 < estimate
    /\ (fontSizes = [] -> estimate = 16)
    /\ (fontSizes <> [] ->
        median fontSizes * lineHeightMultiplier settings * floorMultiplier settings
        <= estimate).
Proof.
  intros settings paragraphs infoMap pageRect Hm Hf. cbv zeta.
  unfold LayoutDetector.estimateLineHeightFromInfos. cbv zeta.
  destruct (filter (fun v => Qgtb v 0)
              (map (fun i => Style.fontSize (SpanInfo.style i)) infoMap))
    as [|f0 fs] eqn:E.
  - split; [reflexivity|]. split; [reflexivity | congruence].
  - assert (Hmed : 0 < median (f0 :: fs)).
    { apply median_above; [discriminate|]. intros x Hx. rewrite <- E in Hx.
      apply filter_In in Hx. destruct Hx as [_ Hx]. apply Qgtb_true in Hx. exact Hx. }
    set (med := median (f0 :: fs)) in *.
    assert (Hfloor : 0 < med * lineHeightMultiplier settings * floorMultiplier settings).
    { apply Qmult_lt_0_compat; [apply Qmult_lt_0_compat|]; assumption. }
    match goal with
    | |- context [orElse (maxQ ?x ?fl) ?d] =>
      set (chosen := maxQ x fl);
      assert (Hc : med * lineHeightMultiplier settings * floorMultiplier settings <= chosen)
        by (subst chosen; destruct (maxQ_cases x fl) as [[H1 H2]|[H1 H2]]; rewrite H2; lra)
    end.
    assert (Ho : orElse chosen (med * lineHeightMultiplier settings) = chosen).
    { unfold orElse. destruct (Qeq_bool chosen 0) eqn:Ez; [|reflexivity].
      apply Qeq_bool_iff in Ez. lra. }
    rewrite Ho. split; [lra|]. split; [discriminate | intros _; exact Hc].
Qed.

Lemma estimateLineHeightFromInfos_positive_witness :
  0 < lineHeightMultiplier defaultLayoutSettings
  /\ 0 < floorMultiplier defaultLayoutSettings
  /\ 0 < LayoutDetector.estimateLineHeightFromInfos defaultLayoutSettings
           [[StackedExample.upper; StackedExample.lower]]
           [StackedExample.upper; StackedExample.lower] (Examples.page 200 40).
Proof.
  assert (H1 : 0 < lineHeightMultiplier defaultLayoutSettings) by (vm_compute; reflexivity).
  assert (H2 : 0 < floorMultiplier defaultLayoutSettings) by (vm_compute; reflexivity).
  split; [exact H1|]. split; [exact H2|].
  exact (proj1 (estimateLineHeightFromInfos_positive defaultLayoutSettings
                  [[StackedExample.upper; StackedExample.lower]]
                  [StackedExample.upper; StackedExample.lower] (Examples.page 200 40)
                  H1 H2)).
Defined.

(** *** Horizontal bands *)

Lemma bandsApart_replace_last (gap : Q) (l : list Band.t) :
  forall p p',
    Band.y p' = Band.y p -> bandsApart gap (l ++ [p]) -> bandsApart gap (l ++ [p']).
Proof.
  induction l as [|a l IH]; intros p p' Ey H; [exact I|].
  destruct l as [|b l'].
  - cbn [app bandsApart] in *. rewrite Ey. exact H.
  - change ((a :: b :: l') ++ [p]) with (a :: (b :: l') ++ [p]) in H.
    change ((a :: b :: l') ++ [p']) with (a :: (b :: l') ++ [p']).
    cbn [app] in H. cbn [app]. cbn [bandsApart] in H.
    change (bandsApart gap (a :: b :: l' ++ [p']))
      with (Band.y a + Band.height a + gap < Band.y b
            /\ bandsApart gap (b :: l' ++ [p'])).
    destruct H as [H1 H2]. split; [exact H1|].
    apply (IH p p' Ey). exact H2.
Qed.

Lemma bandsApart_push (gap : Q) (l : list Band.t) :
  forall p n,
    Band.y p + Band.height p + gap < Band.y n ->
    bandsApart gap (l ++ [p]) -> bandsApart gap (l ++ [p; n]).
Proof.
  induction l as [|a l IH]; intros p n Hpn H.
  - cbn [app bandsApart]. split; [exact Hpn | exact I].
  - destruct l as [|b l'].
    + cbn [app bandsApart] in *. destruct H as [H1 _]. split; [exact H1|].
      split; [exact Hpn | exact I].
    + cbn [app] in H. cbn [bandsApart] in H. destruct H as [H1 H2].
      change (bandsApart gap ((a :: b :: l') ++ [p; n]))
        with (Band.y a + Band.height a + gap < Band.y b
              /\ bandsApart gap ((b :: l') ++ [p; n])).
      split; [exact H1|]. apply IH; assumption.
Qed.

Lemma bandCovers_refl (b : Band.t) : bandCovers b b.
Proof. unfold bandCovers. repeat split; apply Qle_refl. Qed.

Lemma bandCovers_trans (a b c : Band.t) :
  bandCovers a b -> bandCovers b c -> bandCovers a c.
Proof. unfold bandCovers. intros [A1 [A2 A3]] [B1 [B2 B3]]. repeat split; lra. Qed.

Lemma coalesceBands_spec (gap : Q) (sorted : list Band.t) :
  forall acc,
    StronglySorted Qle (map Band.y (rev acc ++ sorted)) ->
    bandsApart gap (rev acc) ->
    let out := LayoutDetector.coalesceBands gap acc sorted in
    bandsApart gap out
    /\ StronglySorted Qle (map Band.y out)
    /\ (forall b, In b sorted \/ In b acc -> exists o, In o out /\ bandCovers o b)
    /\ (List.length out <= List.length acc + List.length sorted)%nat.
Proof.
  induction sorted as [|b rest IH]; intros acc Hs Ha; cbv zeta;
    cbn [LayoutDetector.coalesceBands].
  - rewrite app_nil_r in Hs. split; [exact Ha|]. split; [exact Hs|]. split.
    + intros x [[]|Hx]. exists x. split; [apply in_rev in Hx; exact Hx | apply bandCovers_refl].
    + rewrite length_rev. lia.
  - destruct acc as [|lastBand before].
    + destruct (IH [b] Hs I) as [A [B [C D]]].
      split; [exact A|]. split; [exact B|]. split.
      * intros x [[<-|Hx]|[]]; apply C; [right; left; reflexivity | left; exact Hx].
      * cbn [List.length] in *. lia.
    + cbv zeta.
      destruct (Qle_bool (Band.y b) (Band.y lastBand + Band.height lastBand + gap)) eqn:E.
      * apply Qle_bool_iff in E.
        set (merged :=
               {| Band.y := Band.y lastBand;
                  Band.height :=
                    maxQ (Band.y lastBand + Band.height lastBand) (Band.y b + Band.height b)
                    - Band.y lastBand;
                  Band.confidence :=
                    maxQ (Band.confidence lastBand) (Band.confidence b) |}).
        cbn [rev] in Hs, Ha. rewrite <- app_assoc in Hs. cbn [app] in Hs.
        rewrite map_app in Hs. cbn [map] in Hs.
        pose proof (StronglySorted_app_adjacent _ _ _ _ _ Hs) as Hadj.
        assert (Hs' : StronglySorted Qle (map Band.y (rev (merged :: before) ++ rest))).
        { cbn [rev]. rewrite <- app_assoc. cbn [app]. rewrite map_app. cbn [map].
          change (Band.y merged) with (Band.y lastBand).
          match goal with
          | |- StronglySorted Qle (?l1 ++ ?a :: ?l2) =>
            pose proof (StronglySorted_app_remove Qle (l1 ++ [a]) (Band.y b) l2) as Hrm;
            rewrite <- !app_assoc in Hrm; cbn [app] in Hrm; apply Hrm
          end.
          exact Hs. }
        assert (Ha' : bandsApart gap (rev (merged :: before))).
        { cbn [rev]. apply (bandsApart_replace_last gap _ lastBand merged);
            [reflexivity | exact Ha]. }
        destruct (IH (merged :: before) Hs' Ha') as [A [B [C D]]].
        split; [exact A|]. split; [exact B|].
        assert (Hhull : bandCovers merged lastBand /\ bandCovers merged b).
        { unfold bandCovers. subst merged. cbn [Band.y Band.height Band.confidence].
          destruct (maxQ_cases (Band.y lastBand + Band.height lastBand)
                      (Band.y b + Band.height b)) as [[H1 E1]|[H1 E1]]; rewrite E1;
          destruct (maxQ_cases (Band.confidence lastBand) (Band.confidence b))
            as [[H2 E2]|[H2 E2]]; rewrite E2; repeat split; lra. }
        destruct Hhull as [Hl Hb].
        assert (Htrans : forall x, bandCovers merged x ->
                   exists o, In o (LayoutDetector.coalesceBands gap (merged :: before) rest)
                             /\ bandCovers o x).
        { intros x Hx. destruct (C merged (or_intror (or_introl eq_refl))) as [o [Ho Hc]].
          exists o. split; [exact Ho | apply (bandCovers_trans _ merged); assumption]. }
        split.
        -- intros x [[<-|Hx]|[<-|Hx]].
           ++ apply Htrans. exact Hb.
           ++ apply C. left. exact Hx.
           ++ apply Htrans. exact Hl.
           ++ apply C. right. right. exact Hx.
        -- cbn [List.length] in *. lia.
      * apply Qle_bool_false in E.
        assert (Hs' : StronglySorted Qle
                        (map Band.y (rev (b :: lastBand :: before) ++ rest))).
        { cbn [rev] in *. rewrite <- !app_assoc in *. exact Hs. }
        assert (Ha' : bandsApart gap (rev (b :: lastBand :: before))).
        { cbn [rev] in *. rewrite <- app_assoc. cbn [app].
          apply bandsApart_push; [exact E | exact Ha]. }
        destruct (IH (b :: lastBand :: before) Hs' Ha') as [A [B [C D]]].
        split; [exact A|]. split; [exact B|]. split.
        -- intros x [[<-|Hx]|Hx]; apply C;
             [right; left; reflexivity | left; exact Hx | right; right; exact Hx].
        -- cbn [List.length] in *. lia.
Qed.

(** X25. The bands of a page come out ordered by their start and kept apart:
    each one ends more than the merge gap above the start of the next.
    Nothing is lost: every band given is inside one of the bands returned,
    which is at least as confident; the bands returned are at most two more
    than the bands given. *)
Theorem buildLayoutBands_apart :
  forall (settings : LayoutSettings) (bands : list Band.t) (strips : list Strip.t)
         (pageRect : Rect.t) (lineHeight : Q),
    let gap :=
      maxQ (bandMergeGapPx settings)
           (lineHeight * bandMergeGapLineHeightMultiplier settings) in
    let out := LayoutDetector.buildLayoutBands settings bands strips pageRect lineHeight in
    bandsApart gap out
    /\ StronglySorted (fun a b => Band.y a <= Band.y b) out
    /\ (forall b, In b bands ->
          exists o, In o out
                    /\ Band.y o <= Band.y b
                    /\ Band.y b + Band.height b <= Band.y o + Band.height o
                    /\ Band.confidence b <= Band.confidence o)
    /\ (List.length out <= List.length bands + 2)%nat.
Proof.
  intros settings bands strips pageRect lineHeight. cbv zeta.
  unfold LayoutDetector.buildLayoutBands. cbv zeta.
  set (gap := maxQ (bandMergeGapPx settings)
                (lineHeight * bandMergeGapLineHeightMultiplier settings)).
  set (all := bands ++ LayoutDetector.inferredBands settings strips pageRect lineHeight).
  set (le := fun a b : Band.t => Qle_bool (Band.y a - Band.y b) 0).
  assert (Hs : StronglySorted Qle (map Band.y (rev [] ++ sortBy le all))).
  { cbn [rev app]. apply sorted_map_key. apply sortBy_key_sorted. }
  destruct (coalesceBands_spec gap (sortBy le all) [] Hs I) as [A [B [C D]]].
  split; [exact A|]. split; [|split].
  - clear - B. induction (LayoutDetector.coalesceBands gap [] (sortBy le all))
      as [|x l IH]; [constructor|].
    cbn [map] in B. inversion B as [|? ? Bl Bx]; subst.
    constructor; [apply IH; exact Bl|].
    apply Forall_forall. intros z Hz. rewrite Forall_forall in Bx. apply Bx.
    apply in_map. exact Hz.
  - intros b Hb. destruct (C b) as [o [Ho Hc]].
    + left. apply sortBy_In. subst all. apply in_or_app. left. exact Hb.
    + exists o. split; [exact Ho | exact Hc].
  - rewrite sortBy_length in D. subst all. rewrite length_app in D.
    assert (Hi : (List.length
                    (LayoutDetector.inferredBands settings strips pageRect lineHeight)
                  <= 2)%nat).
    { unfold LayoutDetector.inferredBands. destruct strips; [simpl; lia|].
      rewrite length_app. destruct (Qgtb _ _); destruct (Qltb _ _); simpl; lia. }
    cbn [List.length] in D. lia.
Qed.

(** *** Column regions *)

Lemma stripMids_decreasing (sorted : list Strip.t) :
  forall xs,
    xs <> [] ->
    StronglySorted (fun a b => b < a) xs ->
    StronglySorted (fun a b => b < a) (LayoutDetector.stripMids xs sorted)
    /\ last (LayoutDetector.stripMids xs sorted) 0 = last xs 0
    /\ LayoutDetector.stripMids xs sorted <> []
    /\ (List.length (LayoutDetector.stripMids xs sorted)
        <= List.length xs + List.length sorted)%nat.
Proof.
  induction sorted as [|st rest IH]; intros xs Hne Hs; cbn [LayoutDetector.stripMids].
  - split; [exact Hs|]. split; [reflexivity|]. split; [exact Hne | lia].
  - cbv zeta. destruct xs as [|lastX xs']; [congruence|].
    destruct (Qgtb ((Strip.left st + Strip.right st) / 2) lastX) eqn:E.
    + apply Qgtb_true in E.
      destruct (IH ((Strip.left st + Strip.right st) / 2 :: lastX :: xs'))
        as [A [B [C D]]]; [discriminate | |].
      * constructor; [exact Hs|]. constructor; [exact E|].
        inversion Hs as [|? ? _ Hl]; subst.
        apply Forall_forall. intros z Hz. rewrite Forall_forall in Hl.
        specialize (Hl z Hz). lra.
      * split; [exact A|]. split; [rewrite B; reflexivity|]. split; [exact C|].
        cbn [List.length] in *. lia.
    + destruct (IH (lastX :: xs') Hne Hs) as [A [B [C D]]].
      split; [exact A|]. split; [exact B|]. split; [exact C|].
      cbn [List.length] in *. lia.
Qed.

Lemma rev_increasing (l : list Q) :
  StronglySorted (fun a b => b < a) l -> StronglySorted Qlt (rev l).
Proof.
  intro H. induction H as [|x l Hl IH Hx]; cbn [rev]; [constructor|].
  assert (G : forall l1, StronglySorted Qlt l1 -> Forall (fun z => z < x) l1 ->
                         StronglySorted Qlt (l1 ++ [x])).
  { induction l1 as [|a l1 IH1]; intros S F; cbn [app].
    - constructor; [constructor | constructor].
    - inversion S as [|? ? S' Fa]; subst. inversion F as [|? ? Fx F']; subst.
      constructor; [apply IH1; assumption|].
      apply Forall_app. split; [exact Fa | constructor; [exact Fx | constructor]]. }
  apply G; [exact IH|].
  apply Forall_forall. intros z Hz. apply in_rev in Hz. rewrite Forall_forall in Hx.
  apply Hx. exact Hz.
Qed.

Lemma pairUp_fst (inc : list Q) :
  forall pr p, In p (ParagraphMerger.pairUp (inc ++ [pr])) -> In (fst p) inc.
Proof.
  induction inc as [|a inc IH]; intros pr p Hp; [contradiction|].
  destruct inc as [|b inc'].
  - cbn in Hp. destruct Hp as [<-|[]]. left. reflexivity.
  - change (ParagraphMerger.pairUp ((a :: b :: inc') ++ [pr]))
      with ((a, b) :: ParagraphMerger.pairUp ((b :: inc') ++ [pr])) in Hp.
    destruct Hp as [<-|Hp]; [left; reflexivity|]. right. apply (IH pr). exact Hp.
Qed.

Lemma pairUp_ordered (inc : list Q) :
  forall pr,
    StronglySorted Qlt inc ->
    StronglySorted (fun p q => snd p <= fst q) (ParagraphMerger.pairUp (inc ++ [pr])).
Proof.
  induction inc as [|a inc IH]; intros pr Hs; [constructor|].
  destruct inc as [|b inc'].
  - cbn. constructor; [constructor | constructor].
  - change (ParagraphMerger.pairUp ((a :: b :: inc') ++ [pr]))
      with ((a, b) :: ParagraphMerger.pairUp ((b :: inc') ++ [pr])).
    inversion Hs as [|? ? Hs' Ha]; subst.
    constructor; [apply IH; exact Hs'|].
    apply Forall_forall. intros q Hq. apply pairUp_fst in Hq. cbn [snd].
    destruct Hq as [<-|Hq]; [apply Qle_refl|].
    inversion Hs' as [|? ? _ Hb]; subst. rewrite Forall_forall in Hb.
    apply Qlt_le_weak. apply Hb. exact Hq.
Qed.

Lemma StronglySorted_filter {A : Type} (R : A -> A -> Prop) (f : A -> bool) (l : list A) :
  StronglySorted R l -> StronglySorted R (filter f l).
Proof.
  intro H. induction H as [|x l Hl IH Hx]; cbn [filter]; [constructor|].
  destruct (f x); [|exact IH]. constructor; [exact IH|].
  apply Forall_forall. intros z Hz. apply filter_In in Hz. destruct Hz as [Hz _].
  rewrite Forall_forall in Hx. apply Hx. exact Hz.
Qed.

Lemma pairUp_length (l : list Q) :
  List.length (ParagraphMerger.pairUp l) = (List.length l - 1)%nat.
Proof.
  induction l as [|a l IH]; [reflexivity|]. destruct l as [|b l']; [reflexivity|].
  change (ParagraphMerger.pairUp (a :: b :: l'))
    with ((a, b) :: ParagraphMerger.pairUp (b :: l')).
  cbn [List.length] in *. lia.
Qed.

(** X26. The column regions built from strips go from left to right without
    overlap: each one ends at or before the start of every later one.  None
    starts left of the page; with strips given, each is wider than the
    minimum region width, and they are at most one more than the strips;
    with none, the page is the one region. *)
Theorem buildColumnRegionsFromStrips_ordered :
  forall (settings : LayoutSettings) (strips : list Strip.t) (pageRect : Rect.t),
    let regs := LayoutDetector.buildColumnRegionsFromStrips settings strips pageRect in
    StronglySorted regionBefore regs
    /\ Forall (fun reg =>
                 match reg with
                 | LayoutDetector.Reg l r =>
                   Rect.left pageRect <= l
                   /\ (strips <> [] -> minRegionWidth settings < r - l)
                 | LayoutDetector.AllLine => False
                 end) regs
    /\ (List.length regs <= List.length strips + 1)%nat
    /\ (strips = [] ->
        regs = [LayoutDetector.Reg (Rect.left pageRect) (Rect.right pageRect)]).
Proof.
  intros settings strips pageRect. cbv zeta.
  unfold LayoutDetector.buildColumnRegionsFromStrips.
  destruct strips as [|s0 ss].
  - split; [constructor; [constructor | constructor]|].
    split; [constructor; [|constructor]; split; [apply Qle_refl | congruence]|].
    split; [simpl; lia | reflexivity].
  - cbv zeta.
    set (sorted := sortBy _ (s0 :: ss)).
    assert (Hlen : List.length sorted = List.length (s0 :: ss)) by apply sortBy_length.
    destruct (stripMids_decreasing sorted [Rect.left pageRect])
      as [A [B [C D]]]; [discriminate | constructor; [constructor | constructor]|].
    set (mids := LayoutDetector.stripMids [Rect.left pageRect] sorted) in *.
    pose proof (rev_increasing mids A) as Hinc.
    assert (Hfirst : forall x, In x (rev mids) -> Rect.left pageRect <= x).
    { intros x Hx. apply in_rev in Hx.
      assert (G : forall l, StronglySorted (fun a b => b < a) l -> l <> [] ->
                            forall x, In x l -> last l 0 <= x).
      { clear. induction l as [|a l IH]; intros S Hne x Hx; [congruence|].
        inversion S as [|? ? S' Fa]; subst. destruct l as [|b l'].
        - destruct Hx as [<-|[]]. apply Qle_refl.
        - change (last (a :: b :: l') 0) with (last (b :: l') 0).
          assert (Hb : last (b :: l') 0 <= b)
            by (apply IH; [exact S' | discriminate | left; reflexivity]).
          destruct Hx as [<-|Hx].
          + rewrite Forall_forall in Fa. specialize (Fa b (or_introl eq_refl)). lra.
          + apply IH; [exact S' | discriminate | exact Hx]. }
      specialize (G mids A C x Hx). rewrite B in G. exact G. }
    split; [|split; [|split; [|discriminate]]].
    + pose proof (pairUp_ordered (rev mids) (Rect.right pageRect) Hinc) as Ho.
      apply (StronglySorted_filter _
               (fun lr => Qgtb (snd lr - fst lr) (minRegionWidth settings))) in Ho.
      induction Ho as [|p l Hl IH Hp]; cbn [map]; [constructor|].
      constructor; [exact IH|].
      apply Forall_forall. intros reg Hreg. apply in_map_iff in Hreg.
      destruct Hreg as [q [<- Hq]]. rewrite Forall_forall in Hp.
      exact (Hp q Hq).
    + apply Forall_forall. intros reg Hreg. apply in_map_iff in Hreg.
      destruct Hreg as [q [<- Hq]]. apply filter_In in Hq. destruct Hq as [Hq Hw].
      apply Qgtb_true in Hw. split; [|intros _; exact Hw].
      apply Hfirst. apply (pairUp_fst _ (Rect.right pageRect)). exact Hq.
    + rewrite length_map.
      eapply Nat.le_trans; [apply filter_length_le|].
      rewrite pairUp_length, length_app, length_rev.
      cbn [List.length] in *. lia.
Qed.

Lemma buildColumnRegionsFromStrips_ordered_witness :
  [ColumnExample.strip] <> []
  /\ Forall (fun reg =>
               match reg with
               | LayoutDetector.Reg l r => minRegionWidth defaultLayoutSettings < r - l
               | LayoutDetector.AllLine => False
               end)
       (LayoutDetector.buildColumnRegionsFromStrips defaultLayoutSettings
          [ColumnExample.strip] ColumnExample.pageRect).
Proof.
  assert (H : [ColumnExample.strip] <> []) by discriminate.
  split; [exact H|].
  pose proof (proj1 (proj2 (buildColumnRegionsFromStrips_ordered defaultLayoutSettings
                              [ColumnExample.strip] ColumnExample.pageRect))) as G.
  cbv zeta in G.
  apply Forall_forall. intros reg Hreg. rewrite Forall_forall in G.
  specialize (G reg Hreg). destruct reg as [l r|]; [exact (proj2 G H) | exact G].
Defined.

Lemma dedupSpans_sorted (R : SpanInfo.t -> SpanInfo.t -> Prop) (para : list SpanInfo.t) :
  forall globalSeen paragraphSeen unique seen,
    StronglySorted R para ->
    LayoutDetector.dedupSpans globalSeen paragraphSeen para = (unique, seen) ->
    StronglySorted R unique /\ (forall s, In s unique -> In s para).
Proof.
  induction para as [|s rest IH]; intros globalSeen paragraphSeen unique seen Hs H;
    cbn [LayoutDetector.dedupSpans] in H.
  - injection H as <- <-. split; [constructor | intros s []].
  - apply StronglySorted_inv in Hs. destruct Hs as [Hrest Hhead].
    destruct (negb (existsb (Nat.eqb (SpanInfo.span s)) globalSeen)
              && negb (existsb (Nat.eqb (SpanInfo.span s)) paragraphSeen)).
    + destruct (LayoutDetector.dedupSpans (SpanInfo.span s :: globalSeen)
                  (SpanInfo.span s :: paragraphSeen) rest) as [u sn] eqn:E.
      injection H as <- <-.
      destruct (IH _ _ _ _ Hrest E) as [A B]. split.
      * constructor; [exact A|]. apply Forall_forall. intros z Hz.
        rewrite Forall_forall in Hhead. apply Hhead. apply B. exact Hz.
      * intros z [<-|Hz]; [left; reflexivity | right; apply B; exact Hz].
    + destruct (IH _ _ _ _ Hrest H) as [A B]. split; [exact A|].
      intros z Hz. right. apply B. exact Hz.
Qed.

Lemma dedupLoop_sorted (R : SpanInfo.t -> SpanInfo.t -> Prop)
  (paragraphs : list (list SpanInfo.t)) :
  forall globalSeen,
    Forall (StronglySorted R) paragraphs ->
    Forall (StronglySorted R) (LayoutDetector.dedupLoop globalSeen paragraphs).
Proof.
  induction paragraphs as [|para rest IH]; intros globalSeen H;
    cbn [LayoutDetector.dedupLoop]; [constructor|].
  apply Forall_cons_iff in H. destruct H as [Hp Hrest].
  destruct (LayoutDetector.dedupSpans globalSeen [] para) as [u seen] eqn:E.
  destruct (dedupSpans_sorted R para _ _ _ _ Hp E) as [A _].
  destruct u as [|x u]; [apply IH; exact Hrest|].
  constructor; [exact A | apply IH; exact Hrest].
Qed.

Lemma finishParagraphs_sorted (settings : LayoutSettings) (verticalStrips : list Strip.t)
  (layoutBands : list Band.t) (pageRect : Rect.t) (paragraphs : list (list SpanInfo.t)) :
  Forall (fun p => p <> [] /\ StronglySorted (fun a b => spanLe a b = true) p)
    (LayoutDetector.finishParagraphs settings verticalStrips layoutBands pageRect
       paragraphs).
Proof.
  unfold LayoutDetector.finishParagraphs, LayoutDetector.deduplicateParagraphs. cbv zeta.
  match goal with
  | |- Forall _ (LayoutDetector.dedupLoop [] (map sortSpans ?o)) => generalize o
  end.
  intro ordered.
  pose proof (dedupLoop_spec (map sortSpans ordered) []) as S. cbv zeta in S.
  destruct S as [_ [_ [_ [Hne _]]]].
  assert (Hs : Forall (StronglySorted (fun a b => spanLe a b = true))
                 (LayoutDetector.dedupLoop [] (map sortSpans ordered))).
  { apply dedupLoop_sorted. apply Forall_forall. intros p Hp.
    apply in_map_iff in Hp. destruct Hp as [q [<- _]]. apply sortSpans_sorted. }
  rewrite Forall_forall in *. intros p Hp. split; [apply Hne | apply Hs]; exact Hp.
Qed.

(** X27. [detectLayout] returns, and each paragraph it returns holds at
    least one span and has its spans in reading order: of two spans of a
    paragraph the earlier has the smaller top, or the same top and a left
    edge that is not larger. *)
Theorem detectLayout_paragraphs_in_reading_order :
  forall (settings : LayoutSettings) (Msqrt : Q -> Q)
         (detectGrid : list Rect.t -> Rect.t -> Q -> list Q)
         (spans : list SpanInfo.t) (pageRect : Rect.t),
  exists out,
    LayoutDetector.detectLayout settings Msqrt detectGrid spans pageRect = Returned out
    /\ Forall (fun p => p <> [] /\ StronglySorted (fun a b => spanLe a b = true) p) out.
Proof.
  intros settings Msqrt detectGrid spans pageRect.
  destruct (buildSnapshot_spec spans) as [Hnd _].
  unfold LayoutDetector.detectLayout. cbv zeta.
  destruct (detectLayoutWith_spec settings (Snapshot.buildSnapshot spans) pageRect
              (GapDetector.detectGapsFromRects Msqrt
                 (map SpanInfo.rect (Snapshot.buildSnapshot spans)) pageRect)
              (detectGrid (map SpanInfo.rect (Snapshot.buildSnapshot spans)) pageRect)
              Hnd) as [out [E _]].
  exists out. split; [exact E|].
  unfold LayoutDetector.detectLayoutWith in E. cbv zeta in E.
  match type of E with
  | bind ?m _ = _ => destruct m as [merged| |]; cbn [bind] in E; try discriminate E
  end.
  injection E as <-. apply finishParagraphs_sorted.
Qed.

(** *** Column analysis *)

Lemma columnGroups_spec (columnThreshold : Q) (sortedByX : list SpanInfo.t) :
  forall lastColumn lastRect,
    lastColumn <> [] ->
    List.concat (LayoutDetector.columnGroups columnThreshold lastColumn lastRect sortedByX)
    = lastColumn ++ sortedByX
    /\ Forall (fun c => c <> [])
         (LayoutDetector.columnGroups columnThreshold lastColumn lastRect sortedByX)
    /\ LayoutDetector.columnGroups columnThreshold lastColumn lastRect sortedByX <> [].
Proof.
  induction sortedByX as [|s rest IH]; intros lastColumn lastRect Hne;
    cbn [LayoutDetector.columnGroups].
  - cbn [List.concat]. split; [reflexivity|].
    split; [constructor; [exact Hne | constructor] | discriminate].
  - cbv zeta. destruct (Qltb _ columnThreshold).
    + destruct (IH (lastColumn ++ [s]) (SpanInfo.rect s)) as [A [B C]];
        [destruct lastColumn; discriminate|].
      split; [rewrite A, <- app_assoc; reflexivity|]. split; assumption.
    + destruct (IH [s] (SpanInfo.rect s)) as [A [B C]]; [discriminate|].
      cbn [List.concat]. split; [rewrite A; reflexivity|].
      split; [constructor; [exact Hne | exact B] | discriminate].
Qed.

Lemma columnRectOf_encloses (pageRect : Rect.t) (column : list SpanInfo.t)
  (s : SpanInfo.t) :
  In s column -> encloses (LayoutDetector.columnRectOf pageRect column) (SpanInfo.rect s).
Proof.
  intro Hs. unfold LayoutDetector.columnRectOf.
  destruct column as [|c0 cs]; [contradiction|]. cbv zeta.
  unfold encloses. cbn [Rect.left Rect.right Rect.top Rect.bottom].
  split; [apply minList_le|split; [apply maxList_ge|split; [apply minList_le|apply maxList_ge]]];
    apply in_map; apply in_map; exact Hs.
Qed.

Lemma gapsBetween_length (columnRects : list Rect.t) :
  List.length (LayoutDetector.gapsBetween columnRects)
  = (List.length columnRects - 1)%nat.
Proof.
  induction columnRects as [|a l IH]; [reflexivity|]. destruct l as [|b l']; [reflexivity|].
  change (LayoutDetector.gapsBetween (a :: b :: l'))
    with ((Rect.left b + Rect.right a) / 2 :: LayoutDetector.gapsBetween (b :: l')).
  cbn [List.length] in *. lia.
Qed.

Lemma slice_inner_length {A : Type} (l : list A) :
  List.length (LayoutDetector.slice 1 (-1) l) = (List.length l - 2)%nat.
Proof.
  unfold LayoutDetector.slice. cbv zeta.
  change (Z.ltb 1 0) with false. change (Z.ltb (-1) 0) with true. cbv iota.
  rewrite length_firstn, length_skipn. lia.
Qed.

Lemma last_any_default {A : Type} (l : list A) (d d' : A) :
  l <> [] -> last l d = last l d'.
Proof.
  induction l as [|a rest IH]; [congruence|]. intros _.
  destruct rest as [|b rest']; [reflexivity|].
  change (last (a :: b :: rest') d) with (last (b :: rest') d).
  change (last (a :: b :: rest') d') with (last (b :: rest') d').
  apply IH. discriminate.
Qed.

Lemma slice_inner {A : Type} (l : list A) :
  LayoutDetector.slice 1 (-1) l = removelast (tl l).
Proof.
  unfold LayoutDetector.slice. cbv zeta.
  change (Z.ltb 1 0) with false. change (Z.ltb (-1) 0) with true. cbv iota.
  destruct l as [|a rest]; [reflexivity|].
  cbn [tl]. rewrite removelast_firstn_len.
  replace (Z.to_nat (Z.min 1 (Z.of_nat (List.length (a :: rest))))) with 1%nat
    by (cbn [List.length]; lia).
  cbn [skipn]. f_equal. cbn [List.length]. lia.
Qed.

(** X28. The column analysis of a page always reports at least one column,
    and one vertical gap fewer than columns.  With two spans or more on the
    page, every span lies inside one of the columns, the edge columns are
    the first and the last column, and the gap columns are the columns
    without the first and the last, in the same order. *)
Theorem analyzeColumns_counts :
  forall (settings : LayoutSettings) (paragraphs : list (list SpanInfo.t))
         (pageRect : Rect.t),
    let analysis := LayoutDetector.analyzeColumns settings paragraphs pageRect in
    LayoutDetector.columns analysis <> []
    /\ List.length (LayoutDetector.verticalGaps analysis)
       = (List.length (LayoutDetector.columns analysis) - 1)%nat
    /\ ((2 <= List.length (List.concat paragraphs))%nat ->
        (forall s, In s (List.concat paragraphs) ->
           exists c, In c (LayoutDetector.columns analysis)
                     /\ Rect.left c <= Rect.left (SpanInfo.rect s)
                     /\ Rect.right (SpanInfo.rect s) <= Rect.right c
                     /\ Rect.top c <= Rect.top (SpanInfo.rect s)
                     /\ Rect.bottom (SpanInfo.rect s) <= Rect.bottom c)
        /\ (forall d,
              LayoutDetector.edgeCols analysis
              = [hd d (LayoutDetector.columns analysis);
                 last (LayoutDetector.columns analysis) d])
        /\ LayoutDetector.gapCols analysis
           = removelast (tl (LayoutDetector.columns analysis))
        /\ List.length (LayoutDetector.edgeCols analysis) = 2%nat
        /\ List.length (LayoutDetector.gapCols analysis)
           = (List.length (LayoutDetector.columns analysis) - 2)%nat).
Proof.
  intros settings paragraphs pageRect. cbv zeta.
  unfold LayoutDetector.analyzeColumns. cbv zeta.
  destruct (Nat.ltb (List.length (List.concat paragraphs)) 2) eqn:E.
  - apply Nat.ltb_lt in E.
    cbn [LayoutDetector.columns LayoutDetector.verticalGaps].
    split; [discriminate|]. split; [reflexivity | lia].
  - apply Nat.ltb_ge in E.
    cbn [LayoutDetector.columns LayoutDetector.verticalGaps LayoutDetector.edgeCols
         LayoutDetector.gapCols].
    set (le := fun a b : SpanInfo.t =>
                 Qle_bool (Rect.left (SpanInfo.rect a) - Rect.left (SpanInfo.rect b)) 0).
    pose proof (sortBy_In le (List.concat paragraphs)) as Hin.
    pose proof (sortBy_length le (List.concat paragraphs)) as Hlen.
    destruct (sortBy le (List.concat paragraphs)) as [|first rest];
      [cbn [List.length] in Hlen; lia|].
    match goal with
    | |- context [LayoutDetector.columnGroups ?th [first] (SpanInfo.rect first) rest] =>
      destruct (columnGroups_spec th rest [first] (SpanInfo.rect first))
        as [A [B C]]; [discriminate|];
      set (groups := LayoutDetector.columnGroups th [first] (SpanInfo.rect first) rest)
        in *
    end.
    set (rects := map (LayoutDetector.columnRectOf pageRect) groups).
    assert (Hr : rects <> []).
    { subst rects. destruct groups; [congruence | discriminate]. }
    split; [exact Hr|]. split; [apply gapsBetween_length|].
    intros _. split; [|split; [|split; [|split]]].
    + intros s Hs. apply Hin in Hs. cbn [app] in A. rewrite <- A in Hs.
      apply in_concat in Hs. destruct Hs as [g [Hg Hs]].
      exists (LayoutDetector.columnRectOf pageRect g).
      split; [apply in_map; exact Hg|].
      exact (columnRectOf_encloses pageRect g s Hs).
    + intro d. destruct rects as [|r0 rs]; [congruence|]. cbn [hd]. f_equal. f_equal.
      apply last_any_default. discriminate.
    + apply slice_inner.
    + destruct rects; [congruence | reflexivity].
    + apply slice_inner_length.
Qed.

Lemma analyzeColumns_counts_witness :
  (2 <= List.length (List.concat [[ColumnExample.leftFragment];
                                  [ColumnExample.rightFragment]]))%nat
  /\ LayoutDetector.gapCols
       (LayoutDetector.analyzeColumns defaultLayoutSettings
          [[ColumnExample.leftFragment]; [ColumnExample.rightFragment]]
          ColumnExample.pageRect)
     = removelast
         (tl (LayoutDetector.columns
                (LayoutDetector.analyzeColumns defaultLayoutSettings
                   [[ColumnExample.leftFragment]; [ColumnExample.rightFragment]]
                   ColumnExample.pageRect))).
Proof.
  assert (H : (2 <= List.length (List.concat [[ColumnExample.leftFragment];
                                              [ColumnExample.rightFragment]]))%nat)
    by (simpl; lia).
  split; [exact H|].
  exact (proj1 (proj2 (proj2 (proj2 (proj2 (analyzeColumns_counts defaultLayoutSettings
           [[ColumnExample.leftFragment]; [ColumnExample.rightFragment]]
           ColumnExample.pageRect)) H)))).
Defined.

(** ** processing.ts: the text processor *)

(** *** Escaping *)

Lemma replaceAll_app (c : N) (r a b : text_t) :
  TextProcessor.replaceAll c r (a ++ b)
  = TextProcessor.replaceAll c r a ++ TextProcessor.replaceAll c r b.
Proof. unfold TextProcessor.replaceAll. apply flat_map_app. Qed.

Lemma escapeHtml_app (a b : text_t) :
  TextProcessor.escapeHtml (a ++ b)
  = TextProcessor.escapeHtml a ++ TextProcessor.escapeHtml b.
Proof. unfold TextProcessor.escapeHtml. rewrite !replaceAll_app. reflexivity. Qed.

Lemma encodeUnit_cases (d : N) :
  (d = 38%N /\ encodeUnit d = [38; 97; 109; 112; 59]%N)
  \/ (d = 60%N /\ encodeUnit d = [38; 108; 116; 59]%N)
  \/ (d = 62%N /\ encodeUnit d = [38; 103; 116; 59]%N)
  \/ (d = 34%N /\ encodeUnit d = [38; 113; 117; 111; 116; 59]%N)
  \/ (d = 39%N /\ encodeUnit d = [38; 35; 48; 51; 57; 59]%N)
  \/ (d <> 38%N /\ d <> 60%N /\ d <> 62%N /\ d <> 34%N /\ d <> 39%N
      /\ encodeUnit d = [d]).
Proof.
  unfold encodeUnit.
  destruct (N.eqb_spec d 38) as [->|H1]; [left; split; reflexivity|].
  destruct (N.eqb_spec d 60) as [->|H2]; [right; left; split; reflexivity|].
  destruct (N.eqb_spec d 62) as [->|H3]; [right; right; left; split; reflexivity|].
  destruct (N.eqb_spec d 34) as [->|H4]; [right; right; right; left; split; reflexivity|].
  destruct (N.eqb_spec d 39) as [->|H5];
    [right; right; right; right; left; split; reflexivity|].
  right. right. right. right. right. repeat split; assumption.
Qed.

Lemma escapeHtml_single (d : N) : TextProcessor.escapeHtml [d] = encodeUnit d.
Proof.
  destruct (encodeUnit_cases d)
    as [[-> E]|[[-> E]|[[-> E]|[[-> E]|[[-> E]|[H1 [H2 [H3 [H4 [H5 E]]]]]]]]]];
    rewrite E; try reflexivity.
  unfold TextProcessor.escapeHtml, TextProcessor.replaceAll. cbn [flat_map app].
  apply N.eqb_neq in H1, H2, H3, H4, H5.
  rewrite H1. cbn [flat_map app]. rewrite H2. cbn [flat_map app].
  rewrite H3. cbn [flat_map app]. rewrite H4. cbn [flat_map app].
  rewrite H5. reflexivity.
Qed.

Lemma escapeHtml_flat_map (text : text_t) :
  TextProcessor.escapeHtml text = flat_map encodeUnit text.
Proof.
  induction text as [|d rest IH]; [reflexivity|].
  change (d :: rest) with ([d] ++ rest).
  rewrite escapeHtml_app, escapeHtml_single, IH. reflexivity.
Qed.

Lemma encodeUnit_injective (x y : N) (a b : text_t) :
  encodeUnit x ++ a = encodeUnit y ++ b -> x = y /\ a = b.
Proof.
  destruct (encodeUnit_cases x)
    as [[-> E]|[[-> E]|[[-> E]|[[-> E]|[[-> E]|[H1 [H2 [H3 [H4 [H5 E]]]]]]]]]];
  destruct (encodeUnit_cases y)
    as [[-> E']|[[-> E']|[[-> E']|[[-> E']|[[-> E']|[K1 [K2 [K3 [K4 [K5 E']]]]]]]]]];
  rewrite ?E, ?E'; cbn [app]; intro H;
  try discriminate H;
  try (injection H as H; split; [reflexivity | exact H]);
  try (injection H as H0 H; congruence);
  try (injection H as H0 H; split; [exact H0 | exact H]).
Qed.

(** X29. Escaped text holds no less-than, greater-than, double quote or
    single quote; escaping works unit by unit, so the escaped form of a
    concatenation is the concatenation of the escaped forms; and escaping
    loses nothing: two texts with the same escaped form are the same
    text. *)
Theorem escapeHtml_safe_and_faithful :
  forall (a b : text_t),
    Forall (fun d => isMarkupUnit d = false) (TextProcessor.escapeHtml a)
    /\ TextProcessor.escapeHtml (a ++ b)
       = TextProcessor.escapeHtml a ++ TextProcessor.escapeHtml b
    /\ (TextProcessor.escapeHtml a = TextProcessor.escapeHtml b -> a = b).
Proof.
  intros a b. split; [|split; [apply escapeHtml_app|]].
  - rewrite escapeHtml_flat_map. apply Forall_forall. intros d Hd.
    apply in_flat_map in Hd. destruct Hd as [x [_ Hd]].
    destruct (encodeUnit_cases x)
      as [[-> E]|[[-> E]|[[-> E]|[[-> E]|[[-> E]|[H1 [H2 [H3 [H4 [H5 E]]]]]]]]]];
      rewrite E in Hd; cbn [In] in Hd;
      try (repeat (destruct Hd as [<-|Hd]; [reflexivity|]); contradiction).
    destruct Hd as [<-|[]]. unfold isMarkupUnit.
    apply N.eqb_neq in H2, H3, H4, H5. rewrite H2, H3, H4, H5. reflexivity.
  - rewrite !escapeHtml_flat_map. revert b.
    induction a as [|x a IH]; intros b H.
    + destruct b as [|y b]; [reflexivity|]. cbn [flat_map] in H.
      destruct (encodeUnit_cases y)
        as [[-> E]|[[-> E]|[[-> E]|[[-> E]|[[-> E]|[_ [_ [_ [_ [_ E]]]]]]]]]];
        rewrite E in H; discriminate H.
    + destruct b as [|y b].
      * cbn [flat_map] in H.
        destruct (encodeUnit_cases x)
          as [[-> E]|[[-> E]|[[-> E]|[[-> E]|[[-> E]|[_ [_ [_ [_ [_ E]]]]]]]]]];
          rewrite E in H; discriminate H.
      * cbn [flat_map] in H. apply encodeUnit_injective in H. destruct H as [-> H].
        rewrite (IH b H). reflexivity.
Qed.

Lemma escapeHtml_safe_and_faithful_witness :
  TextProcessor.escapeHtml [60; 98; 62]%N = TextProcessor.escapeHtml [60; 98; 62]%N
  /\ [60; 98; 62]%N = [60; 98; 62]%N.
Proof.
  assert (H : TextProcessor.escapeHtml [60; 98; 62]%N
              = TextProcessor.escapeHtml [60; 98; 62]%N) by reflexivity.
  split; [exact H|].
  exact (proj2 (proj2 (escapeHtml_safe_and_faithful [60; 98; 62]%N [60; 98; 62]%N)) H).
Defined.

(** *** Chunking *)

Lemma seq_last_split (i : nat) (front : list nat) (x : nat) :
  front ++ [x] = seq 0 i -> (i = S x /\ front = seq 0 x)%nat.
Proof.
  intro H. destruct i as [|i].
  - destruct front; discriminate H.
  - rewrite seq_S in H. cbn [Nat.add] in H.
    apply app_inj_tail in H. destruct H as [H1 H2]. subst x. split; [reflexivity | exact H1].
Qed.

Lemma chunkLoop_returns (units : list text_t) (maxChunkChars : Q) :
  forall (fuel i : nat) (currentChunkText : text_t) (currentChunkIndices : list nat)
         (chunks : list TextProcessor.Chunk),
    List.concat (map TextProcessor.originalIndices chunks) ++ currentChunkIndices = seq 0 i ->
    (i <= List.length units)%nat ->
    (currentChunkText = [] <-> currentChunkIndices = []) ->
    Forall (fun c => TextProcessor.originalIndices c <> []) chunks ->
    (chunkWeight (List.length units) i currentChunkIndices < fuel)%nat ->
    exists result,
      TextProcessor.chunkLoop fuel units maxChunkChars i currentChunkText
        currentChunkIndices chunks = Returned result
      /\ List.concat (map TextProcessor.originalIndices result) = seq 0 (List.length units)
      /\ Forall (fun c => TextProcessor.originalIndices c <> []) result.
Proof.
  induction fuel as [|fuel IH]; intros i txt idx chunks Hseq Hi Hte Hne Hw; [lia|].
  cbn [TextProcessor.chunkLoop].
  destruct (nth_error units i) as [unitText|] eqn:En.
  - assert (Hlt : (i < List.length units)%nat)
      by (apply nth_error_Some; rewrite En; discriminate).
    match goal with
    | |- context [if ?c then _ else _] => destruct c eqn:Eover
    end.
    + apply andb_true_iff in Eover. destruct Eover as [_ Epos].
      assert (Hidx : idx <> []).
      { intro Hn. apply Hte in Hn. subst txt. vm_compute in Epos. discriminate Epos. }
      destruct (exists_last Hidx) as [front [lastIndex Eidx]].
      assert (Elast : last idx O = lastIndex) by (rewrite Eidx; apply last_last).
      assert (Eremove : removelast idx = front)
        by (rewrite Eidx; apply removelast_last).
      rewrite Eidx, app_assoc in Hseq. apply seq_last_split in Hseq.
      destruct Hseq as [Ei Hfront].
      match goal with
      | |- context [if ?c then _ else _] => destruct c eqn:Erewind
      end.
      * apply andb_true_iff in Erewind. destruct Erewind as [Elen _].
        apply Nat.ltb_lt in Elen.
        rewrite Elast, Eremove.
        assert (Hfne : front <> []).
        { intro Hn. rewrite Hn in Eidx. rewrite Eidx in Elen. cbn in Elen. lia. }
        apply IH.
        -- rewrite map_app, concat_app. cbn [map List.concat TextProcessor.originalIndices].
           rewrite !app_nil_r. exact Hfront.
        -- lia.
        -- split; reflexivity.
        -- apply Forall_app. split; [exact Hne|]. constructor; [exact Hfne | constructor].
        -- unfold chunkWeight in *. subst i.
           destruct idx as [|a [|b rest]]; cbn [List.length] in Elen; try lia.
      * apply IH.
        -- rewrite map_app, concat_app. cbn [map List.concat TextProcessor.originalIndices].
           rewrite app_nil_r, Eidx, app_assoc, Hfront, Ei.
           rewrite (seq_S (S lastIndex)), seq_S. reflexivity.
        -- lia.
        -- split; intro Hn; [|discriminate Hn].
           unfold TextProcessor.numbered in Hn.
           apply app_eq_nil in Hn. destruct Hn as [_ Hn]. discriminate Hn.
        -- apply Forall_app. split; [exact Hne|]. constructor; [exact Hidx | constructor].
        -- unfold chunkWeight in *. destruct idx as [|a [|b rest]]; lia.
    + apply IH.
      * rewrite app_assoc, Hseq, seq_S. reflexivity.
      * lia.
      * split; intro Hn.
        -- apply app_eq_nil in Hn. destruct Hn as [_ Hn].
           apply app_eq_nil in Hn. destruct Hn as [_ Hn]. discriminate Hn.
        -- destruct idx; discriminate Hn.
      * exact Hne.
      * unfold chunkWeight in *.
        destruct idx as [|a [|b [|c rest]]]; cbn [app]; lia.
  - apply nth_error_None in En. assert (i = List.length units) by lia. subst i.
    destruct txt as [|c txt].
    + assert (idx = []) by (apply Hte; reflexivity). subst idx.
      rewrite app_nil_r in Hseq. exists chunks. repeat apply conj; auto.
    + eexists. split; [reflexivity|]. split.
      * rewrite map_app, concat_app. cbn [map List.concat TextProcessor.originalIndices].
        rewrite app_nil_r. exact Hseq.
      * apply Forall_app. split; [exact Hne|]. constructor; [|constructor].
        cbn [TextProcessor.originalIndices]. intro Hn. apply Hte in Hn. discriminate Hn.
Qed.

(** X30. Whatever the units and the size limit, the chunking loop of
    performChunkedTranslation comes to an end, although it may step back,
    and its chunks cut the units into runs: read in order, the chunks'
    originalIndices are 0, 1, ..., units.length - 1, each once, and no
    chunk is without a unit. *)
Theorem buildChunks_partitions_units :
  forall (units : list text_t) (maxChunkChars : Q),
    exists chunks,
      TextProcessor.buildChunks units maxChunkChars = Returned chunks
      /\ List.concat (map TextProcessor.originalIndices chunks)
         = seq 0 (List.length units)
      /\ Forall (fun c => TextProcessor.originalIndices c <> []) chunks.
Proof.
  intros units maxChunkChars. unfold TextProcessor.buildChunks.
  apply chunkLoop_returns.
  - reflexivity.
  - lia.
  - split; reflexivity.
  - constructor.
  - unfold chunkWeight. lia.
Qed.

(** * The stacked pass run again, and column separation *)

(** ** C5: the final stacked pass run again *)








Section UniformStyles.
Variable cfg : LayoutSettings.
Variables (lineHeight : Q) (filteredStrips : list Strip.t) (bands : list Band.t).
Variable page : list SpanInfo.t.
Hypothesis matching_styles_equal :
  forall s s',
    In s page -> In s' page ->
    ParagraphMerger.stylesMatchStyle cfg (SpanInfo.style s) (SpanInfo.style s') true = true ->
    SpanInfo.style s = SpanInfo.style s'.

Local Abbreviation onPage i := (Forall (fun s => In s page) (ParagraphMerger.spans i)).





End UniformStyles.



(** Without the condition on styles the pass need not be a fixed point of
    itself.  On [MixedStyleExample] the first paragraph is summarised with
    the style of the span it holds first (size 10), which does not match
    the last paragraph (size 11.6); the pass merges the first two
    paragraphs and returns two.  Run on that output, it summarises the
    merged paragraph, now sorted, with the style of its top span (size
    10.8), which matches, and merges all four spans. *)
Lemma stacked_pass_mixed_styles :
  ParagraphMerger.mergeStackedColumnParagraphsFromInfos defaultLayoutSettings 4
    MixedStyleExample.paragraphs 12.8 [] [] None
  = Returned [[MixedStyleExample.high; MixedStyleExample.low; MixedStyleExample.third];
              [MixedStyleExample.fourth]]
  /\ ParagraphMerger.mergeStackedColumnParagraphsFromInfos defaultLayoutSettings 3
       [[MixedStyleExample.high; MixedStyleExample.low; MixedStyleExample.third];
        [MixedStyleExample.fourth]] 12.8 [] [] None
     = Returned [[MixedStyleExample.high; MixedStyleExample.low; MixedStyleExample.third;
                  MixedStyleExample.fourth]].
Proof.
  split; vm_compute; reflexivity.
Qed.

(** ** C3: column separation *)

(** *** A strip the merger honours *)

Lemma keptStrips_In (strips : list Strip.t) (s : Strip.t) :
  In s strips ->
  0.7 <= Strip.confidence s ->
  4 <= Strip.right s - Strip.left s ->
  In s (LayoutDetector.keptStrips defaultLayoutSettings strips).
Proof.
  intros Hin Hc Hw. unfold LayoutDetector.keptStrips.
  apply sortBy_In. apply filter_In. split; [exact Hin|].
  apply andb_true_iff. split; apply Qgeb_true; assumption.
Qed.

Lemma filterStrips_In (strips : list Strip.t) (s : Strip.t) :
  In s strips ->
  0.7 <= Strip.confidence s ->
  6 <= Strip.right s - Strip.left s ->
  12 <= Strip.bottom s - Strip.top s ->
  In s (ParagraphMerger.filterStrips defaultLayoutSettings strips None).
Proof.
  intros Hin Hc Hw Hh. unfold ParagraphMerger.filterStrips.
  apply filter_In. split; [exact Hin|]. cbv zeta.
  rewrite (proj2 (minHeight_test _) Hh).
  apply andb_true_iff. split; [apply andb_true_iff; split|].
  - apply Qgeb_true. exact Hc.
  - apply Qgeb_true. exact Hw.
  - apply Qgtb_true. lra.
Qed.

Section StripBetween.
Variables (idl idr : nat) (t b wl hl wr hr : Q) (stl str : Style.t)
  (ml mr : bool) (txl txr : text_t).

Local Abbreviation l := (ColumnExample.leftOf idl t b wl hl stl ml txl) (only parsing).
Local Abbreviation r := (ColumnExample.rightOf idr t b wr hr str mr txr) (only parsing).

(** The initial grouping either joins the two fragments or leaves them
    apart. *)
Lemma side_by_side_initial_cases :
  ParagraphMerger.mergeIntoParagraphsFromInfos defaultLayoutSettings [l; r] = [[l; r]]
  \/ ParagraphMerger.mergeIntoParagraphsFromInfos defaultLayoutSettings [l; r]
     = [[l]; [r]].
Proof.
  unfold ParagraphMerger.mergeIntoParagraphsFromInfos, sortSpans.
  cbn [sortBy insertBy]. rewrite side_by_side_order.
  cbn [ParagraphMerger.groupLoop last].
  destruct (ParagraphMerger.extendsParagraph _ _ _); [left | right]; reflexivity.
Qed.

Lemma side_by_side_line :
  minQ hl hr < 30 ->
  ParagraphMerger.lineScan defaultLayoutSettings 0 None [] [] [l; r]
  = [(270 + 330) / 2].
Proof.
  intro Hh. cbn [ParagraphMerger.lineScan].
  cbv zeta.
  assert (Same : Qgtb (absQ (t - t)) (0 * pmSplitLineHeightTol defaultLayoutSettings)
                 = false).
  { apply Qgtb_false. unfold absQ. apply Qabs_Qle_condition.
    cbn [pmSplitLineHeightTol defaultLayoutSettings]. split; lra. }
  cbn [SpanInfo.rect ColumnExample.leftOf ColumnExample.rightOf Rect.top].
  rewrite Same.
  cbn [app ParagraphMerger.lineScan ParagraphMerger.flushLine List.length Nat.ltb Nat.leb
       ParagraphMerger.processLineForColumnBoundaries map SpanInfo.rect
       ColumnExample.leftOf ColumnExample.rightOf].
  cbn [sortBy insertBy Rect.left].
  change (Qle_bool (10 - 330) 0) with true. cbv iota.
  cbn [ParagraphMerger.gapCenters Rect.left Rect.right Rect.height app].
  assert (G1 : Qgtb (330 - 270)
                 (minQ hl hr * 0.8 * pmSplitColumnGapTol defaultLayoutSettings) = true).
  { apply Qgtb_true. cbn [pmSplitColumnGapTol defaultLayoutSettings]. lra. }
  assert (G2 : Qgtb (330 - 270)
                 (minQ hl hr * 0.8 * pmSplitInterWordGapTol defaultLayoutSettings) = true).
  { apply Qgtb_true. cbn [pmSplitInterWordGapTol defaultLayoutSettings]. lra. }
  rewrite G1, G2. reflexivity.
Qed.

Lemma side_by_side_split (f : Strip.t) (fs : list Strip.t) :
  minQ hl hr < 30 ->
  ParagraphMerger.splitParagraphByStrips defaultLayoutSettings [l; r] (f :: fs) 0
  = [[l]; [r]].
Proof.
  intro Hh. unfold ParagraphMerger.splitParagraphByStrips. cbv zeta.
  assert (Hs : sortSpans [l; r] = [l; r]).
  { unfold sortSpans. cbn [sortBy insertBy]. rewrite side_by_side_order. reflexivity. }
  rewrite Hs, (side_by_side_line Hh).
  vm_compute. reflexivity.
Qed.

Lemma side_by_side_validate (initial : list (list SpanInfo.t)) (strips : list Strip.t) :
  initial = [[l; r]] \/ initial = [[l]; [r]] ->
  ParagraphMerger.filterStrips defaultLayoutSettings strips None <> [] ->
  minQ hl hr < 30 ->
  ParagraphMerger.validateParagraphsAgainstStripsFromInfos defaultLayoutSettings initial
    strips 0 None = [[l]; [r]].
Proof.
  intros [-> | ->] Hf Hh; [|apply validate_two_singletons].
  unfold ParagraphMerger.validateParagraphsAgainstStripsFromInfos.
  cbn [pmForceLinearMerge defaultLayoutSettings].
  destruct strips as [|s0 rest]; [exfalso; apply Hf; reflexivity|].
  destruct (ParagraphMerger.filterStrips defaultLayoutSettings (s0 :: rest) None)
    as [|f fs]; [congruence|].
  cbn [flat_map]. rewrite (side_by_side_split f fs Hh). reflexivity.
Qed.

End StripBetween.

(** *** Fragments the kerning rule does not join *)

Lemma stylesMatchStyle_sizes (a b : Style.t) :
  ParagraphMerger.stylesMatchStyle defaultLayoutSettings a b true = true ->
  Qabs (Style.fontSize a - Style.fontSize b) <= 1.
Proof.
  unfold ParagraphMerger.stylesMatchStyle.
  cbn [pmForceLinearMerge defaultLayoutSettings].
  destruct (true && (Style.isMathElement a || Style.isMathElement b)).
  - destruct (negb (String.eqb _ _)); [discriminate|].
    destruct (negb (String.eqb _ _)); [discriminate|].
    destruct (negb (Qeq_bool _ _)); [discriminate|].
    destruct (Qgtb (absQ (Style.fontSize a - Style.fontSize b)) 1) eqn:E; [discriminate|].
    intros _. apply Qgtb_false in E. exact E.
  - destruct (negb (String.eqb _ _)); [discriminate|].
    destruct (Qgtb (absQ (Style.fontSize a - Style.fontSize b)) 1) eqn:E; [discriminate|].
    intros _. apply Qgtb_false in E. exact E.
Qed.

Section KerningTolerance.
Variables (idl idr : nat) (t b wl hl wr hr : Q) (stl str : Style.t)
  (ml mr : bool) (txl txr : text_t).
Hypothesis within_gutter :
  minQ (Style.fontSize stl) (Style.fontSize str) * (if ml || mr then 0.9 else 0.55) <= 60.

Local Abbreviation l := (ColumnExample.leftOf idl t b wl hl stl ml txl) (only parsing).
Local Abbreviation r := (ColumnExample.rightOf idr t b wr hr str mr txr) (only parsing).

Lemma smaller_font_bound : minQ (Style.fontSize stl) (Style.fontSize str) <= 110.
Proof. destruct (ml || mr); lra. Qed.

Lemma not_joined_initially :
  ParagraphMerger.mergeIntoParagraphsFromInfos defaultLayoutSettings [l; r]
  = [[l]; [r]].
Proof.
  pose proof smaller_font_bound as Hs.
  assert (Hmin : ParagraphMerger.minFontSize r l
                 = minQ (Style.fontSize str) (Style.fontSize stl)) by reflexivity.
  assert (Hsym : minQ (Style.fontSize str) (Style.fontSize stl)
                 == minQ (Style.fontSize stl) (Style.fontSize str)).
  { destruct (minQ_cases (Style.fontSize str) (Style.fontSize stl)) as [[H1 E1]|[H1 E1]];
    destruct (minQ_cases (Style.fontSize stl) (Style.fontSize str)) as [[H2 E2]|[H2 E2]];
    rewrite E1, E2; lra. }
  assert (Hm : ParagraphMerger.eitherMath r l = mr || ml) by reflexivity.
  unfold ParagraphMerger.mergeIntoParagraphsFromInfos, sortSpans.
  cbn [sortBy insertBy]. rewrite side_by_side_order.
  cbn [ParagraphMerger.groupLoop last].
  assert (X : ParagraphMerger.extendsParagraph defaultLayoutSettings l r = false).
  { unfold ParagraphMerger.extendsParagraph. cbv zeta.
    assert (A : ParagraphMerger.initialAligned defaultLayoutSettings r l = false).
    { unfold ParagraphMerger.initialAligned. cbv zeta.
      cbn [SpanInfo.rect ColumnExample.leftOf ColumnExample.rightOf Rect.left Rect.right
           defaultLayoutSettings pmInitialMergeAlignTolMath pmInitialMergeAlignTolNonMath].
      rewrite Hmin.
      assert (T : minQ (Style.fontSize str) (Style.fontSize stl)
                  * (if ParagraphMerger.eitherMath r l then 2.0 else 2.0) <= 320).
      { destruct (ParagraphMerger.eitherMath r l); lra. }
      rewrite (far_apart_rev 330 10) by lra.
      rewrite (far_apart_rev 590 270) by lra. reflexivity. }
    assert (K : ParagraphMerger.smallInlineKerning defaultLayoutSettings r l = false).
    { unfold ParagraphMerger.smallInlineKerning. cbv zeta.
      cbn [SpanInfo.rect ColumnExample.leftOf ColumnExample.rightOf Rect.left Rect.right
           defaultLayoutSettings pmInitialMergeKernTolMath pmInitialMergeKernTolNonMath].
      rewrite Hmin, Hm.
      assert (L : Qltb (330 - 270)
                    (minQ (Style.fontSize str) (Style.fontSize stl)
                     * (if mr || ml then 0.9 else 0.55)) = false).
      { apply Qltb_false. rewrite Hsym. rewrite (orb_comm mr ml).
        apply Qle_trans with 60; [exact within_gutter | lra]. }
      rewrite L.
      assert (R : Qle_bool (330 - 270) 0 = false) by reflexivity.
      rewrite R.
      destruct (String.eqb _ _ || String.eqb _ _); simpl; rewrite ?andb_false_r;
        reflexivity. }
    assert (H : ParagraphMerger.hyphenContinuation defaultLayoutSettings r l = false).
    { unfold ParagraphMerger.hyphenContinuation.
      cbn [SpanInfo.rect ColumnExample.leftOf ColumnExample.rightOf Rect.top].
      assert (G : Qgtb t t = false) by (apply Qgtb_false; lra).
      rewrite G. rewrite andb_false_r. reflexivity. }
    rewrite A, K, H. rewrite andb_false_r. simpl. apply andb_false_r. }
  rewrite X. reflexivity.
Qed.

(** Fragments whose styles match differ by at most 1 in size. *)
Lemma matching_fonts_bound :
  ParagraphMerger.stylesMatchStyle defaultLayoutSettings stl str true = true ->
  Style.fontSize stl <= 128 /\ Style.fontSize str <= 128.
Proof.
  intro H. apply stylesMatchStyle_sizes in H. apply Qabs_Qle_condition in H.
  pose proof smaller_font_bound as Hs.
  destruct (minQ_cases (Style.fontSize stl) (Style.fontSize str)) as [[H1 E1]|[H1 E1]];
    rewrite E1 in Hs; split; lra.
Qed.

End KerningTolerance.

(** *** The strip between the two fragments *)

Section Coverage.
Variables (yTop yBot : Q) (strip : Strip.t).
Hypothesis at_left : Strip.left strip == 280.
Hypothesis at_right : Strip.right strip == 320.
Hypothesis confident : 0.7 <= Strip.confidence strip.
Hypothesis tall : 12 <= Strip.bottom strip - Strip.top strip.
Hypothesis beside :
  0.6 * (Strip.bottom strip - Strip.top strip)
  <= minQ yBot (Strip.bottom strip) - maxQ yTop (Strip.top strip).

Local Abbreviation step :=
  (ParagraphMerger.stripCoverageStep defaultLayoutSettings yTop yBot 270 330
     (maxQ 3 ((330 - 270) * 0.1))) (only parsing).

Lemma coverage_step_grows (acc : Q) (s : Strip.t) : acc <= step acc s.
Proof.
  unfold ParagraphMerger.stripCoverageStep. cbv zeta.
  destruct (Qltb _ _); [apply Qle_refl|].
  destruct (Qltb _ _); [apply Qle_refl|].
  destruct (Qltb _ _); [apply Qle_refl|].
  destruct (Qgeb _ _); [|apply Qle_refl].
  match goal with
  | |- _ <= _ + maxQ 0 ?x => destruct (maxQ_cases 0 x) as [[H E]|[H E]]; rewrite E; lra
  end.
Qed.

Lemma coverage_step_strip (acc : Q) : acc + 40 <= step acc strip.
Proof.
  unfold ParagraphMerger.stripCoverageStep. cbv zeta.
  cbn [pmMinStripConfidenceSplit pmMinStripWidthPx pmMinStripOverlapFrac
       defaultLayoutSettings].
  assert (C : Qltb (Strip.confidence strip) 0.7 = false) by (apply Qltb_false; exact confident).
  assert (W : Qltb (Strip.right strip - Strip.left strip) 6 = false)
    by (apply Qltb_false; lra).
  assert (V : Qltb ((minQ yBot (Strip.bottom strip) - maxQ yTop (Strip.top strip))
                    / (Strip.bottom strip - Strip.top strip)) 0.6 = false).
  { apply Qltb_false. apply Qle_shift_div_l; [lra | exact beside]. }
  rewrite C, W, V.
  assert (G : 40 <= maxQ 0 (minQ (Strip.right strip) 330 - maxQ (Strip.left strip) 270)).
  { destruct (minQ_cases (Strip.right strip) 330) as [[H1 E1]|[H1 E1]]; rewrite E1;
    destruct (maxQ_cases (Strip.left strip) 270) as [[H2 E2]|[H2 E2]]; rewrite E2;
    match goal with
    | |- _ <= maxQ 0 ?x => destruct (maxQ_cases 0 x) as [[H3 E3]|[H3 E3]]; rewrite E3; lra
    end. }
  assert (K : Qgeb (maxQ 0 (minQ (Strip.right strip) 330 - maxQ (Strip.left strip) 270))
                (maxQ 3 ((330 - 270) * 0.1)) = true).
  { apply Qgeb_true.
    destruct (maxQ_cases 3 ((330 - 270) * 0.1)) as [[H E]|[H E]]; rewrite E; lra. }
  rewrite K. lra.
Qed.

Lemma coverage_fold_grows (strips : list Strip.t) :
  forall acc, acc <= fold_left (fun a s => step a s) strips acc.
Proof.
  induction strips as [|s rest IH]; intro acc; cbn [fold_left]; [apply Qle_refl|].
  apply Qle_trans with (step acc s); [apply coverage_step_grows | apply IH].
Qed.

Lemma coverage_fold_strip (strips : list Strip.t) :
  In strip strips ->
  forall acc, acc + 40 <= fold_left (fun a s => step a s) strips acc.
Proof.
  induction strips as [|s rest IH]; intros Hin acc; [contradiction|].
  cbn [fold_left]. destruct Hin as [->|Hin].
  - apply Qle_trans with (step acc strip);
      [apply coverage_step_strip | apply coverage_fold_grows].
  - apply Qle_trans with (step acc s + 40); [|apply IH; exact Hin].
    pose proof (coverage_step_grows acc s). lra.
Qed.

End Coverage.

Section Separated.
Variables (idl idr : nat) (t b wl hl wr hr : Q) (stl str : Style.t)
  (ml mr : bool) (txl txr : text_t).

Local Abbreviation l := (ColumnExample.leftOf idl t b wl hl stl ml txl) (only parsing).
Local Abbreviation r := (ColumnExample.rightOf idr t b wr hr str mr txr) (only parsing).

(** A strip the merger honours that lies in the gutter beside the
    fragments puts them in different columns. *)
Lemma side_by_side_columns (fs : list Strip.t) (strip : Strip.t) :
  In strip fs ->
  Strip.left strip == 280 -> Strip.right strip == 320 ->
  0.7 <= Strip.confidence strip ->
  12 <= Strip.bottom strip - Strip.top strip ->
  0.6 * (Strip.bottom strip - Strip.top strip)
  <= minQ b (Strip.bottom strip) - maxQ t (Strip.top strip) ->
  ParagraphMerger.sameColumnByStrips defaultLayoutSettings
    (ParagraphMerger.getParaBbox [l]) (ParagraphMerger.getParaBbox [r]) fs = false.
Proof.
  intros Hin Hl Hr Hc Hh Hb.
  assert (Htb : t < b).
  { destruct (minQ_cases b (Strip.bottom strip)) as [[H1 E1]|[H1 E1]]; rewrite E1 in Hb;
    destruct (maxQ_cases t (Strip.top strip)) as [[H2 E2]|[H2 E2]]; rewrite E2 in Hb; lra. }
  unfold ParagraphMerger.sameColumnByStrips.
  cbn [pmForceLinearMerge defaultLayoutSettings].
  destruct fs as [|f0 frest]; [contradiction|].
  rewrite !getParaBbox_single.
  cbn [SpanInfo.rect ColumnExample.leftOf ColumnExample.rightOf
       Rect.left Rect.right Rect.top Rect.bottom Rect.width].
  assert (Et : minQ t t = t) by (unfold minQ; destruct (Qle_bool t t); reflexivity).
  assert (Eb : maxQ b b = b) by (unfold maxQ; destruct (Qle_bool b b); reflexivity).
  rewrite Et, Eb.
  assert (Hpos : Qle_bool (b - t) 0 = false) by (apply Qle_bool_false; lra).
  rewrite Hpos.
  change (Qltb 10 330) with true. cbv iota beta.
  change (Qgtb (ParagraphMerger.horizontalOverlapOf
                  {| Rect.left := 10; Rect.top := t; Rect.right := 270; Rect.bottom := b;
                     Rect.width := 270 - 10; Rect.height := b - t |}
                  {| Rect.left := 330; Rect.top := t; Rect.right := 590; Rect.bottom := b;
                     Rect.width := 590 - 330; Rect.height := b - t |})
               (minQ (270 - 10) (590 - 330) * 0.3)) with false.
  cbv iota. cbn [Rect.left Rect.right].
  change (Qle_bool (330 - 270) 0) with false. cbv iota.
  cbn [pmSameColumnCoverageRatio defaultLayoutSettings].
  apply Qltb_false. apply Qle_shift_div_l; [reflexivity|].
  apply Qle_trans with (0 + 40); [lra|].
  exact (coverage_fold_strip t b strip Hl Hr Hc Hh Hb (f0 :: frest) Hin 0).
Qed.

Section Stages.
Variables (lineHeight : Q) (strips : list Strip.t) (bands : list Band.t).
Hypothesis kept_apart :
  ParagraphMerger.stylesMatchStyle defaultLayoutSettings stl str true = true ->
  (Style.fontSize stl <= 128 /\ Style.fontSize str <= 128)
  \/ ParagraphMerger.sameColumnByStrips defaultLayoutSettings
       (ParagraphMerger.getParaBbox [l]) (ParagraphMerger.getParaBbox [r])
       (ParagraphMerger.filterStrips defaultLayoutSettings strips None) = false.

Local Abbreviation fs :=
  (ParagraphMerger.filterStrips defaultLayoutSettings strips None) (only parsing).

Lemma separated_general :
  ParagraphMerger.generalMerges defaultLayoutSettings lineHeight fs bands
    (SpanInfo.style l) (ParagraphMerger.getParaBbox [l]) (SpanInfo.style r) [r] = false.
Proof.
  destruct (ParagraphMerger.stylesMatchStyle defaultLayoutSettings stl str true) eqn:M.
  - destruct (kept_apart eq_refl) as [[Fl Fr]|V].
    + apply generalMerges_apart; [reflexivity| | |apply side_by_side_overlap].
      * apply (far_apart 10 330). simpl. lra.
      * apply (far_apart 270 590). simpl. lra.
    + unfold ParagraphMerger.generalMerges.
      destruct (negb (ParagraphMerger.stylesMatchStyle _ _ _ true)); [reflexivity|].
      rewrite V. reflexivity.
  - unfold ParagraphMerger.generalMerges.
    cbn [SpanInfo.style ColumnExample.leftOf ColumnExample.rightOf]. rewrite M. reflexivity.
Qed.

Lemma separated_nested :
  ParagraphMerger.nestedMerges defaultLayoutSettings fs bands
    (ParagraphMerger.mkTInfo [l] (ParagraphMerger.getParaBbox [l]) (SpanInfo.style l)
       (ParagraphMerger.anyMath [l]) (ParagraphMerger.joinText [l]))
    (ParagraphMerger.mkTInfo [r] (ParagraphMerger.getParaBbox [r]) (SpanInfo.style r)
       (ParagraphMerger.anyMath [r]) (ParagraphMerger.joinText [r])) = false.
Proof.
  destruct (ParagraphMerger.stylesMatchStyle defaultLayoutSettings stl str true) eqn:M.
  - destruct (kept_apart eq_refl) as [[Fl Fr]|V].
    + assert (F : orElse (maxQ (Style.fontSize stl) (Style.fontSize str)) 12 <= 128).
      { apply orElse_le; [apply maxQ_le; assumption | lra]. }
      apply nestedMerges_apart; [reflexivity | reflexivity | reflexivity|].
      apply isMathMergeCandidate_apart.
      * apply (far_apart 10 330). simpl. lra.
      * apply (far_apart ((10 + 270) / 2) ((330 + 590) / 2)). simpl.
        assert (E : (330 + 590) / 2 - (10 + 270) / 2 == 320) by reflexivity.
        rewrite E. lra.
    + unfold ParagraphMerger.nestedMerges.
      destruct (negb (ParagraphMerger.stylesMatchStyle _ _ _ true)); [reflexivity|].
      cbn [ParagraphMerger.tbbox]. rewrite V. reflexivity.
  - unfold ParagraphMerger.nestedMerges.
    cbn [ParagraphMerger.tstyle SpanInfo.style ColumnExample.leftOf ColumnExample.rightOf].
    rewrite M. reflexivity.
Qed.

Lemma separated_stacked :
  ParagraphMerger.stackedMerges defaultLayoutSettings lineHeight fs bands
    (ParagraphMerger.mkPInfo [l] (ParagraphMerger.getParaBbox [l]) (SpanInfo.style l)
       (ParagraphMerger.anyMath [l]))
    (ParagraphMerger.mkPInfo [r] (ParagraphMerger.getParaBbox [r]) (SpanInfo.style r)
       (ParagraphMerger.anyMath [r])) = false.
Proof.
  destruct (ParagraphMerger.stylesMatchStyle defaultLayoutSettings stl str true) eqn:M.
  - destruct (kept_apart eq_refl) as [[Fl Fr]|V].
    + assert (T : maxQ 1 (minQ (Style.fontSize stl) (Style.fontSize str) * 2.0) <= 320).
      { apply maxQ_le; [lra|].
        pose proof (minQ_le_l (Style.fontSize stl) (Style.fontSize str) 128 Fl). lra. }
      apply stackedMerges_apart; [reflexivity| | |apply side_by_side_overlap].
      * apply (far_apart 10 330). simpl. lra.
      * apply (far_apart 270 590). simpl. lra.
    + unfold ParagraphMerger.stackedMerges.
      destruct (negb (ParagraphMerger.stylesMatchStyle _ _ _ true)); [reflexivity|].
      cbn [ParagraphMerger.bbox]. rewrite V. reflexivity.
  - unfold ParagraphMerger.stackedMerges.
    cbn [ParagraphMerger.style SpanInfo.style ColumnExample.leftOf ColumnExample.rightOf].
    rewrite M. reflexivity.
Qed.

(** Stages 2 to 5 return the two fragments apart once the split against
    the strips has them apart. *)
Lemma separated_stages (initial : list (list SpanInfo.t)) :
  ParagraphMerger.validateParagraphsAgainstStripsFromInfos defaultLayoutSettings initial
    strips 0 None = [[l]; [r]] ->
  LayoutDetector.stages2to5 defaultLayoutSettings lineHeight strips bands initial
  = Returned [[l]; [r]].
Proof.
  intro Hv.
  unfold LayoutDetector.stages2to5, LayoutDetector.splitThenMerge.
  rewrite Hv.
  rewrite mergeParagraphs_two_apart by apply separated_general.
  cbn [bind]. change (maxIterMerges defaultLayoutSettings) with 10%nat.
  cbn [LayoutDetector.nestedIterations].
  rewrite mergeNested_two_apart by apply separated_nested.
  cbn [bind snd fst negb].
  apply mergeStacked_two_apart; [apply side_by_side_order | apply separated_stacked].
Qed.

End Stages.

End Separated.

(** C3, as the code has it.  Two fragments with the same y-range, one at x
    in [10, 270] and one at x in [330, 590], are returned as two paragraphs
    under the default configuration in each of these cases.
    - The kerning tolerance of the initial grouping, 0.55 times the smaller
      font size (0.9 times when a fragment is math-flagged), does not exceed
      the gutter of 60: the initial grouping does not join the fragments,
      with or without a strip.
    - The gap analysis holds a strip at x in [280, 320] that the layout
      detector and the merger honour (confidence at least 0.7, at least 12
      tall), the shorter fragment is less than 30 tall, so that the gutter
      of 60 counts as a column gap, and either both font sizes are at most
      128 or at least 0.6 of the strip's height lies within the y-range of
      the fragments: if the initial grouping joins the fragments, the split
      against the strips separates them, and no later stage joins them
      again. *)
Theorem side_by_side_fragments_apart :
  forall (idl idr : nat) (t b wl hl wr hr : Q) (stl str : Style.t)
         (ml mr : bool) (txl txr : text_t) (pageRect : Rect.t)
         (gapAnalysis : GapDetector.GapAnalysis) (gridLines : Q -> list Q)
         (strip : Strip.t),
    idl <> idr ->
    minQ (Style.fontSize stl) (Style.fontSize str) * (if ml || mr then 0.9 else 0.55)
    <= 60
    \/ (In strip (GapDetector.verticalStrips gapAnalysis)
        /\ Strip.left strip == 280 /\ Strip.right strip == 320
        /\ 0.7 <= Strip.confidence strip
        /\ 12 <= Strip.bottom strip - Strip.top strip
        /\ minQ hl hr < 30
        /\ ((Style.fontSize stl <= 128 /\ Style.fontSize str <= 128)
            \/ 0.6 * (Strip.bottom strip - Strip.top strip)
               <= minQ b (Strip.bottom strip) - maxQ t (Strip.top strip))) ->
    LayoutDetector.detectLayoutWith defaultLayoutSettings
      [ ColumnExample.leftOf idl t b wl hl stl ml txl;
        ColumnExample.rightOf idr t b wr hr str mr txr ]
      pageRect gapAnalysis gridLines
    = Returned [ [ColumnExample.leftOf idl t b wl hl stl ml txl];
                 [ColumnExample.rightOf idr t b wr hr str mr txr] ].
Proof.
  intros idl idr t b wl hl wr hr stl str ml mr txl txr pageRect gapAnalysis
    gridLines strip Hid [Hk | [Hin [Hleft [Hright [Hc [Hh [Hm Hk]]]]]]];
    unfold LayoutDetector.detectLayoutWith; cbv zeta.
  - rewrite (separated_stages idl idr t b wl hl wr hr stl str ml mr txl txr).
    + cbn [bind]. f_equal. apply finish_two_singletons. exact Hid.
    + intro M. left. exact (matching_fonts_bound stl str ml mr Hk M).
    + rewrite (not_joined_initially idl idr t b wl hl wr hr stl str ml mr txl txr Hk).
      apply validate_two_singletons.
  - assert (Hkept : In strip (LayoutDetector.keptStrips defaultLayoutSettings
                               (GapDetector.verticalStrips gapAnalysis))).
    { apply keptStrips_In; [exact Hin | exact Hc | lra]. }
    assert (Hf : In strip (ParagraphMerger.filterStrips defaultLayoutSettings
                             (LayoutDetector.keptStrips defaultLayoutSettings
                                (GapDetector.verticalStrips gapAnalysis)) None)).
    { apply filterStrips_In; [exact Hkept | exact Hc | lra | exact Hh]. }
    rewrite (separated_stages idl idr t b wl hl wr hr stl str ml mr txl txr).
    + cbn [bind]. f_equal. apply finish_two_singletons. exact Hid.
    + intros _. destruct Hk as [Hk|Hk]; [left; exact Hk | right].
      apply (side_by_side_columns idl idr t b wl hl wr hr stl str ml mr txl txr _ strip);
        assumption.
    + apply side_by_side_validate.
      * apply side_by_side_initial_cases.
      * intro E. rewrite E in Hf. exact Hf.
      * exact Hm.
Qed.

Lemma side_by_side_fragments_apart_witness :
  LayoutDetector.detectLayoutWith defaultLayoutSettings
    [GutterPairExample.leftFragment; GutterPairExample.rightFragment]
    GutterPairExample.pageRect GutterPairExample.gapAnalysis (fun _ => [])
  = Returned [[GutterPairExample.leftFragment]; [GutterPairExample.rightFragment]].
Proof.
  apply (side_by_side_fragments_apart 1 2 0 20 260 20 260 20
           (Examples.plain "serif" 200) (Examples.plain "serif" 200) false false
           [65]%N [66]%N GutterPairExample.pageRect GutterPairExample.gapAnalysis
           (fun _ => []) GutterPairExample.strip).
  - discriminate.
  - right. split; [left; reflexivity|].
    split; [reflexivity|]. split; [reflexivity|].
    split; [vm_compute; discriminate|]. split; [vm_compute; discriminate|].
    split; [vm_compute; reflexivity|].
    right. vm_compute. discriminate.
Defined.

(** On the page of the witness the strip decides: the same two fragments
    with no strip in the gap analysis are returned as one paragraph. *)
Lemma side_by_side_without_strip :
  LayoutDetector.detectLayoutWith defaultLayoutSettings
    [GutterPairExample.leftFragment; GutterPairExample.rightFragment]
    GutterPairExample.pageRect GutterPairExample.noStripAnalysis (fun _ => [])
  = Returned [[GutterPairExample.leftFragment; GutterPairExample.rightFragment]].
Proof. vm_compute. reflexivity. Qed.

(** C3 as stated fails in three ways.
    - On the page of [ColumnExample] the two fragments have the same
      y-range and the x-ranges [10, 270] and [330, 590], a strip of
      confidence 0.9 lies at x in [280, 320], and the default configuration
      puts both fragments in one paragraph: the fragments, 200 units tall,
      are joined by the initial grouping, and the gutter of 60 is no column
      gap for fragments that tall.
    - On the page of [PosterExample] the gap detector itself finds the
      strip at x in [280, 320], with a confidence above 0.9, and
      [detectLayout] returns one paragraph that holds both fragments.
    - On the page of [GutterPairExample] with the strip of confidence 0.65,
      which the gap detector would report and the layout detector drops,
      both fragments are in one paragraph. *)
Lemma side_by_side_fragments_merged :
  (In ColumnExample.strip (GapDetector.verticalStrips ColumnExample.gapAnalysis)
   /\ 0.6 <= Strip.confidence ColumnExample.strip
   /\ LayoutDetector.detectLayoutWith defaultLayoutSettings
        [ColumnExample.leftFragment; ColumnExample.rightFragment]
        ColumnExample.pageRect ColumnExample.gapAnalysis (fun _ => [])
      = Returned [[ColumnExample.leftFragment; ColumnExample.rightFragment]])
  /\ ((exists s,
         In s (GapDetector.verticalStrips PosterExample.gapAnalysis)
         /\ Strip.left s == 280 /\ Strip.right s == 320
         /\ 0.9 <= Strip.confidence s)
      /\ LayoutDetector.detectLayout defaultLayoutSettings sqrtApprox noGridLines
           PosterExample.spans PosterExample.pageRect
         = Returned [[PosterExample.leftFragment; PosterExample.rightFragment;
                      PosterExample.lowerLeft; PosterExample.lowerRight]])
  /\ (In GutterPairExample.weakStrip
        (GapDetector.verticalStrips GutterPairExample.weakAnalysis)
      /\ 0.6 <= Strip.confidence GutterPairExample.weakStrip
      /\ LayoutDetector.detectLayoutWith defaultLayoutSettings
           [GutterPairExample.leftFragment; GutterPairExample.rightFragment]
           GutterPairExample.pageRect GutterPairExample.weakAnalysis (fun _ => [])
         = Returned [[GutterPairExample.leftFragment; GutterPairExample.rightFragment]]).
Proof.
  split; [|split].
  - split; [left; reflexivity|].
    split; [vm_compute; discriminate|].
    vm_compute. reflexivity.
  - split.
    + eexists. split; [vm_compute; right; left; reflexivity|].
      split; [vm_compute; reflexivity|]. split; [vm_compute; reflexivity|].
      vm_compute. discriminate.
    + vm_compute. reflexivity.
  - split; [left; reflexivity|].
    split; [vm_compute; discriminate|].
    vm_compute. reflexivity.
Qed.
